(* ===== verification/_CoqProject ===== *)
-Q . S2P
Prelude.v
GoStrings.v
Glob.v
Routes.v
Mux.v
MuxProps.v
MuxConc.v
MuxOrder.v
Url.v
Config.v
ConfigProps.v
ConfigClose.v
ConfigTypes.v
Util.v
Http.v
Logger.v
Writers.v
GoPath.v
Listing.v
Stream.v
PrefixWriter.v
PrefixWriterProps.v
FileServer.v
Assets.v
Handlers.v
HandlersProps.v
Autocert.v
ListingProps.v
Links.v
Remote.v
Factory.v
Readme.v
Docker.v
DockerEvents.v
Server.v
ServerProps.v
Registrations.v
AutocertProps.v
Continuity.v
Balance.v
System.v
SystemProps.v
SystemOrder.v
Startup.v
EndToEnd.v
Answers.v
Flags.v
Main.v
Process.v
