(* ===== verification/Prelude.v ===== *)
(** * razvhost: a model of the virtual host server and its verification

    razvhost is an HTTP server for many host names.  Its configuration maps routes (a
    host name, optionally with a path and wildcards) to targets: directories, backends
    to proxy, redirections, S3 buckets, SFTP servers, PHP, Go/WebAssembly programs and
    followed log files.  The configuration comes from a watched file and from the
    environment of Docker containers.  This library models the Go code under
    src/pkg/ and src/cmd/ as executable definitions and proves what makes it correct.

    ** The program and its model

    A request goes through the parts in this order (file, definition):

    - [Server.listeners] and [Server.exchange] say what is served where: the sites, or with
      TLS, on port 80, the handler of the certificate manager ([Autocert], which models the
      vendored golang.org/x/crypto/acme/autocert); [Server.handshake] is a TLS handshake;
    - src/pkg/logger/logger.go ([Logger.LoggerMiddleware]) wraps the response writer and
      the body with the counters of src/pkg/util and logs what went through;
    - src/pkg/server/server.go ([Server.ServeHTTP]) looks the route up, updates the
      headers ([updateHeaders]) and calls the handler; [Debug] takes the host name from
      the path; [ProcessEvent], [Listen], [NewServer] keep the routes up to date;
    - src/pkg/mux/mux.go (module [Mux.Mux]: [Add], [Remove], [Handler], ...) finds the
      best route and rotates over its handlers;
    - src/pkg/handler ([Handlers], [Remote], [Factory.Handler]) makes the handler of a
      target; most handlers run behind [handlePathCombinations], which strips the route's
      path from the request and moves the links of the response under it;
    - src/pkg/stream ([Stream]: [Read], [updateLocation], [tokenToString];
      [PrefixWriter]: [ppw_WriteHeader], [ppw_Write], [ppw_Close], [pstep]) is that
      rewriting: a tokenizer read through a pipe by a goroutine of its own;
    - src/pkg/fileserver ([FileServer]: [resolve], [Directory_Open], [handleDir],
      [FileServer]) serves files and listings, whose page is [Listing.fsTemplate];
    - src/assets/assets.go ([Assets.assets_Open]) holds the embedded files.

    Routes come from src/pkg/config: [Config] (lines, templates, differences, and the watcher
    with its goroutines as the step relation [wstep]), [ConfigClose] ([Config.Close]),
    [Docker] (the events of containers) and [DockerEvents] (their stream, as the step relation
    [kstep]).  [System] puts the watcher, the stream of container events, the two [Listen]
    goroutines of the server and the requests together: [ystep] are the steps of the program,
    in any order and with any content of the file, [yworld] those of its surroundings, and
    [y_done] records the events in the order they were processed.  [Registrations] is the
    specification of what a server routes after any events (each brings an entry up or takes
    one of its registrations away).  [Startup] shows that the system is what
    [Server.NewServer] starts.
    src/cmd/razvhost/main.go is [Flags] (the command line), [Main] (the server it configures)
    and [Process] (serving, the signal, shutting down, the exit status).

    ** Conventions

    A Go string is a string of bytes.  A result with an error is a [result]; a call that
    may panic is an [outcome]; machine integers are kept in range by [u32_add], [i64_add]
    and the like, where the code can overflow.  Pointers shared between structures are
    indices in a heap ([Mux]).  A handler is a program ([Http.prog]): a tree of calls of
    the response writer, run on net/http's response object by [exec] and on a wrapping
    writer by [wrap].  Goroutines are step relations whose steps are the atomic actions of
    the code: [Config.wstep] (file events, the goroutines they start, timers, the mutex, the channel of
    capacity one), [DockerEvents.kstep] (the channels and the goroutine of [convertEvents]),
    [PrefixWriter.pstep] (the handler, its deferred [Close] and the copying goroutine, on a
    pipe whose writes wait for a reader), [MuxConc.cstep] (callers
    of the multiplexer and its lock), [Process.prstep] (the goroutines of main) and
    [System.ystep] (all that keeps the routes up to date).

    The standard library is modelled as far as it is used: [GoStrings] (strings, UTF-8),
    [Url] (net/url), [Glob] (filepath.Match), [GoPath] (path, filepath), [Http] (headers,
    [http.Error], the response object), [Autocert] (net's [SplitHostPort]), [Listing] (the escapers of html/template) and [Flags]
    (flag).  Third-party code and the operating system are
    arguments: [Handlers.Deps], [FileServer.OS], the tokenizer and the content sniffer of
    [PrefixWriter], the S3 and SFTP clients of [Remote], the Docker client of [Docker], the
    template engine of [Config], the certificate authority of [Autocert].

    ** Interfaces

    [Routes] states what a multiplexer promises: [Router] (operations on an abstract table
    of routes) and [RouterLaws]; [Mux.Mux_RouterLaws] discharges them and [ServerProps] is
    proved against them, as are [Registrations], [Continuity], [SystemProps], [EndToEnd] and
    [Answers].
    [MuxOrder] gives a second, simpler router, an ordered list of rows, and proves that the
    multiplexer answers like it; [SystemOrder] does the same for the whole server.  [Http.Writer] is the interface of a wrapping response writer,
    implemented by the logger's and by the prefix writer.

    ** What is proved

    - [MuxProps], [MuxConc], [MuxOrder]: every history of calls refines the abstract table,
      and answers exactly like the ordered list, also for concurrent callers; a lookup
      finds a best route and finds one when there is one; load balancing is fair; wildcard
      routes mean what globs mean.
    - [ConfigProps], [ConfigTypes], [ConfigClose]: lines and files are read as documented,
      and only give well-formed entries; differences are exact; the watcher loses and
      invents nothing, and converges; when closing it is safe.
    - [Docker], [DockerEvents]: the events of containers, and that their stream loses and
      reorders nothing and never blocks.
    - [SystemProps]: at any time a request is served by what is up by the events processed so
      far; the whole comes to rest, and at rest every batch and every container event has been
      processed and the routes are what is up by them; when the batches arrived in order and
      the sources are clean (nothing repeated, nothing that cannot be served, disjoint keys),
      these are the entries of the version committed last and of the containers.
      [SystemOrder]: it cannot be told from a server on the ordered list.
      [Startup]: start-up goes on without the sources that fail, and logs their errors.
    - [Registrations]: after any events a route is there exactly when it is up, with as many
      handlers as it has registrations.
    - [ServerProps]: the server routes exactly the last configuration, with two sources
      independently; containers come, and go without a trace if the inspection of the stopped
      container still reports its bindings; a request reaches a handler made for the best
      entry; the headers handed on; the debug listener.
    - [Continuity]: no request that two versions cover with entries that can be served fails
      while an update from one to the other is processed; a route left behind by batches out
      of order is not taken away by later versions (unless one repeats the entry).
    - [Balance]: consecutive requests reach each registered target of a route as often as it is
      registered, after any history of events and requests.
    - [AutocertProps]: where the certificates handed out come from (never from a new request
      to the authority), the answers of port 80, and that the redirect to https addresses the
      same resource.
    - [EndToEnd], [Answers]: in every state the running server reaches, a request goes through
      listener, logging, dispatch and proxy to its backend, and the answer back; or is
      redirected, or answered from a directory.  Links of proxied pages ([Links]) and of
      listings, moved and requested again, reach what they name.
    - [PrefixWriterProps], [Stream]: rewriting does not depend on buffers or schedules, ends
      unless a write to the connection failed and the handler goes on writing, renders
      faithfully, and moved links lead back to their targets.
    - [FileServer], [Listing], [ListingProps]: resolution of names and links, with every
      error, confinement to the root, the order of listings, and escaping.
    - [HandlersProps], [Remote], [Factory], [Logger], [Util]: the handlers, the file systems,
      the choice of handler, transparency of logging, byte counts.
    - [Readme]: the example of README.md, as it is read, served and dispatched.
    - [Flags], [Main], [Process]: the command line, its meaning for headers, and how the
      process ends.

    Theorems also pin down where the code departs from what it means to do: [ContainsHost]
    never finds a host, so that no certificate is ever obtained, of a wildcard and a shorter
    plain route the one added first wins ([Readme.order_of_lines_decides]), removed routes stay in the slice of entries, batches can be
    delivered out of order, repeated lines leave routes behind, a signal can end the process
    before its requests are answered ([Process]), the embedded page of a WebAssembly route
    is opened under a wrong name ([HandlersProps]), connections through the proxy cannot
    switch protocols ([Writers]), and others.

    ** Fuel

    Fuel stands for loops that do not recurse on a subterm, and is always sufficient:
    [Glob] proves it ([Match_fuel_enough], ...), [Util.iec_loop] is bounded by the seven
    units of an int64, the decoding of runes by the length of the string, and
    [FileServer.resolve_loop] counts the code's own limit of sixteen links.

    ** Not modelled

    The accepting of connections and the cryptography of TLS are left to the libraries.  Of
    the certificate manager the exchange with the authority is a parameter, and renewals and
    the storing of certificates are left out: without a certificate none of them begins.
    What happens on a hijacked connection is left out; [Writers] models who can hijack one,
    and no handler of the program does.
    [HTMLStreamer.Close] and the closing of a request's body have no effect the model can
    see: the pipe is closed by the writer and the body by net/http.  The contents of the
    embedded files and the bodies of vendored libraries are arguments.

    ** Conditions

    Some theorems need more than a reachable state.  That a server at rest routes the last
    version of the configuration needs batches that arrived in the order they were computed:
    two senders can overtake each other ([ConfigProps.delivery_can_reorder],
    [Continuity.reordered_update_leaves_route]); it needs versions without repeated entries
    ([ServerProps.repeated_entry_stays_routed]) and with targets that can be served, and two
    sources with different keys.  The theorems on requests assume [small_table]: no route has
    2^32 handlers, the range of the counter of the rotation. *)

From Stdlib Require Export Ascii.
From stdpp Require Export base list strings gmap option sorting.
From Stdlib Require Export ZArith Lia.

#[export] Set Default Goal Selector "!".
#[export] Set Warnings "-clear-no-such-hyp".

(** ** Scope and basic data *)

Declare Scope go_scope.
Delimit Scope go_scope with go.

(** A Go function that returns [(value, error)]: the value when the error is
    nil, the error's message otherwise. *)
Inductive result (A : Type) : Type :=
  | Ok (a : A)
  | Err (msg : string).
Arguments Ok {A} a.
Arguments Err {A} msg.

Definition result_bind {A B} (r : result A) (k : A -> result B) : result B :=
  match r with
  | Ok a => k a
  | Err e => Err e
  end.

Notation "'try' x <- c ;; k" := (result_bind c (fun x => k))
  (at level 60, c at next level, x pattern, right associativity) : go_scope.

Definition is_ok {A} (r : result A) : bool :=
  match r with Ok _ => true | Err _ => false end.

#[export] Instance result_eq_dec {A} `{EqDecision A} : EqDecision (result A).
Proof. solve_decision. Defined.

(** A Go expression that may panic at run time (index out of range, nil
    dereference, failed type assertion). *)
Inductive outcome (A : Type) : Type :=
  | Return (a : A)
  | Panic.
Arguments Return {A} a.
Arguments Panic {A}.

Definition outcome_bind {A B} (c : outcome A) (k : A -> outcome B) : outcome B :=
  match c with
  | Return a => k a
  | Panic => Panic
  end.

Notation "'let!' x := c 'in' k" := (outcome_bind c (fun x => k))
  (at level 60, c at next level, x pattern, right associativity) : go_scope.

(** Indexing [l[i]] of a Go slice. *)
Definition slice_get {A} (l : list A) (i : nat) : outcome A :=
  match l !! i with
  | Some x => Return x
  | None => Panic
  end.

(** ** Machine integers *)

(** [uint32] arithmetic wraps modulo 2^32. *)
Definition u32_wrap (z : Z) : Z := (z mod 2 ^ 32)%Z.

Definition u32_add (x y : Z) : Z := u32_wrap (x + y).

Definition u32_range (z : Z) : Prop := (0 <= z < 2 ^ 32)%Z.

(** [int64] arithmetic wraps into [-2^63, 2^63). *)
Definition i64_wrap (z : Z) : Z := ((z + 2 ^ 63) mod 2 ^ 64 - 2 ^ 63)%Z.

Definition i64_add (x y : Z) : Z := i64_wrap (x + y).

Definition i64_range (z : Z) : Prop := (- 2 ^ 63 <= z < 2 ^ 63)%Z.

Create HintDb go.
Create Rewrite HintDb go_rw.

Lemma u32_wrap_range z : u32_range (u32_wrap z).
Proof. apply Z.mod_pos_bound. lia. Qed.

Lemma u32_wrap_small z : u32_range z -> u32_wrap z = z.
Proof. apply Z.mod_small. Qed.

Lemma u32_wrap_add_l a b : u32_wrap (u32_wrap a + b) = u32_wrap (a + b).
Proof. unfold u32_wrap. by rewrite Zplus_mod_idemp_l. Qed.

Lemma i64_wrap_range z : i64_range (i64_wrap z).
Proof.
  unfold i64_range, i64_wrap.
  pose proof (Z.mod_pos_bound (z + 2 ^ 63) (2 ^ 64) ltac:(lia)). lia.
Qed.

Lemma i64_wrap_add_l a b : i64_wrap (i64_wrap a + b) = i64_wrap (a + b).
Proof.
  unfold i64_wrap.
  replace ((a + 2 ^ 63) mod 2 ^ 64 - 2 ^ 63 + b + 2 ^ 63)%Z with ((a + 2 ^ 63) mod 2 ^ 64 + b)%Z by lia.
  rewrite Zplus_mod_idemp_l. do 2 f_equal. lia.
Qed.

Lemma i64_wrap_small z : i64_range z -> i64_wrap z = z.
Proof.
  unfold i64_range, i64_wrap. intros H.
  rewrite Z.mod_small; lia.
Qed.

#[export] Hint Resolve u32_wrap_range i64_wrap_range : go.
#[export] Hint Rewrite u32_wrap_add_l i64_wrap_add_l : go_rw.

(** ** Automation *)

(** Split every boolean conjunction of the context and turn the standard
    tests into propositions. *)
Ltac bool_prop :=
  repeat match goal with
  | H : (_ && _)%bool = true |- _ => apply andb_true_iff in H as [? ?]
  | H : (_ || _)%bool = false |- _ => apply orb_false_iff in H as [? ?]
  | H : negb _ = true |- _ => apply negb_true_iff in H
  | H : negb _ = false |- _ => apply negb_false_iff in H
  | H : String.eqb _ _ = true |- _ => apply String.eqb_eq in H
  | H : String.eqb _ _ = false |- _ => apply String.eqb_neq in H
  | H : Ascii.eqb _ _ = true |- _ => apply Ascii.eqb_eq in H
  | H : Ascii.eqb _ _ = false |- _ => apply Ascii.eqb_neq in H
  | H : Nat.ltb _ _ = true |- _ => apply Nat.ltb_lt in H
  | H : Nat.ltb _ _ = false |- _ => apply Nat.ltb_ge in H
  | H : Nat.leb _ _ = true |- _ => apply Nat.leb_le in H
  | H : Nat.leb _ _ = false |- _ => apply Nat.leb_gt in H
  | H : Nat.eqb _ _ = true |- _ => apply Nat.eqb_eq in H
  | H : Nat.eqb _ _ = false |- _ => apply Nat.eqb_neq in H
  end.

(** Case analysis on the scrutinee of the outermost [match] or [if] of the
    goal, keeping its equation. *)
Ltac case_scrut :=
  match goal with
  | |- context [match ?x with _ => _ end] => destruct x eqn:?
  end.

(** ** Lists *)

(** Insertion before position [i], which is Go's
    [append(l[:i+1], l[i:]...); l[i] = x]. *)
Definition insert_at {A} (i : nat) (x : A) (l : list A) : list A :=
  take i l ++ x :: drop i l.

(** Removal of position [i], which is Go's [append(l[:i], l[i+1:]...)]. *)
Definition remove_at {A} (i : nat) (l : list A) : list A :=
  take i l ++ drop (S i) l.

Section Lists.
Context {A : Type}.
Implicit Types (x y : A) (l : list A).

Lemma insert_at_length l x : insert_at (length l) x l = l ++ [x].
Proof. unfold insert_at. by rewrite firstn_all, drop_all. Qed.

Lemma insert_at_Permutation i x l : insert_at i x l ≡ₚ x :: l.
Proof.
  unfold insert_at. rewrite <- Permutation_middle. by rewrite take_drop.
Qed.

Lemma elem_of_insert_at i x y l : y ∈ insert_at i x l <-> y = x \/ y ∈ l.
Proof. rewrite insert_at_Permutation. by rewrite elem_of_cons. Qed.

Lemma NoDup_insert_at i x l : x ∉ l -> NoDup l -> NoDup (insert_at i x l).
Proof. intros ??. rewrite insert_at_Permutation. by constructor. Qed.

Lemma remove_at_app l1 x l2 : remove_at (length l1) (l1 ++ x :: l2) = l1 ++ l2.
Proof.
  unfold remove_at. rewrite take_app_length.
  replace (S (length l1)) with (length l1 + 1) by lia.
  by rewrite drop_app_add.
Qed.

Lemma StronglySorted_app_inv (R : relation A) l1 l2 :
  StronglySorted R (l1 ++ l2) ->
  StronglySorted R l1 /\ StronglySorted R l2 /\
  (forall x y, x ∈ l1 -> y ∈ l2 -> R x y).
Proof.
  induction l1 as [|a l1 IH]; simpl; intros H.
  - repeat split; [constructor | done | set_solver].
  - inversion_clear H as [|?? Hs Hf]. destruct (IH Hs) as (H1 & H2 & H3).
    rewrite Forall_app in Hf. destruct Hf as [Hf1 Hf2].
    repeat split; [by constructor | done |].
    intros x y [->|Hx]%elem_of_cons Hy; [|by apply H3].
    rewrite Forall_forall in Hf2. by apply Hf2.
Qed.

Lemma StronglySorted_app_intro (R : relation A) l1 l2 :
  StronglySorted R l1 -> StronglySorted R l2 ->
  (forall x y, x ∈ l1 -> y ∈ l2 -> R x y) ->
  StronglySorted R (l1 ++ l2).
Proof.
  intros H1 H2 H. induction l1 as [|a l1 IH]; [done|]. simpl.
  inversion_clear H1. constructor.
  - apply IH; [done|]. intros; apply H; set_solver.
  - rewrite Forall_app, !Forall_forall in *. split; [done|].
    intros; apply H; set_solver.
Qed.
End Lists.

(** ** Measures *)

(** Lexicographic order on pairs, for the termination of systems of several parts. *)
Definition lex {A B} (RA : relation A) (RB : relation B) : relation (A * B) :=
  fun a b => RA a.1 b.1 \/ (a.1 = b.1 /\ RB a.2 b.2).

Lemma lex_wf {A B} (RA : relation A) (RB : relation B) :
  well_founded RA -> well_founded RB -> well_founded (lex RA RB).
Proof.
  intros HA HB [a b]. revert b. induction (HA a) as [a _ IHa].
  intros b. induction (HB b) as [b _ IHb]. constructor.
  intros [a' b'] [Ha|[Hab Hb]]; cbn [fst snd] in *; [by apply IHa|]. subst. by apply IHb.
Qed.

(** A set has no more elements than a list of them. *)
Lemma size_list_to_set_le `{Countable A} (l : list A) : size (list_to_set l : gset A) <= length l.
Proof.
  induction l as [|x l IH]; [done|]. cbn [list_to_set length]. rewrite size_union_alt, size_singleton.
  pose proof (subseteq_size ((list_to_set l : gset A) ∖ {[x]}) (list_to_set l)) as Hs.
  specialize (Hs ltac:(set_solver)). lia.
Qed.
