(* ===== verification/GoStrings.v ===== *)
(** The part of Go's [strings] and [unicode/utf8] packages the program uses.

    A Go string is a sequence of bytes, here a [string] of 8-bit [ascii]
    characters.  The functions keep Go's names and argument order.  The program
    only ever splits at a non-empty separator, so [SplitN] does not model the
    "explode" case. *)

From S2P Require Import Prelude.

(** ** Slicing and concatenation *)

Fixpoint str_take (n : nat) (s : string) : string :=
  match n, s with
  | S n, String c s => String c (str_take n s)
  | _, _ => EmptyString
  end.

Fixpoint str_drop (n : nat) (s : string) : string :=
  match n, s with
  | 0, _ => s
  | S n, String _ s => str_drop n s
  | S _, EmptyString => EmptyString
  end.

Fixpoint str_concat (l : list string) : string :=
  match l with
  | [] => EmptyString
  | s :: l => s +:+ str_concat l
  end.

Definition slash : string := "/".

Definition str1 (c : ascii) : string := String c EmptyString.

Definition quote : string := str1 (ascii_of_nat 34).

(** ** Searching *)

(** [strings.HasPrefix(s, prefix)] *)
Fixpoint HasPrefix (s prefix : string) : bool :=
  match prefix, s with
  | EmptyString, _ => true
  | String _ _, EmptyString => false
  | String p prefix, String c s => Ascii.eqb c p && HasPrefix s prefix
  end.

(** [strings.HasSuffix(s, suffix)] *)
Definition HasSuffix (s suffix : string) : bool :=
  (String.length suffix <=? String.length s)%nat &&
  String.eqb (str_drop (String.length s - String.length suffix) s) suffix.

(** [strings.TrimPrefix(s, prefix)] *)
Definition TrimPrefix (s prefix : string) : string :=
  if HasPrefix s prefix then str_drop (String.length prefix) s else s.

(** [strings.Index(s, substr)]; Go's -1 is [None]. *)
Fixpoint Index (s substr : string) : option nat :=
  if HasPrefix s substr then Some 0
  else match s with
       | EmptyString => None
       | String _ s => S <$> Index s substr
       end.

(** [strings.Contains(s, substr)] *)
Definition Contains (s substr : string) : bool :=
  match Index s substr with Some _ => true | None => false end.

(** [strings.IndexByte(s, c)] *)
Fixpoint IndexByte (s : string) (c : ascii) : option nat :=
  match s with
  | EmptyString => None
  | String d s => if Ascii.eqb d c then Some 0 else S <$> IndexByte s c
  end.

Fixpoint str_elem (c : ascii) (s : string) : bool :=
  match s with
  | EmptyString => false
  | String d s => Ascii.eqb d c || str_elem c s
  end.

(** [strings.ContainsAny(s, chars)] for ASCII [chars]. *)
Fixpoint ContainsAny (s chars : string) : bool :=
  match s with
  | EmptyString => false
  | String c s => str_elem c chars || ContainsAny s chars
  end.

(** [strings.Count(s, string(c))] for one byte. *)
Fixpoint CountByte (s : string) (c : ascii) : nat :=
  match s with
  | EmptyString => 0
  | String d s => (if Ascii.eqb d c then 1 else 0) + CountByte s c
  end.

(** [strings.LastIndex(s, string(c))] for one byte. *)
Fixpoint LastIndexByte (s : string) (c : ascii) : option nat :=
  match s with
  | EmptyString => None
  | String d s =>
      match LastIndexByte s c with
      | Some i => Some (S i)
      | None => if Ascii.eqb d c then Some 0 else None
      end
  end.

(** [strings.Cut(s, sep)] for one byte: before, after, found. *)
Definition Cut (s : string) (c : ascii) : string * string * bool :=
  match IndexByte s c with
  | Some i => (str_take i s, str_drop (S i) s, true)
  | None => (s, EmptyString, false)
  end.

(** ** Splitting and joining *)

(** Go's [genSplit] with at most [cuts] cuts at the non-empty [sep]. *)
Fixpoint split_cuts (cuts : nat) (s sep : string) : list string :=
  match cuts with
  | 0 => [s]
  | S cuts =>
      match Index s sep with
      | None => [s]
      | Some m => str_take m s ::
                  split_cuts cuts (str_drop (m + String.length sep) s) sep
      end
  end.

(** [strings.SplitN(s, sep, n)] for [n >= 1]. *)
Definition SplitN (s sep : string) (n : nat) : list string := split_cuts (n - 1) s sep.

(** [strings.Split(s, sep)]: a string of length [n] has at most [n]
    occurrences of a non-empty separator. *)
Definition Split (s sep : string) : list string := split_cuts (String.length s) s sep.

(** The same split at one byte, by recursion on the string. *)
Fixpoint split_byte (s : string) (c : ascii) : list string :=
  match s with
  | EmptyString => [EmptyString]
  | String d s =>
      if Ascii.eqb d c then EmptyString :: split_byte s c
      else match split_byte s c with
           | w :: l => String d w :: l
           | [] => [str1 d]
           end
  end.

(** [strings.Join(elems, sep)] *)
Fixpoint Join (elems : list string) (sep : string) : string :=
  match elems with
  | [] => EmptyString
  | [s] => s
  | s :: l => s +:+ sep +:+ Join l sep
  end.

(** ** Runes *)

Definition byte_val (c : ascii) : Z := Z.of_nat (nat_of_ascii c).

Definition in_range (lo hi v : Z) : bool := ((lo <=? v) && (v <=? hi))%Z.

Definition RuneError : Z := 65533.

Definition cont_bits (c : ascii) : Z := (byte_val c - 128)%Z.

(** Range accepted for the second byte of a sequence led by [b0]
    (the [acceptRanges] of unicode/utf8). *)
Definition second_lo (b0 : Z) : Z :=
  if (b0 =? 224)%Z then 160%Z else if (b0 =? 240)%Z then 144%Z else 128%Z.

Definition second_hi (b0 : Z) : Z :=
  if (b0 =? 237)%Z then 159%Z else if (b0 =? 244)%Z then 143%Z else 191%Z.

(** [utf8.DecodeRuneInString(s)]: the rune and its width; width 0 for the empty
    string and width 1 for an invalid sequence. *)
Definition DecodeRune (s : string) : Z * nat :=
  match s with
  | EmptyString => (RuneError, 0)
  | String c0 s =>
      let b0 := byte_val c0 in
      if (b0 <? 128)%Z then (b0, 1)
      else if negb (in_range 194 244 b0) then (RuneError, 1)
      else match s with
      | EmptyString => (RuneError, 1)
      | String c1 s =>
          if negb (in_range (second_lo b0) (second_hi b0) (byte_val c1)) then (RuneError, 1)
          else if (b0 <? 224)%Z then (((b0 - 192) * 64 + cont_bits c1)%Z, 2)
          else match s with
          | EmptyString => (RuneError, 1)
          | String c2 s =>
              if negb (in_range 128 191 (byte_val c2)) then (RuneError, 1)
              else if (b0 <? 240)%Z
              then (((b0 - 224) * 4096 + cont_bits c1 * 64 + cont_bits c2)%Z, 3)
              else match s with
              | EmptyString => (RuneError, 1)
              | String c3 _ =>
                  if negb (in_range 128 191 (byte_val c3)) then (RuneError, 1)
                  else (((b0 - 240) * 262144 + cont_bits c1 * 4096
                         + cont_bits c2 * 64 + cont_bits c3)%Z, 4)
              end
          end
      end
  end.

(** The runes of a string with the bytes each was decoded from. *)
Fixpoint runes_fuel (fuel : nat) (s : string) : list (Z * string) :=
  match fuel, s with
  | S fuel, String _ _ =>
      let '(r, n) := DecodeRune s in
      (r, str_take n s) :: runes_fuel fuel (str_drop n s)
  | _, _ => []
  end.

Definition runes (s : string) : list (Z * string) := runes_fuel (String.length s) s.

(** [unicode.IsSpace] *)
Definition IsSpace (r : Z) : bool :=
  in_range 9 13 r || (r =? 32)%Z || (r =? 133)%Z || (r =? 160)%Z || (r =? 5760)%Z
  || in_range 8192 8202 r || (r =? 8232)%Z || (r =? 8233)%Z || (r =? 8239)%Z
  || (r =? 8287)%Z || (r =? 12288)%Z.

Definition rune_is_space (p : Z * string) : bool := IsSpace p.1.

Fixpoint drop_spaces (l : list (Z * string)) : list (Z * string) :=
  match l with
  | p :: l' => if rune_is_space p then drop_spaces l' else l
  | [] => []
  end.

(** [strings.TrimSpace(s)] *)
Definition TrimSpace (s : string) : string :=
  str_concat (snd <$> reverse (drop_spaces (reverse (drop_spaces (runes s))))).

(** The words of a rune sequence; [cur] is the word being read, reversed. *)
Fixpoint words (cur : list string) (l : list (Z * string)) : list string :=
  match l with
  | [] => match cur with [] => [] | _ => [str_concat (reverse cur)] end
  | p :: l =>
      if rune_is_space p
      then match cur with [] => words [] l | _ => str_concat (reverse cur) :: words [] l end
      else words (p.2 :: cur) l
  end.

(** [strings.Fields(s)] *)
Definition Fields (s : string) : list string := words [] (runes s).

(** ** Lemmas *)

Section Append.
Implicit Types (s t u : string) (c : ascii).

Lemma sapp_cons c s t : String c s +:+ t = String c (s +:+ t).
Proof. reflexivity. Qed.

Lemma sapp_nil_l s : EmptyString +:+ s = s.
Proof. reflexivity. Qed.

Lemma sapp_nil_r s : s +:+ EmptyString = s.
Proof. induction s as [|c s IH]; [done|]. by rewrite sapp_cons, IH. Qed.

Lemma sapp_assoc s t u : s +:+ (t +:+ u) = (s +:+ t) +:+ u.
Proof. induction s as [|c s IH]; [done|]. by rewrite !sapp_cons, IH. Qed.

Lemma slength_app s t : String.length (s +:+ t) = String.length s + String.length t.
Proof. induction s as [|c s IH]; [done|]. rewrite sapp_cons. simpl. by rewrite IH. Qed.

Lemma stake_drop_app n s : str_take n s +:+ str_drop n s = s.
Proof.
  revert s. induction n as [|n IH]; intros [|c s]; try done.
  simpl. by rewrite sapp_cons, IH.
Qed.

Lemma sdrop_app_length s t : str_drop (String.length s) (s +:+ t) = t.
Proof. induction s as [|c s IH]; [done|]. by rewrite sapp_cons. Qed.

Lemma stake_app_length s t : str_take (String.length s) (s +:+ t) = s.
Proof. induction s as [|c s IH]; [done|]. rewrite sapp_cons. simpl. by rewrite IH. Qed.

Lemma slength_drop n s : String.length (str_drop n s) = String.length s - n.
Proof.
  revert s. induction n as [|n IH]; intros [|c s]; simpl; done.
Qed.

Lemma slength_take n s : String.length (str_take n s) = min n (String.length s).
Proof.
  revert s. induction n as [|n IH]; intros [|c s]; simpl; try done. f_equal. apply IH.
Qed.

Lemma sapp_inj_l s t u : s +:+ t = s +:+ u -> t = u.
Proof. induction s as [|c s IH]; [done|]. rewrite !sapp_cons. intros [=]. auto. Qed.

Lemma sapp_eq_nil s t : s +:+ t = EmptyString -> s = EmptyString /\ t = EmptyString.
Proof. by destruct s. Qed.

Lemma str_drop_0 s : str_drop 0 s = s.
Proof. by destruct s. Qed.
End Append.

#[export] Hint Rewrite sapp_nil_l sapp_nil_r slength_app slength_drop slength_take
  sdrop_app_length stake_app_length str_drop_0 : go_rw.

Section Prefix.
Implicit Types (s t p : string).

Lemma HasPrefix_spec s p : HasPrefix s p = true <-> exists t, s = p +:+ t.
Proof.
  revert s. induction p as [|c p IH]; intros s; simpl.
  - split; [by exists s | by destruct s].
  - destruct s as [|d s]; simpl.
    + split; [done|]. intros [t [=]].
    + rewrite andb_true_iff, Ascii.eqb_eq, IH. split.
      * intros [-> [t ->]]. by exists t.
      * intros [t Ht]. rewrite sapp_cons in Ht. injection Ht as -> ->. eauto.
Qed.

Lemma HasPrefix_app p t : HasPrefix (p +:+ t) p = true.
Proof. apply HasPrefix_spec. eauto. Qed.

Lemma HasPrefix_refl s : HasPrefix s s = true.
Proof. rewrite <- (sapp_nil_r s) at 1. apply HasPrefix_app. Qed.

Lemma HasPrefix_nil s : HasPrefix s EmptyString = true.
Proof. by destruct s. Qed.

Lemma HasPrefix_length s p :
  HasPrefix s p = true -> String.length p <= String.length s.
Proof. intros [t ->]%HasPrefix_spec. rewrite slength_app. lia. Qed.

Lemma TrimPrefix_app p t : TrimPrefix (p +:+ t) p = t.
Proof. unfold TrimPrefix. by rewrite HasPrefix_app, sdrop_app_length. Qed.

Lemma TrimPrefix_none s p : HasPrefix s p = false -> TrimPrefix s p = s.
Proof. unfold TrimPrefix. by intros ->. Qed.

Lemma TrimPrefix_nil s : TrimPrefix s EmptyString = s.
Proof. unfold TrimPrefix. by rewrite HasPrefix_nil, str_drop_0. Qed.

(** Trimming either removes exactly the prefix or does nothing. *)
Lemma TrimPrefix_cases s p :
  (s = p +:+ TrimPrefix s p) \/ (HasPrefix s p = false /\ TrimPrefix s p = s).
Proof.
  destruct (HasPrefix s p) eqn:E.
  - left. apply HasPrefix_spec in E as [t ->]. by rewrite TrimPrefix_app.
  - right. by rewrite TrimPrefix_none.
Qed.

Lemma HasSuffix_spec s p : HasSuffix s p = true <-> exists t, s = t +:+ p.
Proof.
  unfold HasSuffix. rewrite andb_true_iff, Nat.leb_le, String.eqb_eq. split.
  - intros [Hl He]. exists (str_take (String.length s - String.length p) s).
    rewrite <- He at 2. by rewrite stake_drop_app.
  - intros [t ->]. rewrite slength_app. split; [lia|].
    replace (String.length t + String.length p - String.length p)
      with (String.length t) by lia.
    apply sdrop_app_length.
Qed.
End Prefix.

#[export] Hint Resolve HasPrefix_app HasPrefix_refl HasPrefix_nil : go.
#[export] Hint Rewrite HasPrefix_app HasPrefix_refl HasPrefix_nil TrimPrefix_app
  TrimPrefix_nil : go_rw.

Section Searching.
Implicit Types (s t p sep : string) (c d : ascii).

Lemma str_elem_app c s t : str_elem c (s +:+ t) = str_elem c s || str_elem c t.
Proof.
  induction s as [|d s IH]; [done|]. rewrite sapp_cons. simpl. by rewrite IH, orb_assoc.
Qed.

Lemma Index_Some s p i :
  Index s p = Some i -> s = str_take i s +:+ p +:+ str_drop (i + String.length p) s.
Proof.
  revert i. induction s as [|c s IH]; intros i; cbn [Index].
  - destruct (HasPrefix _ _) eqn:E; [|done]. intros [= <-]. simpl.
    apply HasPrefix_spec in E as [t Ht]. by destruct p.
  - destruct (HasPrefix _ _) eqn:E.
    + intros [= <-]. apply HasPrefix_spec in E as [t ->]. simpl.
      by rewrite sdrop_app_length, sapp_nil_l.
    + destruct (Index s p) as [j|] eqn:Ej; intros [= <-]. simpl.
      rewrite sapp_cons. f_equal. by apply IH.
Qed.

Lemma Index_None s p : Index s p = None -> HasPrefix s p = false.
Proof. destruct s; cbn [Index]; by destruct (HasPrefix _ _). Qed.

Lemma Index_byte s c : Index s (str1 c) = IndexByte s c.
Proof.
  induction s as [|d s IH]; [done|]. unfold str1 in *. simpl. rewrite HasPrefix_nil.
  rewrite andb_true_r. destruct (Ascii.eqb d c); [done|]. by rewrite IH.
Qed.

Lemma Contains_false_length s p :
  Contains s p = false -> p <> EmptyString.
Proof.
  unfold Contains. intros H ->. destruct s; done.
Qed.

Lemma IndexByte_None s c : IndexByte s c = None <-> str_elem c s = false.
Proof.
  induction s as [|d s IH]; simpl; [done|].
  destruct (Ascii.eqb d c); simpl; [done|]. rewrite <- IH.
  by destruct (IndexByte s c).
Qed.

(** The first occurrence splits the string around the byte. *)
Lemma IndexByte_Some s c i :
  IndexByte s c = Some i ->
  s = str_take i s +:+ String c (str_drop (S i) s) /\
  str_elem c (str_take i s) = false.
Proof.
  revert i. induction s as [|d s IH]; intros i; [done|]. simpl.
  destruct (Ascii.eqb d c) eqn:E.
  - intros [= <-]. bool_prop. subst. by rewrite str_drop_0.
  - destruct (IndexByte s c) as [j|]; intros [= <-].
    destruct (IH j eq_refl) as [H1 H2]. cbn [str_take str_elem]. rewrite E.
    split; [|done]. rewrite sapp_cons. f_equal. done.
Qed.
End Searching.

Section Splitting.
Implicit Types (s t sep w : string) (c : ascii).

Lemma Join_cons s l sep : l <> [] -> Join (s :: l) sep = s +:+ sep +:+ Join l sep.
Proof. by destruct l. Qed.

Lemma split_cuts_not_nil n s sep : split_cuts n s sep <> [].
Proof. destruct n; simpl; [done|]. by destruct (Index s sep). Qed.

(** Joining what a split produced with the same separator gives the string
    back, whatever the limit on the number of cuts. *)
Lemma Join_split_cuts n s sep : Join (split_cuts n s sep) sep = s.
Proof.
  revert s. induction n as [|n IH]; intros s; [done|]. simpl.
  destruct (Index s sep) as [m|] eqn:E; [|done].
  rewrite Join_cons by apply split_cuts_not_nil. rewrite IH.
  symmetry. by apply Index_Some.
Qed.

Lemma Join_Split s sep : Join (Split s sep) sep = s.
Proof. apply Join_split_cuts. Qed.

Lemma split_byte_not_nil s c : split_byte s c <> [].
Proof.
  destruct s as [|d s]; simpl; [done|].
  destruct (Ascii.eqb d c); [done|]. by destruct (split_byte s c).
Qed.

Lemma split_byte_none s c : str_elem c s = false -> split_byte s c = [s].
Proof.
  induction s as [|d s IH]; simpl; [done|]. intros H. bool_prop.
  destruct (Ascii.eqb d c) eqn:E; [bool_prop; congruence|]. by rewrite IH.
Qed.

Lemma split_byte_app w c t :
  str_elem c w = false -> split_byte (w +:+ String c t) c = w :: split_byte t c.
Proof.
  induction w as [|d w IH]; intros H.
  - rewrite sapp_nil_l. simpl. by rewrite Ascii.eqb_refl.
  - simpl in H. rewrite sapp_cons. simpl. destruct (Ascii.eqb d c); [done|].
    by rewrite IH.
Qed.

Lemma split_cuts_byte n s c :
  String.length s <= n -> split_cuts n s (str1 c) = split_byte s c.
Proof.
  revert s. induction n as [|n IH]; intros s Hl; simpl.
  { by destruct s; simpl in Hl; [|lia]. }
  rewrite Index_byte. destruct (IndexByte s c) as [i|] eqn:E.
  - apply IndexByte_Some in E as [Hs Hn].
    replace (i + 1) with (S i) by lia. rewrite IH.
    + rewrite Hs at 3. by rewrite split_byte_app.
    + apply (f_equal String.length) in Hs. rewrite slength_app in Hs.
      cbn [String.length] in Hs. lia.
  - apply IndexByte_None in E. by rewrite split_byte_none.
Qed.

(** [strings.Split] at one byte, characterised by recursion on the string. *)
Lemma Split_byte s c : Split s (str1 c) = split_byte s c.
Proof. by apply split_cuts_byte. Qed.

Lemma split_byte_pieces s c w : w ∈ split_byte s c -> str_elem c w = false.
Proof.
  revert w. induction s as [|d s IH]; intros w; simpl.
  - by intros ->%list_elem_of_singleton.
  - destruct (Ascii.eqb d c) eqn:E.
    + intros [->|Hw]%elem_of_cons; [done|]. auto.
    + destruct (split_byte s c) as [|v l] eqn:El.
      * intros ->%list_elem_of_singleton. simpl. by rewrite E.
      * intros [->|Hw]%elem_of_cons; [|apply IH; set_solver].
        simpl. rewrite E. apply IH. set_solver.
Qed.

(** Splitting what was joined gives the pieces back, when none of them
    contains the separator. *)
Lemma split_byte_Join l c :
  l <> [] -> (forall w, w ∈ l -> str_elem c w = false) ->
  split_byte (Join l (str1 c)) c = l.
Proof.
  induction l as [|w [|v l] IH]; intros Hne H; [done| |].
  - simpl. apply split_byte_none. set_solver.
  - rewrite Join_cons by done. unfold str1 at 1. rewrite sapp_cons, sapp_nil_l.
    rewrite split_byte_app by set_solver. f_equal. apply IH; set_solver.
Qed.
(** Splitting goes over a separator. *)
Lemma split_byte_app_sep a b c :
  split_byte (a +:+ String c b) c = split_byte a c ++ split_byte b c.
Proof.
  induction a as [|d a IH].
  - rewrite sapp_nil_l. simpl. by rewrite Ascii.eqb_refl.
  - rewrite sapp_cons. simpl. rewrite IH. destruct (Ascii.eqb d c); [done|].
    pose proof (split_byte_not_nil a c). by destruct (split_byte a c).
Qed.

End Splitting.

(** ** ASCII words *)

Fixpoint chars (s : string) : list ascii :=
  match s with
  | EmptyString => []
  | String c s => c :: chars s
  end.

(** A printable ASCII character that is not a space. *)
Definition graphic (c : ascii) : bool := in_range 33 126 (byte_val c).

Fixpoint all_graphic (s : string) : bool :=
  match s with
  | EmptyString => true
  | String c s => graphic c && all_graphic s
  end.

(** Printable ASCII text, spaces included. *)
Definition printable (c : ascii) : bool := in_range 32 126 (byte_val c).

Fixpoint all_printable (s : string) : bool :=
  match s with
  | EmptyString => true
  | String c s => printable c && all_printable s
  end.

Definition ascii_runes (s : string) : list (Z * string) :=
  (fun c => (byte_val c, str1 c)) <$> chars s.

Definition space_c : ascii := " "%char.
Definition space : string := " ".

Section Words.
Implicit Types (s t w : string) (c : ascii) (ws cur : list string).

Lemma chars_app s t : chars (s +:+ t) = chars s ++ chars t.
Proof. induction s as [|c s IH]; [done|]. rewrite sapp_cons. simpl. by rewrite IH. Qed.

Lemma ascii_runes_app s t : ascii_runes (s +:+ t) = ascii_runes s ++ ascii_runes t.
Proof. unfold ascii_runes. by rewrite chars_app, fmap_app. Qed.

Lemma all_graphic_app s t : all_graphic (s +:+ t) = all_graphic s && all_graphic t.
Proof.
  induction s as [|c s IH]; [done|]. rewrite sapp_cons. simpl. by rewrite IH, andb_assoc.
Qed.

Lemma all_printable_app s t : all_printable (s +:+ t) = all_printable s && all_printable t.
Proof.
  induction s as [|c s IH]; [done|]. rewrite sapp_cons. simpl. by rewrite IH, andb_assoc.
Qed.

Lemma graphic_printable c : graphic c = true -> printable c = true.
Proof. unfold graphic, printable, in_range. intros H. bool_prop. lia. Qed.

Lemma all_graphic_printable s : all_graphic s = true -> all_printable s = true.
Proof.
  induction s as [|c s IH]; [done|]. simpl. intros H. bool_prop.
  by rewrite graphic_printable, IH.
Qed.

Lemma graphic_not_space c : graphic c = true -> IsSpace (byte_val c) = false.
Proof.
  unfold graphic, IsSpace, in_range. intros H. bool_prop.
  rewrite !orb_false_iff. repeat split; lia.
Qed.

Lemma runes_fuel_printable n s :
  all_printable s = true -> String.length s <= n -> runes_fuel n s = ascii_runes s.
Proof.
  revert s. induction n as [|n IH]; intros [|c s] Hp Hn; try done; [simpl in Hn; lia|].
  simpl in Hp, Hn. bool_prop. cbn [runes_fuel DecodeRune].
  assert (Hc : (byte_val c <? 128)%Z = true) by (unfold printable, in_range in *; bool_prop; lia).
  rewrite Hc. cbn [str_take str_drop]. by rewrite IH by (done || lia).
Qed.

(** On printable text a rune is a byte. *)
Lemma runes_printable s : all_printable s = true -> runes s = ascii_runes s.
Proof. intros. by apply runes_fuel_printable. Qed.

Lemma str_concat_app (l1 l2 : list string) :
  str_concat (l1 ++ l2) = str_concat l1 +:+ str_concat l2.
Proof. induction l1 as [|s l1 IH]; [done|]. simpl. by rewrite IH, sapp_assoc. Qed.

Lemma str_concat_chars s : str_concat (str1 <$> chars s) = s.
Proof.
  induction s as [|c s IH]; [done|]. cbn [chars]. rewrite fmap_cons. cbn [str_concat].
  by rewrite IH.
Qed.

Lemma words_graphic cur w l :
  all_graphic w = true ->
  words cur (ascii_runes w ++ l) = words (reverse (str1 <$> chars w) ++ cur) l.
Proof.
  revert cur. induction w as [|c w IH]; intros cur Hw; [done|].
  simpl in Hw. bool_prop.
  change (ascii_runes (String c w)) with ((byte_val c, str1 c) :: ascii_runes w).
  cbn [app words chars]. unfold rune_is_space. cbn [fst snd].
  rewrite graphic_not_space, IH, fmap_cons, reverse_cons by done.
  by rewrite <- app_assoc.
Qed.

Lemma words_word w l :
  all_graphic w = true -> w <> EmptyString ->
  words [] (ascii_runes w ++ ascii_runes space ++ l) = w :: words [] l.
Proof.
  intros Hw Hne. rewrite words_graphic, app_nil_r by done. cbn [app ascii_runes].
  destruct w as [|c w]; [done|]. cbn [chars fmap list_fmap]. rewrite reverse_cons.
  change (ascii_runes space) with [(32%Z, space)]. cbn [app words].
  replace (rune_is_space (32%Z, space)) with true by reflexivity.
  destruct (reverse _ ++ [str1 c]) as [|x xs] eqn:E.
  { by apply app_eq_nil in E as [_ ?]. }
  f_equal. rewrite <- E, <- reverse_cons, reverse_involutive.
  change (str1 c :: (str1 <$> chars w)) with (str1 <$> chars (String c w)).
  apply str_concat_chars.
Qed.

Lemma words_last w :
  all_graphic w = true -> w <> EmptyString -> words [] (ascii_runes w) = [w].
Proof.
  intros Hw Hne. rewrite <- (app_nil_r (ascii_runes w)), words_graphic, app_nil_r by done.
  destruct w as [|c w]; [done|]. cbn [chars words]. rewrite fmap_cons, reverse_cons.
  destruct (reverse _ ++ [str1 c]) as [|x xs] eqn:E.
  { by apply app_eq_nil in E as [_ ?]. }
  f_equal. rewrite <- E, <- reverse_cons, reverse_involutive.
  change (str1 c :: (str1 <$> chars w)) with (str1 <$> chars (String c w)).
  apply str_concat_chars.
Qed.

Definition word_list ws : Prop :=
  Forall (fun w => all_graphic w = true /\ w <> EmptyString) ws.

Lemma Join_printable ws : word_list ws -> all_printable (Join ws space) = true.
Proof.
  induction 1 as [|w ws [Hw _] _ IH]; [done|]. destruct ws as [|v ws].
  - by apply all_graphic_printable.
  - rewrite Join_cons, !all_printable_app, IH by done.
    by rewrite (all_graphic_printable w).
Qed.

(** The words of a line are found again, with or without spaces around it. *)
Lemma words_Join ws l :
  word_list ws ->
  words [] (ascii_runes (Join ws space)) = ws /\
  (ws <> [] -> words [] (ascii_runes (Join ws space) ++ ascii_runes space ++ l) =
   ws ++ words [] l).
Proof.
  induction 1 as [|w ws [Hw Hne] Hws IH]; [done|]. destruct ws as [|v ws].
  - split; [by apply words_last|]. intros _. by apply words_word.
  - rewrite Join_cons, !ascii_runes_app, <- !app_assoc by done.
    rewrite !words_word by done. destruct IH as [IH1 IH2].
    split; [by rewrite IH1|]. intros _. by rewrite IH2.
Qed.

Lemma Fields_Join ws : word_list ws -> Fields (Join ws space) = ws.
Proof.
  intros Hws. unfold Fields. rewrite runes_printable by by apply Join_printable.
  by apply (words_Join ws []).
Qed.

Lemma Fields_Join_r ws : word_list ws -> ws <> [] -> Fields (Join ws space +:+ space) = ws.
Proof.
  intros Hws Hne. unfold Fields.
  rewrite runes_printable by (by rewrite all_printable_app, Join_printable).
  rewrite ascii_runes_app, <- (app_nil_r (ascii_runes space)).
  rewrite (proj2 (words_Join ws [] Hws) Hne). apply app_nil_r.
Qed.

Lemma Fields_Join_l ws : word_list ws -> Fields (space +:+ Join ws space) = ws.
Proof.
  intros Hws. unfold Fields.
  rewrite runes_printable by (by rewrite all_printable_app, Join_printable).
  rewrite ascii_runes_app. change (ascii_runes space) with [(32%Z, space)].
  cbn [app words]. replace (rune_is_space (32%Z, space)) with true by reflexivity.
  by apply (words_Join ws []).
Qed.

Lemma drop_spaces_both x l y :
  rune_is_space x = false -> rune_is_space y = false ->
  reverse (drop_spaces (reverse (drop_spaces (x :: l ++ [y])))) = x :: l ++ [y].
Proof.
  intros Hx Hy. cbn [drop_spaces]. rewrite Hx, app_comm_cons, reverse_snoc.
  cbn [drop_spaces]. rewrite Hy, reverse_cons, reverse_involutive. done.
Qed.

Lemma str_concat_runes s : str_concat (snd <$> ascii_runes s) = s.
Proof. unfold ascii_runes. rewrite <- list_fmap_compose. apply str_concat_chars. Qed.

(** Text that starts and ends with a graphic character is trimmed already. *)
Lemma TrimSpace_id c s d :
  graphic c = true -> graphic d = true -> all_printable s = true ->
  TrimSpace (String c (s +:+ str1 d)) = String c (s +:+ str1 d).
Proof.
  intros Hc Hd Hs. unfold TrimSpace.
  rewrite runes_printable by (cbn [all_printable]; rewrite all_printable_app, Hs; simpl;
    by rewrite !graphic_printable).
  assert (Hsp : forall e, graphic e = true -> rune_is_space (byte_val e, str1 e) = false)
    by (intros; by apply graphic_not_space).
  assert (Hr : ascii_runes (String c (s +:+ str1 d)) =
    (byte_val c, str1 c) :: ascii_runes s ++ [(byte_val d, str1 d)])
    by (rewrite <- sapp_cons, ascii_runes_app; done).
  rewrite Hr, drop_spaces_both, <- Hr by auto. apply str_concat_runes.
Qed.
End Words.
