(* ===== verification/Glob.v ===== *)
(** Go's [path/filepath.Match] (Unix), which decides the wildcard routes, with a
    declarative reading of the patterns made of literals, [?] and [*].

    [scanChunk], [getEsc], [matchChunk] and [Match] follow the functions of the
    same name; loops that do not recurse on a subterm take fuel, and the
    [_enough] lemmas show that the fuel they are called with is never the
    reason for an answer. *)

From S2P Require Import Prelude GoStrings.

Definition star_c : ascii := "*"%char.
Definition quest_c : ascii := "?"%char.
Definition slash_c : ascii := "/"%char.
Definition backslash_c : ascii := "\"%char.
Definition lbrack_c : ascii := "["%char.
Definition rbrack_c : ascii := "]"%char.
Definition dash_c : ascii := "-"%char.
Definition caret_c : ascii := "^"%char.

Definition is_empty (s : string) : bool :=
  match s with EmptyString => true | _ => false end.

(** Leading stars of the pattern: was there one, and what follows them. *)
Fixpoint skip_stars (p : string) : bool * string :=
  match p with
  | EmptyString => (false, p)
  | String c p' => if Ascii.eqb c star_c then (true, (skip_stars p').2) else (false, p)
  end.

(** Length of the longest star-free chunk at the head of the pattern. *)
Fixpoint scan_len (inrange : bool) (p : string) : nat :=
  match p with
  | EmptyString => 0
  | String c p' =>
      if Ascii.eqb c backslash_c
      then match p' with String _ p'' => S (S (scan_len inrange p'')) | EmptyString => 1 end
      else if Ascii.eqb c lbrack_c then S (scan_len true p')
      else if Ascii.eqb c rbrack_c then S (scan_len false p')
      else if Ascii.eqb c star_c && negb inrange then 0
      else S (scan_len inrange p')
  end.

Definition scanChunk (p : string) : bool * string * string :=
  let '(star, p) := skip_stars p in
  let i := scan_len false p in
  (star, str_take i p, str_drop i p).

(** [getEsc]: [None] is [ErrBadPattern]. *)
Definition getEsc (chunk : string) : option (Z * string) :=
  match chunk with
  | EmptyString => None
  | String c chunk' =>
      if Ascii.eqb c dash_c || Ascii.eqb c rbrack_c then None
      else
        let chunk := if Ascii.eqb c backslash_c then chunk' else chunk in
        if is_empty chunk then None
        else
          let '(r, n) := DecodeRune chunk in
          if (r =? RuneError)%Z && (n =? 1)%nat then None
          else
            let nchunk := str_drop n chunk in
            if is_empty nchunk then None else Some (r, nchunk)
  end.

(** The ranges of a character class: what follows the class, and whether one of
    its ranges holds [r]. *)
Fixpoint class_loop (fuel : nat) (chunk : string) (r : Z) (matched : bool) (nrange : nat)
    : option (string * bool) :=
  match fuel with
  | 0 => None
  | S fuel =>
      match chunk with
      | String c chunk' =>
          if Ascii.eqb c rbrack_c && (0 <? nrange)%nat then Some (chunk', matched)
          else
            match getEsc chunk with
            | None => None
            | Some (lo, chunk1) =>
                match chunk1 with
                | String d chunk2 =>
                    if Ascii.eqb d dash_c then
                      match getEsc chunk2 with
                      | None => None
                      | Some (hi, chunk3) =>
                          class_loop fuel chunk3 r (matched || in_range lo hi r) (S nrange)
                      end
                    else class_loop fuel chunk1 r (matched || in_range lo lo r) (S nrange)
                | EmptyString => None
                end
            end
      | EmptyString => None
      end
  end.

Inductive chunk_result :=
  | ChunkErr                 (* bad pattern *)
  | ChunkFail                (* no match *)
  | ChunkOk (rest : string). (* match, with the rest of the name *)

Definition match_class (chunk : string) (r : Z) : option (string * bool) :=
  let '(negated, chunk) :=
    match chunk with
    | String c chunk' => if Ascii.eqb c caret_c then (true, chunk') else (false, chunk)
    | EmptyString => (false, chunk)
    end in
  match class_loop (S (String.length chunk)) chunk r false 0 with
  | None => None
  | Some (chunk, matched) => Some (chunk, Bool.eqb matched negated)
  end.

Definition str_head (s : string) : ascii :=
  match s with String c _ => c | EmptyString => Ascii.zero end.

Fixpoint matchChunk_fuel (fuel : nat) (chunk s : string) (failed : bool) : chunk_result :=
  match fuel with
  | 0 => ChunkErr
  | S fuel =>
      match chunk with
      | EmptyString => if failed then ChunkFail else ChunkOk s
      | String c chunk' =>
          let failed := failed || is_empty s in
          if Ascii.eqb c lbrack_c then
            let '(r, s) :=
              if failed then (0%Z, s)
              else let '(r, n) := DecodeRune s in (r, str_drop n s) in
            match match_class chunk' r with
            | None => ChunkErr
            | Some (chunk', bad) => matchChunk_fuel fuel chunk' s (failed || bad)
            end
          else if Ascii.eqb c quest_c then
            if failed then matchChunk_fuel fuel chunk' s true
            else matchChunk_fuel fuel chunk' (str_drop (DecodeRune s).2 s)
                   (Ascii.eqb (str_head s) slash_c)
          else if Ascii.eqb c backslash_c then
            match chunk' with
            | EmptyString => ChunkErr
            | String d chunk' =>
                if failed then matchChunk_fuel fuel chunk' s true
                else matchChunk_fuel fuel chunk' (str_drop 1 s)
                       (negb (Ascii.eqb d (str_head s)))
            end
          else
            if failed then matchChunk_fuel fuel chunk' s true
            else matchChunk_fuel fuel chunk' (str_drop 1 s)
                   (negb (Ascii.eqb c (str_head s)))
      end
  end.

Definition matchChunk (chunk s : string) : chunk_result :=
  matchChunk_fuel (S (String.length chunk)) chunk s false.

(** "Look for match skipping i+1 bytes.  Cannot skip /." *)
Fixpoint star_loop (chunk : string) (last : bool) (name : string) : chunk_result :=
  match name with
  | EmptyString => ChunkFail
  | String c name =>
      if Ascii.eqb c slash_c then ChunkFail
      else match matchChunk chunk name with
           | ChunkOk t => if last && negb (is_empty t) then star_loop chunk last name
                          else ChunkOk t
           | ChunkErr => ChunkErr
           | ChunkFail => star_loop chunk last name
           end
  end.

(** "Check that the remainder of the pattern is syntactically valid." *)
Fixpoint check_rest (fuel : nat) (pattern : string) : bool * bool :=
  match fuel with
  | 0 => (false, true)
  | S fuel =>
      if is_empty pattern then (false, false)
      else
        let '(_, chunk, rest) := scanChunk pattern in
        match matchChunk chunk EmptyString with
        | ChunkErr => (false, true)
        | _ => check_rest fuel rest
        end
  end.

Fixpoint Match_fuel (fuel : nat) (pattern name : string) : bool * bool :=
  match fuel with
  | 0 => (false, true)
  | S fuel =>
      if is_empty pattern then (is_empty name, false)
      else
        let '(star, chunk, rest) := scanChunk pattern in
        if star && is_empty chunk then (negb (str_elem slash_c name), false)
        else
          let fallback :=
            if star then
              match star_loop chunk (is_empty rest) name with
              | ChunkOk t => Match_fuel fuel rest t
              | ChunkErr => (false, true)
              | ChunkFail => check_rest (S (String.length rest)) rest
              end
            else check_rest (S (String.length rest)) rest in
          match matchChunk chunk name with
          | ChunkOk t =>
              if is_empty t || negb (is_empty rest) then Match_fuel fuel rest t
              else fallback
          | ChunkErr => (false, true)
          | ChunkFail => fallback
          end
  end.

(** [filepath.Match(pattern, name)]: matched, and whether the pattern is bad. *)
Definition Match (pattern name : string) : bool * bool :=
  Match_fuel (S (String.length pattern)) pattern name.

(** ** The fuel is enough *)

Lemma DecodeRune_width s : s <> EmptyString -> 1 <= (DecodeRune s).2.
Proof.
  destruct s as [|c s]; [done|]. intros _. unfold DecodeRune.
  repeat case_match; simpl; lia.
Qed.

Lemma getEsc_length chunk r rest :
  getEsc chunk = Some (r, rest) -> String.length rest < String.length chunk.
Proof.
  destruct chunk as [|c chunk']; [done|]. cbn [getEsc].
  destruct (_ || _); [done|].
  set (chunk := if Ascii.eqb c backslash_c then chunk' else String c chunk').
  assert (Hl : String.length chunk <= S (String.length chunk')).
  { subst chunk. case_match; simpl; lia. }
  destruct (is_empty chunk) eqn:E; [done|].
  pose proof (DecodeRune_width chunk) as Hw.
  destruct (DecodeRune chunk) as [r' n]. simpl in Hw.
  assert (chunk <> EmptyString) by (by intros Hc; rewrite Hc in E).
  cbv zeta. destruct (_ && _); [done|]. destruct (is_empty (str_drop _ _)); [done|].
  intros [= _ <-]. rewrite slength_drop. simpl. destruct chunk; simpl in *; [done|].
  specialize (Hw ltac:(done)). lia.
Qed.

Lemma class_loop_enough n m chunk r b k :
  String.length chunk < n -> String.length chunk < m ->
  class_loop n chunk r b k = class_loop m chunk r b k.
Proof.
  revert m chunk b k. induction n as [|n IH]; intros [|m] [|c chunk] b k Hn Hm; try lia.
  { done. }
  cbn [class_loop]. destruct (_ && _); [done|].
  destruct (getEsc (String c chunk)) as [[lo c1]|] eqn:E1; [|done].
  apply getEsc_length in E1. destruct c1 as [|d c2]; [done|].
  destruct (Ascii.eqb d dash_c).
  - destruct (getEsc c2) as [[hi c3]|] eqn:E2; [|done].
    apply getEsc_length in E2. apply IH; simpl in *; lia.
  - apply IH; simpl in *; lia.
Qed.

Lemma class_loop_length n chunk r b k rest m :
  class_loop n chunk r b k = Some (rest, m) -> String.length rest < String.length chunk.
Proof.
  revert chunk b k. induction n as [|n IH]; intros [|c chunk] b k; try done.
  cbn [class_loop]. destruct (_ && _).
  { intros [= -> ->]. simpl. lia. }
  destruct (getEsc (String c chunk)) as [[lo c1]|] eqn:E1; [|done].
  apply getEsc_length in E1. destruct c1 as [|d c2]; [done|].
  destruct (Ascii.eqb d dash_c).
  - destruct (getEsc c2) as [[hi c3]|] eqn:E2; [|done].
    apply getEsc_length in E2. intros H%IH. simpl in *. lia.
  - intros H%IH. simpl in *. lia.
Qed.

Lemma match_class_length chunk r rest b :
  match_class chunk r = Some (rest, b) -> String.length rest < String.length chunk.
Proof.
  unfold match_class. destruct chunk as [|c chunk].
  - done.
  - destruct (Ascii.eqb c caret_c).
    all: case_match eqn:E; [|done].
    all: destruct p as [rest' m]; intros [= -> <-].
    all: apply class_loop_length in E; simpl in *; lia.
Qed.

Lemma matchChunk_enough n m chunk s failed :
  String.length chunk < n -> String.length chunk < m ->
  matchChunk_fuel n chunk s failed = matchChunk_fuel m chunk s failed.
Proof.
  revert m chunk s failed.
  induction n as [|n IH]; intros [|m] [|c chunk] s failed Hn Hm; try lia; [done|].
  simpl in Hn, Hm. cbn [matchChunk_fuel].
  destruct (Ascii.eqb c lbrack_c).
  { destruct (if failed || is_empty s then _ else _) as [r s'].
    destruct (match_class chunk r) as [[rest b]|] eqn:E; [|done].
    apply match_class_length in E. apply IH; lia. }
  destruct (Ascii.eqb c quest_c); [case_match; apply IH; lia|].
  destruct (Ascii.eqb c backslash_c).
  - destruct chunk as [|d chunk]; [done|]. simpl in *. case_match; apply IH; lia.
  - case_match; apply IH; lia.
Qed.

Lemma skip_stars_length p : String.length (skip_stars p).2 <= String.length p.
Proof.
  induction p as [|c p IH]; simpl; [done|]. case_match; simpl in *; lia.
Qed.

Lemma skip_stars_false p : (skip_stars p).1 = false -> (skip_stars p).2 = p.
Proof. destruct p as [|c p]; simpl; [done|]. by case_match. Qed.

Lemma scanChunk_length p star chunk rest :
  p <> EmptyString -> scanChunk p = (star, chunk, rest) ->
  String.length rest < String.length p.
Proof.
  unfold scanChunk. intros Hne. pose proof (skip_stars_length p) as Hl.
  destruct p as [|c p]; [done|]. cbn [skip_stars] in *.
  destruct (Ascii.eqb c star_c) eqn:E; simpl in Hl.
  - intros [= <- <- <-]. rewrite slength_drop. pose proof (skip_stars_length p).
    simpl. lia.
  - intros [= <- <- <-]. rewrite slength_drop. cbn [scan_len String.length].
    rewrite E. simpl. repeat case_match; simpl; lia.
Qed.

Lemma is_empty_false s : is_empty s = false -> s <> EmptyString.
Proof. by destruct s. Qed.

Lemma is_empty_true s : is_empty s = true -> s = EmptyString.
Proof. by destruct s. Qed.

Lemma check_rest_enough n m p :
  String.length p < n -> String.length p < m -> check_rest n p = check_rest m p.
Proof.
  revert m p. induction n as [|n IH]; intros [|m] p Hn Hm; try lia.
  cbn [check_rest]. destruct (is_empty p) eqn:Ep; [done|]. apply is_empty_false in Ep.
  destruct (scanChunk p) as [[star chunk] rest] eqn:E.
  apply scanChunk_length in E; [|done]. case_match; [done| |]; apply IH; lia.
Qed.

(** [Match] does not depend on how much fuel beyond the pattern's length it is
    given: the out-of-fuel answer is never used. *)
Lemma Match_fuel_enough n p s :
  String.length p < n -> Match_fuel n p s = Match p s.
Proof.
  unfold Match.
  assert (H : forall n m p s, String.length p < n -> String.length p < m ->
                Match_fuel n p s = Match_fuel m p s); [|intros; apply H; lia].
  clear n p s. induction n as [|n IH]; intros [|m] p s Hn Hm; try lia.
  cbn [Match_fuel]. destruct (is_empty p) eqn:Ep; [done|]. apply is_empty_false in Ep.
  destruct (scanChunk p) as [[star chunk] rest] eqn:E.
  apply scanChunk_length in E; [|done].
  assert (Hrec : forall t, Match_fuel n rest t = Match_fuel m rest t)
    by (intros; apply IH; lia).
  destruct (star && is_empty chunk); [done|].
  destruct (matchChunk chunk s) as [| |t]; [done | |].
  - destruct star; [|done]. by destruct (star_loop _ _ _).
  - destruct (is_empty t || _); [done|].
    destruct star; [|done]. by destruct (star_loop _ _ _).
Qed.

(** ** Declarative reading of simple patterns *)

(** A pattern without character classes and escapes. *)
Definition simple_pattern (p : string) : bool :=
  negb (str_elem lbrack_c p) && negb (str_elem backslash_c p).

Fixpoint is_ascii (s : string) : bool :=
  match s with
  | EmptyString => true
  | String c s => (byte_val c <? 128)%Z && is_ascii s
  end.

(** A name whose bytes [?] can tell apart: an ASCII one, or any if there is no [?]. *)
Definition bytewise (p s : string) : bool := is_ascii s || negb (str_elem quest_c p).

(** The documented meaning: [*] is any sequence of non-slash characters, [?] one
    non-slash character, every other character stands for itself. *)
Inductive glob : string -> string -> Prop :=
  | glob_nil : glob EmptyString EmptyString
  | glob_lit c p s :
      c <> star_c -> c <> quest_c -> glob p s -> glob (String c p) (String c s)
  | glob_quest c p s :
      c <> slash_c -> glob p s -> glob (String quest_c p) (String c s)
  | glob_star_skip p s : glob p s -> glob (String star_c p) s
  | glob_star_eat c p s :
      c <> slash_c -> glob (String star_c p) s -> glob (String star_c p) (String c s).

(** Position-wise match of a star-free pattern. *)
Inductive chunk_match : string -> string -> Prop :=
  | cm_nil : chunk_match EmptyString EmptyString
  | cm_lit c p s :
      c <> star_c -> c <> quest_c -> chunk_match p s -> chunk_match (String c p) (String c s)
  | cm_quest c p s :
      c <> slash_c -> chunk_match p s -> chunk_match (String quest_c p) (String c s).

#[export] Hint Constructors glob chunk_match : go.

Section SimplePatterns.
Implicit Types (p q s t u v w : string) (c : ascii).

Lemma chunk_match_length p s : chunk_match p s -> String.length p = String.length s.
Proof. induction 1; simpl; congruence. Qed.

Lemma chunk_match_no_slash p s :
  chunk_match p s -> str_elem slash_c s = str_elem slash_c p.
Proof.
  induction 1 as [|c p s Hs Hq _ IH|c p s Hc _ IH]; [done| |]; cbn [str_elem].
  - by rewrite IH.
  - rewrite IH. by rewrite (proj2 (Ascii.eqb_neq c slash_c) Hc).
Qed.

Lemma chunk_match_app_inv p1 p2 s :
  chunk_match (p1 +:+ p2) s ->
  exists s1 s2, s = s1 +:+ s2 /\ chunk_match p1 s1 /\ chunk_match p2 s2.
Proof.
  revert s. induction p1 as [|c p1 IH]; intros s; rewrite ?sapp_nil_l, ?sapp_cons.
  - intros H. exists EmptyString, s. eauto with go.
  - inversion 1 as [|? ? s' ? ? H'|d ? s' Hd H']; subst;
      apply IH in H' as (s1 & s2 & -> & Hm1 & Hm2);
      eexists (String _ s1), s2; rewrite sapp_cons; eauto with go.
Qed.

(** A star-free prefix of the pattern matches a prefix of the same length. *)
Lemma glob_chunk_app p q s :
  str_elem star_c p = false ->
  glob (p +:+ q) s <-> exists u t, s = u +:+ t /\ chunk_match p u /\ glob q t.
Proof.
  revert s. induction p as [|c p IH]; intros s Hs.
  - rewrite sapp_nil_l. split.
    + intros H. exists EmptyString, s. eauto with go.
    + intros (u & t & -> & Hu & Hg). by inversion Hu.
  - cbn [str_elem] in Hs. bool_prop. rewrite sapp_cons. split.
    + inversion 1 as [|? ? s' ? ? Hg|d ? s' ? Hg| |]; subst; try done.
      all: apply IH in Hg as (u & t & -> & ? & ?); [|done].
      all: eexists (String _ u), t; rewrite sapp_cons; eauto with go.
    + intros (u & t & -> & Hu & Hg).
      inversion Hu as [|? ? s' ? ? Hu'|d ? s' ? Hu']; subst; rewrite sapp_cons.
      all: constructor; [done..|]; apply IH; eauto.
Qed.

(** A star absorbs any slash-free prefix. *)
Lemma glob_star p s :
  glob (String star_c p) s <->
  exists v t, s = v +:+ t /\ str_elem slash_c v = false /\ glob p t.
Proof.
  split.
  - remember (String star_c p) as q eqn:Eq. intros H. revert p Eq.
    induction H as [|c q s Hc ? H IH|c q s Hc H IH|q s H IH|c q s Hc H IH];
      intros p' [=]; subst; try done.
    + by exists EmptyString, s.
    + destruct (IH _ eq_refl) as (v & t & -> & Hv & Hg).
      exists (String c v), t. rewrite sapp_cons. cbn [str_elem]. rewrite Hv.
      by rewrite (proj2 (Ascii.eqb_neq _ _) Hc).
  - intros (v & t & -> & Hv & Hg). induction v as [|c v IH].
    + by apply glob_star_skip.
    + cbn [str_elem] in Hv. bool_prop. rewrite sapp_cons. apply glob_star_eat; auto.
Qed.

Lemma glob_star_star p s :
  glob (String star_c (String star_c p)) s <-> glob (String star_c p) s.
Proof.
  split; [|apply glob_star_skip].
  rewrite !(glob_star _ s). setoid_rewrite glob_star.
  intros (v1 & t1 & -> & H1 & v2 & t2 & -> & H2 & Hg).
  exists (v1 +:+ v2), t2. rewrite sapp_assoc, str_elem_app, H1, H2. done.
Qed.

(** The first slash of a string is where it is. *)
Lemma first_slash_unique a b s t :
  str_elem slash_c a = false -> str_elem slash_c b = false ->
  a +:+ String slash_c s = b +:+ String slash_c t -> a = b.
Proof.
  revert b. induction a as [|c a IH]; intros [|d b] Ha Hb.
  - done.
  - rewrite sapp_nil_l, sapp_cons. intros [= <- _]. done.
  - rewrite sapp_nil_l, sapp_cons. intros [= -> _]. done.
  - rewrite !sapp_cons. intros [= <- H]. cbn [str_elem] in *. bool_prop.
    f_equal. by apply IH.
Qed.

Lemma str_elem_split c s :
  str_elem c s = true -> exists a b, s = a +:+ String c b /\ str_elem c a = false.
Proof.
  intros H. destruct (IndexByte s c) as [i|] eqn:E.
  - apply IndexByte_Some in E as [E1 E2]. eauto.
  - apply IndexByte_None in E. congruence.
Qed.

(** A chunk that holds a slash matches at one position only, as long as the
    text skipped before the later position holds none. *)
Lemma chunk_shift ch u0 u t0 t v :
  chunk_match ch u0 -> chunk_match ch u ->
  u0 +:+ t0 = v +:+ u +:+ t -> str_elem slash_c v = false ->
  v = EmptyString \/ str_elem slash_c ch = false.
Proof.
  intros H0 H1 He Hv. destruct (str_elem slash_c ch) eqn:E; [|by right]. left.
  apply str_elem_split in E as (a & b & -> & Ha).
  apply chunk_match_app_inv in H0 as (a0 & r0 & -> & Ha0 & Hr0).
  apply chunk_match_app_inv in H1 as (a1 & r1 & -> & Ha1 & Hr1).
  inversion Hr0 as [|? ? b0 ? ? _|]; subst.
  inversion Hr1 as [|? ? b1 ? ? _|]; subst.
  rewrite <- !sapp_assoc, !sapp_cons, sapp_assoc in He.
  apply first_slash_unique in He.
  - apply (f_equal String.length) in He. rewrite slength_app in He.
    apply chunk_match_length in Ha0. apply chunk_match_length in Ha1.
    destruct v; [done|]. simpl in He. lia.
  - by rewrite (chunk_match_no_slash _ _ Ha0).
  - by rewrite str_elem_app, Hv, (chunk_match_no_slash _ _ Ha1).
Qed.

Lemma app_same_length_prefix s t u v :
  s +:+ t = u +:+ v -> String.length s <= String.length u ->
  exists w, u = s +:+ w /\ t = w +:+ v.
Proof.
  revert u. induction s as [|c s IH]; intros u H Hl.
  - exists u. done.
  - destruct u as [|d u]; [simpl in Hl; lia|]. rewrite !sapp_cons in H.
    injection H as -> H. simpl in Hl. apply IH in H as (w & -> & ->); [|lia].
    exists w. by rewrite sapp_cons.
Qed.

(** Why the leftmost match of a chunk is enough: whatever a later match leaves
    to a pattern that starts with a star, the leftmost match leaves it more. *)
Lemma leftmost_enough ch q u0 t0 u t v :
  chunk_match ch u0 -> chunk_match ch u ->
  u0 +:+ t0 = v +:+ u +:+ t -> str_elem slash_c v = false ->
  glob (String star_c q) t -> glob (String star_c q) t0.
Proof.
  intros H0 H1 He Hv Hg.
  pose proof (chunk_shift _ _ _ _ _ _ H0 H1 He Hv) as Hs.
  pose proof (chunk_match_length _ _ H0) as L0.
  pose proof (chunk_match_length _ _ H1) as L1.
  rewrite sapp_assoc in He. pose proof He as He'.
  apply app_same_length_prefix in He' as (w & Hw & ->);
    [|rewrite slength_app; lia].
  apply glob_star in Hg as (v' & t' & -> & Hv' & Hg).
  apply glob_star. exists (w +:+ v'), t'. rewrite sapp_assoc.
  split; [done|]. split; [|done]. rewrite str_elem_app, Hv', orb_false_r.
  destruct Hs as [->|Hs].
  - rewrite sapp_nil_l in Hw. apply (f_equal String.length) in Hw.
    rewrite slength_app in Hw. destruct w; [done|]. simpl in Hw. lia.
  - pose proof (str_elem_app slash_c u0 w) as Hu. rewrite <- Hw in Hu.
    rewrite str_elem_app, Hv, (chunk_match_no_slash _ _ H1), Hs in Hu.
    by destruct (str_elem slash_c w); [rewrite orb_true_r in Hu|].
Qed.
End SimplePatterns.

(** ** [Match] on simple patterns *)

Lemma simple_cons c p :
  simple_pattern (String c p) = true ->
  c <> lbrack_c /\ c <> backslash_c /\ simple_pattern p = true.
Proof.
  unfold simple_pattern. cbn [str_elem].
  rewrite !andb_true_iff, !negb_true_iff, !orb_false_iff, !Ascii.eqb_neq. tauto.
Qed.

Lemma simple_app p q :
  simple_pattern (p +:+ q) = true -> simple_pattern p = true /\ simple_pattern q = true.
Proof.
  unfold simple_pattern. rewrite !str_elem_app.
  rewrite !andb_true_iff, !negb_true_iff, !orb_false_iff. tauto.
Qed.

Lemma is_ascii_app s t : is_ascii (s +:+ t) = is_ascii s && is_ascii t.
Proof.
  induction s as [|c s IH]; [done|]. rewrite sapp_cons. simpl. by rewrite IH, andb_assoc.
Qed.

Lemma bytewise_tail p c s : bytewise p (String c s) = true -> bytewise p s = true.
Proof.
  unfold bytewise. cbn [is_ascii]. rewrite !orb_true_iff, andb_true_iff. tauto.
Qed.

Lemma bytewise_suffix p s t : bytewise p (s +:+ t) = true -> bytewise p t = true.
Proof. unfold bytewise. rewrite is_ascii_app, !orb_true_iff, andb_true_iff. tauto. Qed.

Lemma bytewise_prefix p s t : bytewise p (s +:+ t) = true -> bytewise p s = true.
Proof. unfold bytewise. rewrite is_ascii_app, !orb_true_iff, andb_true_iff. tauto. Qed.

(** Fewer question marks ask for less. *)
Lemma bytewise_less p q s :
  (str_elem quest_c p = false -> str_elem quest_c q = false) -> bytewise p s = true -> bytewise q s = true.
Proof.
  unfold bytewise. rewrite !orb_true_iff, !negb_true_iff. tauto.
Qed.

Lemma bytewise_cons c p s : bytewise (String c p) s = true -> bytewise p s = true.
Proof. apply bytewise_less. cbn [str_elem]. by intros [_ ?]%orb_false_iff. Qed.

Lemma bytewise_quest p s : bytewise (String quest_c p) s = true -> is_ascii s = true.
Proof. unfold bytewise. cbn [str_elem]. rewrite Ascii.eqb_refl. cbn [orb negb]. by rewrite orb_false_r. Qed.

Lemma DecodeRune_ascii c s :
  (byte_val c <? 128)%Z = true -> DecodeRune (String c s) = (byte_val c, 1).
Proof. intros H. cbn [DecodeRune]. by rewrite H. Qed.

Ltac eqb_false :=
  repeat match goal with
  | H : ?c <> ?d |- context [Ascii.eqb ?c ?d] => rewrite (proj2 (Ascii.eqb_neq c d) H)
  end.

Section MatchSimple.
Implicit Types (p q s t u v ch rest name : string).

Lemma matchChunk_failed n ch s :
  simple_pattern ch = true -> String.length ch < n ->
  matchChunk_fuel n ch s true = ChunkFail.
Proof.
  revert ch s. induction n as [|n IH]; intros [|c ch] s Hp Hn; try lia; [done|].
  apply simple_cons in Hp as (? & ? & Hp). simpl in Hn. cbn [matchChunk_fuel].
  rewrite orb_true_l. eqb_false. destruct (Ascii.eqb c quest_c); apply IH; auto; lia.
Qed.

Definition chunk_spec ch s (r : chunk_result) : Prop :=
  match r with
  | ChunkErr => False
  | ChunkFail => forall u t, s = u +:+ t -> ~ chunk_match ch u
  | ChunkOk t => exists u, s = u +:+ t /\ chunk_match ch u
  end.

Lemma chunk_match_cons_inv c p s :
  chunk_match (String c p) s ->
  exists d s', s = String d s' /\ chunk_match p s' /\
    if Ascii.eqb c quest_c then d <> slash_c else d = c.
Proof.
  inversion 1 as [|? ? s' ? ? Hm|d ? s' ? Hm]; subst.
  - exists c, s'. by eqb_false.
  - exists d, s'. by rewrite Ascii.eqb_refl.
Qed.

Lemma chunk_spec_fail_cons c d ch s :
  chunk_spec ch s ChunkFail -> chunk_spec (String c ch) (String d s) ChunkFail.
Proof.
  intros Hs u t Hu (e & u' & -> & Hm & _)%chunk_match_cons_inv.
  rewrite sapp_cons in Hu. injection Hu as <- ->. by eapply Hs.
Qed.

Lemma matchChunk_fuel_spec n ch s :
  simple_pattern ch = true -> str_elem star_c ch = false -> bytewise ch s = true ->
  String.length ch < n -> chunk_spec ch s (matchChunk_fuel n ch s false).
Proof.
  revert ch s. induction n as [|n IH]; intros [|c ch] s Hp Hst Ha Hn; try lia.
  { exists EmptyString. split; [done | constructor]. }
  apply simple_cons in Hp as (Hlb & Hbs & Hp). simpl in Hn.
  cbn [str_elem] in Hst. bool_prop. cbn [matchChunk_fuel].
  rewrite orb_false_l. eqb_false.
  destruct s as [|d s]; cbn [is_empty].
  { rewrite matchChunk_failed by (done || lia).
    destruct (Ascii.eqb c quest_c); intros u t Hu Hm;
      symmetry in Hu; apply sapp_eq_nil in Hu as [-> ->]; by inversion Hm. }
  cbn [str_head str_drop snd].
  assert (Hs : chunk_spec ch s (matchChunk_fuel n ch s false)).
  { apply IH; [done|done| |lia]. by apply bytewise_cons, bytewise_tail in Ha. }
  destruct (Ascii.eqb c quest_c) eqn:Eq.
  - assert (Hd : DecodeRune (String d s) = (byte_val d, 1)).
    { apply Ascii.eqb_eq in Eq as ->. apply bytewise_quest in Ha. cbn [is_ascii] in Ha. bool_prop.
      by apply DecodeRune_ascii. }
    rewrite Hd. cbn [snd str_drop]. destruct (Ascii.eqb d slash_c) eqn:Es.
    + rewrite matchChunk_failed by (done || lia).
      intros u t Hu (e & u' & -> & Hm & He)%chunk_match_cons_inv.
      rewrite sapp_cons in Hu. injection Hu as <- ->. rewrite Eq in He.
      bool_prop. congruence.
    + bool_prop. subst. destruct (matchChunk_fuel n ch s false); [done| |].
      * by apply chunk_spec_fail_cons.
      * destruct Hs as (u & -> & Hm). exists (String d u). rewrite sapp_cons.
        eauto with go.
  - destruct (Ascii.eqb c d) eqn:Ed; cbn [negb].
    + bool_prop. subst. destruct (matchChunk_fuel n ch s false); [done| |].
      * by apply chunk_spec_fail_cons.
      * destruct Hs as (u & -> & Hm). exists (String d u). rewrite sapp_cons.
        eauto with go.
    + rewrite matchChunk_failed by (done || lia).
      intros u t Hu (e & u' & -> & Hm & He)%chunk_match_cons_inv.
      rewrite sapp_cons in Hu. injection Hu as <- ->. rewrite Eq in He.
      bool_prop. congruence.
Qed.

Lemma matchChunk_spec ch s :
  simple_pattern ch = true -> str_elem star_c ch = false -> bytewise ch s = true ->
  chunk_spec ch s (matchChunk ch s).
Proof. intros. apply matchChunk_fuel_spec; auto. Qed.

(** What one chunk of the scan is. *)
Lemma scan_len_simple p :
  simple_pattern p = true ->
  str_elem star_c (str_take (scan_len false p) p) = false /\
  (str_drop (scan_len false p) p = EmptyString \/
   exists q, str_drop (scan_len false p) p = String star_c q).
Proof.
  induction p as [|c p IH]; intros Hp; [by split; [|left]|].
  apply simple_cons in Hp as (? & ? & Hp). specialize (IH Hp) as [IH1 IH2].
  cbn [scan_len]. eqb_false. cbn [negb]. rewrite andb_true_r.
  destruct (Ascii.eqb c rbrack_c) eqn:Er; [|destruct (Ascii.eqb c star_c) eqn:Es];
    bool_prop; subst; cbn [str_take str_drop str_elem].
  - done.
  - split; [done|]. right. by exists p.
  - rewrite IH1, orb_false_r. split; [|done]. by apply Ascii.eqb_neq.
Qed.

Lemma skip_stars_elem p c : c <> star_c -> str_elem c (skip_stars p).2 = str_elem c p.
Proof.
  intros Hc. induction p as [|d p IH]; [done|]. cbn [skip_stars]. destruct (Ascii.eqb_spec d star_c) as [->|]; [|done].
  cbn [snd str_elem]. rewrite IH. by rewrite (proj2 (Ascii.eqb_neq star_c c)).
Qed.

Lemma skip_stars_simple p :
  simple_pattern p = true ->
  simple_pattern (skip_stars p).2 = true /\
  (forall q, (skip_stars p).2 <> String star_c q) /\
  (forall s, glob p s <->
     if (skip_stars p).1 then glob (String star_c (skip_stars p).2) s
     else glob (skip_stars p).2 s).
Proof.
  induction p as [|c p IH]; intros Hp; [done|]. pose proof Hp as Hp'.
  apply simple_cons in Hp as (_ & _ & Hp). destruct (IH Hp) as (H1 & H2 & H3).
  cbn [skip_stars]. destruct (Ascii.eqb c star_c) eqn:E; bool_prop; cbn [fst snd].
  - subst. repeat split; auto.
    + rewrite !glob_star. setoid_rewrite H3.
      intros (v & t & -> & Hv & Hg). destruct (skip_stars p).1; [|eauto].
      apply glob_star in Hg as (v' & t' & -> & Hv' & Hg).
      exists (v +:+ v'), t'. rewrite sapp_assoc, str_elem_app, Hv, Hv'. done.
    + rewrite !glob_star. setoid_rewrite H3.
      intros (v & t & -> & Hv & Hg). exists v, t. repeat split; auto.
      destruct (skip_stars p).1; [by apply glob_star_skip | done].
  - repeat split; try done. congruence.
Qed.

(** The decompositions of a name that a star followed by [ch] may choose. *)
Definition star_split (last : bool) ch name v u t : Prop :=
  name = v +:+ u +:+ t /\ v <> EmptyString /\ str_elem slash_c v = false /\
  chunk_match ch u /\ (last = true -> t = EmptyString).

Definition star_spec last ch name (r : chunk_result) : Prop :=
  match r with
  | ChunkErr => False
  | ChunkFail => forall v u t, ~ star_split last ch name v u t
  | ChunkOk t => exists v u, star_split last ch name v u t /\
      forall v' u' t', star_split last ch name v' u' t' -> exists w, v' = v +:+ w
  end.

Lemma star_split_cons last ch c name v u t :
  star_split last ch (String c name) (String c v) u t <->
  c <> slash_c /\ ((v = EmptyString /\ name = u +:+ t /\ chunk_match ch u /\
                     (last = true -> t = EmptyString)) \/
                   star_split last ch name v u t).
Proof.
  unfold star_split. rewrite sapp_cons. cbn [str_elem]. split.
  - intros ([= ->] & _ & Hs & Hm & Hl). bool_prop. split; [done|].
    destruct v; [left|right]; rewrite ?sapp_nil_l; auto.
  - intros (Hc & [(-> & -> & Hm & Hl)|(-> & _ & Hs & Hm & Hl)]); eqb_false;
      repeat split; auto.
Qed.

Lemma star_split_head last ch c name v u t :
  star_split last ch (String c name) v u t -> exists v', v = String c v'.
Proof.
  intros (He & Hv & _). destruct v as [|d v]; [done|]. rewrite sapp_cons in He.
  injection He as -> _. eauto.
Qed.

Lemma star_spec_skip last ch c name r :
  c <> slash_c ->
  (forall u t, name = u +:+ t -> chunk_match ch u -> ~ (last = true -> t = EmptyString)) ->
  star_spec last ch name r -> star_spec last ch (String c name) r.
Proof.
  intros Hc Hno Hr. destruct r as [| |t]; cbn [star_spec] in *; [done| |].
  - intros v u t Hs. pose proof (star_split_head _ _ _ _ _ _ _ Hs) as [v' ->].
    apply star_split_cons in Hs as [_ [(_ & -> & Hm & Hl)|Hs]].
    + by eapply Hno.
    + by eapply Hr.
  - destruct Hr as (v & u & Hs & Hmin). exists (String c v), u. split.
    + apply star_split_cons. split; [done|]. by right.
    + intros v' u' t' Hs'. pose proof (star_split_head _ _ _ _ _ _ _ Hs') as [w ->].
      apply star_split_cons in Hs' as [_ [(_ & -> & Hm & Hl)|Hs']].
      * exfalso. by eapply Hno.
      * apply Hmin in Hs' as [w' ->]. exists w'. by rewrite sapp_cons.
Qed.

Lemma star_loop_spec last ch name :
  simple_pattern ch = true -> str_elem star_c ch = false -> bytewise ch name = true ->
  star_spec last ch name (star_loop ch last name).
Proof.
  intros Hp Hst. induction name as [|c name IH]; intros Ha.
  - intros v u t (He & Hv & _). symmetry in He. by apply sapp_eq_nil in He as [-> _].
  - apply bytewise_tail in Ha. cbn [star_loop].
    destruct (Ascii.eqb c slash_c) eqn:Ec; bool_prop.
    + subst. intros v u t Hs. pose proof (star_split_head _ _ _ _ _ _ _ Hs) as [v' ->].
      by apply star_split_cons in Hs as [? _].
    + pose proof (matchChunk_spec ch name Hp Hst ltac:(done)) as Hm.
      destruct (matchChunk ch name) as [| |t]; cbn [chunk_spec] in Hm; [done| |].
      * apply star_spec_skip; auto. intros u t He Hu _. by eapply Hm.
      * destruct Hm as (u & -> & Hu). destruct (last && negb (is_empty t)) eqn:El.
        -- bool_prop. subst. apply star_spec_skip; auto.
           intros u' t' He Hu' Ht. rewrite (Ht eq_refl), sapp_nil_r in He.
           apply (f_equal String.length) in He. rewrite slength_app in He.
           apply chunk_match_length in Hu. apply chunk_match_length in Hu'.
           destruct t; [done|]. simpl in He. lia.
        -- exists (String c EmptyString), u. split.
           ++ apply star_split_cons. split; [done|]. left. repeat split; auto.
              intros ->. simpl in El. apply is_empty_true. by destruct (is_empty t).
           ++ intros v' u' t' Hs'.
              pose proof (star_split_head _ _ _ _ _ _ _ Hs') as [w ->]. by exists w.
Qed.

(** All a scan gives on a simple pattern. *)
Lemma scanChunk_simple p star ch rest :
  simple_pattern p = true -> scanChunk p = (star, ch, rest) ->
  simple_pattern ch = true /\ simple_pattern rest = true /\
  str_elem star_c ch = false /\
  (rest = EmptyString \/ exists q, rest = String star_c q) /\
  (ch = EmptyString -> rest = EmptyString) /\
  (str_elem quest_c p = false -> str_elem quest_c ch = false /\ str_elem quest_c rest = false) /\
  forall s, glob p s <->
    if star then glob (String star_c (ch +:+ rest)) s else glob (ch +:+ rest) s.
Proof.
  intros Hp E. unfold scanChunk in E.
  destruct (skip_stars_simple p Hp) as (Hq & Hns & Hg).
  pose proof (skip_stars_elem p quest_c ltac:(done)) as Hqe.
  destruct (skip_stars p) as [b q]. cbn [fst snd] in *.
  destruct (scan_len_simple q Hq) as [Hst Hrest].
  pose proof (stake_drop_app (scan_len false q) q) as Happ.
  injection E as <- <- <-.
  rewrite <- Happ in Hq. apply simple_app in Hq as [Hch Hre].
  split; [done|]. split; [done|]. split; [done|]. split; [done|]. split; [|split].
  - intros He. destruct Hrest as [|[q' Hq']]; [done|].
    rewrite He, Hq', sapp_nil_l in Happ. by destruct (Hns q').
  - intros Hno. rewrite <- Hqe, <- Happ, str_elem_app in Hno. by apply orb_false_iff in Hno.
  - rewrite Happ. done.
Qed.

Lemma check_rest_simple n p :
  simple_pattern p = true -> String.length p < n -> check_rest n p = (false, false).
Proof.
  revert p. induction n as [|n IH]; intros p Hp Hn; [lia|]. cbn [check_rest].
  destruct (is_empty p) eqn:Ep; [done|]. apply is_empty_false in Ep.
  destruct (scanChunk p) as [[star ch] rest] eqn:E.
  pose proof (scanChunk_length _ _ _ _ Ep E).
  destruct (scanChunk_simple _ _ _ _ Hp E) as (Hch & Hre & Hst & _).
  pose proof (matchChunk_spec ch EmptyString Hch Hst eq_refl) as Hm.
  destruct (matchChunk _ _); [done| |]; apply IH; auto; lia.
Qed.

(** What is left to prove after a chunk without a star matched. *)
Lemma glob_chunk_rest ch rest u t :
  str_elem star_c ch = false -> chunk_match ch u ->
  glob (ch +:+ rest) (u +:+ t) <-> glob rest t.
Proof.
  intros Hst Hu. rewrite glob_chunk_app by done. split; [|eauto].
  intros (u' & t' & He & Hu' & Hg).
  apply chunk_match_length in Hu. apply chunk_match_length in Hu'.
  destruct (app_same_length_prefix _ _ _ _ He ltac:(lia)) as (w & -> & ->).
  rewrite slength_app in Hu'. destruct w; [done|]. simpl in Hu'. lia.
Qed.

(** What is left after a star and a chunk: the leftmost position decides. *)
Lemma glob_star_rest ch rest v u t :
  str_elem star_c ch = false -> str_elem slash_c v = false -> chunk_match ch u ->
  (rest = EmptyString /\ t = EmptyString \/ exists q, rest = String star_c q) ->
  (forall v' u' t', v +:+ u +:+ t = v' +:+ u' +:+ t' -> str_elem slash_c v' = false ->
      chunk_match ch u' -> glob rest t' -> exists w, v' = v +:+ w) ->
  glob (String star_c (ch +:+ rest)) (v +:+ u +:+ t) <-> glob rest t.
Proof.
  intros Hst Hv Hu Hrest Hmin. rewrite glob_star. split.
  - intros (v' & s' & He & Hv' & Hg). apply glob_chunk_app in Hg; [|done].
    destruct Hg as (u' & t' & -> & Hu' & Hg).
    destruct (Hmin _ _ _ He Hv' Hu' Hg) as [w ->].
    rewrite <- sapp_assoc in He. apply sapp_inj_l in He.
    destruct Hrest as [[-> ->]|[q ->]]; [constructor|].
    rewrite str_elem_app in Hv'. bool_prop. by apply (leftmost_enough ch q u t u' t' w).
  - intros Hg. exists v, (u +:+ t). split; [done|]. split; [done|].
    apply glob_chunk_app; eauto.
Qed.

Lemma glob_empty s : glob EmptyString s <-> s = EmptyString.
Proof. split; [by inversion 1 | intros ->; constructor]. Qed.

(** The branch taken when the chunk does not match at the current position. *)
Lemma Match_fallback n (star : bool) ch rest name :
  str_elem star_c ch = false -> bytewise rest name = true ->
  (rest = EmptyString \/ exists q, rest = String star_c q) ->
  star_spec (is_empty rest) ch name (star_loop ch (is_empty rest) name) ->
  (forall t, bytewise rest t = true -> exists b,
     Match_fuel n rest t = (b, false) /\ (b = true <-> glob rest t)) ->
  (forall u t, name = u +:+ t -> chunk_match ch u ->
     ~ (is_empty rest = true -> t = EmptyString)) ->
  exists b, (if star then
               match star_loop ch (is_empty rest) name with
               | ChunkErr => (false, true)
               | ChunkFail => (false, false)
               | ChunkOk t => Match_fuel n rest t
               end
             else (false, false)) = (b, false) /\
    (b = true <-> (if star then glob (String star_c (ch +:+ rest)) name
                   else glob (ch +:+ rest) name)).
Proof.
  intros Hst Ha Hrest Hl Hrec Hno.
  assert (Hlast : forall t, glob rest t -> is_empty rest = true -> t = EmptyString).
  { intros t Hg He. apply is_empty_true in He as ->. by apply glob_empty. }
  destruct star.
  2:{ exists false. split; [done|]. split; [done|].
      intros (u & t & -> & Hu & Hg)%glob_chunk_app; [|done]. exfalso.
      apply (Hno u t); eauto. }
  assert (Hsplit : forall v u t, name = v +:+ u +:+ t -> str_elem slash_c v = false ->
            chunk_match ch u -> glob rest t -> star_split (is_empty rest) ch name v u t).
  { intros v u t -> Hv Hu Hg. split; [done|]. split; [|eauto].
    intros ->. apply (Hno u t); eauto. }
  destruct (star_loop ch (is_empty rest) name) as [| |t]; cbn [star_spec] in Hl; [done| |].
  - exists false. split; [done|]. split; [done|].
    intros (v & s & -> & Hv & Hg)%glob_star. apply glob_chunk_app in Hg; [|done].
    destruct Hg as (u & t & -> & Hu & Hg). exfalso. eapply Hl. by apply Hsplit.
  - destruct Hl as (v & u & (-> & _ & Hv & Hu & Ht) & Hmin).
    apply bytewise_suffix, bytewise_suffix in Ha.
    destruct (Hrec t) as (b & Hb1 & Hb2); [done|]. exists b. split; [done|]. rewrite Hb2.
    rewrite glob_star_rest; [done..| |].
    + destruct Hrest as [->|]; [left; auto | by right].
    + intros. eapply Hmin. by apply Hsplit.
Qed.

Lemma Match_fuel_simple n p name :
  simple_pattern p = true -> bytewise p name = true -> String.length p < n ->
  exists b, Match_fuel n p name = (b, false) /\ (b = true <-> glob p name).
Proof.
  revert p name. induction n as [|n IH]; intros p name Hp Ha Hn; [lia|].
  cbn [Match_fuel]. destruct (is_empty p) eqn:Ep.
  { apply is_empty_true in Ep as ->. exists (is_empty name). split; [done|].
    rewrite glob_empty. split; [apply is_empty_true | by intros ->]. }
  apply is_empty_false in Ep. destruct (scanChunk p) as [[star ch] rest] eqn:E.
  pose proof (scanChunk_length _ _ _ _ Ep E) as Hlen.
  destruct (scanChunk_simple _ _ _ _ Hp E) as (Hch & Hre & Hst & Hrest & Hemp & Hqm & Hg).
  setoid_rewrite Hg. clear Hg E.
  assert (Hac : bytewise ch name = true) by (eapply bytewise_less; [|exact Ha]; tauto).
  assert (Har : bytewise rest name = true) by (eapply bytewise_less; [|exact Ha]; tauto).
  assert (Hrec : forall t, bytewise rest t = true -> exists b,
            Match_fuel n rest t = (b, false) /\ (b = true <-> glob rest t))
    by (intros; apply IH; auto; lia).
  destruct (star && is_empty ch) eqn:Ese.
  { bool_prop. apply is_empty_true in H0 as ->. rewrite H, Hemp by done.
    exists (negb (str_elem slash_c name)). split; [done|].
    rewrite negb_true_iff, sapp_nil_r, glob_star. setoid_rewrite glob_empty. split.
    - intros Hs. exists name, EmptyString. by rewrite sapp_nil_r.
    - intros (v & t & -> & Hv & ->). by rewrite sapp_nil_r. }
  pose proof (matchChunk_spec ch name Hch Hst Hac) as Hm.
  pose proof (star_loop_spec (is_empty rest) ch name Hch Hst Hac) as Hl.
  assert (Hcr : check_rest (S (String.length rest)) rest = (false, false))
    by (apply check_rest_simple; auto; lia).
  rewrite Hcr. clear Hcr.
  assert (Hfall :
    (forall u t, name = u +:+ t -> chunk_match ch u -> ~ (is_empty rest = true -> t = EmptyString)) ->
    exists b, (if star then
                 match star_loop ch (is_empty rest) name with
                 | ChunkErr => (false, true)
                 | ChunkFail => (false, false)
                 | ChunkOk t => Match_fuel n rest t
                 end
               else (false, false)) = (b, false) /\
      (b = true <-> (if star then glob (String star_c (ch +:+ rest)) name
                     else glob (ch +:+ rest) name))).
  { intros Hno. by apply Match_fallback. }
  destruct (matchChunk ch name) as [| |t] eqn:Em; cbn [chunk_spec] in Hm; [done| |].
  - apply Hfall. intros u t He Hu _. by eapply Hm.
  - destruct Hm as (u & -> & Hu).
    destruct (is_empty t || negb (is_empty rest)) eqn:Ec.
    + destruct (Hrec t) as (b & -> & Hb); [by apply bytewise_suffix in Har|]. exists b. split; [done|]. rewrite Hb.
      destruct star; [|by rewrite glob_chunk_rest].
      rewrite <- (sapp_nil_l (u +:+ t)), glob_star_rest; [done..| |].
      * destruct Hrest as [->|]; [|by right]. left. split; [done|].
        rewrite orb_false_r in Ec. by apply is_empty_true.
      * intros v' ? ? _ _ _ _. by exists v'.
    + apply Hfall. intros u' t' He Hu' Ht. apply orb_false_iff in Ec as [Et Er].
      rewrite (Ht ltac:(by apply negb_false_iff)), sapp_nil_r in He.
      apply (f_equal String.length) in He. rewrite slength_app in He.
      apply chunk_match_length in Hu. apply chunk_match_length in Hu'.
      destruct t; [done|]. simpl in He. lia.
Qed.
End MatchSimple.

(** On a pattern of literals, [?] and [*], and a name that is ASCII if there is a [?] (which
    takes a whole rune), [filepath.Match] never reports a bad pattern and answers the documented relation. *)
Lemma Match_simple p name :
  simple_pattern p = true -> bytewise p name = true ->
  exists b, Match p name = (b, false) /\ (b = true <-> glob p name).
Proof. intros. unfold Match. apply Match_fuel_simple; auto. Qed.
