(* ===== verification/Routes.v ===== *)
(** The route table: what the multiplexer promises to its clients.

    A route table maps a route (host name, optionally followed by a path, with
    optional wildcards) to the handlers serving it, each with the identity it was
    registered under.  This file gives the abstract operations, the meaning of
    "a route covers a request", and the [Router] interface the server is verified
    against; [Mux] implements it. *)

From S2P Require Import Prelude GoStrings Glob.

(** ** Routes *)

(** A route is a wildcard route when it holds one of [*?[]]. *)
Definition is_wildcard (route : string) : bool := ContainsAny route "*?[]".

(** [route_match route path]: a plain route covers every path it is a prefix of; a
    wildcard route must match as many leading path segments as it has itself. *)
Definition route_match (route path : string) : bool :=
  if negb (is_wildcard route) then HasPrefix path route
  else
    let parts := Split path slash in
    let n := length (Split route slash) in
    (n <=? length parts)%nat && (Match route (Join (take n parts) slash)).1.

(** Route [r] has priority over route [r']: it is plain while [r'] is a wildcard,
    or it is at least as long.  A plain route and a longer wildcard have priority over each
    other; which is found first depends on the order of adding them. *)
Definition route_prio (r r' : string) : Prop :=
  (is_wildcard r = false /\ is_wildcard r' = true) \/ String.length r' <= String.length r.

#[export] Instance route_prio_dec r r' : Decision (route_prio r r').
Proof. unfold route_prio. apply _. Defined.

(** ** Route tables *)

Section Table.
Context {H : Type}.

(** Drop the first pair registered under [id]. *)
Fixpoint drop_id (id : string) (l : list (H * string)) : list (H * string) :=
  match l with
  | [] => []
  | x :: l => if String.eqb x.2 id then l else x :: drop_id id l
  end.

Definition table_add (p : string) (h : H) (id : string)
    (t : gmap string (list (H * string))) : gmap string (list (H * string)) :=
  <[p := default [] (t !! p) ++ [(h, id)]]> t.

Definition table_remove (p id : string)
    (t : gmap string (list (H * string))) : gmap string (list (H * string)) :=
  match t !! p with
  | None => t
  | Some hs =>
      match drop_id id hs with
      | [] => delete p t
      | hs' => <[p := hs']> t
      end
  end.

(** Every route has fewer than 2^32 handlers (a count is kept in a [uint32]). *)
Definition small_table (t : gmap string (list (H * string))) : Prop :=
  map_Forall (fun _ hs => (Z.of_nat (length hs) < 2 ^ 32)%Z) t.

(** [p] is a best route of the table for [path]. *)
Definition best_route (t : gmap string (list (H * string))) (path p : string) : Prop :=
  p ∈ dom t /\ route_match p path = true /\
  forall p', p' ∈ dom t -> route_match p' path = true -> route_prio p p'.
End Table.

(** ** The interface of a router *)

(** What the server relies on: [rt_table] reads the router's state as a route
    table, [rt_ok] is the representation invariant. *)
Class Router (H M : Type) := {
  rt_table : M -> gmap string (list (H * string));
  rt_ok : M -> Prop;
  rt_empty : M;
  rt_add : M -> string -> H -> string -> M;
  rt_remove : M -> string -> string -> M;
  rt_lookup : M -> string -> outcome (option H * M)
}.

Class RouterLaws (H M : Type) `{Router H M} := {
  rt_empty_ok : rt_ok rt_empty /\ rt_table rt_empty = ∅;
  rt_add_ok m p h id :
    rt_ok m -> rt_ok (rt_add m p h id) /\
    rt_table (rt_add m p h id) = table_add p h id (rt_table m);
  rt_remove_ok m p id :
    rt_ok m -> rt_ok (rt_remove m p id) /\
    rt_table (rt_remove m p id) = table_remove p id (rt_table m);
  (** A lookup never panics and leaves the table alone. *)
  rt_lookup_ok m path :
    rt_ok m -> exists r m', rt_lookup m path = Return (r, m') /\
      rt_ok m' /\ rt_table m' = rt_table m;
  (** What it returns is registered for a best route of the path. *)
  rt_lookup_best m path h m' :
    rt_ok m -> small_table (rt_table m) -> rt_lookup m path = Return (Some h, m') ->
    exists p hs id, best_route (rt_table m) path p /\
      rt_table m !! p = Some hs /\ (h, id) ∈ hs;
  (** It returns nothing only when no route covers the path. *)
  rt_lookup_none m path m' :
    rt_ok m -> small_table (rt_table m) -> rt_lookup m path = Return (None, m') ->
    forall p, p ∈ dom (rt_table m) -> route_match p path = false
}.

Section TableLemmas.
Context {H : Type}.
Implicit Types (t : gmap string (list (H * string))) (p id : string) (h : H).

Lemma drop_id_app_last id h l :
  Forall (fun x => x.2 <> id) l -> drop_id id (l ++ [(h, id)]) = l.
Proof.
  induction 1 as [|x l Hx _ IH]; simpl; [by rewrite String.eqb_refl|].
  rewrite IH. by rewrite (proj2 (String.eqb_neq _ _) Hx).
Qed.

Lemma drop_id_sublist id (l : list (H * string)) : sublist (drop_id id l) l.
Proof.
  induction l as [|x l IH]; simpl; [constructor|].
  case_match; [by apply sublist_cons|]. by apply sublist_skip.
Qed.

Lemma drop_id_not_in id (l : list (H * string)) :
  id ∉ l.*2 -> drop_id id l = l.
Proof.
  induction l as [|x l IH]; simpl; [done|]. intros Hn.
  rewrite (proj2 (String.eqb_neq _ _)) by set_solver. rewrite IH; set_solver.
Qed.

(** Removing what was just added gives the table back. *)
Lemma table_remove_add p h id t :
  (forall hs, t !! p = Some hs -> hs <> [] /\ id ∉ hs.*2) ->
  table_remove p id (table_add p h id t) = t.
Proof.
  intros Ht. unfold table_remove, table_add. rewrite lookup_insert_eq.
  destruct (t !! p) as [hs|] eqn:E; simpl.
  - destruct (Ht hs eq_refl) as [Hne Hid]. rewrite drop_id_app_last.
    + destruct hs; [done|]. rewrite insert_insert_eq. by apply insert_id.
    + apply Forall_forall. intros x Hx Hn. apply Hid. subst.
      apply list_elem_of_fmap. eauto.
  - rewrite String.eqb_refl, delete_insert_eq. by apply delete_id.
Qed.

Lemma table_add_other p p' h id t :
  p <> p' -> table_add p h id t !! p' = t !! p'.
Proof. intros. unfold table_add. by rewrite lookup_insert_ne. Qed.

Lemma table_remove_other p p' id t :
  p <> p' -> table_remove p id t !! p' = t !! p'.
Proof.
  intros. unfold table_remove. destruct (t !! p); [|done].
  destruct (drop_id _ _); [by rewrite lookup_delete_ne | by rewrite lookup_insert_ne].
Qed.
End TableLemmas.

Section Segments.
Implicit Types (s t pre path rest : string) (c : ascii).

Lemma length_split_byte s c : length (split_byte s c) = S (CountByte s c).
Proof.
  induction s as [|d s IH]; simpl; [done|]. destruct (Ascii.eqb d c); simpl; [lia|].
  destruct (split_byte s c); [done|]. done.
Qed.

Lemma Join_app l1 l2 sep :
  l1 <> [] -> l2 <> [] -> Join (l1 ++ l2) sep = Join l1 sep +:+ sep +:+ Join l2 sep.
Proof.
  intros H1 H2. induction l1 as [|w l1 IH]; [done|]. destruct l1 as [|v l1].
  - by rewrite <- Join_cons.
  - cbn [app]. rewrite (Join_cons w) by done. rewrite (Join_cons w) by done.
    rewrite <- !sapp_assoc. do 2 f_equal. by apply IH.
Qed.

(** [pre] is [path] or its leading segments. *)
Definition segment_prefix (pre path : string) : Prop :=
  path = pre \/ exists rest, path = pre +:+ slash +:+ rest.

Lemma Split_slash s : Split s slash = split_byte s slash_c.
Proof. apply Split_byte. Qed.

Lemma take_segments pre path :
  segment_prefix pre path ->
  take (length (Split pre slash)) (Split path slash) = Split pre slash.
Proof.
  rewrite !Split_slash. intros [->|[rest ->]].
  - by rewrite firstn_all.
  - unfold slash. rewrite sapp_cons, sapp_nil_l, split_byte_app_sep.
    by rewrite take_app_length.
Qed.

Lemma Join_segments n path :
  1 <= n <= length (Split path slash) ->
  segment_prefix (Join (take n (Split path slash)) slash) path.
Proof.
  intros Hn. rewrite <- (Join_Split path slash) at 2.
  destruct (decide (n = length (Split path slash))) as [->|Hne].
  - left. by rewrite firstn_all.
  - right. exists (Join (drop n (Split path slash)) slash).
    rewrite <- Join_app, take_drop; [done| |].
    + intros Ht%(f_equal length). rewrite length_take in Ht. simpl in Ht. lia.
    + intros Ht%(f_equal length). rewrite length_drop in Ht. simpl in Ht. lia.
Qed.

(** Stars and question marks never cover a slash, so a matched name has as
    many segments as the pattern. *)
Lemma glob_segments p s : glob p s -> CountByte s slash_c = CountByte p slash_c.
Proof.
  induction 1 as [|c p s _ _ _ IH|c p s Hc _ IH|p s _ IH|c p s Hc _ IH]; cbn [CountByte];
    [done | by rewrite IH | | done |]; eqb_false; exact IH.
Qed.

Lemma bytewise_segments p pre path : segment_prefix pre path -> bytewise p path = true -> bytewise p pre = true.
Proof. intros [->|[rest ->]]; [done|]. apply bytewise_prefix. Qed.

(** A wildcard route of literals, [?] and [*] covers a path exactly when it
    matches some leading segments of the path. *)
Lemma route_match_wildcard route path :
  is_wildcard route = true -> simple_pattern route = true -> bytewise route path = true ->
  route_match route path = true <-> exists pre, segment_prefix pre path /\ glob route pre.
Proof.
  intros Hw Hs Ha. unfold route_match. rewrite Hw. cbn [negb].
  assert (Hn : 1 <= length (Split route slash)).
  { rewrite Split_slash, length_split_byte. lia. }
  rewrite andb_true_iff, Nat.leb_le. split.
  - intros [Hle Hm]. exists (Join (take (length (Split route slash)) (Split path slash)) slash).
    split; [by apply Join_segments|].
    destruct (Match_simple route (Join (take (length (Split route slash)) (Split path slash)) slash))
      as (b & Hb & Hg); [done | eapply bytewise_segments; [by apply Join_segments|done]|].
    rewrite Hb in Hm. by apply Hg.
  - intros (pre & Hpre & Hg).
    assert (Hl : length (Split pre slash) = length (Split route slash)).
    { rewrite !Split_slash, !length_split_byte. f_equal. by apply glob_segments. }
    rewrite <- Hl, (take_segments _ _ Hpre), Join_Split. split.
    + rewrite <- (take_segments _ _ Hpre), length_take. lia.
    + destruct (Match_simple route pre) as (b & Hb & Hg'); [done|by eapply bytewise_segments|].
      rewrite Hb. by apply Hg'.
Qed.
End Segments.
