(* ===== verification/Mux.v ===== *)
(** pkg/mux/mux.go: the load-balancing multiplexer.

    [m.entries] and [m.entryMap] hold pointers to the same [muxEntry] objects,
    so the model keeps a heap of entries; a pointer is a heap index, allocation
    appends.  [RWMutex] gives each method the whole state, so a method is one
    state transformer; [Handler] runs under the read lock and only advances the
    atomic round-robin counter of one entry. *)

From S2P Require Import Prelude GoStrings Glob Routes.

Local Open Scope go_scope.

Module Mux.
Section Mux.
Context {H : Type}.

(** ** State *)

Record muxHandler := mk_muxHandler { mh_handler : H; mh_id : string }.

Record muxEntry := mk_muxEntry {
  e_path : string;
  e_handlers : list muxHandler;
  e_next : Z;                     (* uint32 *)
  e_wildcard : bool;
  e_parts : list string
}.

Record Mux := mk_Mux {
  m_heap : list muxEntry;
  m_entries : list nat;
  m_entryMap : gmap string nat
}.

(** The zero value [mux.Mux{}]; a nil map reads as the empty one. *)
Definition empty_Mux : Mux := mk_Mux [] [] ∅.

Definition dummy_entry : muxEntry := mk_muxEntry EmptyString [] 0 false [].

(** [*l]; pointers held by the mux are allocated, see [wf]. *)
Definition deref (heap : list muxEntry) (l : nat) : muxEntry :=
  default dummy_entry (heap !! l).

(** ** Methods of [muxEntry] *)

Definition entry_match (e : muxEntry) (path : string) : bool :=
  if negb (e_wildcard e) then
    if (String.length path <? String.length (e_path e))%nat then false
    else HasPrefix path (e_path e)
  else
    let parts := Split path slash in
    if (length parts <? length (e_parts e))%nat then false
    else
      let parts := take (length (e_parts e)) parts in
      (Match (e_path e) (Join parts slash)).1.

Definition entry_matchHost (e : muxEntry) (host : string) : outcome bool :=
  let! part0 := slice_get (e_parts e) 0 in
  if negb (e_wildcard e) then Return (String.eqb part0 host)
  else Return (Match part0 host).1.

Definition entry_add (e : muxEntry) (handler : H) (id : string) : muxEntry :=
  mk_muxEntry (e_path e) (e_handlers e ++ [mk_muxHandler handler id])
    (e_next e) (e_wildcard e) (e_parts e).

(** The loop of [remove]: [i] counts the handlers already passed. *)
Fixpoint remove_loop (all rest : list muxHandler) (i : nat) (id : string) : list muxHandler :=
  match rest with
  | [] => all
  | h :: rest =>
      if String.eqb (mh_id h) id then remove_at i all
      else remove_loop all rest (S i) id
  end.

Definition entry_remove (e : muxEntry) (id : string) : muxEntry :=
  mk_muxEntry (e_path e) (remove_loop (e_handlers e) (e_handlers e) 0 id)
    (e_next e) (e_wildcard e) (e_parts e).

(** [handler()]: the result and the entry after [atomic.AddUint32]. *)
Definition entry_handler (e : muxEntry) : outcome (option H * muxEntry) :=
  let handlersCount := u32_wrap (Z.of_nat (length (e_handlers e))) in
  if (handlersCount =? 0)%Z then Return (None, e)
  else
    let next1 := u32_add (e_next e) 1 in
    let e' := mk_muxEntry (e_path e) (e_handlers e) next1 (e_wildcard e) (e_parts e) in
    let next := Z.to_nat (next1 mod handlersCount)%Z in
    let! h := slice_get (e_handlers e) next in
    Return (Some (mh_handler h), e').

(** ** Methods of [Mux] *)

Definition new_entry (path : string) : muxEntry :=
  mk_muxEntry path [] 0 (ContainsAny path "*?[]") (Split path slash).

(** First position of [m.entries] the new entry is inserted at, if any. *)
Fixpoint insert_pos (entry : muxEntry) (others : list muxEntry) : option nat :=
  match others with
  | [] => None
  | other :: others =>
      if e_wildcard entry && negb (e_wildcard other) then S <$> insert_pos entry others
      else if (String.length (e_path other) <? String.length (e_path entry))%nat then Some 0
      else S <$> insert_pos entry others
  end.

Definition Add (m : Mux) (path : string) (handler : H) (id : string) : Mux :=
  match m_entryMap m !! path with
  | Some l =>
      mk_Mux (<[l := entry_add (deref (m_heap m) l) handler id]> (m_heap m))
        (m_entries m) (m_entryMap m)
  | None =>
      let entry := entry_add (new_entry path) handler id in
      let l := length (m_heap m) in
      let heap := m_heap m ++ [entry] in
      let entryMap := <[path := l]> (m_entryMap m) in
      match insert_pos entry (deref heap <$> m_entries m) with
      | Some i => mk_Mux heap (insert_at i l (m_entries m)) entryMap
      | None => mk_Mux heap (m_entries m ++ [l]) entryMap
      end
  end.

Definition Remove (m : Mux) (path id : string) : Mux :=
  match m_entryMap m !! path with
  | None => m
  | Some l =>
      let entry := entry_remove (deref (m_heap m) l) id in
      mk_Mux (<[l := entry]> (m_heap m)) (m_entries m)
        (if (length (e_handlers entry) =? 0)%nat
         then delete path (m_entryMap m) else m_entryMap m)
  end.

Fixpoint contains_loop (es : list muxEntry) (path : string) : bool :=
  match es with
  | [] => false
  | entry :: es => if entry_match entry path then false else contains_loop es path
  end.

Definition Contains (m : Mux) (path : string) : bool :=
  contains_loop (deref (m_heap m) <$> m_entries m) path.

Fixpoint containsHost_loop (es : list muxEntry) (host : string) : outcome bool :=
  match es with
  | [] => Return false
  | entry :: es =>
      let! b := entry_matchHost entry host in
      if b : bool then Return false else containsHost_loop es host
  end.

Definition ContainsHost (m : Mux) (host : string) : outcome bool :=
  containsHost_loop (deref (m_heap m) <$> m_entries m) host.

Fixpoint handler_loop (heap : list muxEntry) (ls : list nat) (path : string)
    : outcome (option H * list muxEntry) :=
  match ls with
  | [] => Return (None, heap)
  | l :: ls =>
      if entry_match (deref heap l) path then
        let! (h, e) := entry_handler (deref heap l) in
        let heap := <[l := e]> heap in
        match h with
        | Some h => Return (Some h, heap)
        | None => handler_loop heap ls path
        end
      else handler_loop heap ls path
  end.

Definition Handler (m : Mux) (path : string) : outcome (option H * Mux) :=
  let! (h, heap) := handler_loop (m_heap m) (m_entries m) path in
  Return (h, mk_Mux heap (m_entries m) (m_entryMap m)).

(** ** The route table a mux stands for *)

Definition pair_of (h : muxHandler) : H * string := (mh_handler h, mh_id h).

Definition table (m : Mux) : gmap string (list (H * string)) :=
  (fun l => pair_of <$> e_handlers (deref (m_heap m) l)) <$> m_entryMap m.

(** An entry as [Add] builds it. *)
Definition entry_ok (e : muxEntry) : Prop :=
  e_wildcard e = is_wildcard (e_path e) /\ e_parts e = Split (e_path e) slash /\
  u32_range (e_next e).

Definition entry_prio (a b : muxEntry) : Prop := route_prio (e_path a) (e_path b).

(** Representation invariant: the slice lists every allocated entry once, in
    priority order; an entry is in the map exactly while it has handlers. *)
Record wf (m : Mux) : Prop := {
  wf_entries : m_entries m ≡ₚ seq 0 (length (m_heap m));
  wf_heap : Forall entry_ok (m_heap m);
  wf_sorted : StronglySorted entry_prio (deref (m_heap m) <$> m_entries m);
  wf_map p l : m_entryMap m !! p = Some l ->
    exists e, m_heap m !! l = Some e /\ e_path e = p /\ e_handlers e <> [];
  wf_live l e : m_heap m !! l = Some e -> e_handlers e <> [] ->
    m_entryMap m !! e_path e = Some l
}.
(** ** Entries *)

Implicit Types (m : Mux) (e : muxEntry) (l : nat) (p path id : string) (h : H).

Lemma entry_match_route e path :
  entry_ok e -> entry_match e path = route_match (e_path e) path.
Proof.
  intros (Hw & Hp & _). unfold entry_match, route_match. rewrite Hw, Hp.
  destruct (is_wildcard (e_path e)); simpl.
  - by rewrite Nat.ltb_antisym, negb_if; destruct (_ <=? _)%nat.
  - destruct (String.length path <? String.length (e_path e))%nat eqn:E; [|done].
    bool_prop. destruct (HasPrefix path (e_path e)) eqn:Hpre; [|done].
    apply HasPrefix_length in Hpre. lia.
Qed.

Lemma new_entry_ok p : entry_ok (new_entry p).
Proof. repeat split; simpl; lia. Qed.

(** [e'] differs from [e] in its handlers and counter only. *)
Definition same_route e e' : Prop := e_path e' = e_path e /\ (entry_ok e -> entry_ok e').

Lemma entry_add_same e h id : same_route e (entry_add e h id).
Proof. done. Qed.

Lemma entry_remove_same e id : same_route e (entry_remove e id).
Proof. done. Qed.

Lemma entry_handler_spec e :
  exists r e', entry_handler e = Return (r, e') /\ same_route e e' /\
    e_handlers e' = e_handlers e /\
    match r with
    | None => u32_wrap (Z.of_nat (length (e_handlers e))) = 0%Z
    | Some h => exists i x, e_handlers e !! i = Some x /\ mh_handler x = h
    end.
Proof.
  unfold entry_handler. destruct (_ =? 0)%Z eqn:E0.
  { apply Z.eqb_eq in E0. by exists None, e. }
  apply Z.eqb_neq in E0. set (n := u32_wrap (Z.of_nat _)) in *.
  set (i := Z.to_nat _).
  assert (Hn : (0 < n <= Z.of_nat (length (e_handlers e)))%Z).
  { pose proof (u32_wrap_range (Z.of_nat (length (e_handlers e)))) as [Hr _].
    fold n in Hr. split; [lia|]. apply Z.mod_le; lia. }
  assert (Hi : i < length (e_handlers e)).
  { pose proof (Z.mod_pos_bound (u32_add (e_next e) 1) n ltac:(lia)). lia. }
  apply lookup_lt_is_Some_2 in Hi as [x Hx]. unfold slice_get. rewrite Hx. simpl.
  do 2 eexists. split; [done|]. split.
  - split; [done|]. intros (? & ? & _). repeat split; auto; apply u32_wrap_range.
  - split; [done|]. by exists i, x.
Qed.

(** The deletion loop removes the first handler registered under the id. *)
Lemma remove_loop_spec (pre rest : list muxHandler) id :
  pair_of <$> remove_loop (pre ++ rest) rest (length pre) id =
  (pair_of <$> pre) ++ drop_id id (pair_of <$> rest).
Proof.
  revert pre. induction rest as [|x rest IH]; intros pre.
  - cbn [remove_loop]. by rewrite fmap_app.
  - cbn [remove_loop fmap list_fmap drop_id pair_of snd].
    destruct (String.eqb (mh_id x) id).
    + by rewrite remove_at_app, fmap_app.
    + replace (S (length pre)) with (length (pre ++ [x]))
        by (rewrite length_app; simpl; lia).
      specialize (IH (pre ++ [x])). rewrite <- app_assoc in IH. simpl in IH.
      rewrite IH, fmap_app, <- app_assoc. done.
Qed.

Lemma entry_remove_handlers e id :
  pair_of <$> e_handlers (entry_remove e id) = drop_id id (pair_of <$> e_handlers e).
Proof. apply (remove_loop_spec [] (e_handlers e) id). Qed.

(** ** The heap *)

Lemma deref_lookup heap l e : heap !! l = Some e -> deref heap l = e.
Proof. unfold deref. by intros ->. Qed.

Lemma deref_insert heap l l' e :
  l < length heap -> deref (<[l := e]> heap) l' = if decide (l = l') then e else deref heap l'.
Proof.
  intros Hl. unfold deref. case_decide; subst.
  - by rewrite list_lookup_insert_eq.
  - by rewrite list_lookup_insert_ne.
Qed.

Lemma deref_app heap e l : l < length heap -> deref (heap ++ [e]) l = deref heap l.
Proof. intros. unfold deref. by rewrite lookup_app_l. Qed.

Lemma wf_entries_lt m l : wf m -> l ∈ m_entries m -> l < length (m_heap m).
Proof.
  intros Hwf. rewrite (wf_entries m Hwf), elem_of_seq. lia.
Qed.

Lemma wf_entry_ok m l : wf m -> l ∈ m_entries m -> entry_ok (deref (m_heap m) l).
Proof.
  intros Hwf Hl. pose proof (wf_entries_lt m l Hwf Hl) as Hlt.
  apply lookup_lt_is_Some_2 in Hlt as [e He]. rewrite (deref_lookup _ _ _ He).
  pose proof (wf_heap m Hwf) as Hf. rewrite Forall_lookup in Hf. by eapply Hf.
Qed.

Lemma fmap_deref_insert heap (ls : list nat) l e :
  l < length heap -> e_path e = e_path (deref heap l) ->
  e_path <$> (deref (<[l := e]> heap) <$> ls) = e_path <$> (deref heap <$> ls).
Proof.
  intros Hl He. rewrite <- !list_fmap_compose. apply list_fmap_ext.
  intros _ x _. simpl. rewrite deref_insert by done. case_decide; [by subst | done].
Qed.

Lemma sorted_by_path (es : list muxEntry) :
  StronglySorted entry_prio es <-> StronglySorted route_prio (e_path <$> es).
Proof.
  induction es as [|e es IH]; simpl; [by split; constructor|].
  split; inversion_clear 1; constructor; try by apply IH.
  - rewrite Forall_fmap. done.
  - rewrite Forall_fmap in H2. done.
Qed.

Lemma table_lookup m p :
  table m !! p = (fun l => pair_of <$> e_handlers (deref (m_heap m) l)) <$> m_entryMap m !! p.
Proof. unfold table. by rewrite lookup_fmap. Qed.

Lemma dom_table m : dom (table m) = dom (m_entryMap m).
Proof. unfold table. apply dom_fmap_L. Qed.

(** ** The priority order *)

(** The slice after the insertion loop. *)
Definition insert_entry (e : muxEntry) (es : list muxEntry) : list muxEntry :=
  match insert_pos e es with
  | Some i => insert_at i e es
  | None => es ++ [e]
  end.

Lemma insert_entry_cons e o es :
  insert_entry e (o :: es) =
  if negb (e_wildcard e && negb (e_wildcard o)) &&
     (String.length (e_path o) <? String.length (e_path e))%nat
  then e :: o :: es else o :: insert_entry e es.
Proof.
  unfold insert_entry. cbn [insert_pos].
  destruct (e_wildcard e && negb (e_wildcard o)); simpl.
  { by destruct (insert_pos e es). }
  destruct (_ <? _)%nat; [done|]. by destruct (insert_pos e es).
Qed.

Lemma insert_entry_Permutation e es : insert_entry e es ≡ₚ e :: es.
Proof.
  unfold insert_entry. destruct (insert_pos e es).
  - apply insert_at_Permutation.
  - by rewrite Permutation_app_comm.
Qed.

Lemma insert_entry_sorted e es :
  entry_ok e -> Forall entry_ok es -> StronglySorted entry_prio es ->
  StronglySorted entry_prio (insert_entry e es).
Proof.
  intros [He _] Hok Hs. induction Hs as [|o es Hs IH Ho].
  { cbn. repeat constructor. }
  inversion_clear Hok as [|?? [Hwo _] Hok']. rewrite insert_entry_cons.
  rewrite He, Hwo. unfold entry_prio, route_prio in *.
  destruct (negb _ && _) eqn:E; bool_prop.
  - constructor; [by constructor|]. constructor; [by right; lia|].
    eapply Forall_impl; [exact Ho|]. simpl. intros x [[Hpo Hwx]|Hl]; [|right; lia].
    rewrite Hpo in *. rewrite andb_true_r in *. by left.
  - constructor; [by apply IH|]. rewrite insert_entry_Permutation. constructor; [|done].
    apply andb_false_iff in E as [E|E]; bool_prop; [left; done | right; lia].
Qed.

(** ** Preservation of the invariant *)

Lemma empty_wf : wf empty_Mux.
Proof. by split; try constructor. Qed.

(** Updating one entry in place, with the map adjusted for that entry only. *)
Lemma wf_set m l e e' (map' : gmap string nat) :
  wf m -> m_heap m !! l = Some e -> same_route e e' ->
  (forall p l', map' !! p = Some l' -> m_entryMap m !! p = Some l' /\
     (l' = l -> e_handlers e' <> [])) ->
  (forall p l', m_entryMap m !! p = Some l' -> l' <> l -> map' !! p = Some l') ->
  (e_handlers e' <> [] -> map' !! e_path e = Some l) ->
  wf (mk_Mux (<[l := e']> (m_heap m)) (m_entries m) map').
Proof.
  intros Hwf Hl [Hp Hok] Hm1 Hm2 Hm3.
  pose proof (lookup_lt_Some _ _ _ Hl) as Hlt. split; simpl.
  - rewrite length_insert. apply (wf_entries m Hwf).
  - pose proof (wf_heap m Hwf) as Hh. apply Forall_insert; [done|].
    rewrite Forall_lookup in Hh. eauto.
  - apply sorted_by_path. rewrite fmap_deref_insert; [|done|].
    + apply sorted_by_path, (wf_sorted m Hwf).
    + by rewrite (deref_lookup _ _ _ Hl).
  - intros p l' [Hmap Hne]%Hm1. destruct (wf_map m Hwf _ _ Hmap) as (e0 & He0 & Hp0 & Hh0).
    destruct (decide (l = l')) as [<-|].
    + exists e'. rewrite list_lookup_insert_eq by done. simplify_eq. auto.
    + exists e0. by rewrite list_lookup_insert_ne.
  - intros l' e0 He0 Hne. destruct (decide (l = l')) as [<-|].
    + rewrite list_lookup_insert_eq in He0 by done. simplify_eq. rewrite Hp. auto.
    + rewrite list_lookup_insert_ne in He0 by done.
      apply Hm2; [|done]. by apply (wf_live m Hwf).
Qed.

(** Replacing an entry by one with the same handlers changes nothing a client sees. *)
Lemma wf_counter m l e e' :
  wf m -> m_heap m !! l = Some e -> same_route e e' -> e_handlers e' = e_handlers e ->
  let m' := mk_Mux (<[l := e']> (m_heap m)) (m_entries m) (m_entryMap m) in
  wf m' /\ table m' = table m.
Proof.
  intros Hwf Hl Hs Hh m'. split.
  - eapply wf_set; eauto.
    + intros p l' Hp. split; [done|]. intros ->. rewrite Hh.
      destruct (wf_map m Hwf _ _ Hp) as (e0 & ? & _ & ?). by simplify_eq.
    + rewrite Hh. by apply (wf_live m Hwf).
  - apply map_eq. intros p. rewrite !table_lookup. simpl.
    destruct (m_entryMap m !! p) as [l'|]; [|done]. simpl.
    rewrite deref_insert by (by eapply lookup_lt_Some). case_decide; [|done].
    subst. by rewrite Hh, (deref_lookup _ _ _ Hl).
Qed.

Lemma Add_existing_wf m path h id l :
  wf m -> m_entryMap m !! path = Some l ->
  wf (Add m path h id) /\ table (Add m path h id) = table_add path h id (table m).
Proof.
  intros Hwf Hl. unfold Add. rewrite Hl.
  destruct (wf_map m Hwf _ _ Hl) as (e & He & Hp & Hh). rewrite (deref_lookup _ _ _ He).
  assert (Hne : e_handlers (entry_add e h id) <> []) by (simpl; by destruct (e_handlers e)).
  split.
  - eapply wf_set; eauto using entry_add_same. intros _. by subst.
  - apply map_eq. intros p. unfold table_add. rewrite table_lookup. simpl.
    destruct (decide (path = p)) as [<-|Hpp].
    + rewrite lookup_insert_eq, table_lookup, Hl. simpl.
      rewrite deref_insert by (by eapply lookup_lt_Some).
      rewrite decide_True by done. simpl.
      by rewrite fmap_app, (deref_lookup _ _ _ He).
    + rewrite lookup_insert_ne by done. rewrite table_lookup.
      destruct (m_entryMap m !! p) as [l'|] eqn:El'; [|done]. simpl.
      rewrite deref_insert by (by eapply lookup_lt_Some). case_decide; [|done]. subst.
      destruct (wf_map m Hwf _ _ El') as (e0 & ? & ? & _). by simplify_eq.
Qed.

Lemma fmap_insert_at {A B} (f : A -> B) i x (xs : list A) :
  f <$> insert_at i x xs = insert_at i (f x) (f <$> xs).
Proof. unfold insert_at. by rewrite fmap_app, fmap_cons, fmap_take, fmap_drop. Qed.

(** The branch of [Add] that allocates, in terms of [insert_entry]. *)
Lemma Add_new_entries m path h id :
  wf m -> m_entryMap m !! path = None ->
  let entry := entry_add (new_entry path) h id in
  exists ls, Add m path h id =
    mk_Mux (m_heap m ++ [entry]) ls (<[path := length (m_heap m)]> (m_entryMap m)) /\
    ls ≡ₚ length (m_heap m) :: m_entries m /\
    deref (m_heap m ++ [entry]) <$> ls =
      insert_entry entry (deref (m_heap m) <$> m_entries m).
Proof.
  intros Hwf Hm entry. unfold Add, insert_entry. rewrite Hm. fold entry. cbv zeta.
  assert (Hlast : deref (m_heap m ++ [entry]) (length (m_heap m)) = entry).
  { unfold deref. by rewrite lookup_app_r, Nat.sub_diag by done. }
  assert (Hold : deref (m_heap m ++ [entry]) <$> m_entries m = deref (m_heap m) <$> m_entries m).
  { apply list_fmap_ext. intros ? l Hl. apply deref_app.
    apply (wf_entries_lt m); [done|]. by eapply list_elem_of_lookup_2. }
  rewrite Hold. destruct (insert_pos _ _) as [i|]; eexists; (split; [done|]); split.
  - apply insert_at_Permutation.
  - by rewrite fmap_insert_at, Hlast, Hold.
  - by rewrite Permutation_app_comm.
  - rewrite fmap_app, Hold. cbn. by rewrite Hlast.
Qed.

Lemma wf_deref_ok m : wf m -> Forall entry_ok (deref (m_heap m) <$> m_entries m).
Proof.
  intros Hwf. rewrite Forall_fmap. apply Forall_forall.
  intros l Hl. by apply wf_entry_ok.
Qed.

Lemma Add_new_wf m path h id :
  wf m -> m_entryMap m !! path = None -> wf (Add m path h id).
Proof.
  intros Hwf Hm. destruct (Add_new_entries m path h id Hwf Hm) as (ls & -> & Hp & Hd).
  set (entry := entry_add (new_entry path) h id) in *.
  assert (Hok : entry_ok entry) by apply new_entry_ok.
  split; simpl.
  - rewrite Hp, (wf_entries m Hwf), length_app, seq_app. simpl.
    by rewrite <- Permutation_cons_append.
  - apply Forall_app. split; [apply (wf_heap m Hwf) | by constructor].
  - rewrite Hd. apply insert_entry_sorted; [done | by apply wf_deref_ok | apply (wf_sorted m Hwf)].
  - intros p l. rewrite lookup_insert_Some. intros [[<- <-]|[Hne Hl]].
    + exists entry. by rewrite lookup_app_r, Nat.sub_diag.
    + destruct (wf_map m Hwf _ _ Hl) as (e & He & ? & ?). exists e.
      split; [by apply lookup_app_l_Some | done].
  - intros l e [Hl|[Hl He]]%lookup_app_Some Hne.
    + assert (Hl' := wf_live m Hwf _ _ Hl Hne). rewrite lookup_insert_ne; congruence.
    + apply list_lookup_singleton_Some in He as [Hz <-].
      replace l with (length (m_heap m)) by lia. by rewrite lookup_insert_eq.
Qed.

Lemma Add_new_table m path h id :
  wf m -> m_entryMap m !! path = None ->
  table (Add m path h id) = table_add path h id (table m).
Proof.
  intros Hwf Hm. destruct (Add_new_entries m path h id Hwf Hm) as (ls & -> & _ & _).
  apply map_eq. intros p. unfold table_add. rewrite !table_lookup, Hm. simpl.
  destruct (decide (path = p)) as [<-|Hne].
  - rewrite !lookup_insert_eq. simpl. unfold deref.
    by rewrite lookup_app_r, Nat.sub_diag by done.
  - rewrite !lookup_insert_ne, table_lookup by done.
    destruct (m_entryMap m !! p) as [l|] eqn:El; [|done]. simpl.
    destruct (wf_map m Hwf _ _ El) as (e & He & _).
    rewrite deref_app; [done | by eapply lookup_lt_Some].
Qed.

Lemma Add_wf m path h id :
  wf m -> wf (Add m path h id) /\ table (Add m path h id) = table_add path h id (table m).
Proof.
  intros Hwf. destruct (m_entryMap m !! path) as [l|] eqn:Hl.
  - by eapply Add_existing_wf.
  - split; [by apply Add_new_wf | by apply Add_new_table].
Qed.

Lemma Remove_wf m path id : wf m -> wf (Remove m path id).
Proof.
  intros Hwf. unfold Remove. destruct (m_entryMap m !! path) as [l|] eqn:Hl; [|done].
  destruct (wf_map m Hwf _ _ Hl) as (e & He & Hp & Hh). rewrite (deref_lookup _ _ _ He).
  cbv zeta. set (e' := entry_remove e id).
  eapply wf_set; [done | done | apply entry_remove_same | | |].
  all: destruct (length (e_handlers e') =? 0)%nat eqn:E; bool_prop.
  - intros p l' Hl'. apply lookup_delete_Some in Hl' as [Hne Hl']. split; [done|].
    intros ->. destruct (wf_map m Hwf _ _ Hl') as (e0 & ? & ? & _). by simplify_eq.
  - intros p l' Hl'. split; [done|]. intros _ He'. apply E.
    subst e'. by rewrite He'.
  - intros p l' Hl' Hne. rewrite lookup_delete_ne; [done|]. intros <-. by simplify_eq.
  - done.
  - apply nil_length_inv in E. by rewrite E.
  - intros _. by rewrite Hp.
Qed.

Lemma Remove_table m path id :
  wf m -> table (Remove m path id) = table_remove path id (table m).
Proof.
  intros Hwf. unfold table_remove. rewrite table_lookup. unfold Remove.
  destruct (m_entryMap m !! path) as [l|] eqn:Hl; [|done].
  cbn [fmap option_fmap option_map].
  destruct (wf_map m Hwf _ _ Hl) as (e & He & Hp & Hh). rewrite (deref_lookup _ _ _ He).
  rewrite <- entry_remove_handlers. cbv zeta. set (e' := entry_remove e id).
  assert (Hother : forall p, p <> path ->
            (fun l0 => pair_of <$> e_handlers (deref (<[l:=e']> (m_heap m)) l0)) <$>
            m_entryMap m !! p = table m !! p).
  { intros p Hne. rewrite table_lookup. destruct (m_entryMap m !! p) as [l'|] eqn:El'; [|done].
    simpl. rewrite deref_insert by (by eapply lookup_lt_Some). case_decide; [|done]. subst l'.
    destruct (wf_map m Hwf _ _ El') as (e0 & ? & ? & _). by simplify_eq. }
  apply map_eq. intros p. rewrite table_lookup. cbn [m_heap m_entryMap].
  destruct (e_handlers e') as [|x xs] eqn:Eh; cbn [length Nat.eqb fmap list_fmap].
  - destruct (decide (path = p)) as [<-|Hne].
    + by rewrite !lookup_delete_eq.
    + rewrite !lookup_delete_ne by done. by apply Hother.
  - destruct (decide (path = p)) as [<-|Hne].
    + rewrite lookup_insert_eq, Hl. simpl. rewrite deref_insert by (by eapply lookup_lt_Some).
      rewrite decide_True by done. by rewrite Eh.
    + rewrite lookup_insert_ne by done. by apply Hother.
Qed.

(** ** Lookup *)

(** The entry has handlers, as [handler()] counts them. *)
Definition live (e : muxEntry) : bool :=
  negb (u32_wrap (Z.of_nat (length (e_handlers e))) =? 0)%Z.

(** The entry that serves [path]: the first live one that matches. *)
Fixpoint select_loop (heap : list muxEntry) (ls : list nat) (path : string) : option nat :=
  match ls with
  | [] => None
  | l :: ls =>
      if entry_match (deref heap l) path && live (deref heap l) then Some l
      else select_loop heap ls path
  end.

Definition select (m : Mux) (path : string) : option nat :=
  select_loop (m_heap m) (m_entries m) path.

Definition next_index (e : muxEntry) : nat :=
  Z.to_nat (u32_add (e_next e) 1 mod u32_wrap (Z.of_nat (length (e_handlers e)))).

Definition bump (e : muxEntry) : muxEntry :=
  mk_muxEntry (e_path e) (e_handlers e) (u32_add (e_next e) 1) (e_wildcard e) (e_parts e).

Lemma bump_same e : same_route e (bump e).
Proof.
  split; [done|]. intros (? & ? & _). repeat split; auto; apply u32_wrap_range.
Qed.

Lemma entry_handler_dead e : live e = false -> entry_handler e = Return (None, e).
Proof. unfold live, entry_handler. intros H0. bool_prop. by rewrite H0. Qed.

Lemma entry_handler_live e :
  live e = true ->
  exists x, e_handlers e !! next_index e = Some x /\
    entry_handler e = Return (Some (mh_handler x), bump e).
Proof.
  intros Hl. destruct (entry_handler_spec e) as (r & e' & He & _ & _ & Hr).
  unfold live in Hl. bool_prop. unfold entry_handler in *. rewrite Hl in *.
  fold (next_index e) in *. unfold slice_get in *.
  destruct (e_handlers e !! next_index e) as [x|]; [|done]. eauto.
Qed.

Lemma handler_loop_select heap ls path :
  (forall l, l ∈ ls -> l < length heap) ->
  match select_loop heap ls path with
  | None => handler_loop heap ls path = Return (None, heap)
  | Some l => exists x, l ∈ ls /\ entry_match (deref heap l) path = true /\
      live (deref heap l) = true /\
      e_handlers (deref heap l) !! next_index (deref heap l) = Some x /\
      handler_loop heap ls path =
        Return (Some (mh_handler x), <[l := bump (deref heap l)]> heap)
  end.
Proof.
  induction ls as [|l ls IH]; intros Hlt; [done|].
  assert (Hl : <[l := deref heap l]> heap = heap).
  { apply list_insert_id. assert (Hll : l < length heap) by (apply Hlt; set_solver).
    apply lookup_lt_is_Some_2 in Hll as [e He]. by rewrite (deref_lookup _ _ _ He). }
  specialize (IH ltac:(set_solver)). cbn [select_loop handler_loop].
  destruct (entry_match (deref heap l) path) eqn:Em; simpl.
  - destruct (live (deref heap l)) eqn:Elv.
    + destruct (entry_handler_live _ Elv) as (x & Hx & ->). exists x. simpl.
      repeat split; auto. set_solver.
    + rewrite (entry_handler_dead _ Elv). cbn [outcome_bind]. rewrite Hl.
      destruct (select_loop heap ls path); [|done].
      destruct IH as (x & ? & ? & ? & ? & ?). exists x. repeat split; auto. set_solver.
  - destruct (select_loop heap ls path); [|done].
    destruct IH as (x & ? & ? & ? & ? & ?). exists x. repeat split; auto. set_solver.
Qed.

Definition bump_at (m : Mux) (l : nat) : Mux :=
  mk_Mux (<[l := bump (deref (m_heap m) l)]> (m_heap m)) (m_entries m) (m_entryMap m).

Lemma Handler_select m path :
  wf m ->
  match select m path with
  | None => Handler m path = Return (None, m)
  | Some l => exists e x, l ∈ m_entries m /\ m_heap m !! l = Some e /\
      entry_match e path = true /\ live e = true /\
      e_handlers e !! next_index e = Some x /\
      Handler m path = Return (Some (mh_handler x), bump_at m l)
  end.
Proof.
  intros Hwf. unfold Handler, select.
  pose proof (handler_loop_select (m_heap m) (m_entries m) path
                (fun l => wf_entries_lt m l Hwf)) as Hs.
  destruct (select_loop _ _ _) as [l|].
  - destruct Hs as (x & Hin & Hm & Hlv & Hx & ->).
    pose proof (wf_entries_lt m l Hwf Hin) as Hlt.
    apply lookup_lt_is_Some_2 in Hlt as [e He].
    rewrite (deref_lookup _ _ _ He) in *. exists e, x. unfold bump_at.
    by rewrite (deref_lookup _ _ _ He).
  - rewrite Hs. by destruct m.
Qed.

Lemma bump_at_wf m l :
  wf m -> l ∈ m_entries m -> wf (bump_at m l) /\ table (bump_at m l) = table m.
Proof.
  intros Hwf Hl. pose proof (wf_entries_lt m l Hwf Hl) as Hlt.
  apply lookup_lt_is_Some_2 in Hlt as [e He]. unfold bump_at.
  rewrite (deref_lookup _ _ _ He). by apply (wf_counter m l e); auto using bump_same.
Qed.

Lemma Handler_wf m path :
  wf m -> exists r m', Handler m path = Return (r, m') /\ wf m' /\ table m' = table m.
Proof.
  intros Hwf. pose proof (Handler_select m path Hwf) as Hs.
  destruct (select m path) as [l|].
  - destruct Hs as (e & x & Hl & _ & _ & _ & _ & ->). do 2 eexists. split; [done|].
    by apply bump_at_wf.
  - rewrite Hs. eauto.
Qed.

(** A live entry is a row of the table. *)
Lemma live_table m l e :
  wf m -> m_heap m !! l = Some e -> live e = true ->
  table m !! e_path e = Some (pair_of <$> e_handlers e).
Proof.
  intros Hwf He Hl. assert (Hne : e_handlers e <> []).
  { intros Hn. unfold live in Hl. by rewrite Hn in Hl. }
  rewrite table_lookup, (wf_live m Hwf _ _ He Hne). simpl.
  by rewrite (deref_lookup _ _ _ He).
Qed.

Lemma select_first heap ls path l :
  select_loop heap ls path = Some l ->
  exists pre post, ls = pre ++ l :: post /\
    Forall (fun l => entry_match (deref heap l) path && live (deref heap l) = false) pre.
Proof.
  induction ls as [|l' ls IH]; [done|]. simpl.
  destruct (_ && _) eqn:E.
  - intros [= ->]. by exists [], ls.
  - intros (pre & post & -> & Hf)%IH. exists (l' :: pre), post. auto.
Qed.

Lemma small_live m l e p :
  wf m -> small_table (table m) -> m_entryMap m !! p = Some l -> m_heap m !! l = Some e ->
  live e = true.
Proof.
  intros Hwf Hsm Hp He. destruct (wf_map m Hwf _ _ Hp) as (e' & ? & <- & Hne). simplify_eq.
  specialize (Hsm (e_path e) (pair_of <$> e_handlers e)).
  rewrite table_lookup, Hp, length_fmap in Hsm. simpl in Hsm.
  rewrite (deref_lookup _ _ _ He) in Hsm. specialize (Hsm eq_refl).
  unfold live. rewrite u32_wrap_small by (split; lia).
  destruct (e_handlers e); [done|]. simpl. lia.
Qed.

Lemma wf_map_entry m p l :
  wf m -> m_entryMap m !! p = Some l -> l ∈ m_entries m.
Proof.
  intros Hwf Hl. destruct (wf_map m Hwf _ _ Hl) as (e & He & _).
  rewrite (wf_entries m Hwf), elem_of_seq. apply lookup_lt_Some in He. lia.
Qed.

Lemma select_best m path l e :
  wf m -> small_table (table m) -> select m path = Some l -> m_heap m !! l = Some e ->
  best_route (table m) path (e_path e).
Proof.
  intros Hwf Hsm Hsel He.
  pose proof (Handler_select m path Hwf) as Hs. rewrite Hsel in Hs.
  destruct Hs as (e0 & x & Hl & He0 & Hm & Hlv & _ & _). simplify_eq.
  pose proof (wf_entry_ok m l Hwf Hl) as Hok. rewrite (deref_lookup _ _ _ He) in Hok.
  split; [|split].
  - apply elem_of_dom. rewrite (live_table m l e) by done. eauto.
  - by rewrite <- entry_match_route.
  - intros p' Hp' Hm'. rewrite dom_table in Hp'. apply elem_of_dom in Hp' as [l' Hl'].
    destruct (wf_map m Hwf _ _ Hl') as (e' & He' & <- & _).
    apply select_first in Hsel as (pre & post & Hent & Hpre).
    pose proof (wf_map_entry m _ _ Hwf Hl') as Hin.
    pose proof (wf_entry_ok m l' Hwf Hin) as Hok'. rewrite (deref_lookup _ _ _ He') in Hok'.
    pose proof (wf_sorted m Hwf) as Hsort. rewrite Hent, fmap_app in Hsort.
    apply StronglySorted_app_inv in Hsort as (_ & Hsort & _). inversion_clear Hsort.
    rewrite Hent in Hin. apply elem_of_app in Hin as [Hin|[->|Hin]%elem_of_cons].
    + rewrite Forall_forall in Hpre. specialize (Hpre l' Hin).
      rewrite (deref_lookup _ _ _ He'), entry_match_route, Hm' in Hpre by done.
      by rewrite (small_live m l' e' (e_path e')) in Hpre.
    + simplify_eq. by right.
    + rewrite Forall_fmap in H1. rewrite Forall_forall in H1. specialize (H1 l' Hin).
      simpl in H1. by rewrite (deref_lookup _ _ _ He), (deref_lookup _ _ _ He') in H1.
Qed.

Lemma Handler_best m path h m' :
  wf m -> small_table (table m) -> Handler m path = Return (Some h, m') ->
  exists p hs id, best_route (table m) path p /\ table m !! p = Some hs /\ (h, id) ∈ hs.
Proof.
  intros Hwf Hsm Hh. pose proof (Handler_select m path Hwf) as Hs.
  destruct (select m path) as [l|] eqn:Hsel; [|congruence].
  destruct Hs as (e & x & Hl & He & Hm & Hlv & Hx & Hh').
  rewrite Hh in Hh'. injection Hh' as -> _.
  exists (e_path e), (pair_of <$> e_handlers e), (mh_id x). split; [by eapply select_best|].
  split; [by apply (live_table m l)|]. apply list_elem_of_fmap. exists x. split; [done|].
  by eapply list_elem_of_lookup_2.
Qed.

Lemma select_none heap ls path l :
  select_loop heap ls path = None -> l ∈ ls ->
  entry_match (deref heap l) path && live (deref heap l) = false.
Proof.
  induction ls as [|l' ls IH]; simpl; [set_solver|].
  destruct (entry_match (deref heap l') path && _) eqn:E; [done|].
  intros Hs [->|Hl]%elem_of_cons; auto.
Qed.

Lemma Handler_none m path m' :
  wf m -> small_table (table m) -> Handler m path = Return (None, m') ->
  forall p, p ∈ dom (table m) -> route_match p path = false.
Proof.
  intros Hwf Hsm Hh p Hp. pose proof (Handler_select m path Hwf) as Hs.
  destruct (select m path) as [l|] eqn:Hsel.
  { destruct Hs as (? & ? & _ & _ & _ & _ & _ & Hs). congruence. }
  rewrite dom_table in Hp. apply elem_of_dom in Hp as [l Hl].
  destruct (wf_map m Hwf _ _ Hl) as (e & He & <- & _).
  pose proof (wf_map_entry m _ _ Hwf Hl) as Hin.
  pose proof (wf_entry_ok m l Hwf Hin) as Hok.
  apply (select_none _ _ _ _ Hsel) in Hin. rewrite (deref_lookup _ _ _ He) in *.
  rewrite (small_live m l e (e_path e)), andb_true_r in Hin by done.
  by rewrite <- entry_match_route.
Qed.

#[export] Instance Mux_Router : Router H Mux := {
  rt_table := table;
  rt_ok := wf;
  rt_empty := empty_Mux;
  rt_add := Add;
  rt_remove := Remove;
  rt_lookup := Handler
}.

#[export] Instance Mux_RouterLaws : RouterLaws H Mux.
Proof.
  split.
  - split; [apply empty_wf | done].
  - intros. by apply Add_wf.
  - intros. split; [by apply Remove_wf | by apply Remove_table].
  - intros. by apply Handler_wf.
  - intros. by eapply Handler_best.
  - intros. by eapply Handler_none.
Qed.

(** ** Round robin *)

(** [k] requests for one path, answered one after the other. *)
Fixpoint serve (k : nat) (m : Mux) (path : string) : outcome (list (option H) * Mux) :=
  match k with
  | 0 => Return ([], m)
  | S k =>
      let! (h, m) := Handler m path in
      let! (hs, m) := serve k m path in
      Return (h :: hs, m)
  end.

(** Index used by the [i]-th request (from 0) an entry answers. *)
Definition ticket (e : muxEntry) (i : nat) : nat :=
  Z.to_nat (u32_wrap (e_next e + 1 + Z.of_nat i) mod u32_wrap (Z.of_nat (length (e_handlers e)))).

Lemma ticket_bump e i : ticket (bump e) i = ticket e (S i).
Proof.
  unfold ticket, bump, u32_add. simpl. do 2 f_equal.
  rewrite <- Z.add_assoc, u32_wrap_add_l. f_equal. lia.
Qed.

Lemma select_bump_at m l path : wf m -> l ∈ m_entries m ->
  select (bump_at m l) path = select m path.
Proof.
  intros Hwf Hl. pose proof (wf_entries_lt m l Hwf Hl) as Hlt.
  unfold select, bump_at. simpl. clear Hl. induction (m_entries m) as [|l' ls IH]; [done|].
  simpl. rewrite deref_insert, IH by done. by destruct (decide (l = l')) as [<-|].
Qed.

Lemma serve_tickets k m path l e :
  wf m -> select m path = Some l -> m_heap m !! l = Some e ->
  exists m', serve k m path =
    Return ((fun i => mh_handler <$> e_handlers e !! ticket e i) <$> seq 0 k, m').
Proof.
  revert m e. induction k as [|k IH]; intros m e Hwf Hsel He.
  { by exists m. }
  pose proof (Handler_select m path Hwf) as Hs. rewrite Hsel in Hs.
  destruct Hs as (e0 & x & Hl & He0 & _ & _ & Hx & Hh). simplify_eq.
  pose proof (wf_entries_lt m l Hwf Hl) as Hlt.
  destruct (IH (bump_at m l) (bump e)) as [m' Hm'].
  - by apply bump_at_wf.
  - by rewrite select_bump_at.
  - unfold bump_at. simpl. rewrite list_lookup_insert_eq by done.
    by rewrite (deref_lookup _ _ _ He).
  - exists m'. simpl. rewrite Hh. simpl. rewrite Hm'. simpl. do 2 f_equal.
    unfold ticket at 2. rewrite Z.add_0_r. fold (u32_add (e_next e) 1).
    fold (next_index e). rewrite Hx. simpl. f_equal.
    rewrite <- fmap_S_seq, <- list_fmap_compose. apply list_fmap_ext.
    intros _ i _. simpl. by rewrite ticket_bump.
Qed.
End Mux.
Arguments Mux : clear implicits.
Arguments muxEntry : clear implicits.
Arguments muxHandler : clear implicits.
Arguments empty_Mux {H}.
End Mux.

#[export] Existing Instances Mux.Mux_Router Mux.Mux_RouterLaws.
