(* ===== verification/MuxProps.v ===== *)
(** Properties of the multiplexer (pkg/mux/mux.go): histories of calls, routing,
    fairness of the load balancing, and what [Remove] and [ContainsHost] do. *)

From S2P Require Import Prelude GoStrings Glob Routes Mux.

Local Open Scope go_scope.

Import Mux.

Section Histories.
Context {H : Type}.
Implicit Types (m : Mux H) (path id : string).

(** ** Histories of a mux *)

Inductive op :=
  | OpAdd (path : string) (handler : H) (id : string)
  | OpRemove (path id : string)
  | OpLookup (path : string).

Definition run_op (m : Mux H) (o : op) : outcome (Mux H) :=
  match o with
  | OpAdd path handler id => Return (Add m path handler id)
  | OpRemove path id => Return (Remove m path id)
  | OpLookup path => let! (_, m') := Handler m path in Return m'
  end.

Fixpoint run (m : Mux H) (os : list op) : outcome (Mux H) :=
  match os with
  | [] => Return m
  | o :: os => let! m' := run_op m o in run m' os
  end.

Definition table_op (t : gmap string (list (H * string))) (o : op)
    : gmap string (list (H * string)) :=
  match o with
  | OpAdd path handler id => table_add path handler id t
  | OpRemove path id => table_remove path id t
  | OpLookup _ => t
  end.

Lemma run_op_wf m o :
  wf m -> exists m', run_op m o = Return m' /\ wf m' /\ table m' = table_op (table m) o.
Proof.
  intros Hwf. destruct o as [path h id|path id|path]; simpl.
  - eexists. split; [done|]. by apply Add_wf.
  - eexists. split; [done|]. split; [by apply Remove_wf | by apply Remove_table].
  - destruct (Handler_wf m path Hwf) as (r & m' & -> & ? & ?). by exists m'.
Qed.

Lemma run_wf os m :
  wf m -> exists m', run m os = Return m' /\ wf m' /\ table m' = fold_left table_op os (table m).
Proof.
  revert m. induction os as [|o os IH]; intros m Hwf; [by exists m|]. simpl.
  destruct (run_op_wf m o Hwf) as (m1 & -> & Hwf1 & Ht1). simpl. rewrite <- Ht1. by apply IH.
Qed.

Lemma reachable_wf os m :
  run empty_Mux os = Return m -> wf m /\ table m = fold_left table_op os ∅.
Proof.
  intros Hr. destruct (run_wf os empty_Mux empty_wf) as (m' & Hr' & Hwf & Ht).
  rewrite Hr in Hr'. by injection Hr' as <-.
Qed.

Lemma containsHost_loop_false (es : list (muxEntry H)) host :
  Forall entry_ok es -> containsHost_loop es host = Return false.
Proof.
  induction 1 as [|e es (_ & Hp & _) _ IH]; [done|]. cbn [containsHost_loop].
  unfold entry_matchHost. rewrite Hp. pose proof (split_cuts_not_nil (String.length (e_path e))
    (e_path e) slash) as Hne. unfold Split.
  destruct (split_cuts _ _ _) as [|p0 ps]; [done|]. simpl.
  destruct (e_wildcard e); simpl; by case_match.
Qed.

Lemma ContainsHost_false m host : wf m -> ContainsHost m host = Return false.
Proof. intros Hwf. apply containsHost_loop_false. by apply wf_deref_ok. Qed.

Lemma Remove_Add_new m path h id :
  wf m -> m_entryMap m !! path = None ->
  length (m_entries (Remove (Add m path h id) path id)) = S (length (m_entries m)).
Proof.
  intros Hwf Hm. destruct (Add_new_entries m path h id Hwf Hm) as (ls & -> & Hp & _).
  unfold Remove. simpl. rewrite lookup_insert_eq. simpl. by rewrite Hp.
Qed.
End Histories.

(** ** Properties *)

Section Properties.
Context {H : Type}.
Implicit Types (m : Mux H) (os : list (@op H)).

(** Whatever sequence of [Add], [Remove] and [Handler] calls a mux goes
    through, no call panics (index or pointer), the representation invariant
    holds, and the mux stands for the route table obtained by running the same
    calls on the abstract table. *)
Theorem mux_refines_table os :
  exists m, run empty_Mux os = Return m /\ wf m /\ table m = fold_left table_op os ∅.
Proof. apply (run_wf os empty_Mux empty_wf). Qed.

(** C2. A lookup returns a handler registered for a best route of the path: a
    registered route that covers the path and has priority over every other
    registered route that covers it (plain routes before wildcard ones unless
    shorter, longer before shorter). *)
Theorem Handler_best_route os m path h m' :
  run empty_Mux os = Return m -> small_table (table m) ->
  Handler m path = Return (Some h, m') ->
  exists p hs id, best_route (table m) path p /\ table m !! p = Some hs /\ (h, id) ∈ hs.
Proof.
  intros Hr Hsm Hh. apply reachable_wf in Hr as [Hwf _]. by eapply Handler_best.
Qed.

(** A lookup that finds nothing means that no registered route covers the
    path. *)
Theorem Handler_none_complete os m path m' :
  run empty_Mux os = Return m -> small_table (table m) ->
  Handler m path = Return (None, m') ->
  forall p, p ∈ dom (table m) -> route_match p path = false.
Proof.
  intros Hr Hsm Hh. apply reachable_wf in Hr as [Hwf _]. by eapply Handler_none.
Qed.
End Properties.

Section RoundRobin.
Context {H : Type}.
Implicit Types (m : Mux H) (e : muxEntry H).

(** The counter does not wrap during [n] calls, or wraps in step with [n]. *)
Definition even_wrap (next : Z) (n : nat) : Prop :=
  (next + Z.of_nat n < 2 ^ 32)%Z \/ (Z.of_nat n | 2 ^ 32)%Z.

Lemma ticket_mod e i :
  let n := length (e_handlers e) in
  u32_range (e_next e) -> i < n -> (Z.of_nat n < 2 ^ 32)%Z -> even_wrap (e_next e) n ->
  ticket e i = rotate_nat_add (Z.to_nat (e_next e + 1)) i n.
Proof.
  intros n [Hr1 Hr2] Hi Hn Hw. unfold ticket, rotate_nat_add. f_equal. fold n.
  rewrite (u32_wrap_small (Z.of_nat n)) by (split; lia). rewrite Z2Nat.id by lia.
  destruct Hw as [Hw|Hw].
  - rewrite u32_wrap_small; [done|]. split; lia.
  - unfold u32_wrap. by rewrite (Z.mod_mod_divide _ (2 ^ 32)).
Qed.

Lemma tickets_rotate e :
  let n := length (e_handlers e) in
  u32_range (e_next e) -> (Z.of_nat n < 2 ^ 32)%Z -> even_wrap (e_next e) n ->
  (fun i => mh_handler <$> e_handlers e !! ticket e i) <$> seq 0 n =
  Some <$> rotate (Z.to_nat (e_next e + 1)) (mh_handler <$> e_handlers e).
Proof.
  intros n Hr Hn Hw. apply list_eq. intros i. rewrite !list_lookup_fmap.
  destruct (decide (i < n)) as [Hi|Hi].
  - rewrite lookup_seq_lt by done. simpl. rewrite ticket_mod by done. fold n.
    rewrite lookup_rotate_r by (by rewrite length_fmap).
    rewrite length_fmap, list_lookup_fmap. fold n.
    assert (Hb : rotate_nat_add (Z.to_nat (e_next e + 1)) i n < n)
      by (apply rotate_nat_add_lt; lia).
    apply lookup_lt_is_Some_2 in Hb as [x ->]. done.
  - rewrite lookup_seq_ge by lia.
    rewrite lookup_ge_None_2; [done|]. rewrite length_rotate, length_fmap. fold n. lia.
Qed.

(** Round robin is fair: from a reachable mux, as many consecutive requests
    for a path as its route has handlers are served by those handlers in
    rotation, each exactly once; the rotation starts one past the counter. *)
Theorem round_robin_fair os m path l e :
  run empty_Mux os = Return m -> select m path = Some l -> m_heap m !! l = Some e ->
  (Z.of_nat (length (e_handlers e)) < 2 ^ 32)%Z ->
  even_wrap (e_next e) (length (e_handlers e)) ->
  exists picked m', serve (length (e_handlers e)) m path = Return (Some <$> picked, m') /\
    picked = rotate (Z.to_nat (e_next e + 1)) (mh_handler <$> e_handlers e) /\
    picked ≡ₚ mh_handler <$> e_handlers e.
Proof.
  intros Hr Hsel He Hn Hw. apply reachable_wf in Hr as [Hwf _].
  assert (Hok : entry_ok e).
  { pose proof (wf_heap m Hwf) as Hh. rewrite Forall_lookup in Hh. by eapply Hh. }
  destruct (serve_tickets (length (e_handlers e)) m path l e Hwf Hsel He) as [m' Hm'].
  rewrite tickets_rotate in Hm' by (done || apply Hok).
  do 2 eexists. split; [exact Hm'|]. split; [done|].
  unfold rotate. rewrite Permutation_app_comm. by rewrite take_drop.
Qed.

(** [ContainsHost] (and [Contains]) answer false for every host on every
    reachable mux, also for the hosts it has routes for. *)
Theorem ContainsHost_always_false os m :
  run empty_Mux os = Return m ->
  (forall host, ContainsHost m host = Return false) /\ (forall path, Contains m path = false).
Proof.
  intros Hr. apply reachable_wf in Hr as [Hwf _]. split.
  - intros host. by apply ContainsHost_false.
  - intros path. unfold Contains. induction (deref (m_heap m) <$> m_entries m); [done|].
    simpl. by case_match.
Qed.

(** [Remove] never takes an entry out of the slice that lookups walk: adding
    and removing a route whose path has no route leaves the table as it was and
    the slice one dead entry longer. *)
Theorem Remove_leaves_dead_entry os m path h id :
  run empty_Mux os = Return m -> m_entryMap m !! path = None ->
  let m' := Remove (Add m path h id) path id in
  table m' = table m /\ length (m_entries m') = S (length (m_entries m)).
Proof.
  intros Hr Hp m'. apply reachable_wf in Hr as [Hwf _]. split.
  - unfold m'. destruct (Add_wf m path h id Hwf) as [Hwf' Ht].
    rewrite Remove_table, Ht by done. apply table_remove_add. intros hs Hhs.
    rewrite table_lookup, Hp in Hhs. done.
  - by apply Remove_Add_new.
Qed.
End RoundRobin.

(** C26. A wildcard route made of literals, [?] and [*] matches a request path exactly
    when the glob relation matches the route with the path or with some of its leading
    segments; the path may hold any bytes if the route has no [?], which takes a whole
    rune, and is ASCII otherwise. *)
Theorem wildcard_route_glob {H : Type} route path :
  is_wildcard route = true -> simple_pattern route = true -> bytewise route path = true ->
  entry_match (@new_entry H route) path = true <->
  exists pre, segment_prefix pre path /\ glob route pre.
Proof.
  intros Hw Hs Ha. rewrite entry_match_route by apply new_entry_ok.
  by apply route_match_wildcard.
Qed.

(** ** Witnesses *)

Definition demo_ops : list (@op nat) :=
  [OpAdd "example.com" 1 "http://a"; OpAdd "example.com/*/files" 2 "file:///x";
   OpAdd "example.com/static" 3 "file:///s"; OpAdd "example.com" 4 "http://b";
   OpAdd "*.redirect.com" 5 "redirect://r"; OpRemove "example.com" "http://zzz"].

Definition ret {A} (d : A) (c : outcome A) : A :=
  match c with Return a => a | Panic => d end.

Definition demo_mux : Mux nat := ret empty_Mux (run empty_Mux demo_ops).

Lemma demo_run : run empty_Mux demo_ops = Return demo_mux.
Proof. vm_compute. reflexivity. Defined.

Lemma demo_small : small_table (table demo_mux).
Proof.
  apply (bool_decide_unpack (small_table (table demo_mux))). vm_compute. exact I.
Qed.

Lemma Handler_best_route_witness :
  exists p hs id, best_route (table demo_mux) "example.com/static/a" p /\
    table demo_mux !! p = Some hs /\ (3, id) ∈ hs.
Proof.
  apply (Handler_best_route demo_ops demo_mux "example.com/static/a" 3
           (ret (None, demo_mux) (Handler demo_mux "example.com/static/a")).2).
  - exact demo_run.
  - exact demo_small.
  - vm_compute. reflexivity.
Defined.

Lemma Handler_none_complete_witness :
  "example.com" ∈ dom (table demo_mux) /\ route_match "example.com" "other.org/" = false.
Proof.
  assert (Hin : "example.com" ∈ dom (table demo_mux))
    by (apply elem_of_dom; eexists; vm_compute; reflexivity).
  split; [exact Hin|].
  apply (Handler_none_complete demo_ops demo_mux "other.org/" demo_mux).
  - exact demo_run.
  - exact demo_small.
  - vm_compute. reflexivity.
  - exact Hin.
Defined.

Lemma round_robin_fair_witness :
  exists picked m', serve 2 demo_mux "example.com/" = Return (Some <$> picked, m') /\
    picked = [4; 1] /\ picked ≡ₚ [1; 4].
Proof.
  apply (round_robin_fair demo_ops demo_mux "example.com/" 0 (deref (m_heap demo_mux) 0)).
  - exact demo_run.
  - vm_compute. reflexivity.
  - vm_compute. reflexivity.
  - vm_compute. reflexivity.
  - left. vm_compute. reflexivity.
Defined.

Lemma ContainsHost_always_false_witness :
  ContainsHost demo_mux "example.com" = Return false /\
  fst (ret (None, demo_mux) (Handler demo_mux "example.com/")) = Some 4.
Proof.
  split; [|vm_compute; reflexivity].
  apply (ContainsHost_always_false demo_ops demo_mux demo_run).
Defined.

Lemma Remove_leaves_dead_entry_witness :
  let m' := Remove (Add demo_mux "new.org" 9 "x") "new.org" "x" in
  table m' = table demo_mux /\ length (m_entries m') = S (length (m_entries demo_mux)).
Proof.
  apply (Remove_leaves_dead_entry demo_ops demo_mux "new.org" 9 "x" demo_run).
  vm_compute. reflexivity.
Defined.

Lemma wildcard_route_glob_witness :
  exists pre, segment_prefix pre "example.com/bob/files/1.txt" /\ glob "example.com/*/files" pre.
Proof.
  apply (wildcard_route_glob (H := nat)); vm_compute; reflexivity.
Defined.
