(* ===== verification/MuxConc.v ===== *)
(** Concurrent callers of the multiplexer (pkg/mux/mux.go).

    [Mux] gives each method as one transition of the whole state.  Here the methods are
    taken apart at the points where goroutines can interleave: the acquisition and the
    release of the read-write lock, each entry [Handler] looks at, the atomic increment of
    the rotation counter, and the indexing that follows.  [mux_linearizable] shows that
    the calls nevertheless behave as if each took place at one instant between its
    invocation and its return, and [mux_callers_progress] that callers never block each
    other for good. *)

From S2P Require Import Prelude GoStrings Glob Routes Mux MuxProps.
From stdpp Require Import functions.

Local Open Scope go_scope.

Import Mux.

(** ** The fine-grained system *)

Section Concurrent.
Context {H : Type}.
Implicit Types (m : Mux H) (o : @op H) (t l : nat) (r : option H) (path : string).

(** Where a goroutine is.  [Scanning] holds the entries [Handler]'s loop has left;
    [Counting] is in [handler()] of an entry that has handlers, before
    [atomic.AddUint32], and [Picking] after it. *)
Inductive thread :=
  | Idle
  | Waiting (o : @op H)
  | Writing (o : @op H)
  | Written
  | Scanning (path : string) (ls : list nat)
  | Counting (path : string) (l : nat)
  | Picking (l : nat) (next : Z)
  | Found (r : option H)
  | Returning (r : option H)
  | Panicked.

(** [sync.RWMutex]: who holds it. *)
Record rwlock := mk_rwlock { lk_readers : gset nat; lk_writer : option nat }.

Record cstate := mk_cstate {
  cs_mux : Mux H;
  cs_lock : rwlock;
  cs_threads : nat -> thread
}.

(** What a goroutine that holds the lock does next. *)
Definition body (m : Mux H) (th : thread) : option (Mux H * thread) :=
  match th with
  | Writing (OpAdd path handler id) => Some (Add m path handler id, Written)
  | Writing (OpRemove path id) => Some (Remove m path id, Written)
  | Scanning path [] => Some (m, Found None)
  | Scanning path (l :: ls) =>
      let entry := deref (m_heap m) l in
      if entry_match entry path then
        let handlersCount := u32_wrap (Z.of_nat (length (e_handlers entry))) in
        if (handlersCount =? 0)%Z then Some (m, Scanning path ls)
        else Some (m, Counting path l)
      else Some (m, Scanning path ls)
  | Counting path l =>
      let entry := deref (m_heap m) l in
      let next := u32_add (e_next entry) 1 in
      Some (mk_Mux (<[l := mk_muxEntry (e_path entry) (e_handlers entry) next
                             (e_wildcard entry) (e_parts entry)]> (m_heap m))
              (m_entries m) (m_entryMap m), Picking l next)
  | Picking l next =>
      let entry := deref (m_heap m) l in
      let handlersCount := u32_wrap (Z.of_nat (length (e_handlers entry))) in
      match slice_get (e_handlers entry) (Z.to_nat (next mod handlersCount)) with
      | Return h => Some (m, Found (Some (mh_handler h)))
      | Panic => Some (m, Panicked)
      end
  | _ => None
  end.

Definition is_write (o : @op H) : bool :=
  match o with OpLookup _ => false | _ => true end.

(** What is seen from outside: invocations and returns. *)
Inductive event :=
  | Invoke (t : nat) (o : @op H)
  | Response (t : nat) (r : option H).

Inductive cstep : cstate -> option event -> cstate -> Prop :=
  | c_invoke m lk ts t o :
      ts t = Idle ->
      cstep (mk_cstate m lk ts) (Some (Invoke t o)) (mk_cstate m lk (<[t := Waiting o]> ts))
  | c_lock m lk ts t o :                                          (* m.mtx.Lock() *)
      ts t = Waiting o -> is_write o = true -> lk = mk_rwlock ∅ None ->
      cstep (mk_cstate m lk ts) None
        (mk_cstate m (mk_rwlock ∅ (Some t)) (<[t := Writing o]> ts))
  | c_rlock m rs ts t path :                                      (* m.mtx.RLock() *)
      ts t = Waiting (OpLookup path) ->
      cstep (mk_cstate m (mk_rwlock rs None) ts) None
        (mk_cstate m (mk_rwlock (rs ∪ {[t]}) None) (<[t := Scanning path (m_entries m)]> ts))
  | c_body m lk ts t m' th :
      body m (ts t) = Some (m', th) ->
      cstep (mk_cstate m lk ts) None (mk_cstate m' lk (<[t := th]> ts))
  | c_unlock m rs w ts t :                                        (* m.mtx.Unlock() *)
      ts t = Written ->
      cstep (mk_cstate m (mk_rwlock rs w) ts) None
        (mk_cstate m (mk_rwlock rs None) (<[t := Returning None]> ts))
  | c_runlock m rs w ts t r :                                     (* m.mtx.RUnlock() *)
      ts t = Found r ->
      cstep (mk_cstate m (mk_rwlock rs w) ts) None
        (mk_cstate m (mk_rwlock (rs ∖ {[t]}) w) (<[t := Returning r]> ts))
  | c_return m lk ts t r :
      ts t = Returning r ->
      cstep (mk_cstate m lk ts) (Some (Response t r)) (mk_cstate m lk (<[t := Idle]> ts)).

Definition c_init : cstate := mk_cstate empty_Mux (mk_rwlock ∅ None) (fun _ => Idle).

(** ** The atomic specification *)

(** A call in one step: what it returns and the mux after it. *)
Definition call m o : outcome (option H * Mux H) :=
  match o with
  | OpAdd path handler id => Return (None, Add m path handler id)
  | OpRemove path id => Return (None, Remove m path id)
  | OpLookup path => Handler m path
  end.

Inductive athread :=
  | AIdle
  | AWaiting (o : @op H)
  | AReturning (r : option H).

Record astate := mk_astate { as_mux : Mux H; as_threads : nat -> athread }.

Inductive astep : astate -> option event -> astate -> Prop :=
  | a_invoke m ts t o :
      ts t = AIdle ->
      astep (mk_astate m ts) (Some (Invoke t o)) (mk_astate m (<[t := AWaiting o]> ts))
  | a_call m ts t o r m' :
      ts t = AWaiting o -> call m o = Return (r, m') ->
      astep (mk_astate m ts) None (mk_astate m' (<[t := AReturning r]> ts))
  | a_return m ts t r :
      ts t = AReturning r ->
      astep (mk_astate m ts) (Some (Response t r)) (mk_astate m (<[t := AIdle]> ts)).

Definition a_init : astate := mk_astate empty_Mux (fun _ => AIdle).

(** Runs, with the events seen. *)
Inductive runs {S : Type} (step : S -> option event -> S -> Prop) : S -> list event -> S -> Prop :=
  | runs_nil s : runs step s [] s
  | runs_silent s1 s2 s3 tr : runs step s1 tr s2 -> step s2 None s3 -> runs step s1 tr s3
  | runs_event s1 s2 s3 tr e :
      runs step s1 tr s2 -> step s2 (Some e) s3 -> runs step s1 (tr ++ [e]) s3.

(** ** Lemmas: the simulation *)

Definition reading (th : thread) : bool :=
  match th with Scanning _ _ | Counting _ _ | Picking _ _ | Found _ => true | _ => false end.

Definition writing (th : thread) : bool :=
  match th with Writing _ | Written => true | _ => false end.

(** A goroutine and its counterpart in the specification: a lookup takes effect when the
    counter is incremented, or at the end of a scan that found nothing. *)
Definition thread_sim m (th : thread) (ath : athread) : Prop :=
  match th with
  | Idle => ath = AIdle
  | Waiting o => ath = AWaiting o
  | Writing o => ath = AWaiting o /\ is_write o = true
  | Written => ath = AReturning None
  | Scanning path ls =>
      ath = AWaiting (OpLookup path) /\ select m path = select_loop (m_heap m) ls path
  | Counting path l => ath = AWaiting (OpLookup path) /\ select m path = Some l
  | Picking l next =>
      exists x, e_handlers (deref (m_heap m) l) !!
        Z.to_nat (next mod u32_wrap (Z.of_nat (length (e_handlers (deref (m_heap m) l))))) = Some x /\
        ath = AReturning (Some (mh_handler x))
  | Found r | Returning r => ath = AReturning r
  | Panicked => False
  end.

(** The lock is held by those that read or write, and a writer is alone. *)
Record lock_ok (lk : rwlock) (ts : nat -> thread) : Prop := {
  lock_readers t : t ∈ lk_readers lk <-> reading (ts t) = true;
  lock_writer t : lk_writer lk = Some t <-> writing (ts t) = true;
  lock_exclusive : lk_writer lk <> None -> lk_readers lk = ∅
}.

Record sim (c : cstate) (a : astate) : Prop := {
  sim_mux : as_mux a = cs_mux c;
  sim_wf : wf (cs_mux c);
  sim_lock : lock_ok (cs_lock c) (cs_threads c);
  sim_threads t : thread_sim (cs_mux c) (cs_threads c t) (as_threads a t)
}.

Lemma thread_sim_outside m m' th ath :
  reading th = false -> thread_sim m th ath -> thread_sim m' th ath.
Proof. by destruct th. Qed.

Lemma select_loop_bump_at m l ls path : l < length (m_heap m) ->
  select_loop (m_heap (bump_at m l)) ls path = select_loop (m_heap m) ls path.
Proof.
  intros Hlt. unfold bump_at. cbn [m_heap]. induction ls as [|l' ls IH]; [done|].
  cbn [select_loop]. rewrite deref_insert, IH by done. by destruct (decide (l = l')) as [<-|].
Qed.

Lemma thread_sim_bump m l th ath :
  l < length (m_heap m) -> thread_sim m th ath -> thread_sim (bump_at m l) th ath.
Proof.
  intros Hlt. destruct th as [|o|o| |path ls|path l'|l' next|r|r|]; try done; unfold thread_sim, select;
    rewrite ?select_loop_bump_at by done; try done.
  unfold bump_at. cbn [m_heap]. rewrite deref_insert by done. by destruct (decide (l = l')) as [<-|].
Qed.

Lemma lock_ok_same lk ts t th :
  lock_ok lk ts -> reading th = reading (ts t) -> writing th = writing (ts t) ->
  lock_ok lk (<[t := th]> ts).
Proof.
  intros [Hr Hw He] Hrd Hwr. split; [intros t'|intros t'|done];
    (destruct (decide (t = t')) as [<-|]; [rewrite fn_lookup_insert, ?Hrd, ?Hwr|rewrite fn_lookup_insert_ne by done]);
    auto.
Qed.

(** While somebody writes, nobody reads. *)
Lemma writer_alone lk ts t t' :
  lock_ok lk ts -> writing (ts t) = true -> reading (ts t') = false.
Proof.
  intros [Hr Hw He] Ht. apply Hw in Ht. destruct (reading (ts t')) eqn:E; [|done].
  apply Hr in E. rewrite He in E by congruence. set_solver.
Qed.

(** One goroutine moves, the mux stays. *)
Lemma sim_move m lk lk' ts a t th ath :
  sim (mk_cstate m lk ts) a -> lock_ok lk' (<[t := th]> ts) -> thread_sim m th ath ->
  sim (mk_cstate m lk' (<[t := th]> ts)) (mk_astate m (<[t := ath]> (as_threads a))).
Proof.
  intros [Hm Hwf _ Ht] Hlk Hth. split; [done|done|done|]. cbn in *. intros t'.
  destruct (decide (t = t')) as [<-|]; [by rewrite !fn_lookup_insert|].
  by rewrite !fn_lookup_insert_ne.
Qed.

(** One goroutine moves, and its counterpart need not. *)
Lemma sim_stay m lk lk' ts a t th :
  sim (mk_cstate m lk ts) a -> lock_ok lk' (<[t := th]> ts) -> thread_sim m th (as_threads a t) ->
  sim (mk_cstate m lk' (<[t := th]> ts)) a.
Proof.
  intros [Hm Hwf _ Ht] Hlk Hth. split; [done|done|done|]. cbn in *. intros t'.
  destruct (decide (t = t')) as [<-|]; [by rewrite !fn_lookup_insert|].
  by rewrite !fn_lookup_insert_ne.
Qed.

(** One goroutine and its counterpart move, and the mux changes. *)
Lemma sim_commit m m' lk ts a t th ath :
  sim (mk_cstate m lk ts) a -> lock_ok lk (<[t := th]> ts) -> wf m' ->
  (forall t', t' <> t -> thread_sim m' (ts t') (as_threads a t')) -> thread_sim m' th ath ->
  sim (mk_cstate m' lk (<[t := th]> ts)) (mk_astate m' (<[t := ath]> (as_threads a))).
Proof.
  intros [_ _ _ _] Hlk Hwf Ht Hth. split; [done|done|done|]. cbn in *. intros t'.
  destruct (decide (t = t')) as [<-|]; [by rewrite !fn_lookup_insert|].
  rewrite !fn_lookup_insert_ne by done. by apply Ht.
Qed.

(** ** Lemmas: the lock *)

Ltac insert_cases t t' :=
  destruct (decide (t = t')) as [<-|]; [rewrite fn_lookup_insert|rewrite fn_lookup_insert_ne by done].

Lemma lock_acquire ts t th :
  lock_ok (mk_rwlock ∅ None) ts -> reading th = false -> writing th = true ->
  lock_ok (mk_rwlock ∅ (Some t)) (<[t := th]> ts).
Proof.
  intros [Hr Hw _] Hrd Hwr. cbn in *. split; cbn; [intros t'|intros t'|done]; insert_cases t t'.
  - rewrite Hrd. split; [set_solver|done].
  - apply Hr.
  - by rewrite Hwr.
  - rewrite <- Hw. split; [congruence|done].
Qed.

Lemma rlock_acquire rs ts t th :
  lock_ok (mk_rwlock rs None) ts -> reading th = true -> writing th = false ->
  lock_ok (mk_rwlock (rs ∪ {[t]}) None) (<[t := th]> ts).
Proof.
  intros [Hr Hw _] Hrd Hwr. cbn in *. split; cbn; [intros t'|intros t'|done]; insert_cases t t'.
  - rewrite Hrd. set_solver.
  - rewrite <- Hr. set_solver.
  - by rewrite Hwr.
  - apply Hw.
Qed.

Lemma lock_release rs w ts t th :
  lock_ok (mk_rwlock rs w) ts -> writing (ts t) = true -> reading (ts t) = false ->
  reading th = false -> writing th = false -> lock_ok (mk_rwlock rs None) (<[t := th]> ts).
Proof.
  intros [Hr Hw He] Hwt Hrt Hrd Hwr. cbn in *. apply Hw in Hwt.
  split; cbn; [intros t'|intros t'|done]; insert_cases t t'.
  - by rewrite Hr, Hrt, Hrd.
  - apply Hr.
  - by rewrite Hwr.
  - rewrite <- Hw. split; [done|congruence].
Qed.

Lemma rlock_release rs w ts t th :
  lock_ok (mk_rwlock rs w) ts -> writing (ts t) = false -> reading th = false -> writing th = false ->
  lock_ok (mk_rwlock (rs ∖ {[t]}) w) (<[t := th]> ts).
Proof.
  intros [Hr Hw He] Hwt Hrd Hwr. cbn in *. split; cbn; [intros t'|intros t'|].
  - insert_cases t t'; [rewrite Hrd; set_solver|]. rewrite <- Hr. set_solver.
  - insert_cases t t'; [|apply Hw]. by rewrite Hw, Hwt, Hwr.
  - intros Hn. rewrite (He Hn). set_solver.
Qed.

(** ** Lemmas: steps *)

Lemma body_write m lk ts t o m' th a :
  sim (mk_cstate m lk ts) a -> ts t = Writing o -> body m (Writing o) = Some (m', th) ->
  exists a', astep a None a' /\ sim (mk_cstate m' lk (<[t := th]> ts)) a'.
Proof.
  intros Hs Ht Hb. pose proof (sim_threads _ _ Hs t) as Hth. cbn in Hth. rewrite Ht in Hth.
  destruct Hth as [Hath Hw]. pose proof (sim_wf _ _ Hs) as Hwf. pose proof (sim_lock _ _ Hs) as Hlk.
  assert (Hc : th = Written /\ call m o = Return (None, m') /\ wf m').
  { destruct o as [path h id|path id|path]; cbn in Hb; [..|done]; injection Hb as <- <-;
      (split; [done|]; split; [done|]); [by apply Add_wf|by apply Remove_wf]. }
  destruct Hc as (-> & Hc & Hwf').
  exists (mk_astate m' (<[t := AReturning None]> (as_threads a))). split.
  - destruct a as [ma ats]. pose proof (sim_mux _ _ Hs) as Hm. cbn in *. subst ma.
    by apply (a_call m ats t o None m').
  - apply (sim_commit m); [done| |done| |done].
    + apply lock_ok_same; [done|by rewrite Ht|by rewrite Ht].
    + intros t' _. apply (thread_sim_outside m); [|apply (sim_threads _ _ Hs t')].
      apply (writer_alone lk ts t); [done|]. by rewrite Ht.
Qed.

Lemma body_count m lk ts t path l a :
  sim (mk_cstate m lk ts) a -> ts t = Counting path l ->
  exists a', astep a None a' /\
    sim (mk_cstate (bump_at m l) lk (<[t := Picking l (u32_add (e_next (deref (m_heap m) l)) 1)]> ts)) a'.
Proof.
  intros Hs Ht. pose proof (sim_threads _ _ Hs t) as Hth. cbn in Hth. rewrite Ht in Hth.
  destruct Hth as [Hath Hsel]. pose proof (sim_wf _ _ Hs) as Hwf. cbn in Hwf.
  pose proof (Handler_select m path Hwf) as Hh. rewrite Hsel in Hh.
  destruct Hh as (e & x & Hl & He & _ & _ & Hx & Hh).
  pose proof (wf_entries_lt m l Hwf Hl) as Hlt.
  exists (mk_astate (bump_at m l) (<[t := AReturning (Some (mh_handler x))]> (as_threads a))). split.
  - destruct a as [ma ats]. pose proof (sim_mux _ _ Hs) as Hm. cbn in *. subst ma.
    by apply (a_call m ats t (OpLookup path)).
  - apply (sim_commit m); [done| |by apply bump_at_wf| |].
    + apply lock_ok_same; [by apply (sim_lock _ _ Hs)|by rewrite Ht|by rewrite Ht].
    + intros t' _. apply thread_sim_bump; [done|]. apply (sim_threads _ _ Hs t').
    + exists x. split; [|done]. unfold bump_at. cbn [m_heap].
      rewrite deref_insert, decide_True, (deref_lookup _ _ _ He) by done. exact Hx.
Qed.

Lemma body_sim m lk ts t m' th a :
  sim (mk_cstate m lk ts) a -> body m (ts t) = Some (m', th) ->
  exists a', (a' = a \/ astep a None a') /\ sim (mk_cstate m' lk (<[t := th]> ts)) a'.
Proof.
  intros Hs Hb. pose proof (sim_threads _ _ Hs t) as Hth. cbn in Hth.
  pose proof (sim_lock _ _ Hs) as Hlk. cbn in Hlk.
  destruct (ts t) as [|o|o| |path [|l ls]|path l|l next|r|r|] eqn:Ht; try done.
  - destruct (body_write m lk ts t o m' th a) as (a' & Ha & Hs'); [done..|]. eauto.
  - injection Hb as <- <-. destruct Hth as [Hath Hsel]. cbn [select_loop] in Hsel.
    pose proof (Handler_select m path (sim_wf _ _ Hs)) as Hh. rewrite Hsel in Hh.
    exists (mk_astate m (<[t := AReturning None]> (as_threads a))). split.
    + right. destruct a as [ma ats]. pose proof (sim_mux _ _ Hs) as Hm. cbn in *. subst ma.
      by apply (a_call m ats t (OpLookup path)).
    + apply (sim_move m lk); [done| |done]. apply lock_ok_same; [done|by rewrite Ht..].
  - exists a. split; [by left|]. cbn in Hb. destruct Hth as [Hath Hsel]. cbn [select_loop] in Hsel.
    unfold live in Hsel.
    destruct (entry_match (deref (m_heap m) l) path) eqn:Em; cbn [andb] in Hsel;
      [destruct (u32_wrap _ =? 0)%Z eqn:E0; cbn [negb] in Hsel|];
      injection Hb as <- <-; (apply (sim_stay m lk lk); [done| |done]);
      (apply lock_ok_same; [done|by rewrite Ht..]).
  - injection Hb as <- <-. destruct (body_count m lk ts t path l a) as (a' & Ha & Hs'); [done..|]. eauto.
  - exists a. split; [by left|]. destruct Hth as (x & Hx & Hath). cbn in Hb. unfold slice_get in Hb.
    rewrite Hx in Hb. injection Hb as <- <-. apply (sim_stay m lk lk); [done| |done].
    apply lock_ok_same; [done|by rewrite Ht..].
Qed.

Lemma cstep_sim c ev c' a :
  sim c a -> cstep c ev c' -> exists a', ((ev = None /\ a' = a) \/ astep a ev a') /\ sim c' a'.
Proof.
  intros Hs Hc. pose proof (sim_threads _ _ Hs) as Hth. pose proof (sim_lock _ _ Hs) as Hlk.
  pose proof (sim_mux _ _ Hs) as Hm. destruct a as [ma ats].
  destruct Hc as [m lk ts t o Ht|m lk ts t o Ht Hw ->|m rs ts t path Ht|m lk ts t m' th Hb
    |m rs w ts t Ht|m rs w ts t r Ht|m lk ts t r Ht]; cbn in *; subst; specialize (Hth t).
  - rewrite Ht in Hth. eexists. split; [right; by constructor|].
    apply (sim_move m lk lk ts (mk_astate m ats)); [done| |done].
    apply lock_ok_same; [done|by rewrite Ht..].
  - rewrite Ht in Hth. eexists. split; [by left|].
    apply (sim_stay m _ _ ts _ t _ Hs); [by apply lock_acquire|done].
  - rewrite Ht in Hth. eexists. split; [by left|].
    apply (sim_stay m _ _ ts _ t _ Hs); [by apply rlock_acquire|done].
  - destruct (body_sim m lk ts t m' th _ Hs Hb) as (a' & [->|Ha] & Hs'); eauto.
  - rewrite Ht in Hth. eexists. split; [by left|].
    apply (sim_stay m _ _ ts _ t _ Hs); [|done]. apply (lock_release rs w); by rewrite ?Ht.
  - rewrite Ht in Hth. eexists. split; [by left|].
    apply (sim_stay m _ _ ts _ t _ Hs); [|done]. apply (rlock_release rs w); by rewrite ?Ht.
  - rewrite Ht in Hth. eexists. split; [right; by constructor|].
    apply (sim_move m lk lk ts (mk_astate m ats)); [done| |done].
    apply lock_ok_same; [done|by rewrite Ht..].
Qed.

Lemma init_sim : sim c_init a_init.
Proof.
  split; cbn; [done|apply empty_wf| |done].
  split; cbn; [intros t; set_solver|done|done].
Qed.

Lemma runs_sim tr c : runs cstep c_init tr c -> exists a, runs astep a_init tr a /\ sim c a.
Proof.
  remember c_init as c0 eqn:E0. intros Hr. induction Hr as [c|c1 c2 c3 tr Hr IH Hc|c1 c2 c3 tr e Hr IH Hc].
  - subst. exists a_init. split; [constructor|apply init_sim].
  - destruct (IH E0) as (a & Ha & Hs).
    destruct (cstep_sim c2 None c3 a Hs Hc) as (a' & [[_ ->]|Hst] & Hs'); [by exists a|].
    exists a'. split; [|done]. by eapply runs_silent.
  - destruct (IH E0) as (a & Ha & Hs).
    destruct (cstep_sim c2 (Some e) c3 a Hs Hc) as (a' & [[? _]|Hst] & Hs'); [done|].
    exists a'. split; [|done]. by eapply runs_event.
Qed.

(** The calls an atomic run makes, one after the other. *)
Lemma run_snoc m os o m1 r m2 :
  run m os = Return m1 -> call m1 o = Return (r, m2) -> run m (os ++ [o]) = Return m2.
Proof.
  revert m. induction os as [|o' os IH]; intros m Hr Hc.
  - injection Hr as ->. destruct o as [path h id|path id|path]; cbn in *; [by injection Hc as _ ->..|].
    by rewrite Hc.
  - cbn [app run] in *. destruct (run_op m o') as [m'|]; [|done]. cbn in *. by apply IH.
Qed.

Lemma runs_sequential tr a : runs astep a_init tr a -> exists os, run empty_Mux os = Return (as_mux a).
Proof.
  remember a_init as a0 eqn:E0. intros Hr. induction Hr as [a|a1 a2 a3 tr Hr IH Ha|a1 a2 a3 tr e Hr IH Ha].
  - subst. by exists [].
  - destruct (IH E0) as [os Hos]. inversion Ha as [|m ts t o r m' Ht Hc|]; subst.
    exists (os ++ [o]). by apply (run_snoc empty_Mux os o m r m').
  - destruct (IH E0) as [os Hos]. exists os. by inversion Ha; subst.
Qed.

(** ** Lemmas: progress *)

(** What is not an invocation. *)
Definition moves (c : cstate) : Prop :=
  exists ev c', cstep c ev c' /\ match ev with Some (Invoke _ _) => False | _ => True end.

Lemma holder_moves m lk ts a t :
  sim (mk_cstate m lk ts) a -> reading (ts t) || writing (ts t) = true -> moves (mk_cstate m lk ts).
Proof.
  intros Hs Hh. pose proof (sim_threads _ _ Hs t) as Hth. cbn in Hth. destruct lk as [rs w].
  assert (Hb : (exists m' th, body m (ts t) = Some (m', th)) -> moves (mk_cstate m (mk_rwlock rs w) ts)).
  { intros (m' & th & Hb). do 2 eexists. split; [by apply (c_body m _ ts t m' th)|done]. }
  destruct (ts t) as [|o|o| |path [|l ls]|path l|l next|r|r|] eqn:Ht; try done.
  - destruct o; [apply Hb; do 2 eexists; done..|by destruct Hth].
  - do 2 eexists. split; [by apply (c_unlock m rs w ts t)|done].
  - apply Hb. do 2 eexists. done.
  - apply Hb. cbn. destruct (entry_match _ _); [destruct (_ =? 0)%Z|]; eauto.
  - apply Hb. do 2 eexists. done.
  - apply Hb. cbn. destruct (slice_get _ _); eauto.
  - do 2 eexists. split; [by apply (c_runlock m rs w ts t r)|done].
Qed.

Lemma waiting_moves m lk ts a t o :
  sim (mk_cstate m lk ts) a -> ts t = Waiting o -> moves (mk_cstate m lk ts).
Proof.
  intros Hs Ht. pose proof (sim_lock _ _ Hs) as [Hr Hw _]. cbn in *. destruct lk as [rs w].
  destruct w as [t'|].
  { apply (holder_moves m _ ts a t'); [done|]. specialize (Hw t'). cbn in Hw.
    rewrite (proj1 Hw) by done. by rewrite orb_true_r. }
  destruct (decide (rs = ∅)) as [->|Hne].
  - destruct (is_write o) eqn:Ew.
    + do 2 eexists. split; [by apply (c_lock m _ ts t o)|done].
    + destruct o as [| |path]; [done..|].
      do 2 eexists. split; [by apply (c_rlock m ∅ ts t path)|done].
  - apply set_choose_L in Hne as [t' Ht']. apply (holder_moves m _ ts a t'); [done|].
    by rewrite (proj1 (Hr t')).
Qed.

(** ** Properties *)

(** Concurrent calls are linearizable: whatever goroutines call the multiplexer and
    however their steps interleave, what they see (the order of invocations and returns,
    and what is returned) is also seen when each call takes place in one step between
    its invocation and its return, with the same mux in the end, which is one that a
    sequence of calls leads to.  No call panics. *)
Theorem mux_linearizable tr c :
  runs cstep c_init tr c ->
  (exists a, runs astep a_init tr a /\ as_mux a = cs_mux c) /\
  (exists os, run empty_Mux os = Return (cs_mux c)) /\
  forall t, cs_threads c t <> Panicked.
Proof.
  intros Hr. apply runs_sim in Hr as (a & Ha & Hs). pose proof (sim_mux _ _ Hs) as Hm.
  split; [by exists a|]. split.
  - rewrite <- Hm. by apply (runs_sequential tr).
  - intros t Hp. pose proof (sim_threads _ _ Hs t) as Ht. by rewrite Hp in Ht.
Qed.

(** Callers do not block each other for good: while a call is under way, some
    goroutine can take a step that is not a new call. *)
Theorem mux_callers_progress tr c t :
  runs cstep c_init tr c -> cs_threads c t <> Idle -> moves c.
Proof.
  intros Hr Hn. apply runs_sim in Hr as (a & _ & Hs). destruct c as [m lk ts]. cbn in Hn.
  pose proof (sim_threads _ _ Hs t) as Hth. cbn in Hth.
  destruct (ts t) as [|o| | | | | | |r|] eqn:Ht; try done;
    try (apply (holder_moves m lk ts a t); [done|by rewrite Ht]).
  - by apply (waiting_moves m lk ts a t o).
  - do 2 eexists. split; [by apply (c_return m lk ts t r)|done].
Qed.
End Concurrent.

(** ** Witnesses *)

(** Schedules: a goroutine calls a method, or takes its next step. *)
Inductive action :=
  | Start (t : nat) (o : @op nat)
  | Go (t : nat).

Definition act (c : @cstate nat) (x : action) : option (option (@event nat) * cstate) :=
  let '(mk_cstate m (mk_rwlock rs w) ts) := c in
  match x with
  | Start t o =>
      match ts t with
      | Idle => Some (Some (Invoke t o), mk_cstate m (mk_rwlock rs w) (<[t := Waiting o]> ts))
      | _ => None
      end
  | Go t =>
      match ts t, w with
      | Waiting (OpLookup path), None =>
          Some (None, mk_cstate m (mk_rwlock (rs ∪ {[t]}) None) (<[t := Scanning path (m_entries m)]> ts))
      | Waiting o, None =>
          if decide (rs = ∅) then Some (None, mk_cstate m (mk_rwlock ∅ (Some t)) (<[t := Writing o]> ts))
          else None
      | Written, _ => Some (None, mk_cstate m (mk_rwlock rs None) (<[t := Returning None]> ts))
      | Found r, _ => Some (None, mk_cstate m (mk_rwlock (rs ∖ {[t]}) w) (<[t := Returning r]> ts))
      | Returning r, _ => Some (Some (Response t r), mk_cstate m (mk_rwlock rs w) (<[t := Idle]> ts))
      | th, _ =>
          match body m th with
          | Some (m', th') => Some (None, mk_cstate m' (mk_rwlock rs w) (<[t := th']> ts))
          | None => None
          end
      end
  end.

Fixpoint acts (c : @cstate nat) (tr : list (@event nat)) (xs : list action)
    : option (list (@event nat) * cstate) :=
  match xs with
  | [] => Some (tr, c)
  | x :: xs =>
      match act c x with
      | None => None
      | Some (None, c') => acts c' tr xs
      | Some (Some e, c') => acts c' (tr ++ [e]) xs
      end
  end.

Lemma act_sound c x ev c' : act c x = Some (ev, c') -> cstep c ev c'.
Proof.
  destruct c as [m [rs w] ts]. destruct x as [t o|t]; cbn [act].
  - destruct (ts t) eqn:Ht; try done. intros [= <- <-]. by constructor.
  - assert (Hb : match body m (ts t) with
                 | Some (m', th') => Some (None, mk_cstate m' (mk_rwlock rs w) (<[t := th']> ts))
                 | None => None
                 end = Some (ev, c') -> cstep (mk_cstate m (mk_rwlock rs w) ts) ev c').
    { destruct (body m (ts t)) as [[m' th']|] eqn:E; [|done]. intros [= <- <-]. by constructor. }
    destruct (ts t) as [|[path h id|path id|path]| | | | | | | |] eqn:Ht; try exact Hb;
      try (intros [= <- <-]; by econstructor).
    + destruct w; [exact Hb|]. destruct (decide (rs = ∅)) as [->|]; [|done].
      intros [= <- <-]. by apply c_lock.
    + destruct w; [exact Hb|]. destruct (decide (rs = ∅)) as [->|]; [|done].
      intros [= <- <-]. by apply c_lock.
    + destruct w; [exact Hb|]. intros [= <- <-]. by apply c_rlock.
Qed.

Lemma acts_sound c0 xs c tr tr' c' :
  runs cstep c0 tr c -> acts c tr xs = Some (tr', c') -> runs cstep c0 tr' c'.
Proof.
  revert c tr. induction xs as [|x xs IH]; intros c tr Hr Ha; [by injection Ha as <- <-|].
  cbn [acts] in Ha. destruct (act c x) as [[[e|] c1]|] eqn:Ex; [..|done];
    apply act_sound in Ex; refine (IH _ _ _ Ha); [by eapply runs_event|by eapply runs_silent].
Qed.

(** Two handlers for a route, and two lookups at once: the one that increments the counter
    first returns last. *)
Definition two_lookups : list action :=
  [Start 1 (OpAdd "a.com" 7 "x"); Go 1; Go 1; Go 1; Go 1;
   Start 1 (OpAdd "a.com" 8 "y"); Go 1; Go 1; Go 1; Go 1;
   Start 2 (OpLookup "a.com/"); Start 3 (OpLookup "a.com/"); Go 2; Go 3; Go 3; Go 2;
   Go 2; Go 3; Go 3; Go 3; Go 3; Go 2].

Definition two_lookups_seen : list (@event nat) :=
  [Invoke 1 (OpAdd "a.com" 7 "x"); Response 1 None; Invoke 1 (OpAdd "a.com" 8 "y"); Response 1 None;
   Invoke 2 (OpLookup "a.com/"); Invoke 3 (OpLookup "a.com/"); Response 3 (Some 7)].

Lemma two_lookups_run :
  exists c, runs cstep c_init two_lookups_seen c /\ cs_threads c 2 = Found (Some 8).
Proof.
  assert (Hs : match acts c_init [] two_lookups with
               | Some (tr, c) => tr = two_lookups_seen /\ cs_threads c 2 = Found (Some 8)
               | None => False
               end) by (vm_compute; by split).
  destruct (acts c_init [] two_lookups) as [[tr c]|] eqn:E; [|done]. destruct Hs as [-> Hs].
  exists c. split; [|done]. apply (acts_sound c_init two_lookups c_init [] two_lookups_seen c); [constructor|done].
Qed.

Lemma mux_linearizable_witness :
  exists c, runs cstep c_init two_lookups_seen c /\
    exists a, runs astep a_init two_lookups_seen a /\ as_mux a = cs_mux c.
Proof.
  destruct two_lookups_run as (c & Hr & _). exists c. split; [exact Hr|].
  exact (proj1 (mux_linearizable two_lookups_seen c Hr)).
Defined.

Lemma mux_callers_progress_witness :
  exists c, runs cstep c_init two_lookups_seen c /\ moves c.
Proof.
  destruct two_lookups_run as (c & Hr & Hf). exists c. split; [exact Hr|].
  apply (mux_callers_progress two_lookups_seen c 2 Hr). rewrite Hf. discriminate.
Defined.
