(* ===== verification/MuxOrder.v ===== *)
(** A reference definition of the multiplexer (pkg/mux/mux.go): a plain list of rows, in the
    order lookups walk them, without pointers, map or loops over positions.  A mux answers
    every history of calls like the list, also which handler of which route is returned. *)

From S2P Require Import Prelude GoStrings Glob Routes Mux MuxProps MuxConc.

Local Open Scope go_scope.

Import Mux.

(** ** The reference *)

Section Reference.
Context {H : Type}.

(** A route with its handlers and the number of the last request it answered. *)
Record row := mk_row { r_route : string; r_handlers : list (H * string); r_next : Z }.

Implicit Types (r : row) (rows : list row) (path id : string) (h : H).

(** A row whose handlers are all removed stays, but is not used again. *)
Definition in_use r : bool := negb (length (r_handlers r) =? 0)%nat.

Definition of_route path r : bool := in_use r && String.eqb (r_route r) path.

(** Change the first row a test holds of. *)
Fixpoint change (test : row -> bool) (f : row -> row) rows : option (list row) :=
  match rows with
  | [] => None
  | r :: rows => if test r then Some (f r :: rows) else cons r <$> change test f rows
  end.

(** A new route goes in front of the first row that is shorter, but a wildcard never in
    front of a plain route. *)
Definition goes_before r r' : bool :=
  negb (is_wildcard (r_route r) && negb (is_wildcard (r_route r'))) &&
  (String.length (r_route r') <? String.length (r_route r))%nat.

Fixpoint insert_row r rows : list row :=
  match rows with
  | [] => [r]
  | r' :: rows => if goes_before r r' then r :: r' :: rows else r' :: insert_row r rows
  end.

Definition more h id r : row := mk_row (r_route r) (r_handlers r ++ [(h, id)]) (r_next r).

Definition less id r : row := mk_row (r_route r) (drop_id id (r_handlers r)) (r_next r).

Definition add_row path h id rows : list row :=
  match change (of_route path) (more h id) rows with
  | Some rows => rows
  | None => insert_row (mk_row path [(h, id)] 0) rows
  end.

Definition remove_row path id rows : list row := default rows (change (of_route path) (less id) rows).

(** The next handler of a row, the counts being a [uint32]. *)
Definition pick r : option H :=
  let count := u32_wrap (Z.of_nat (length (r_handlers r))) in
  if (count =? 0)%Z then None
  else fst <$> r_handlers r !! Z.to_nat (u32_add (r_next r) 1 mod count).

Definition turn r : row := mk_row (r_route r) (r_handlers r) (u32_add (r_next r) 1).

(** The first row that covers the path and has a handler answers. *)
Fixpoint lookup_row path rows : option H * list row :=
  match rows with
  | [] => (None, [])
  | r :: rows =>
      match (if route_match (r_route r) path then pick r else None) with
      | Some h => (Some h, turn r :: rows)
      | None => let '(a, rows) := lookup_row path rows in (a, r :: rows)
      end
  end.

(** The answers of a history of calls. *)
Fixpoint row_answers rows (os : list (@op H)) : list (option H) :=
  match os with
  | [] => []
  | OpAdd path h id :: os => row_answers (add_row path h id rows) os
  | OpRemove path id :: os => row_answers (remove_row path id rows) os
  | OpLookup path :: os =>
      let '(a, rows) := lookup_row path rows in a :: row_answers rows os
  end.

(** The answers of a mux, each call in turn. *)
Fixpoint mux_answers (m : Mux H) (os : list (@op H)) : outcome (list (option H)) :=
  match os with
  | [] => Return []
  | OpAdd path h id :: os => mux_answers (Add m path h id) os
  | OpRemove path id :: os => mux_answers (Remove m path id) os
  | OpLookup path :: os =>
      let! (a, m) := Handler m path in
      let! answers := mux_answers m os in
      Return (a :: answers)
  end.
End Reference.
Arguments row : clear implicits.

(** ** Simulation *)

Section Simulation.
Context {H : Type}.
Implicit Types (m : Mux H) (e : muxEntry H) (rows : list (row H)) (path id : string) (h : H).

Definition row_of e : row H := mk_row (e_path e) (pair_of <$> e_handlers e) (e_next e).

(** The rows of some pointers into a heap, and of a mux. *)
Definition rows_at (heap : list (muxEntry H)) (ls : list nat) : list (row H) :=
  row_of <$> (deref heap <$> ls).

Definition rows_of m : list (row H) := rows_at (m_heap m) (m_entries m).

Lemma in_use_row e : in_use (row_of e) = true <-> e_handlers e <> [].
Proof.
  unfold in_use. cbn. rewrite length_fmap. by destruct (e_handlers e).
Qed.

Lemma rows_at_cons heap l ls : rows_at heap (l :: ls) = row_of (deref heap l) :: rows_at heap ls.
Proof. done. Qed.

(** Replacing an entry no pointer of which is left changes no row. *)
Lemma rows_at_insert_other heap ls l e :
  l ∉ ls -> l < length heap -> rows_at (<[l := e]> heap) ls = rows_at heap ls.
Proof.
  intros Hn Hl. unfold rows_at. f_equal. apply list_fmap_ext. intros i l' Hl'.
  rewrite deref_insert by done. case_decide as Hd; [|done]. subst.
  apply list_elem_of_lookup_2 in Hl'. done.
Qed.

Lemma rows_at_insert_head heap ls l e :
  l ∉ ls -> l < length heap -> rows_at (<[l := e]> heap) (l :: ls) = row_of e :: rows_at heap ls.
Proof.
  intros Hn Hl. rewrite <- (rows_at_insert_other heap ls l e Hn Hl). unfold rows_at. cbn.
  rewrite deref_insert by done. by rewrite decide_True.
Qed.

(** Changing the one row a test holds of is replacing its entry. *)
Lemma change_rows_at test f heap ls l e :
  NoDup ls -> l ∈ ls -> l < length heap ->
  (forall l', l' ∈ ls -> test (row_of (deref heap l')) = true <-> l' = l) ->
  row_of e = f (row_of (deref heap l)) ->
  change test f (rows_at heap ls) = Some (rows_at (<[l := e]> heap) ls).
Proof.
  intros Hnd Hin Hl Ht He. induction Hnd as [|l' ls Hn Hnd IH]; [by apply not_elem_of_nil in Hin|].
  rewrite rows_at_cons. cbn [change]. destruct (test (row_of (deref heap l'))) eqn:E.
  - assert (l' = l) as -> by (apply Ht; [by left | done]).
    by rewrite rows_at_insert_head, <- He by done.
  - apply elem_of_cons in Hin as [->|Hin].
    { rewrite (proj2 (Ht l' ltac:(by left)) eq_refl) in E. done. }
    assert (Hne : l <> l') by (intros ->; done).
    rewrite IH; [|done|intros l0 Hl0; apply Ht; by right]. cbn [fmap option_fmap option_map].
    rewrite rows_at_cons, deref_insert, decide_False by done. done.
Qed.

Lemma change_none (test : row H -> bool) f rows : Forall (fun r => test r = false) rows -> change test f rows = None.
Proof. induction 1 as [|r rows Hr _ IH]; [done|]. cbn. by rewrite Hr, IH. Qed.

Lemma wf_NoDup m : wf m -> NoDup (m_entries m).
Proof. intros Hwf. rewrite (wf_entries m Hwf). apply NoDup_seq. Qed.

(** The row in use of a route is the entry the map holds. *)
Lemma of_route_entry m path l' :
  wf m -> l' ∈ m_entries m ->
  of_route path (row_of (deref (m_heap m) l')) = true <-> m_entryMap m !! path = Some l'.
Proof.
  intros Hwf Hl'. unfold of_route. rewrite andb_true_iff, in_use_row, String.eqb_eq. cbn [r_route row_of].
  pose proof (wf_entries_lt m l' Hwf Hl') as Hlt. apply lookup_lt_is_Some_2 in Hlt as [e He].
  rewrite (deref_lookup _ _ _ He). split.
  - intros [Hne <-]. by apply (wf_live m Hwf).
  - intros Hm. destruct (wf_map m Hwf _ _ Hm) as (e' & He' & Hp & Hne). by simplify_eq.
Qed.

(** A change of the entry of a route. *)
Lemma change_entry m path l f e :
  wf m -> m_entryMap m !! path = Some l -> row_of e = f (row_of (deref (m_heap m) l)) ->
  change (of_route path) f (rows_of m) = Some (rows_at (<[l := e]> (m_heap m)) (m_entries m)).
Proof.
  intros Hwf Hl He. pose proof (wf_map_entry m path l Hwf Hl) as Hin.
  apply change_rows_at; [by apply wf_NoDup|done|by apply wf_entries_lt| |done].
  intros l' Hl'. rewrite of_route_entry by done. split; congruence.
Qed.

Lemma change_no_entry m path f :
  wf m -> m_entryMap m !! path = None -> change (of_route path) f (rows_of m) = None.
Proof.
  intros Hwf Hn. apply change_none. unfold rows_of, rows_at. rewrite !Forall_fmap. apply Forall_forall.
  intros l Hl. cbn. apply not_true_iff_false. rewrite of_route_entry by done. congruence.
Qed.

Lemma insert_entry_rows e es :
  entry_ok e -> Forall entry_ok es -> row_of <$> insert_entry e es = insert_row (row_of e) (row_of <$> es).
Proof.
  intros [He _] Hes. induction Hes as [|o es [Ho _] _ IH]; [done|].
  rewrite insert_entry_cons. cbn [fmap list_fmap insert_row]. unfold goes_before at 1. cbn [r_route row_of].
  rewrite <- He, <- Ho. destruct (_ && _); [done|]. cbn. by rewrite IH.
Qed.

Lemma Add_rows m path h id : wf m -> rows_of (Add m path h id) = add_row path h id (rows_of m).
Proof.
  intros Hwf. unfold add_row. destruct (m_entryMap m !! path) as [l|] eqn:Hl.
  - rewrite (change_entry m path l _ (entry_add (deref (m_heap m) l) h id)); [|done|done|].
    + unfold Add. by rewrite Hl.
    + unfold row_of, more. cbn. by rewrite fmap_app.
  - rewrite change_no_entry by done.
    destruct (Add_new_entries m path h id Hwf Hl) as (ls & -> & _ & Hd).
    unfold rows_of at 1, rows_at. cbn [m_heap m_entries]. rewrite Hd.
    rewrite insert_entry_rows; [done|apply new_entry_ok|by apply wf_deref_ok].
Qed.

Lemma Remove_rows m path id : wf m -> rows_of (Remove m path id) = remove_row path id (rows_of m).
Proof.
  intros Hwf. unfold remove_row. destruct (m_entryMap m !! path) as [l|] eqn:Hl.
  - rewrite (change_entry m path l _ (entry_remove (deref (m_heap m) l) id)); [|done|done|].
    + unfold Remove. by rewrite Hl.
    + unfold row_of, less. cbn [r_route r_handlers r_next]. by rewrite entry_remove_handlers.
  - rewrite change_no_entry by done. unfold Remove. by rewrite Hl.
Qed.

(** [entry.handler()] is picking the row's handler. *)
Lemma entry_handler_pick e :
  entry_handler e = Return (pick (row_of e), match pick (row_of e) with Some _ => bump e | None => e end).
Proof.
  destruct (live e) eqn:El.
  - destruct (entry_handler_live e El) as (x & Hx & ->).
    assert (Hp : pick (row_of e) = Some (mh_handler x)).
    { unfold pick. cbn [row_of r_handlers r_next]. rewrite length_fmap. unfold live in El. bool_prop.
      rewrite El. change (Z.to_nat _) with (next_index e). by rewrite list_lookup_fmap, Hx. }
    by rewrite Hp.
  - rewrite (entry_handler_dead e El). unfold pick. cbn [row_of r_handlers]. rewrite length_fmap.
    unfold live in El. bool_prop. by rewrite El.
Qed.

Lemma handler_loop_rows heap ls path :
  NoDup ls -> (forall l, l ∈ ls -> l < length heap /\ entry_ok (deref heap l)) ->
  exists heap', handler_loop heap ls path = Return ((lookup_row path (rows_at heap ls)).1, heap') /\
    rows_at heap' ls = (lookup_row path (rows_at heap ls)).2 /\
    (forall l, l ∉ ls -> deref heap' l = deref heap l).
Proof.
  intros Hnd. revert heap. induction Hnd as [|l ls Hn Hnd IH]; intros heap Hls; [by exists heap|].
  destruct (Hls l ltac:(by left)) as [Hl Hok].
  destruct (IH heap) as (heap' & Hh & Hrows & Hother); [intros l' Hl'; apply Hls; by right|].
  cbn [handler_loop]. rewrite entry_match_route by done. rewrite rows_at_cons. cbn [lookup_row r_route row_of].
  assert (Hskip : exists heap', handler_loop heap ls path =
      Return ((let '(a, rows) := lookup_row path (rows_at heap ls) in (a, row_of (deref heap l) :: rows)).1, heap') /\
      rows_at heap' (l :: ls) =
        (let '(a, rows) := lookup_row path (rows_at heap ls) in (a, row_of (deref heap l) :: rows)).2 /\
      (forall l0, l0 ∉ l :: ls -> deref heap' l0 = deref heap l0)).
  { exists heap'. destruct (lookup_row path (rows_at heap ls)) as [a rows]. cbn [fst snd] in *.
    split; [done|]. split; [by rewrite rows_at_cons, Hother, Hrows|]. intros l0 Hl0. apply Hother. set_solver. }
  destruct (route_match (e_path (deref heap l)) path); [|done].
  rewrite entry_handler_pick. cbn [outcome_bind].
  destruct (pick (row_of (deref heap l))) as [h|].
  - exists (<[l := bump (deref heap l)]> heap). split; [done|]. split.
    + exact (rows_at_insert_head heap ls l (bump (deref heap l)) Hn Hl).
    + intros l0 Hl0. rewrite deref_insert, decide_False by (done || set_solver). done.
  - assert (Hid : <[l := deref heap l]> heap = heap).
    { apply list_insert_id. apply lookup_lt_is_Some_2 in Hl as [e He]. by rewrite (deref_lookup _ _ _ He). }
    by rewrite Hid.
Qed.

Lemma Handler_rows m path :
  wf m -> exists m', Handler m path = Return ((lookup_row path (rows_of m)).1, m') /\
    rows_of m' = (lookup_row path (rows_of m)).2 /\ wf m' /\ table m' = table m.
Proof.
  intros Hwf. destruct (handler_loop_rows (m_heap m) (m_entries m) path (wf_NoDup m Hwf)) as (heap & Hh & Hrows & _).
  { intros l Hl. split; [by apply wf_entries_lt|by apply wf_entry_ok]. }
  destruct (Handler_wf m path Hwf) as (a & m' & Hm & Hwf' & Ht). exists m'.
  unfold Handler in *. rewrite Hh in *. cbn [outcome_bind] in Hm. injection Hm as _ <-. done.
Qed.

Lemma answers_simulated os m : wf m -> mux_answers m os = Return (row_answers (rows_of m) os).
Proof.
  revert m. induction os as [|[path h id|path id|path] os IH]; intros m Hwf; [done| | |]; cbn [mux_answers row_answers].
  - rewrite IH by (by apply Add_wf). by rewrite Add_rows.
  - rewrite IH by (by apply Remove_wf). by rewrite Remove_rows.
  - destruct (Handler_rows m path Hwf) as (m' & -> & Hrows & Hwf' & _). cbn [outcome_bind].
    rewrite IH, Hrows by done. by destruct (lookup_row path (rows_of m)).
Qed.
End Simulation.

(** ** The list as a router *)

Section Router.
Context {H : Type}.
Implicit Types (m : Mux H) (rows : list (row H)) (path id : string) (h : H).

(** The table rows stand for: those in use. *)
Definition rows_table rows : gmap string (list (H * string)) :=
  list_to_map ((fun r => (r_route r, r_handlers r)) <$> filter (fun r => in_use r = true) rows).

(** The rows of a mux that keeps its invariant. *)
Definition rows_ok rows : Prop := exists m, wf m /\ rows_of m = rows.

Lemma elem_of_rows m path hs :
  wf m ->
  (path, hs) ∈ (fun r => (r_route r, r_handlers r)) <$> filter (fun r => in_use r = true) (rows_of m) <->
  exists l, m_entryMap m !! path = Some l /\ hs = pair_of <$> e_handlers (deref (m_heap m) l).
Proof.
  intros Hwf. unfold rows_of, rows_at. rewrite <- list_fmap_compose, list_elem_of_fmap. split.
  - intros (r & [= -> ->] & Hr). apply list_elem_of_filter in Hr as [Hu (l & -> & Hl)%list_elem_of_fmap].
    exists l. split; [|done]. apply (of_route_entry m (e_path (deref (m_heap m) l)) l Hwf Hl).
    change (in_use (row_of (deref (m_heap m) l)) = true) in Hu. unfold of_route. rewrite Hu. apply String.eqb_refl.
  - intros (l & Hl & ->). pose proof (wf_map_entry m path l Hwf Hl) as Hin.
    pose proof (proj2 (of_route_entry m path l Hwf Hin) Hl) as Hr.
    apply andb_true_iff in Hr as [Hu <-%String.eqb_eq].
    exists (row_of (deref (m_heap m) l)). split; [done|]. apply list_elem_of_filter. split; [done|].
    apply list_elem_of_fmap. exists l. split; [done|exact Hin].
Qed.

Lemma rows_table_of m : wf m -> rows_table (rows_of m) = table m.
Proof.
  intros Hwf. apply map_eq. intros p. rewrite table_lookup. unfold rows_table.
  destruct (m_entryMap m !! p) as [l|] eqn:Hl; cbn [fmap option_fmap option_map].
  - apply elem_of_list_to_map_1'.
    + intros hs Hhs. apply elem_of_rows in Hhs as (l' & ? & ->); [|done]. by simplify_eq.
    + apply elem_of_rows; [done|]. by exists l.
  - apply not_elem_of_list_to_map_1. intros ([p' hs] & -> & Hin)%list_elem_of_fmap.
    cbn [fst] in Hl. apply elem_of_rows in Hin as (l & Hl' & _); [|done]. congruence.
Qed.

#[export] Instance rows_Router : Router H (list (row H)) := {
  rt_table := rows_table;
  rt_ok := rows_ok;
  rt_empty := [];
  rt_add rows path h id := add_row path h id rows;
  rt_remove rows path id := remove_row path id rows;
  rt_lookup rows path := Return (lookup_row path rows)
}.

(** What holds of every mux holds of the list. *)
#[export] Instance rows_RouterLaws : RouterLaws H (list (row H)).
Proof.
  split.
  - split; [exists empty_Mux; split; [apply empty_wf|done]|done].
  - intros _ p h id (m & Hwf & <-). cbn. rewrite <- Add_rows by done. destruct (Add_wf m p h id Hwf) as [Hw Ht].
    split; [by exists (Add m p h id)|]. rewrite (rows_table_of m Hwf), <- Ht. by apply rows_table_of.
  - intros _ p id (m & Hwf & <-). cbn. rewrite <- Remove_rows by done. pose proof (Remove_wf m p id Hwf) as Hw.
    split; [by exists (Remove m p id)|]. rewrite (rows_table_of m Hwf), <- Remove_table by done. by apply rows_table_of.
  - intros _ path (m & Hwf & <-). cbn. destruct (Handler_rows m path Hwf) as (m' & _ & Hr & Hw & Ht).
    destruct (lookup_row path (rows_of m)) as [a rows]. cbn in Hr. subst rows. do 2 eexists. split; [done|].
    split; [by exists m'|]. rewrite (rows_table_of m Hwf), <- Ht. by apply rows_table_of.
  - intros _ path h rows (m & Hwf & <-). cbn. rewrite rows_table_of by done. intros Hs [= Hh].
    destruct (Handler_rows m path Hwf) as (m' & Hm & _). rewrite Hh in Hm. by eapply Handler_best.
  - intros _ path rows (m & Hwf & <-). cbn. rewrite rows_table_of by done. intros Hs [= Hh].
    destruct (Handler_rows m path Hwf) as (m' & Hm & _). rewrite Hh in Hm. by eapply Handler_none.
Qed.
End Router.

(** ** Concurrent callers *)

Section Callers.
Context {H : Type}.
Implicit Types (o : @op H) (rows : list (row H)).

(** A call on the list, in one step. *)
Definition row_call rows o : option H * list (row H) :=
  match o with
  | OpAdd path h id => (None, add_row path h id rows)
  | OpRemove path id => (None, remove_row path id rows)
  | OpLookup path => lookup_row path rows
  end.

(** Goroutines that share the list: a call takes place in one step. *)
Record rstate := mk_rstate { rs_rows : list (row H); rs_threads : nat -> @athread H }.

Inductive rstep : rstate -> option (@event H) -> rstate -> Prop :=
  | r_invoke rows ts t o :
      ts t = AIdle ->
      rstep (mk_rstate rows ts) (Some (Invoke t o)) (mk_rstate rows (<[t := AWaiting o]> ts))
  | r_call rows ts t o :
      ts t = AWaiting o ->
      rstep (mk_rstate rows ts) None
        (mk_rstate (row_call rows o).2 (<[t := AReturning (row_call rows o).1]> ts))
  | r_return rows ts t a :
      ts t = AReturning a ->
      rstep (mk_rstate rows ts) (Some (Response t a)) (mk_rstate rows (<[t := AIdle]> ts)).

Definition r_init : rstate := mk_rstate [] (fun _ => AIdle).

Definition rows_state (a : @astate H) : rstate := mk_rstate (rows_of (as_mux a)) (as_threads a).

Lemma call_rows m o a m' :
  wf m -> call m o = Return (a, m') -> row_call (rows_of m) o = (a, rows_of m') /\ wf m'.
Proof.
  intros Hwf. destruct o as [path h id|path id|path]; cbn.
  - intros [= <- <-]. rewrite Add_rows by done. split; [done|by apply Add_wf].
  - intros [= <- <-]. rewrite Remove_rows by done. split; [done|by apply Remove_wf].
  - destruct (Handler_rows m path Hwf) as (m1 & -> & Hr & Hw & _). intros [= <- <-].
    split; [|done]. rewrite Hr. by destruct (lookup_row path (rows_of m)).
Qed.

Lemma astep_rows a ev a' :
  astep a ev a' -> wf (as_mux a) -> rstep (rows_state a) ev (rows_state a') /\ wf (as_mux a').
Proof.
  intros [m ts t o Ht|m ts t o r m' Ht Hc|m ts t r Ht] Hwf; cbn in *.
  - split; [by apply r_invoke|done].
  - destruct (call_rows m o r m' Hwf Hc) as [Hr Hw]. split; [|done].
    pose proof (r_call (rows_of m) ts t o Ht) as Hs. by rewrite Hr in Hs.
  - split; [by apply r_return|done].
Qed.

Lemma runs_rows tr a :
  runs astep a_init tr a -> runs rstep r_init tr (rows_state a) /\ wf (as_mux a).
Proof.
  remember a_init as a0 eqn:E. induction 1 as [s|s1 s2 s3 tr _ IH Hs|s1 s2 s3 tr e _ IH Hs]; subst.
  - split; [constructor|apply empty_wf].
  - destruct (IH eq_refl) as [IHr Hwf]. destruct (astep_rows _ _ _ Hs Hwf) as [Hr Hw].
    split; [by eapply runs_silent|done].
  - destruct (IH eq_refl) as [IHr Hwf]. destruct (astep_rows _ _ _ Hs Hwf) as [Hr Hw].
    split; [by eapply runs_event|done].
Qed.

(** The rows after a history. *)
Definition rows_after rows (os : list (@op H)) : list (row H) :=
  fold_left (fun rows o => (row_call rows o).2) os rows.

Lemma run_rows os (m m' : Mux H) : wf m -> run m os = Return m' -> rows_of m' = rows_after (rows_of m) os.
Proof.
  revert m. induction os as [|o os IH]; intros m Hwf; cbn [run rows_after fold_left]; [by intros [= ->]|].
  destruct (run_op_wf m o Hwf) as (m1 & Hm1 & Hwf1 & _). rewrite Hm1. cbn [outcome_bind]. intros Hr.
  rewrite (IH m1 Hwf1 Hr). unfold rows_after. f_equal. destruct o as [path h id|path id|path]; cbn in *.
  - injection Hm1 as <-. by apply Add_rows.
  - injection Hm1 as <-. by apply Remove_rows.
  - destruct (Handler_rows m path Hwf) as (m2 & Hm2 & Hrows & _). rewrite Hm2 in Hm1. by injection Hm1 as <-.
Qed.
End Callers.

(** ** Properties *)

(** C1. The multiplexer is an ordered list of rows: every history of [Add], [Remove] and
    [Handler] calls runs without a panic, and each lookup returns what the first row of the
    list that covers the path and has a handler returns, when added handlers go to the row
    in use of their route or into a new row in front of the first shorter one (a wildcard's
    never in front of a plain one), removed ones leave their row, and a row answers in
    rotation.  Afterwards the mux keeps its invariant, holds these rows, and stands for the
    table of routes obtained by the same calls. *)
Theorem mux_is_ordered_list {H : Type} (os : list (@op H)) :
  mux_answers empty_Mux os = Return (row_answers [] os) /\
  exists m, run empty_Mux os = Return m /\ wf m /\ rows_of m = rows_after [] os /\
    table m = fold_left table_op os ∅.
Proof.
  split; [apply (answers_simulated os empty_Mux empty_wf)|].
  destruct (run_wf os empty_Mux empty_wf) as (m & Hr & Hwf & Ht). exists m. split; [exact Hr|]. split; [exact Hwf|].
  split; [exact (run_rows os empty_Mux m empty_wf Hr)|exact Ht].
Qed.

(** C15. The same for goroutines that call the multiplexer concurrently: whatever they call
    and however the steps of the calls interleave (the lock, the scan, the atomic increment
    and the indexing), what they see is seen when they share the ordered list and each call
    takes place in one step between its invocation and its return; the list then is the
    multiplexer's, and no call panics. *)
Theorem mux_callers_see_list {H : Type} tr (c : @cstate H) :
  runs cstep c_init tr c ->
  (exists ts, runs rstep r_init tr (mk_rstate (rows_of (cs_mux c)) ts)) /\
  forall t, cs_threads c t <> Panicked.
Proof.
  intros Hr. apply runs_sim in Hr as (a & Ha & Hs). split.
  - apply runs_rows in Ha as [Ha _]. unfold rows_state in Ha. rewrite (sim_mux _ _ Hs) in Ha. by exists (as_threads a).
  - intros t Hp. pose proof (sim_threads _ _ Hs t) as Ht. by rewrite Hp in Ht.
Qed.

(** ** Witnesses *)

Lemma two_lookups_rows :
  exists c, runs cstep c_init two_lookups_seen c /\
    rows_of (cs_mux c) = [mk_row "a.com" [(7, "x"); (8, "y")] 2].
Proof.
  assert (Hs : match acts c_init [] two_lookups with
               | Some (tr, c) => tr = two_lookups_seen /\ rows_of (cs_mux c) = [mk_row "a.com" [(7, "x"); (8, "y")] 2]
               | None => False
               end) by (vm_compute; by split).
  destruct (acts c_init [] two_lookups) as [[tr c]|] eqn:E; [|done]. destruct Hs as [-> Hs].
  exists c. split; [|done]. apply (acts_sound c_init two_lookups c_init [] two_lookups_seen c); [constructor|done].
Qed.

Lemma mux_callers_see_list_witness :
  exists c ts, runs cstep c_init two_lookups_seen c /\
    runs rstep r_init two_lookups_seen (mk_rstate [mk_row "a.com" [(7, "x"); (8, "y")] 2] ts).
Proof.
  destruct two_lookups_rows as (c & Hr & Hrows).
  destruct (mux_callers_see_list two_lookups_seen c Hr) as [[ts Hs] _]. exists c, ts. split; [exact Hr|].
  by rewrite <- Hrows.
Defined.
