(* ===== verification/Url.v ===== *)
(** The part of Go's [net/url] (Go 1.18) the program uses: [URL], [Parse],
    [String], [Redacted], [EscapedPath], [RequestURI] and [Query].

    Functions keep Go's names and control flow.  A pointer to a [Userinfo] is an
    option.  Escaping is per mode, as in Go's [encoding] constants. *)

From S2P Require Import Prelude GoStrings.

Local Open Scope go_scope.

Inductive encoding :=
  | encodePath
  | encodeHost
  | encodeZone
  | encodeUserPassword
  | encodeQueryComponent
  | encodeFragment.

#[export] Instance encoding_eq_dec : EqDecision encoding.
Proof. solve_decision. Defined.

Definition mode_is (m m' : encoding) : bool := bool_decide (m = m').

(** ** Characters *)

Definition is_digit (c : ascii) : bool := in_range 48 57 (byte_val c).
Definition is_upper (c : ascii) : bool := in_range 65 90 (byte_val c).
Definition is_lower (c : ascii) : bool := in_range 97 122 (byte_val c).
Definition is_alnum (c : ascii) : bool := is_lower c || is_upper c || is_digit c.

(** [one_of c chars]: a Go [case] with several character literals. *)
Definition one_of (c : ascii) (chars : string) : bool := str_elem c chars.

Definition dquote : ascii := "034"%char.
Definition percent_c : ascii := "%"%char.
Definition plus_c : ascii := "+"%char.

Definition shouldEscape (c : ascii) (mode : encoding) : bool :=
  if is_alnum c then false
  else if (mode_is mode encodeHost || mode_is mode encodeZone) &&
          (one_of c "!$&'()*+,;=:[]<>" || Ascii.eqb c dquote) then false
  else if one_of c "-_.~" then false
  else if one_of c "$&+,/:;=?@" && negb (mode_is mode encodeHost || mode_is mode encodeZone) then
    match mode with
    | encodePath => Ascii.eqb c "?"%char
    | encodeUserPassword => one_of c "@/?:"
    | encodeQueryComponent => true
    | _ => false
    end
  else if mode_is mode encodeFragment && one_of c "!()*" then false
  else true.

Definition hex_digit (v : Z) : ascii :=
  ascii_of_nat (Z.to_nat (if (v <? 10)%Z then 48 + v else 55 + v)).

(** A byte escaped with lower-case digits. *)
Definition hex_lower (v : Z) : ascii :=
  ascii_of_nat (Z.to_nat (if (v <? 10)%Z then 48 + v else 87 + v)).

Definition percent_byte (c : ascii) : string :=
  String percent_c (String (hex_lower (byte_val c / 16)) (str1 (hex_lower (byte_val c mod 16)))).

Definition ishex (c : ascii) : bool :=
  is_digit c || in_range 97 102 (byte_val c) || in_range 65 70 (byte_val c).

Definition unhex (c : ascii) : Z :=
  if is_digit c then (byte_val c - 48)%Z
  else if in_range 97 102 (byte_val c) then (byte_val c - 87)%Z
  else if in_range 65 70 (byte_val c) then (byte_val c - 55)%Z
  else 0%Z.

(** ** Escaping *)

Definition escape_byte (c : ascii) (mode : encoding) : string :=
  if Ascii.eqb c " "%char && mode_is mode encodeQueryComponent then "+"
  else if shouldEscape c mode then
    String percent_c (String (hex_digit (byte_val c / 16))
      (String (hex_digit (byte_val c mod 16)) EmptyString))
  else str1 c.

Fixpoint escape (s : string) (mode : encoding) : string :=
  match s with
  | EmptyString => EmptyString
  | String c s => escape_byte c mode +:+ escape s mode
  end.

Definition byte_of (v : Z) : ascii := ascii_of_nat (Z.to_nat v).

(** The checks on one escape triple [%hl]. *)
Definition bad_triple (h l : ascii) (mode : encoding) : bool :=
  let is25 := Ascii.eqb h "2"%char && Ascii.eqb l "5"%char in
  let v := (unhex h * 16 + unhex l)%Z in
  (mode_is mode encodeHost && (unhex h <? 8)%Z && negb is25) ||
  (mode_is mode encodeZone && negb is25 && negb (v =? 32)%Z &&
   shouldEscape (byte_of v) encodeHost).

Definition bad_host_byte (c : ascii) (mode : encoding) : bool :=
  (mode_is mode encodeHost || mode_is mode encodeZone) && (byte_val c <? 128)%Z &&
  shouldEscape c mode.

(** [unescape]; Go checks the whole string before decoding, which fails on the
    same strings. *)
Fixpoint unescape (s : string) (mode : encoding) : result string :=
  match s with
  | EmptyString => Ok EmptyString
  | String c s =>
      if Ascii.eqb c percent_c then
        match s with
        | String h (String l s) =>
            if negb (ishex h && ishex l) then Err "invalid URL escape"
            else if bad_triple h l mode then Err "invalid URL escape"
            else try t <- unescape s mode;;
                 Ok (String (byte_of (unhex h * 16 + unhex l)) t)
        | _ => Err "invalid URL escape"
        end
      else if bad_host_byte c mode then Err "invalid character in host name"
      else
        let d := if Ascii.eqb c plus_c && mode_is mode encodeQueryComponent
                 then " "%char else c in
        try t <- unescape s mode;; Ok (String d t)
  end.

(** ** URL *)

Record Userinfo := mk_Userinfo {
  username : string;
  password : string;
  passwordSet : bool
}.

Record URL := mk_URL {
  Scheme : string;
  Opaque : string;
  User : option Userinfo;
  Host : string;
  Path : string;
  RawPath : string;
  ForceQuery : bool;
  RawQuery : string;
  Fragment : string;
  RawFragment : string
}.

#[export] Instance Userinfo_eq_dec : EqDecision Userinfo.
Proof. solve_decision. Defined.
#[export] Instance URL_eq_dec : EqDecision URL.
Proof. solve_decision. Defined.

Definition empty_URL : URL :=
  mk_URL EmptyString EmptyString None EmptyString EmptyString EmptyString false
    EmptyString EmptyString EmptyString.

Definition set_Scheme (s : string) (u : URL) : URL :=
  mk_URL s (Opaque u) (User u) (Host u) (Path u) (RawPath u) (ForceQuery u) (RawQuery u)
    (Fragment u) (RawFragment u).
Definition set_Opaque (s : string) (u : URL) : URL :=
  mk_URL (Scheme u) s (User u) (Host u) (Path u) (RawPath u) (ForceQuery u) (RawQuery u)
    (Fragment u) (RawFragment u).
Definition set_User (i : option Userinfo) (u : URL) : URL :=
  mk_URL (Scheme u) (Opaque u) i (Host u) (Path u) (RawPath u) (ForceQuery u) (RawQuery u)
    (Fragment u) (RawFragment u).
Definition set_Host (s : string) (u : URL) : URL :=
  mk_URL (Scheme u) (Opaque u) (User u) s (Path u) (RawPath u) (ForceQuery u) (RawQuery u)
    (Fragment u) (RawFragment u).
Definition set_Paths (p raw : string) (u : URL) : URL :=
  mk_URL (Scheme u) (Opaque u) (User u) (Host u) p raw (ForceQuery u) (RawQuery u)
    (Fragment u) (RawFragment u).
Definition set_Query (force : bool) (q : string) (u : URL) : URL :=
  mk_URL (Scheme u) (Opaque u) (User u) (Host u) (Path u) (RawPath u) force q
    (Fragment u) (RawFragment u).
Definition set_RawQuery (q : string) (u : URL) : URL := set_Query (ForceQuery u) q u.
Definition set_Fragments (f raw : string) (u : URL) : URL :=
  mk_URL (Scheme u) (Opaque u) (User u) (Host u) (Path u) (RawPath u) (ForceQuery u)
    (RawQuery u) f raw.

(** [u.User.Password()] and [u.User.Username()], nil receivers included. *)
Definition Userinfo_Password (i : option Userinfo) : string * bool :=
  match i with
  | None => (EmptyString, false)
  | Some i => (password i, passwordSet i)
  end.

Definition Userinfo_Username (i : option Userinfo) : string :=
  match i with None => EmptyString | Some i => username i end.

Definition UserPassword (u p : string) : Userinfo := mk_Userinfo u p true.

Definition Userinfo_String (i : Userinfo) : string :=
  if negb (String.eqb (username i) EmptyString) || negb (String.eqb (password i) EmptyString)
  then escape (username i) encodeUserPassword +:+
       (if passwordSet i then ":" +:+ escape (password i) encodeUserPassword else EmptyString)
  else EmptyString.

(** ** Paths and fragments *)

Fixpoint validEncoded (s : string) (mode : encoding) : bool :=
  match s with
  | EmptyString => true
  | String c s =>
      (one_of c "!$&'()*+,;=:@[]%" || negb (shouldEscape c mode)) && validEncoded s mode
  end.

(** The raw form if it is a valid encoding of the decoded one, otherwise the
    default encoding. *)
Definition escaped_form (decoded raw : string) (mode : encoding) : string :=
  if negb (String.eqb raw EmptyString) && validEncoded raw mode &&
     bool_decide (unescape raw mode = Ok decoded)
  then raw
  else if mode_is mode encodePath && String.eqb decoded "*" then "*"
  else escape decoded mode.

Definition EscapedPath (u : URL) : string := escaped_form (Path u) (RawPath u) encodePath.

Definition EscapedFragment (u : URL) : string :=
  escaped_form (Fragment u) (RawFragment u) encodeFragment.

Definition setPath (p : string) (u : URL) : result URL :=
  try path <- unescape p encodePath;;
  Ok (set_Paths path (if String.eqb p (escape path encodePath) then EmptyString else p) u).

Definition setFragment (f : string) (u : URL) : result URL :=
  try frag <- unescape f encodeFragment;;
  Ok (set_Fragments frag
        (if String.eqb f (escape frag encodeFragment) then EmptyString else f) u).

(** ** Parsing *)

Definition is_letter (c : ascii) : bool := is_lower c || is_upper c.

(** [getScheme]: [first] tells whether this is the first byte; [acc] holds the
    bytes read, [raw] the whole string. *)
Fixpoint scheme_loop (first : bool) (acc rest raw : string) : result (string * string) :=
  match rest with
  | EmptyString => Ok (EmptyString, raw)
  | String c rest =>
      if is_letter c then scheme_loop false (acc +:+ str1 c) rest raw
      else if is_digit c || one_of c "+-." then
        if first then Ok (EmptyString, raw) else scheme_loop false (acc +:+ str1 c) rest raw
      else if Ascii.eqb c ":"%char then
        if first then Err "missing protocol scheme" else Ok (acc, rest)
      else Ok (EmptyString, raw)
  end.

Definition getScheme (rawURL : string) : result (string * string) :=
  scheme_loop true EmptyString rawURL rawURL.

Definition to_lower (c : ascii) : ascii :=
  if is_upper c then byte_of (byte_val c + 32) else c.

(** [strings.ToLower] on ASCII, which is what a scheme is made of. *)
Fixpoint ToLower (s : string) : string :=
  match s with
  | EmptyString => EmptyString
  | String c s => String (to_lower c) (ToLower s)
  end.

Fixpoint stringContainsCTLByte (s : string) : bool :=
  match s with
  | EmptyString => false
  | String c s => (byte_val c <? 32)%Z || (byte_val c =? 127)%Z || stringContainsCTLByte s
  end.

Fixpoint all_digits (s : string) : bool :=
  match s with
  | EmptyString => true
  | String c s => is_digit c && all_digits s
  end.

Definition validOptionalPort (port : string) : bool :=
  match port with
  | EmptyString => true
  | String c port => Ascii.eqb c ":"%char && all_digits port
  end.

Fixpoint validUserinfo (s : string) : bool :=
  match s with
  | EmptyString => true
  | String c s => (is_alnum c || one_of c "-._:~!$&'()*+,;=%@") && validUserinfo s
  end.

Definition parseHost (host : string) : result string :=
  match host with
  | String "["%char _ =>
      match LastIndexByte host "]"%char with
      | None => Err "missing ']' in host"
      | Some i =>
          if negb (validOptionalPort (str_drop (S i) host)) then Err "invalid port after host"
          else
            match Index (str_take i host) "%25" with
            | Some zone =>
                try host1 <- unescape (str_take zone host) encodeHost;;
                try host2 <- unescape (str_drop zone (str_take i host)) encodeZone;;
                try host3 <- unescape (str_drop i host) encodeHost;;
                Ok (host1 +:+ host2 +:+ host3)
            | None => unescape host encodeHost
            end
      end
  | _ =>
      match LastIndexByte host ":"%char with
      | Some i =>
          if negb (validOptionalPort (str_drop i host)) then Err "invalid port after host"
          else unescape host encodeHost
      | None => unescape host encodeHost
      end
  end.

Definition parseAuthority (authority : string) : result (option Userinfo * string) :=
  match LastIndexByte authority "@"%char with
  | None => try host <- parseHost authority;; Ok (None, host)
  | Some i =>
      try host <- parseHost (str_drop (S i) authority);;
      let userinfo := str_take i authority in
      if negb (validUserinfo userinfo) then Err "net/url: invalid userinfo"
      else
        match Cut userinfo ":"%char with
        | (user, pass, true) =>
            try user <- unescape user encodeUserPassword;;
            try pass <- unescape pass encodeUserPassword;;
            Ok (Some (UserPassword user pass), host)
        | (user, _, false) =>
            try user <- unescape user encodeUserPassword;;
            Ok (Some (mk_Userinfo user EmptyString false), host)
        end
  end.

(** The authority and the rest of what follows the scheme. *)
Definition split_authority (rest : string) : string * string :=
  let authority := str_drop 2 rest in
  match IndexByte authority "/"%char with
  | Some i => (str_take i authority, str_drop i authority)
  | None => (authority, EmptyString)
  end.

Definition split_query (rest : string) : string * bool * string :=
  if HasSuffix rest "?" && (CountByte rest "?"%char =? 1)%nat
  then (str_take (String.length rest - 1) rest, true, EmptyString)
  else let '(rest, q, _) := Cut rest "?"%char in (rest, false, q).

(** [parse(rawURL, false)] *)
Definition parse (rawURL : string) : result URL :=
  if stringContainsCTLByte rawURL then Err "net/url: invalid control character in URL"
  else if String.eqb rawURL "*" then Ok (set_Paths "*" EmptyString empty_URL)
  else
    try (scheme, rest) <- getScheme rawURL;;
    let scheme := ToLower scheme in
    let '(rest, force, q) := split_query rest in
    let url := set_Query force q (set_Scheme scheme empty_URL) in
    let has_scheme := negb (String.eqb scheme EmptyString) in
    if negb (HasPrefix rest "/") && has_scheme then Ok (set_Opaque rest url)
    else if negb (HasPrefix rest "/") && Contains (Cut rest "/"%char).1.1 ":"
    then Err "first path segment in URL cannot contain colon"
    else if (has_scheme || negb (HasPrefix rest "///")) && HasPrefix rest "//" then
      let '(authority, rest) := split_authority rest in
      try (user, host) <- parseAuthority authority;;
      setPath rest (set_Host host (set_User user url))
    else setPath rest url.

(** [url.Parse(rawURL)] *)
Definition Parse (rawURL : string) : result URL :=
  let '(u, frag, _) := Cut rawURL "#"%char in
  try url <- parse u;;
  if String.eqb frag EmptyString then Ok url else setFragment frag url.

(** ** Printing *)

Definition nonempty (s : string) : bool := negb (String.eqb s EmptyString).

Definition authority_string (u : URL) : string :=
  (if nonempty (Host u) || nonempty (Path u) || bool_decide (is_Some (User u))
   then "//" else EmptyString) +:+
  (match User u with
   | Some ui => Userinfo_String ui +:+ "@"
   | None => EmptyString
   end) +:+
  (if nonempty (Host u) then escape (Host u) encodeHost else EmptyString).

Definition query_string (u : URL) : string :=
  if ForceQuery u || nonempty (RawQuery u) then "?" +:+ RawQuery u else EmptyString.

(** [u.String()] *)
Definition URL_String (u : URL) : string :=
  let scheme := if nonempty (Scheme u) then Scheme u +:+ ":" else EmptyString in
  let body :=
    if nonempty (Opaque u) then Opaque u
    else
      let auth :=
        if nonempty (Scheme u) || nonempty (Host u) || bool_decide (is_Some (User u))
        then authority_string u else EmptyString in
      let path := EscapedPath u in
      let sep := if nonempty path && negb (HasPrefix path "/") && nonempty (Host u)
                 then "/" else EmptyString in
      let dot :=
        if negb (nonempty (scheme +:+ auth +:+ sep)) && Contains (Cut path "/"%char).1.1 ":"
        then "./" else EmptyString in
      auth +:+ sep +:+ dot +:+ path in
  scheme +:+ body +:+ query_string u +:+
  (if nonempty (Fragment u) then "#" +:+ EscapedFragment u else EmptyString).

(** [u.Redacted()] *)
Definition Redacted (u : URL) : string :=
  URL_String
    (if (Userinfo_Password (User u)).2
     then set_User (Some (UserPassword (Userinfo_Username (User u)) "xxxxx")) u else u).

(** [u.RequestURI()] *)
Definition RequestURI (u : URL) : string :=
  (if nonempty (Opaque u)
   then (if HasPrefix (Opaque u) "//" then Scheme u +:+ ":" +:+ Opaque u else Opaque u)
   else if nonempty (EscapedPath u) then EscapedPath u else "/") +:+
  query_string u.

(** ** Query values *)

Definition QueryUnescape (s : string) : result string := unescape s encodeQueryComponent.

(** [u.Query()]: the pairs of the query that decode, in order; Go collects them
    in a map from key to the list of its values. *)
Definition parse_pair (pair : string) : option (string * string) :=
  if str_elem ";"%char pair || String.eqb pair EmptyString then None
  else
    let '(key, value, _) := Cut pair "="%char in
    match QueryUnescape key, QueryUnescape value with
    | Ok key, Ok value => Some (key, value)
    | _, _ => None
    end.

Definition Query (u : URL) : list (string * string) :=
  omap parse_pair (Split (RawQuery u) "&").

(** [Query().Has(key)] and [Query().Get(key)] *)
Definition Values_Has (v : list (string * string)) (key : string) : bool :=
  existsb (fun kv => String.eqb kv.1 key) v.

Definition Values_Get (v : list (string * string)) (key : string) : string :=
  match find (fun kv => String.eqb kv.1 key) v with
  | Some kv => kv.2
  | None => EmptyString
  end.

(** ** Escaping round trips *)

Definition all_bytes : list ascii := ascii_of_nat <$> seq 0 256.

Lemma elem_of_all_bytes c : c ∈ all_bytes.
Proof.
  unfold all_bytes. rewrite <- (ascii_nat_embedding c). apply list_elem_of_fmap_2.
  apply elem_of_seq. pose proof (Ascii.nat_ascii_bounded c). lia.
Qed.

(** A boolean property of bytes is checked on the 256 of them. *)
Lemma byte_forall (f : ascii -> bool) : forallb f all_bytes = true -> forall c, f c = true.
Proof.
  intros Hf c. rewrite forallb_forall in Hf. apply Hf, list_elem_of_In, elem_of_all_bytes.
Qed.

(** The modes in which the program escapes text that is not a host. *)
Definition text_mode (m : encoding) : bool :=
  negb (mode_is m encodeHost || mode_is m encodeZone).

Section Escaping.
Implicit Types (s t a b : string) (c h l : ascii) (m : encoding).

Lemma unescape_triple h l s m :
  unescape (String percent_c (String h (String l s))) m =
  if negb (ishex h && ishex l) then Err "invalid URL escape"
  else if bad_triple h l m then Err "invalid URL escape"
  else try t <- unescape s m;; Ok (String (byte_of (unhex h * 16 + unhex l)) t).
Proof. reflexivity. Qed.

Lemma unescape_plain c s m :
  c <> percent_c ->
  unescape (String c s) m =
  if bad_host_byte c m then Err "invalid character in host name"
  else try t <- unescape s m;;
    Ok (String (if Ascii.eqb c plus_c && mode_is m encodeQueryComponent then " "%char else c) t).
Proof. intros Hc. cbn [unescape]. by rewrite (proj2 (Ascii.eqb_neq _ _) Hc). Qed.

Lemma text_mode_bad m h l c :
  text_mode m = true -> bad_triple h l m = false /\ bad_host_byte c m = false.
Proof. by destruct m. Qed.

Lemma string_len_ind (P : string -> Prop) :
  (forall s, (forall t, String.length t < String.length s -> P t) -> P s) -> forall s, P s.
Proof.
  intros Hs s. remember (String.length s) as n eqn:En. revert s En.
  induction (lt_wf n) as [n _ IH]. intros s ->. apply Hs. intros t Ht. by eapply IH.
Qed.

(** Decoding is compositional. *)
Lemma unescape_app a b s m :
  unescape a m = Ok s -> unescape (a +:+ b) m = try t <- unescape b m;; Ok (s +:+ t).
Proof.
  revert s. induction a as [a IH] using string_len_ind. intros s Ha.
  destruct a as [|c a]; [injection Ha as <-; rewrite sapp_nil_l; by destruct (unescape b m)|].
  destruct (decide (c = percent_c)) as [->|Hc].
  - destruct a as [|h [|l a]]; [done..|]. rewrite unescape_triple in Ha. rewrite !sapp_cons.
    rewrite unescape_triple. destruct (negb _); [done|]. destruct (bad_triple h l m); [done|].
    destruct (unescape a m) as [t|] eqn:Ea; [|done]. injection Ha as <-.
    rewrite (IH a) with (s := t) by (simpl; lia || done). by destruct (unescape b m).
  - rewrite sapp_cons, unescape_plain in * by done. destruct (bad_host_byte c m); [done|].
    destruct (unescape a m) as [t|] eqn:Ea; [|done]. injection Ha as <-.
    rewrite (IH a) with (s := t) by (simpl; lia || done). by destruct (unescape b m).
Qed.

Definition escape_byte_ok (m : encoding) c : bool :=
  let h := hex_digit (byte_val c / 16) in
  let l := hex_digit (byte_val c mod 16) in
  if Ascii.eqb c " "%char && mode_is m encodeQueryComponent then true
  else if shouldEscape c m
  then ishex h && ishex l && Ascii.eqb (byte_of (unhex h * 16 + unhex l)) c
  else negb (Ascii.eqb c percent_c) &&
       negb (Ascii.eqb c plus_c && mode_is m encodeQueryComponent).

Lemma escape_byte_ok_all m c : escape_byte_ok m c = true.
Proof. revert c. apply byte_forall. destruct m; vm_compute; reflexivity. Qed.

Lemma unescape_escape_byte m c s :
  text_mode m = true ->
  unescape (escape_byte c m +:+ s) m = try t <- unescape s m;; Ok (String c t).
Proof.
  intros Hm. pose proof (escape_byte_ok_all m c) as Hok.
  unfold escape_byte_ok, escape_byte in *.
  destruct (Ascii.eqb c " "%char && mode_is m encodeQueryComponent) eqn:Esp.
  - bool_prop. subst. destruct m; try done.
  - destruct (shouldEscape c m).
    + bool_prop. rewrite !sapp_cons, sapp_nil_l, unescape_triple.
      rewrite (proj1 (text_mode_bad m _ _ c Hm)).
      repeat match goal with H : ishex _ = true |- _ => rewrite H end. simpl.
      by match goal with H : byte_of _ = c |- _ => rewrite H end.
    + bool_prop. unfold str1. rewrite sapp_cons, sapp_nil_l, unescape_plain by done.
      rewrite (proj2 (text_mode_bad m c c c Hm)).
      by match goal with H : _ && _ = false |- _ => rewrite H end.
Qed.

(** Decoding what was escaped gives the string back. *)
Lemma unescape_escape m s : text_mode m = true -> unescape (escape s m) m = Ok s.
Proof.
  intros Hm. induction s as [|c s IH]; [done|]. cbn [escape].
  by rewrite unescape_escape_byte, IH.
Qed.

Lemma unescape_escaped_form m d raw :
  text_mode m = true -> unescape (escaped_form d raw m) m = Ok d.
Proof.
  intros Hm. unfold escaped_form.
  destruct (negb _ && validEncoded raw m && bool_decide _) eqn:E.
  - bool_prop. by apply bool_decide_eq_true in H0.
  - destruct (mode_is m encodePath && String.eqb d "*") eqn:Es; [|by apply unescape_escape].
    bool_prop. subst. by destruct m.
Qed.

(** [EscapedPath] always encodes the path it stands for. *)
Lemma unescape_EscapedPath u : unescape (EscapedPath u) encodePath = Ok (Path u).
Proof. by apply unescape_escaped_form. Qed.

(** An encoded path starts with a slash exactly when the path does. *)
Lemma unescape_slash a s :
  unescape (slash +:+ a) encodePath = Ok s ->
  exists t, s = slash +:+ t /\ unescape a encodePath = Ok t.
Proof.
  unfold slash. rewrite sapp_cons, sapp_nil_l, unescape_plain by done. simpl.
  destruct (unescape a encodePath) as [t|]; [|done]. intros [= <-]. by exists t.
Qed.
End Escaping.

(** ** Network-path references *)

(** The characters that delimit the authority of a URL, and what can follow it. *)
Definition no_delim (a : string) : Prop :=
  str_elem "/"%char a = false /\ str_elem "?"%char a = false /\
  str_elem "#"%char a = false /\ str_elem "@"%char a = false.

Definition starts_in (chars t : string) : Prop :=
  match t with EmptyString => True | String c _ => str_elem c chars = true end.

Section NetPath.
Implicit Types (s t a b : string) (c : ascii).

Lemma IndexByte_app a t c :
  str_elem c a = false -> IndexByte (a +:+ t) c = Nat.add (String.length a) <$> IndexByte t c.
Proof.
  intros Ha. induction a as [|d a IH]; [rewrite sapp_nil_l; by destruct (IndexByte t c)|].
  cbn [str_elem] in Ha. bool_prop. rewrite sapp_cons. cbn [IndexByte].
  destruct (Ascii.eqb_spec d c) as [->|_]; [done|].
  rewrite IH by done. by destruct (IndexByte t c).
Qed.

Lemma str_take_app a t n : str_take (String.length a + n) (a +:+ t) = a +:+ str_take n t.
Proof. induction a as [|d a IH]; [by rewrite !sapp_nil_l|]. rewrite !sapp_cons. simpl. by rewrite IH. Qed.

Lemma Cut_app a t c :
  str_elem c a = false -> (Cut (a +:+ t) c).1.1 = a +:+ (Cut t c).1.1.
Proof.
  intros Ha. unfold Cut. rewrite IndexByte_app by done.
  destruct (IndexByte t c) as [i|]; [|done]. cbn. apply str_take_app.
Qed.

(** Cutting a tail leaves a tail that starts before the cut character. *)
Lemma Cut_starts chars t c :
  starts_in (String c chars) t -> starts_in chars (Cut t c).1.1.
Proof.
  destruct t as [|d t]; [done|]. cbn [starts_in str_elem]. unfold Cut. cbn [IndexByte].
  rewrite (Ascii.eqb_sym c d). destruct (Ascii.eqb d c); [done|]. cbn [orb]. intros Hd.
  destruct (IndexByte t c) as [i|]; done.
Qed.

Lemma unescape_nonempty s m t : unescape s m = Ok t -> s <> EmptyString -> t <> EmptyString.
Proof.
  destruct s as [|c s]; [done|]. intros Hu _. cbn [unescape] in Hu.
  destruct (Ascii.eqb c percent_c).
  - destruct s as [|h [|l s]]; [done..|]. destruct (negb _); [done|].
    destruct (bad_triple h l m); [done|]. destruct (unescape s m); [|done]. by injection Hu as <-.
  - destruct (bad_host_byte c m); [done|]. destruct (unescape s m); [|done]. by injection Hu as <-.
Qed.

Lemma parseHost_nonempty a host : a <> EmptyString -> parseHost a = Ok host -> host <> EmptyString.
Proof.
  intros Ha. assert (Hu : unescape a encodeHost = Ok host -> host <> EmptyString)
    by (intros Hu; by eapply unescape_nonempty).
  assert (Hplain : match LastIndexByte a ":"%char with
    | Some i => if negb (validOptionalPort (str_drop i a)) then Err "invalid port after host"
                else unescape a encodeHost
    | None => unescape a encodeHost end = Ok host -> host <> EmptyString).
  { destruct (LastIndexByte a ":"%char); [|done]. by destruct (negb _). }
  unfold parseHost. destruct a as [|c a0] eqn:Ea; [done|]. rewrite <- Ea in *.
  assert (Hbr : match LastIndexByte a "]"%char with
    | None => Err "missing ']' in host"
    | Some i => if negb (validOptionalPort (str_drop (S i) a)) then Err "invalid port after host"
        else match Index (str_take i a) "%25" with
             | Some zone =>
                try host1 <- unescape (str_take zone a) encodeHost;;
                try host2 <- unescape (str_drop zone (str_take i a)) encodeZone;;
                try host3 <- unescape (str_drop i a) encodeHost;;
                Ok (host1 +:+ host2 +:+ host3)
             | None => unescape a encodeHost
             end end = Ok host -> host <> EmptyString).
  { destruct (LastIndexByte a "]"%char) as [i|]; [|done]. destruct (negb _); [done|].
    destruct (Index (str_take i a) "%25") as [zone|] eqn:Ez; [|done].
    destruct (unescape (str_take zone a) encodeHost) as [h1|] eqn:E1; [|done]. cbn [result_bind].
    destruct (unescape (str_drop zone _) encodeZone) as [h2|] eqn:E2; [|done]. cbn [result_bind].
    destruct (unescape (str_drop i a) encodeHost) as [h3|]; [|done]. intros [= <-] Hnil.
    apply sapp_eq_nil in Hnil as [_ Hnil]. apply sapp_eq_nil in Hnil as [-> _].
    apply (unescape_nonempty _ _ _ E2); [|done].
    apply Index_Some in Ez. intros Hd. revert Ez Hd. generalize (str_take i a). clear.
    intros s Ez Hd. apply (f_equal String.length) in Hd. apply (f_equal String.length) in Ez.
    rewrite slength_drop in Hd. rewrite !slength_app, slength_take in Ez.
    change (String.length "%25") with 3 in Ez. change (String.length EmptyString) with 0 in Hd. lia. }
  destruct c as [[] [] [] [] [] [] [] []]; first [exact Hplain | exact Hbr].
Qed.

Lemma parseAuthority_nonempty a user host :
  str_elem "@"%char a = false -> a <> EmptyString ->
  parseAuthority a = Ok (user, host) -> host <> EmptyString.
Proof.
  intros Hat Ha. unfold parseAuthority.
  assert (Hl : LastIndexByte a "@"%char = None).
  { clear Ha. induction a as [|d a IH]; [done|]. cbn [str_elem LastIndexByte] in *. bool_prop.
    rewrite IH by done. destruct (Ascii.eqb_spec d "@"); [by subst|done]. }
  rewrite Hl. destruct (parseHost a) as [h|] eqn:Eh; [|done]. intros [= <- <-].
  by eapply parseHost_nonempty.
Qed.

Lemma CountByte_app s t c : CountByte (s +:+ t) c = CountByte s c + CountByte t c.
Proof. induction s as [|d s IH]; [done|]. rewrite sapp_cons. cbn [CountByte]. rewrite IH. lia. Qed.

Lemma CountByte_0 s c : CountByte s c = 0 -> str_elem c s = false.
Proof.
  induction s as [|d s IH]; [done|]. cbn [CountByte str_elem].
  destruct (Ascii.eqb d c); [done|]. exact IH.
Qed.

(** Both branches of the query split cut at the first question mark. *)
Lemma split_query_Cut s : (split_query s).1.1 = (Cut s "?"%char).1.1.
Proof.
  unfold split_query. destruct (HasSuffix s "?" && _) eqn:E.
  - apply andb_prop in E as [Hs Hc]. apply HasSuffix_spec in Hs as [x ->].
    apply Nat.eqb_eq in Hc. rewrite CountByte_app in Hc. change (CountByte "?" "?") with 1 in Hc.
    cbn [fst]. rewrite Cut_app by (apply CountByte_0; lia).
    change ((Cut "?" "?").1.1) with EmptyString. rewrite sapp_nil_r, slength_app.
    replace (String.length x + String.length "?" - 1) with (String.length x) by (cbn; lia).
    apply stake_app_length.
  - unfold Cut. by destruct (IndexByte s "?").
Qed.

(** A reference [//authority...] that parses has the authority's host, and no scheme. *)
Lemma Parse_net_path a t u :
  no_delim a -> a <> EmptyString -> starts_in "#?/" t ->
  Parse ("//" +:+ a +:+ t) = Ok u -> Host u <> EmptyString.
Proof.
  intros (Hs & Hq & Hf & Hat) Hne Ht. unfold Parse.
  assert (Hpre : forall c, c <> "/"%char -> str_elem c a = false -> str_elem c ("//" +:+ a) = false).
  { intros c Hc Hca. rewrite str_elem_app, Hca. cbn [str_elem].
    by rewrite (proj2 (Ascii.eqb_neq "/" c)) by congruence. }
  rewrite sapp_assoc. pose proof (Cut_app ("//" +:+ a) t "#" (Hpre "#"%char ltac:(discriminate) Hf)) as Hcut.
  destruct (Cut (("//" +:+ a) +:+ t) "#") as [[u0 frag] found]. cbn [fst] in Hcut. subst u0.
  pose proof (Cut_starts "?/" t "#" Ht) as Ht1.
  set (t1 := (Cut t "#").1.1) in *. clearbody t1.
  assert (Hparse : forall url, parse (("//" +:+ a) +:+ t1) = Ok url -> Host url <> EmptyString).
  { intros url. unfold parse. destruct (stringContainsCTLByte _); [done|].
    destruct (String.eqb_spec (("//" +:+ a) +:+ t1) "*") as [Hstar|_]; [rewrite !sapp_cons in Hstar; discriminate Hstar|].
    assert (Hgs : getScheme (("//" +:+ a) +:+ t1) = Ok (EmptyString, ("//" +:+ a) +:+ t1)) by done.
    rewrite Hgs. cbn [result_bind ToLower].
    pose proof (split_query_Cut (("//" +:+ a) +:+ t1)) as Hsq.
    rewrite Cut_app in Hsq by (by apply Hpre). pose proof (Cut_starts "/" t1 "?" Ht1) as Ht2.
    destruct (split_query _) as [[rest force] q]. cbn [fst] in Hsq. subst rest.
    set (t2 := (Cut t1 "?").1.1) in *. clearbody t2. rewrite <- sapp_assoc.
    assert (H1 : HasPrefix ("//" +:+ a +:+ t2) "/" = true) by done. rewrite H1.
    cbn [negb andb orb String.eqb].
    assert (H3 : HasPrefix ("//" +:+ a +:+ t2) "///" = false).
    { destruct a as [|d a]; [done|]. cbn [str_elem] in Hs. bool_prop.
      destruct (HasPrefix _ "///") eqn:E; [|done]. apply HasPrefix_spec in E as [x Hx].
      rewrite ?sapp_cons, ?sapp_nil_l, ?sapp_cons, ?sapp_nil_l in Hx. by injection Hx as -> _. }
    assert (H2 : HasPrefix ("//" +:+ a +:+ t2) "//" = true) by apply HasPrefix_app.
    rewrite H2, H3. cbn [negb andb orb].
    assert (Hsa : exists rest, split_authority ("//" +:+ a +:+ t2) = (a, rest)).
    { unfold split_authority. change (str_drop 2 ("//" +:+ a +:+ t2)) with (a +:+ t2).
      rewrite IndexByte_app by done. destruct t2 as [|d t2].
      - rewrite sapp_nil_r. by eexists.
      - cbn [starts_in str_elem] in Ht2. rewrite orb_false_r in Ht2. cbn [IndexByte].
        rewrite Ascii.eqb_sym, Ht2. cbn [fmap option_fmap option_map].
        rewrite Nat.add_0_r, stake_app_length. by eexists. }
    destruct Hsa as [rest ->].
    destruct (parseAuthority a) as [[user host]|] eqn:Ep; [|done]. cbn [result_bind].
    unfold setPath. destruct (unescape rest encodePath) as [path|]; [|done]. cbn [result_bind].
    intros [= <-]. cbn. by eapply parseAuthority_nonempty. }
  destruct (parse _) as [url|] eqn:Eurl; [|done]. cbn [result_bind].
  specialize (Hparse url eq_refl). destruct (String.eqb frag EmptyString); [by intros [= <-]|].
  unfold setFragment. destruct (unescape frag encodeFragment); [|done]. cbn [result_bind].
  by intros [= <-].
Qed.
End NetPath.
