(* ===== verification/Config.v ===== *)
(** pkg/config/config.go: the configuration file, its entries, the difference
    between two versions of it, and the watcher that turns file changes into
    batches of events.

    Text templates run with the third-party sprig functions, so parsing and executing
    them are parameters of the functions that read a configuration. *)

From S2P Require Import Prelude GoStrings Url.

Local Open Scope go_scope.

(** ** Data *)

Record ConfigEntry := mk_ConfigEntry {
  Hostname : string;
  Target : URL
}.

Record ConfigEvent := mk_ConfigEvent {
  ce_entry : ConfigEntry;
  Up : bool
}.

#[export] Instance ConfigEntry_eq_dec : EqDecision ConfigEntry.
Proof. solve_decision. Defined.
#[export] Instance ConfigEvent_eq_dec : EqDecision ConfigEvent.
Proof. solve_decision. Defined.

(** [ConfigEvent.String] *)
Definition ConfigEvent_String (e : ConfigEvent) : string :=
  Hostname (ce_entry e) +:+ " -> " +:+ Redacted (Target (ce_entry e)) +:+
  (if Up e then " [UP]" else " [DOWN]").

(** ** Lines *)

Record configLine := mk_configLine {
  Hostnames : list string;
  Targets : list URL
}.

Definition empty_configLine : configLine := mk_configLine [] [].

(** The loop over the targets of a line: those parsed so far and the error that
    stopped it. *)
Fixpoint parse_targets (acc : list URL) (targets : list string) : list URL * option string :=
  match targets with
  | [] => (acc, None)
  | target :: targets =>
      match Parse target with
      | Err urlErr => (acc, Some ("cannot parse target url: " +:+ urlErr))
      | Ok targetURL => parse_targets (acc ++ [targetURL]) targets
      end
  end.

Definition readConfigLine (text : string) : configLine * option string :=
  let text := TrimSpace text in
  if (String.length text =? 0)%nat || HasPrefix text "#" then (empty_configLine, None)
  else
    match SplitN text "->" 2 with
    | item0 :: item1 :: _ =>
        let '(targets, err) := parse_targets [] (Fields item1) in
        (mk_configLine (Fields item0) targets, err)
    | _ => (empty_configLine, Some ("bad config line: " +:+ text))
    end.

(** [configLine.toConfigEntries]: the two nested loops. *)
Definition line_toConfigEntries (line : configLine) : list ConfigEntry :=
  flat_map (fun hostname => mk_ConfigEntry hostname <$> Targets line) (Hostnames line).

(** [configLines.toConfigEntries] *)
Definition lines_toConfigEntries (lines : list configLine) : list ConfigEntry :=
  flat_map line_toConfigEntries lines.

(** ** Reading *)

Definition newline_c : ascii := "010"%char.
Definition cr_c : ascii := "013"%char.

Fixpoint dropCR (s : string) : string :=
  match s with
  | EmptyString => EmptyString
  | String c EmptyString => if Ascii.eqb c cr_c then EmptyString else s
  | String c s => String c (dropCR s)
  end.

(** [bufio.MaxScanTokenSize] *)
Definition MaxScanTokenSize : Z := 65536.

(** The tokens of a [bufio.Scanner] with [ScanLines] over [raw_lines], the text
    cut at newlines, and whether it stopped with [ErrTooLong]. *)
Fixpoint scan_tokens (raw_lines : list string) : list string * bool :=
  match raw_lines with
  | [] => ([], false)
  | l :: rest =>
      if (MaxScanTokenSize <=? Z.of_nat (String.length l))%Z then ([], true)
      else if match rest with [] => String.eqb l EmptyString | _ => false end then ([], false)
      else let '(tokens, long) := scan_tokens rest in (dropCR l :: tokens, long)
  end.

Definition scan_lines (text : string) : list string * bool :=
  scan_tokens (split_byte text newline_c).

(** The scanning loop of [ReadConfig]: the lines kept and the errors logged. *)
Fixpoint read_lines (tokens : list string) : list configLine * list string :=
  match tokens with
  | [] => ([], [])
  | text :: tokens =>
      let '(config, logs) := read_lines tokens in
      match readConfigLine text with
      | (_, Some err) => (config, err :: logs)
      | (line, None) => (line :: config, logs)
      end
  end.

Definition too_long : string := "bufio.Scanner: token too long".

Section Reading.
(** Parsing a template with the functions of sprig, and [Execute] without data: what
    it wrote and the error. *)
Context {Template : Type} (tpl_Parse : string -> result Template).
Context (tpl_Execute : Template -> string * option string).

(** [executeTemplates], on the content of the reader or the error reading it. *)
Definition executeTemplates (reader : result string) : result string :=
  try config <- reader;;
  try tpl <- tpl_Parse config;;
  match tpl_Execute tpl with
  | (_, Some err) => Err err
  | (text, None) => Ok text
  end.

(** [ReadConfig(reader)] on the text [content] (or the error reading it):
    the entries, the error, the log. *)
Definition ReadConfig (content : result string)
    : list ConfigEntry * option string * list string :=
  match executeTemplates content with
  | Err e => ([], Some e, [])
  | Ok text =>
      let '(tokens, long) := scan_lines text in
      let '(config, logs) := read_lines tokens in
      (lines_toConfigEntries config, if long then Some too_long else None, logs)
  end.

(** [ReadConfigFile], given what opening and reading the file gives. *)
Definition ReadConfigFile (file : result (result string))
    : list ConfigEntry * option string * list string :=
  match file with
  | Err e => ([], Some e, [])
  | Ok content => ReadConfig content
  end.
End Reading.

(** ** Differences *)

(** [configEntries.contains] *)
Fixpoint entries_contains (entries : list ConfigEntry) (other : ConfigEntry) : bool :=
  match entries with
  | [] => false
  | entry :: entries =>
      if String.eqb (Hostname entry) (Hostname other) &&
         String.eqb (URL_String (Target entry)) (URL_String (Target other))
      then true else entries_contains entries other
  end.

(** [configEntries.toEvents] *)
Definition toEvents (entries : list ConfigEntry) (up : bool) : list ConfigEvent :=
  (fun entry => mk_ConfigEvent entry up) <$> entries.

(** One loop of [getConfigChange]: the entries of [l] that [other] lacks. *)
Fixpoint not_contained (other l : list ConfigEntry) : list ConfigEntry :=
  match l with
  | [] => []
  | e :: l => if negb (entries_contains other e) then e :: not_contained other l
              else not_contained other l
  end.

(** [getConfigChange]: the entries that came up and those that went down. *)
Definition getConfigChange (prevEntries newEntries : list ConfigEntry)
    : list ConfigEntry * list ConfigEntry :=
  (not_contained prevEntries newEntries, not_contained newEntries prevEntries).

(** The batch [handleUpdate] sends. *)
Definition change_events (prevEntries newEntries : list ConfigEntry) : list ConfigEvent :=
  let '(up, down) := getConfigChange prevEntries newEntries in
  toEvents up true ++ toEvents down false.

(** ** The watcher *)

(** State of a [Config] and of the goroutines it starts.  [w_spawned] counts the file
    events seen whose [handleUpdate] call has not run its first statement yet,
    [w_sleeping] holds the [modCount] of the calls waiting on their timer, [w_ready] the
    entries read by those that passed the counter check and wait for the mutex,
    [w_blocked] the batches whose sender goroutine has not sent yet, [w_chan] the
    content of the channel of capacity one.  [w_received] (what [Server.Listen]
    got, in order), [w_committed] (the batches in the order they were computed) and
    [w_versions] (the versions they were computed from, the first one first) are
    histories. *)
Record Watcher := mk_Watcher {
  w_prevEntries : list ConfigEntry;
  w_modCounter : Z;                              (* uint32 *)
  w_spawned : nat;
  w_sleeping : list Z;
  w_ready : list (list ConfigEntry);
  w_blocked : list (list ConfigEvent);
  w_chan : list (list ConfigEvent);
  w_received : list (list ConfigEvent);
  w_committed : list (list ConfigEvent);
  w_versions : list (list ConfigEntry)
}.

(** [NewConfig]: what reading the file, [fsnotify.NewWatcher] and [watcher.Add]
    answer decides; the initial batch is already in the channel. *)
Definition NewConfig (read : list ConfigEntry * option string * list string)
    (newWatcher add : option string) : result Watcher :=
  match read with
  | (_, Some err, _) => Err err
  | (entries, None, _) =>
      match newWatcher, add with
      | Some err, _ => Err err
      | None, Some err => Err err
      | None, None =>
          let first := toEvents entries true in
          Ok (mk_Watcher entries 0 0 [] [] [] [first] [] [first] [entries])
      end
  end.

(** A file event: [go cfg.handleUpdate()]. *)
Definition file_event (st : Watcher) : Watcher :=
  mk_Watcher (w_prevEntries st) (w_modCounter st) (S (w_spawned st)) (w_sleeping st) (w_ready st)
    (w_blocked st) (w_chan st) (w_received st) (w_committed st) (w_versions st).

(** The first statement of [handleUpdate]; the timer is started. *)
Definition update_begin (st : Watcher) : Watcher :=
  let modCount := u32_add (w_modCounter st) 1 in
  mk_Watcher (w_prevEntries st) modCount (pred (w_spawned st)) (w_sleeping st ++ [modCount]) (w_ready st)
    (w_blocked st) (w_chan st) (w_received st) (w_committed st) (w_versions st).

(** Its timer fires: the counter check and the reading of the file. *)
Definition update_fire (st : Watcher) (i : nat) (modCount : Z)
    (read : list ConfigEntry * option string * list string) : Watcher :=
  let ready :=
    if negb (w_modCounter st =? modCount)%Z then w_ready st
    else match read with
         | (_, Some _, _) => w_ready st
         | (newEntries, None, _) => w_ready st ++ [newEntries]
         end in
  mk_Watcher (w_prevEntries st) (w_modCounter st) (w_spawned st) (remove_at i (w_sleeping st)) ready
    (w_blocked st) (w_chan st) (w_received st) (w_committed st) (w_versions st).

(** Under the mutex: the difference is computed, [prevEntries] replaced, and a
    goroutine started to send the batch. *)
Definition update_commit (st : Watcher) (i : nat) (newEntries : list ConfigEntry) : Watcher :=
  let batch := change_events (w_prevEntries st) newEntries in
  mk_Watcher newEntries (w_modCounter st) (w_spawned st) (w_sleeping st) (remove_at i (w_ready st))
    (w_blocked st ++ [batch]) (w_chan st) (w_received st) (w_committed st ++ [batch])
    (w_versions st ++ [newEntries]).

(** A sender goroutine gets its batch into the channel. *)
Definition chan_send (st : Watcher) (i : nat) (batch : list ConfigEvent) : Watcher :=
  mk_Watcher (w_prevEntries st) (w_modCounter st) (w_spawned st) (w_sleeping st) (w_ready st)
    (remove_at i (w_blocked st)) (w_chan st ++ [batch]) (w_received st) (w_committed st) (w_versions st).

(** The server receives a batch. *)
Definition chan_recv (st : Watcher) (batch : list ConfigEvent) : Watcher :=
  mk_Watcher (w_prevEntries st) (w_modCounter st) (w_spawned st) (w_sleeping st) (w_ready st)
    (w_blocked st) (drop 1 (w_chan st)) (w_received st ++ [batch]) (w_committed st) (w_versions st).

(** The capacity of [cfg.events]. *)
Definition chan_cap : nat := 1.

(** Steps of the goroutines [handleUpdate] runs in, which interleave freely. *)
Inductive update_step : Watcher -> Watcher -> Prop :=
  | step_begin st : w_spawned st <> 0 -> update_step st (update_begin st)
  | step_timer st i modCount read :
      w_sleeping st !! i = Some modCount -> update_step st (update_fire st i modCount read)
  | step_commit st i newEntries :
      w_ready st !! i = Some newEntries -> update_step st (update_commit st i newEntries)
  | step_send st i batch :
      w_blocked st !! i = Some batch -> length (w_chan st) < chan_cap ->
      update_step st (chan_send st i batch).

(** Steps of the watcher: these, the events of the file, and the receives of the server. *)
Inductive wstep : Watcher -> Watcher -> Prop :=
  | step_file_event st : wstep st (file_event st)
  | step_update st st' : update_step st st' -> wstep st st'
  | step_recv st batch :
      w_chan st !! 0 = Some batch -> wstep st (chan_recv st batch).

(** The same steps when no update is computed while an earlier batch is unsent. *)
Inductive wstep_timely : Watcher -> Watcher -> Prop :=
  | timely st st' :
      wstep st st' -> (w_committed st' <> w_committed st -> w_blocked st = []) ->
      wstep_timely st st'.

(** ** What a client sees *)

(** Two entries are the same for the program when host name and target print the
    same. *)
Definition entry_key (e : ConfigEntry) : string * string :=
  (Hostname e, URL_String (Target e)).

Definition entry_keys (l : list ConfigEntry) : gset (string * string) :=
  list_to_set (entry_key <$> l).

(** The set of active keys after an event. *)
Definition apply_event (s : gset (string * string)) (e : ConfigEvent)
    : gset (string * string) :=
  if Up e then s ∪ {[entry_key (ce_entry e)]} else s ∖ {[entry_key (ce_entry e)]}.

Definition apply_events : list ConfigEvent -> gset (string * string) -> gset (string * string) :=
  fun events s => fold_left apply_event events s.

(** The batches of successive versions of the configuration, and the version in force
    after them. *)
Fixpoint later_batches (prev : list ConfigEntry) (versions : list (list ConfigEntry))
    : list (list ConfigEvent) :=
  match versions with
  | [] => []
  | new :: versions => change_events prev new :: later_batches new versions
  end.

Definition batches (first : list ConfigEntry) (versions : list (list ConfigEntry))
    : list (list ConfigEvent) :=
  toEvents first true :: later_batches first versions.

Definition current (first : list ConfigEntry) (versions : list (list ConfigEntry))
    : list ConfigEntry := fold_left (fun _ new => new) versions first.

(** ** Lemmas *)

Section Diff.
Implicit Types (l prev new : list ConfigEntry) (e : ConfigEntry).

Lemma entries_contains_spec l e :
  entries_contains l e = true <-> entry_key e ∈ entry_key <$> l.
Proof.
  induction l as [|x l IH]; [split; [done | by intros ?%elem_of_nil]|].
  rewrite fmap_cons, elem_of_cons, <- IH. cbn [entries_contains].
  destruct (_ && _) eqn:E.
  - bool_prop. split; [|done]. intros _. left. unfold entry_key. congruence.
  - split; [by right|]. intros [Hk|]; [|done]. unfold entry_key in Hk.
    injection Hk as H1 H2. rewrite H1, H2, !String.eqb_refl in E. done.
Qed.

Lemma elem_of_not_contained other l e :
  e ∈ not_contained other l <-> e ∈ l /\ entry_key e ∉ entry_key <$> other.
Proof.
  induction l as [|x l IH]; [by split; [intros ?%elem_of_nil | intros [?%elem_of_nil _]]|].
  cbn [not_contained]. pose proof (entries_contains_spec other x) as Hx.
  destruct (entries_contains other x); cbn [negb]; rewrite ?elem_of_cons, IH; naive_solver.
Qed.

Lemma elem_of_entry_keys k l : k ∈ entry_keys l <-> k ∈ entry_key <$> l.
Proof. unfold entry_keys. by rewrite elem_of_list_to_set. Qed.

Lemma entry_keys_not_contained other l :
  entry_keys (not_contained other l) = entry_keys l ∖ entry_keys other.
Proof.
  apply set_eq. intros k. rewrite elem_of_difference, !elem_of_entry_keys.
  rewrite !list_elem_of_fmap. split.
  - intros (e & -> & [He Hn]%elem_of_not_contained). split; [eauto|].
    intros (e' & Hk & He'). apply Hn. rewrite Hk. by apply list_elem_of_fmap_2.
  - intros [(e & -> & He) Hn]. exists e. split; [done|]. apply elem_of_not_contained.
    split; [done|]. intros (e' & Hk & He')%list_elem_of_fmap. apply Hn. eauto.
Qed.

Lemma apply_toEvents_up l (s : gset (string * string)) :
  apply_events (toEvents l true) s = s ∪ entry_keys l.
Proof.
  revert s. induction l as [|e l IH]; intros s; [set_solver|].
  cbn. unfold apply_events in IH. rewrite IH. set_solver.
Qed.

Lemma apply_toEvents_down l (s : gset (string * string)) :
  apply_events (toEvents l false) s = s ∖ entry_keys l.
Proof.
  revert s. induction l as [|e l IH]; intros s; [set_solver|].
  cbn. unfold apply_events in IH. rewrite IH. set_solver.
Qed.

Lemma apply_events_app (l1 l2 : list ConfigEvent) s :
  apply_events (l1 ++ l2) s = apply_events l2 (apply_events l1 s).
Proof. apply fold_left_app. Qed.

(** Applying the batch to the old keys gives the new ones. *)
Lemma apply_change_events prev new :
  apply_events (change_events prev new) (entry_keys prev) = entry_keys new.
Proof.
  unfold change_events, getConfigChange.
  rewrite apply_events_app, apply_toEvents_up, apply_toEvents_down.
  rewrite !entry_keys_not_contained. apply set_eq. intros k.
  rewrite elem_of_difference, elem_of_union, !elem_of_difference.
  destruct (decide (k ∈ entry_keys prev)); destruct (decide (k ∈ entry_keys new)); tauto.
Qed.
End Diff.
