(* ===== verification/ConfigProps.v ===== *)
(** Properties of the configuration (pkg/config/config.go): reading lines and
    files, differences between versions, and the watcher's delivery of batches. *)

From S2P Require Import Prelude GoStrings Url Config.

Local Open Scope go_scope.

(** ** Lines *)

(** A line of the documented form: hosts, an arrow, targets. *)
Definition print_line (hosts targets : list string) : string :=
  Join hosts space +:+ " -> " +:+ Join targets space.

Definition no_gt (w : string) : Prop := str_elem ">"%char w = false.

Definition starts_with_hash (ws : list string) : bool :=
  match ws with w :: _ => HasPrefix w "#" | [] => false end.

Section Lines.
Implicit Types (s t a b : string) (hs ts ws : list string) (c d : ascii).

Lemma Index_arrow a b :
  no_gt a -> Index (a +:+ "->" +:+ b) "->" = Some (String.length a).
Proof.
  unfold no_gt. induction a as [|c a IH]; intros Ha.
  { rewrite sapp_nil_l. destruct b; done. }
  cbn [str_elem] in Ha. bool_prop. rewrite sapp_cons.
  assert (Hp : HasPrefix (String c (a +:+ "->" +:+ b)) "->" = false).
  { destruct (HasPrefix _ _) eqn:E; [|done]. apply HasPrefix_spec in E as [t E].
    rewrite sapp_cons in E. injection E as -> E. destruct a as [|d a].
    - rewrite sapp_nil_l, !sapp_cons in E. done.
    - rewrite !sapp_cons in E. injection E as -> _. done. }
  cbn [Index]. rewrite Hp, IH by done. done.
Qed.

Lemma SplitN_arrow a b : no_gt a -> SplitN (a +:+ "->" +:+ b) "->" 2 = [a; b].
Proof.
  intros Ha. unfold SplitN. cbn [Nat.sub split_cuts]. rewrite Index_arrow by done.
  rewrite stake_app_length. change (String.length "->") with 2.
  pose proof (sdrop_app_length (a +:+ "->") b) as Hd.
  rewrite slength_app, <- sapp_assoc in Hd. change (String.length "->") with 2 in Hd.
  by rewrite Hd.
Qed.

Lemma no_gt_Join ws : Forall no_gt ws -> no_gt (Join ws space).
Proof.
  induction 1 as [|w ws Hw Hws IH]; [done|]. destruct ws as [|v ws]; [done|].
  unfold no_gt in *. rewrite Join_cons, !str_elem_app, Hw, IH by done. done.
Qed.

Lemma Join_head ws :
  word_list ws -> ws <> [] ->
  exists c s, Join ws space = String c s /\ graphic c = true /\
    HasPrefix (String c s) "#" = starts_with_hash ws.
Proof.
  intros Hws Hne. destruct Hws as [|w ws [Hw Hwne] _]; [done|].
  destruct w as [|c w]; [done|]. simpl in Hw. bool_prop.
  destruct ws as [|v ws]; [by exists c, w|].
  rewrite Join_cons, sapp_cons by done. do 2 eexists. split; [done|].
  split; [done|]. cbn. by rewrite !HasPrefix_nil.
Qed.

Lemma graphic_last s :
  all_graphic s = true -> s <> EmptyString ->
  exists t d, s = t +:+ str1 d /\ graphic d = true.
Proof.
  induction s as [|c s IH]; [done|]. intros Hs _. simpl in Hs. bool_prop.
  destruct s as [|c' s]; [by exists EmptyString, c|].
  destruct IH as (t & d & -> & Hd); [done..|]. exists (String c t), d. done.
Qed.

Lemma Join_last ws :
  word_list ws -> ws <> [] ->
  exists s d, Join ws space = s +:+ str1 d /\ graphic d = true /\ all_printable s = true.
Proof.
  intros Hws Hne.
  assert (H : exists s d, Join ws space = s +:+ str1 d /\ graphic d = true).
  { induction Hws as [|w ws [Hw Hwne] Hws IH]; [done|]. destruct ws as [|v ws].
    - by apply graphic_last.
    - destruct IH as (s & d & Hj & Hd); [done|]. rewrite Join_cons, Hj by done.
      exists (w +:+ space +:+ s), d. by rewrite !sapp_assoc. }
  destruct H as (s & d & Hj & Hd). exists s, d. split; [done|]. split; [done|].
  pose proof (Join_printable ws Hws) as Hp. rewrite Hj, all_printable_app in Hp.
  by bool_prop.
Qed.

Lemma parse_targets_ok acc ts us :
  Forall2 (fun t u => Parse t = Ok u) ts us -> parse_targets acc ts = (acc ++ us, None).
Proof.
  intros H. revert acc. induction H as [|t u ts us Hp _ IH]; intros acc; cbn [parse_targets].
  - by rewrite app_nil_r.
  - by rewrite Hp, IH, <- app_assoc.
Qed.

Lemma print_line_trimmed hs ts :
  word_list hs -> hs <> [] -> word_list ts -> ts <> [] ->
  TrimSpace (print_line hs ts) = print_line hs ts /\
  HasPrefix (print_line hs ts) "#" = starts_with_hash hs /\
  String.length (print_line hs ts) <> 0.
Proof.
  intros Hhs Hhne Hts Htne. unfold print_line.
  pose proof (Join_printable hs Hhs) as Hp.
  destruct (Join_head hs Hhs Hhne) as (c & s & Hj & Hc & Hhash).
  destruct (Join_last ts Hts Htne) as (t & d & -> & Hd & Ht).
  rewrite Hj in *. simpl in Hp. bool_prop.
  rewrite sapp_cons, !sapp_assoc. split; [|split; [|done]].
  - apply TrimSpace_id; [done..|]. by rewrite !all_printable_app, H0, Ht.
  - rewrite <- Hhash. by cbn; rewrite !HasPrefix_nil.
Qed.

Lemma readConfigLine_print hs ts us :
  word_list hs -> hs <> [] -> Forall no_gt hs -> starts_with_hash hs = false ->
  word_list ts -> ts <> [] -> Forall2 (fun t u => Parse t = Ok u) ts us ->
  readConfigLine (print_line hs ts) = (mk_configLine hs us, None).
Proof.
  intros Hhs Hhne Hgt Hhash Hts Htne Hus.
  destruct (print_line_trimmed hs ts) as (Htrim & Hpre & Hlen); [done..|].
  unfold readConfigLine. rewrite Htrim, Hpre, Hhash.
  rewrite (proj2 (Nat.eqb_neq _ _) Hlen). cbn [orb].
  assert (Hsplit : SplitN (print_line hs ts) "->" 2 =
            [Join hs space +:+ space; space +:+ Join ts space]).
  { unfold print_line.
    replace (Join hs space +:+ " -> " +:+ Join ts space)
      with ((Join hs space +:+ space) +:+ "->" +:+ (space +:+ Join ts space))
      by (by rewrite <- !sapp_assoc).
    apply SplitN_arrow. unfold no_gt. rewrite str_elem_app.
    by rewrite (no_gt_Join hs Hgt). }
  rewrite Hsplit, Fields_Join_r, Fields_Join_l by done.
  by rewrite (parse_targets_ok [] ts us Hus).
Qed.
End Lines.

(** ** Files *)

Section Files.
Context {Template : Type} (tpl_Parse : string -> result Template).
Context (tpl_Execute : Template -> string * option string).
Implicit Types (ls : list string).

(** What one raw line contributes. *)
Definition line_entries (l : string) : list ConfigEntry :=
  match readConfigLine (dropCR l) with
  | (line, None) => line_toConfigEntries line
  | (_, Some _) => []
  end.

Definition short_line (l : string) : Prop := (Z.of_nat (String.length l) < MaxScanTokenSize)%Z.

Lemma read_lines_entries toks :
  lines_toConfigEntries (read_lines toks).1 =
  flat_map (fun t => match readConfigLine t with
                     | (line, None) => line_toConfigEntries line
                     | (_, Some _) => [] end) toks.
Proof.
  induction toks as [|t toks IH]; [done|]. cbn [read_lines flat_map]. rewrite <- IH.
  destruct (read_lines toks) as [config logs].
  destruct (readConfigLine t) as [line [err|]]; done.
Qed.

Lemma scan_tokens_short ls :
  Forall short_line ls ->
  (scan_tokens ls).2 = false /\
  flat_map (fun t => match readConfigLine t with
                     | (line, None) => line_toConfigEntries line
                     | (_, Some _) => [] end) (scan_tokens ls).1 =
  flat_map line_entries ls.
Proof.
  induction 1 as [|l ls Hl Hls IH]; [done|]. cbn [scan_tokens].
  unfold short_line in Hl. rewrite (proj2 (Z.leb_gt _ _) Hl).
  destruct (match ls with [] => String.eqb l EmptyString | _ => false end) eqn:E.
  - destruct ls; [|done]. bool_prop. by subst.
  - destruct (scan_tokens ls) as [toks long]. destruct IH as [IH1 IH2]. split; [done|].
    cbn [fst flat_map] in *. by rewrite IH2.
Qed.

Lemma scan_tokens_long ls :
  ~ Forall short_line ls -> (scan_tokens ls).2 = true.
Proof.
  induction ls as [|l ls IH]; intros Hn; [by destruct Hn|]. cbn [scan_tokens].
  destruct (MaxScanTokenSize <=? _)%Z eqn:El; [done|].
  apply Z.leb_gt in El. destruct ls as [|l' ls].
  - destruct Hn. by repeat constructor.
  - destruct (scan_tokens (l' :: ls)) as [toks long]. apply IH.
    intros Hf. apply Hn. by constructor.
Qed.

Lemma short_lines_dec ls : Forall short_line ls \/ ~ Forall short_line ls.
Proof. destruct (decide (Forall short_line ls)); tauto. Qed.

Lemma ReadConfig_lines content text ls :
  content = Ok text -> executeTemplates tpl_Parse tpl_Execute (Ok text) = Ok (Join ls (str1 newline_c)) ->
  ls <> [] ->
  Forall (fun l => str_elem newline_c l = false) ls ->
  if decide (Forall short_line ls)
  then (ReadConfig tpl_Parse tpl_Execute content).1 = (flat_map line_entries ls, None)
  else (ReadConfig tpl_Parse tpl_Execute content).1.2 = Some too_long.
Proof.
  intros -> Ht Hne Hnl. unfold ReadConfig. rewrite Ht. unfold scan_lines.
  rewrite Forall_forall in Hnl. rewrite split_byte_Join by done. case_decide as Hs.
  - pose proof (scan_tokens_short ls Hs) as [H1 H2].
    destruct (scan_tokens ls) as [toks long]. cbn [fst snd] in *. subst long.
    pose proof (read_lines_entries toks) as Hr. destruct (read_lines toks) as [config logs].
    cbn [fst] in *. by rewrite Hr, H2.
  - pose proof (scan_tokens_long ls Hs) as H1.
    destruct (scan_tokens ls) as [toks long]. cbn [snd] in *. subst long.
    by destruct (read_lines toks).
Qed.
End Files.

(** ** The watcher *)

Section WatcherInvariant.
Implicit Types (st : Watcher) (batch : list ConfigEvent).

(** Every batch computed is exactly once in the receiver's history, in the
    channel or with a blocked sender, and the batches in the order they were
    computed lead to the current entries. *)
Definition accounted st : Prop :=
  w_received st ++ w_chan st ++ w_blocked st ≡ₚ w_committed st /\
  apply_events (concat (w_committed st)) ∅ = entry_keys (w_prevEntries st) /\
  length (w_chan st) <= chan_cap.

(** Moreover they are delivered in that order. *)
Definition in_order st : Prop :=
  w_received st ++ w_chan st ++ w_blocked st = w_committed st /\
  length (w_blocked st) <= 1.

Lemma remove_at_split {A} (l : list A) i x :
  l !! i = Some x -> exists l1 l2, l = l1 ++ x :: l2 /\ remove_at i l = l1 ++ l2.
Proof.
  intros Hx. exists (take i l), (drop (S i) l). split; [|done].
  by rewrite take_drop_middle.
Qed.

Lemma NewConfig_accounted read nw add st :
  NewConfig read nw add = Ok st -> accounted st /\ in_order st.
Proof.
  unfold NewConfig. destruct read as [[entries [err|]] logs]; [done|].
  destruct nw; [done|]. destruct add; [done|]. intros [= <-].
  unfold accounted, in_order. simpl. rewrite app_nil_r, apply_toEvents_up.
  split; [|split; [done | lia]]. split; [done|]. split; [set_solver | done].
Qed.

Lemma commit_keys st i new :
  apply_events (concat (w_committed st)) ∅ = entry_keys (w_prevEntries st) ->
  apply_events (concat (w_committed (update_commit st i new))) ∅ = entry_keys new.
Proof.
  intros Hk. simpl. rewrite concat_app, apply_events_app, Hk. simpl.
  rewrite app_nil_r. apply apply_change_events.
Qed.

Lemma update_accounted st st' : update_step st st' -> accounted st -> accounted st'.
Proof.
  intros Hs (Hp & Hk & Hl). destruct Hs as [s Hs|s i mc read _|s i new _|s i b Hb Hc]; [done|done| |].
  - split; [|split; [by apply commit_keys | done]]. simpl. by rewrite <- Hp, !app_assoc.
  - unfold accounted. simpl. rewrite length_app. simpl. split; [|split; [done | lia]].
    destruct (remove_at_split _ _ _ Hb) as (l1 & l2 & E1 & ->). rewrite E1 in Hp.
    rewrite <- Hp. solve_Permutation.
Qed.

Lemma wstep_accounted st st' : wstep st st' -> accounted st -> accounted st'.
Proof.
  intros [s|s s' Hs|s b Hb]; [done|by apply update_accounted|]. intros (Hp & Hk & Hl).
  unfold accounted. simpl. destruct (w_chan s) as [|b' ch]; [done|].
  injection Hb as ->. simpl in *. rewrite drop_0.
  split; [by rewrite <- Hp, <- app_assoc|]. split; [done | lia].
Qed.

Lemma wstep_in_order st st' : wstep_timely st st' -> in_order st -> in_order st'.
Proof.
  intros [st0 st1 Hs Ht] [Hp Hl]. unfold in_order.
  destruct Hs as [s|s s' [s0 _|s0 i mc read _|s0 i new _|s0 i b Hb Hc]|s b Hb]; simpl in *; [done|done|done| | |].
  - assert (Hb : w_blocked s0 = []).
    { apply Ht. intros E. apply (f_equal length) in E. rewrite length_app in E.
      simpl in E. lia. }
    rewrite Hb, app_nil_r in *. simpl. split; [by rewrite <- Hp, app_assoc | done].
  - destruct (remove_at_split _ _ _ Hb) as (l1 & l2 & E1 & ->). rewrite E1 in *.
    rewrite length_app in Hl. simpl in Hl. destruct l1, l2; simpl in *; try lia.
    split; [by rewrite app_nil_r | lia].
  - destruct (w_chan s) as [|b' ch]; [done|]. injection Hb as ->. simpl in *.
    rewrite drop_0, <- app_assoc. done.
Qed.

(** The batches are those of the versions committed, the last of which is in force. *)
Definition versioned st : Prop :=
  exists first versions, w_versions st = first :: versions /\
    w_committed st = batches first versions /\ w_prevEntries st = current first versions.

Lemma later_batches_snoc prev (versions : list (list ConfigEntry)) new :
  later_batches prev (versions ++ [new]) =
  later_batches prev versions ++ [change_events (current prev versions) new].
Proof.
  revert prev. induction versions as [|v versions IH]; intros prev; [done|]. cbn [app later_batches].
  by rewrite IH.
Qed.

Lemma wstep_versioned st st' : wstep st st' -> versioned st -> versioned st'.
Proof.
  intros [s|s s' [s0 _|s0 i mc read _|s0 i new _|s0 i b _ _]|s b _]; [done..| |done|done].
  intros (first & versions & Hv & Hc & Hp). exists first, (versions ++ [new]).
  cbn [update_commit w_versions w_committed w_prevEntries]. rewrite Hv, Hc, Hp. split; [done|]. split.
  - unfold batches. by rewrite later_batches_snoc.
  - unfold current. by rewrite fold_left_app.
Qed.

Lemma NewConfig_versioned read nw add st : NewConfig read nw add = Ok st -> versioned st.
Proof.
  unfold NewConfig. destruct read as [[entries [err|]] logs]; [done|].
  destruct nw; [done|]. destruct add; [done|]. intros [= <-]. by exists entries, [].
Qed.

Lemma reachable_accounted st0 st :
  rtc wstep st0 st -> accounted st0 -> accounted st.
Proof. induction 1; eauto using wstep_accounted. Qed.

Lemma reachable_in_order st0 st :
  rtc wstep_timely st0 st -> accounted st0 /\ in_order st0 -> accounted st /\ in_order st.
Proof.
  induction 1 as [|x y z Hs _ IH]; [done|]. intros [Ha Ho]. apply IH. split.
  - destruct Hs as [? ? Hs _]. by eapply wstep_accounted.
  - by eapply wstep_in_order.
Qed.

(** A burst of [k] file events with no timer firing in between. *)
Fixpoint burst (k : nat) st : Watcher :=
  match k with
  | 0 => st
  | S k => burst k (update_begin st)
  end.

Lemma burst_state k st :
  u32_range (w_modCounter st) ->
  w_sleeping (burst k st) =
    w_sleeping st ++ ((fun i => u32_wrap (w_modCounter st + 1 + Z.of_nat i)) <$> seq 0 k) /\
  w_modCounter (burst k st) = u32_wrap (w_modCounter st + Z.of_nat k) /\
  w_ready (burst k st) = w_ready st.
Proof.
  revert st. induction k as [|k IH]; intros st Hr; simpl.
  - rewrite app_nil_r, Z.add_0_r, u32_wrap_small by done. done.
  - destruct (IH (update_begin st)) as (-> & -> & ->); [apply u32_wrap_range|].
    simpl. unfold u32_add. rewrite <- app_assoc, u32_wrap_add_l. simpl.
    rewrite Z.add_0_r. split; [|split; [f_equal; lia | done]].
    f_equal. f_equal. rewrite <- fmap_S_seq, <- list_fmap_compose.
    apply list_fmap_ext. intros _ i _. simpl.
    rewrite <- Z.add_assoc, u32_wrap_add_l. f_equal. lia.
Qed.

Lemma u32_wrap_inj_near c i j :
  (0 <= i < 2 ^ 32)%Z -> (0 <= j < 2 ^ 32)%Z -> u32_wrap (c + i) = u32_wrap (c + j) -> i = j.
Proof.
  unfold u32_wrap. intros Hi Hj He.
  apply (f_equal (fun z => (z - c) mod 2 ^ 32)%Z) in He.
  rewrite !Zminus_mod_idemp_l in He.
  replace (c + i - c)%Z with i in He by lia. replace (c + j - c)%Z with j in He by lia.
  by rewrite !Z.mod_small in He.
Qed.
End WatcherInvariant.

(** ** Properties *)

(** C38. Round trip of a configuration line: a line printed in the documented form
    (space-separated hosts, an arrow, space-separated targets) is read back as
    those hosts and the parsed targets, and stands for their product. *)
Theorem config_line_roundtrip hosts targets urls :
  word_list hosts -> hosts <> [] -> Forall no_gt hosts -> starts_with_hash hosts = false ->
  word_list targets -> targets <> [] -> Forall2 (fun t u => Parse t = Ok u) targets urls ->
  readConfigLine (print_line hosts targets) = (mk_configLine hosts urls, None) /\
  (forall e, e ∈ line_toConfigEntries (mk_configLine hosts urls) <->
     Hostname e ∈ hosts /\ Target e ∈ urls) /\
  length (line_toConfigEntries (mk_configLine hosts urls)) = length hosts * length urls.
Proof.
  intros. split; [by apply readConfigLine_print|]. unfold line_toConfigEntries. simpl. split.
  - intros [h t]. rewrite list_elem_of_In, in_flat_map. setoid_rewrite <- list_elem_of_In.
    setoid_rewrite list_elem_of_fmap. split.
    + intros (h' & Hh & t' & [= -> ->] & Ht). done.
    + intros [Hh Ht]. eauto.
  - clear. induction hosts as [|h hs IH]; [done|]. cbn [flat_map].
    rewrite length_app, length_fmap, IH. simpl. lia.
Qed.

(** Reading a file: when the templates expand to the given lines, the read
    fails exactly when a line is 64 KiB or longer; otherwise it succeeds with the
    entries of the lines in order, where a line that does not parse (and a blank
    or comment line) contributes nothing and does not affect the others. *)
Theorem ReadConfig_file {Template} tpl_Parse (tpl_Execute : Template -> string * option string) text lines :
  executeTemplates tpl_Parse tpl_Execute (Ok text) = Ok (Join lines (str1 newline_c)) -> lines <> [] ->
  Forall (fun l => str_elem newline_c l = false) lines ->
  if decide (Forall short_line lines)
  then (ReadConfig tpl_Parse tpl_Execute (Ok text)).1 = (flat_map line_entries lines, None)
  else (ReadConfig tpl_Parse tpl_Execute (Ok text)).1.2 = Some too_long.
Proof. intros Ht Hne Hnl. by apply (ReadConfig_lines tpl_Parse tpl_Execute (Ok text) text). Qed.


(** C20. Under every interleaving of file events, timers, updates, sender
    goroutines and receives, no batch is lost, duplicated or invented, the channel
    never exceeds its capacity, and the batches in the order they were computed
    lead from nothing to the current entries. *)
Theorem watch_accounts_for_batches read nw add st0 st :
  NewConfig read nw add = Ok st0 -> rtc wstep st0 st -> accounted st.
Proof.
  intros H0 Hr. apply (reachable_accounted st0); [done|]. by eapply NewConfig_accounted.
Qed.

(** When every update is computed after the previous batch was taken into the
    channel, a quiescent watcher has delivered events that lead the receiver to
    exactly the entries of the configuration committed last. *)
Theorem watch_converges read nw add st0 st :
  NewConfig read nw add = Ok st0 -> rtc wstep_timely st0 st ->
  w_chan st = [] -> w_blocked st = [] ->
  apply_events (concat (w_received st)) ∅ = entry_keys (w_prevEntries st).
Proof.
  intros H0 Hr Hc Hb.
  destruct (reachable_in_order st0 st Hr (NewConfig_accounted _ _ _ _ H0)) as [(_ & Hk & _) [Ho _]].
  rewrite Hc, Hb, !app_nil_r in Ho. by rewrite Ho.
Qed.

(** Debouncing: of a burst of file events within the delay, exactly the last
    [handleUpdate] passes the counter check and reads the file. *)
Theorem debounce_last st k i modCount entries logs :
  u32_range (w_modCounter st) -> w_sleeping st = [] -> (0 < Z.of_nat k < 2 ^ 32)%Z ->
  w_sleeping (burst k st) !! i = Some modCount ->
  w_ready (update_fire (burst k st) i modCount (entries, None, logs)) =
  if decide (S i = k) then w_ready st ++ [entries] else w_ready st.
Proof.
  intros Hr Hs Hk Hi. destruct (burst_state k st Hr) as (Hsl & Hmc & Hrd).
  rewrite Hsl, Hs in Hi. simpl in Hi. rewrite list_lookup_fmap_Some in Hi.
  destruct Hi as (j & -> & Hj). apply lookup_seq in Hj as [-> Hik].
  unfold update_fire. cbn [w_ready]. rewrite Hmc, Hrd. simpl.
  destruct (u32_wrap (w_modCounter st + Z.of_nat k) =?
            u32_wrap (w_modCounter st + 1 + Z.of_nat i))%Z eqn:E; simpl.
  - apply Z.eqb_eq in E. rewrite <- Z.add_assoc in E.
    apply u32_wrap_inj_near in E; [|lia..]. rewrite decide_True by lia. done.
  - apply Z.eqb_neq in E. rewrite decide_False; [done|]. intros <-. apply E. f_equal. lia.
Qed.

Definition entry_x : ConfigEntry :=
  mk_ConfigEntry "x.com" (set_Scheme "http" (set_Host "h" empty_URL)).

(** The run of [delivery_can_reorder]. *)
Definition reorder_start : Watcher :=
  mk_Watcher [] 0 0 [] [] [] [toEvents [] true] [] [toEvents [] true] [[]].

(** Nothing orders the sender goroutines: there is a run in which an entry is
    added and removed again, the two batches are sent in the opposite order, and
    the quiescent watcher has left the receiver with the removed entry active. *)
Theorem delivery_can_reorder :
  NewConfig ([], None, []) None None = Ok reorder_start /\
  exists st, rtc wstep reorder_start st /\
    w_chan st = [] /\ w_blocked st = [] /\ w_ready st = [] /\ w_sleeping st = [] /\
    w_prevEntries st = [] /\
    apply_events (concat (w_received st)) ∅ = {[entry_key entry_x]}.
Proof.
  split; [done|]. eexists. split.
  { assert (Hu : forall s1 s2 s3, update_step s1 s2 -> rtc wstep s2 s3 -> rtc wstep s1 s3)
      by (intros; eapply rtc_l; [by apply step_update|done]).
    eapply rtc_l; [apply step_file_event|]. eapply Hu; [by apply step_begin|].
    eapply Hu; [apply (step_timer _ 0 1 ([entry_x], None, [])); reflexivity|].
    eapply Hu; [apply (step_commit _ 0 [entry_x]); reflexivity|].
    eapply rtc_l; [apply step_file_event|]. eapply Hu; [by apply step_begin|].
    eapply Hu; [apply (step_timer _ 0 2 ([], None, [])); reflexivity|].
    eapply Hu; [apply (step_commit _ 0 []); reflexivity|].
    eapply rtc_l; [eapply step_recv; reflexivity|].
    eapply Hu; [apply (step_send _ 1 [mk_ConfigEvent entry_x false]); [reflexivity | unfold chan_cap; simpl; lia]|].
    eapply rtc_l; [eapply step_recv; reflexivity|].
    eapply Hu; [apply (step_send _ 0 [mk_ConfigEvent entry_x true]); [reflexivity | unfold chan_cap; simpl; lia]|].
    eapply rtc_l; [eapply step_recv; reflexivity|].
    apply rtc_refl. }
  repeat split.
Qed.

(** The log line of a configuration event does not depend on the password in
    the target. *)
Theorem ConfigEvent_String_hides_password host url user up p1 p2 :
  let ev p := mk_ConfigEvent (mk_ConfigEntry host (set_User (Some (UserPassword user p)) url)) up in
  ConfigEvent_String (ev p1) = ConfigEvent_String (ev p2).
Proof. done. Qed.

(** ** Witnesses *)

Definition demo_url (s : string) : URL :=
  match Parse s with Ok u => u | Err _ => empty_URL end.

Lemma config_line_roundtrip_witness :
  let hosts := ["example.com"; "alias.com"] in
  let targets := ["http://localhost:8081"; "http://localhost:8082"] in
  let urls := demo_url <$> targets in
  readConfigLine (print_line hosts targets) = (mk_configLine hosts urls, None) /\
  (forall e, e ∈ line_toConfigEntries (mk_configLine hosts urls) <->
     Hostname e ∈ hosts /\ Target e ∈ urls) /\
  length (line_toConfigEntries (mk_configLine hosts urls)) = length hosts * length urls.
Proof.
  apply config_line_roundtrip.
  - repeat constructor; vm_compute; congruence.
  - done.
  - repeat constructor.
  - done.
  - repeat constructor; vm_compute; congruence.
  - done.
  - repeat constructor; vm_compute; reflexivity.
Defined.

Definition demo_lines : list string :=
  ["# comment"; "a.com -> http://localhost:1"; "nonsense"; EmptyString; "b.com -> http://h"].

(** A template without directives. *)
Definition no_directives (tpl : string) : string * option string := (tpl, None).

Lemma ReadConfig_file_witness :
  (ReadConfig Ok no_directives (Ok (Join demo_lines (str1 newline_c)))).1 =
  (flat_map line_entries demo_lines, None) /\
  length (flat_map line_entries demo_lines) = 2.
Proof.
  split; [|vm_compute; reflexivity].
  assert (Hs : Forall short_line demo_lines) by (repeat constructor; vm_compute; reflexivity).
  pose proof (ReadConfig_file Ok no_directives (Join demo_lines (str1 newline_c)) demo_lines eq_refl
                ltac:(discriminate) ltac:(repeat constructor)) as H.
  destruct (decide (Forall short_line demo_lines)); [exact H | contradiction].
Defined.

Lemma watch_accounts_for_batches_witness :
  accounted (file_event reorder_start).
Proof.
  apply (watch_accounts_for_batches ([], None, []) None None reorder_start).
  - reflexivity.
  - eapply rtc_l; [apply step_file_event | apply rtc_refl].
Defined.

Lemma watch_converges_witness :
  apply_events (concat (w_received (chan_recv reorder_start []))) ∅ = entry_keys [].
Proof.
  apply (watch_converges ([], None, []) None None reorder_start
           (chan_recv reorder_start [])).
  - reflexivity.
  - eapply rtc_l; [|apply rtc_refl]. constructor; [by constructor | done].
  - reflexivity.
  - reflexivity.
Defined.

Lemma debounce_last_witness :
  w_ready (update_fire (burst 3 reorder_start) 2 3 ([entry_x], None, [])) = [[entry_x]].
Proof.
  apply (debounce_last reorder_start 3 2 3 [entry_x] []).
  - split; vm_compute; congruence.
  - reflexivity.
  - split; vm_compute; reflexivity.
  - vm_compute. reflexivity.
Defined.
