(* ===== verification/ConfigClose.v ===== *)
(** pkg/config/config.go: closing a configuration.

    [Config.Close] closes the channel of batches and then the file watcher.  The
    [handleUpdate] calls under way are not stopped, and sending on a closed channel
    panics: this file is about when that can happen.  Nothing in the program calls
    [Close]. *)

From S2P Require Import Prelude GoStrings Url Config ConfigProps.

Local Open Scope go_scope.

(** ** Operation *)

(** How far [Close] has got. *)
Inductive Closing := NotClosed | EventsClosed | WatcherClosed.

(** The configuration's goroutines, or the panic that ends the program. *)
Inductive Closable :=
  | Live (closing : Closing) (w : Watcher)
  | Panicked.

(** [close(cfg.events)], which panics the second time. *)
Definition close_events (closing : Closing) (w : Watcher) : Closable :=
  match closing with
  | NotClosed => Live EventsClosed w
  | _ => Panicked
  end.

(** [cfg.watcher.Close()]: no further event of the file is seen. *)
Definition close_watcher (w : Watcher) : Closable := Live WatcherClosed w.

(** A sender's [cfg.events <- batch]; on an open channel it needs room. *)
Definition send_on (closing : Closing) (w : Watcher) (i : nat) (batch : list ConfigEvent) : Closable :=
  match closing with
  | NotClosed => Live NotClosed (chan_send w i batch)
  | _ => Panicked
  end.

Definition can_send (closing : Closing) (w : Watcher) : Prop :=
  closing = NotClosed -> length (w_chan w) < chan_cap.

(** Steps of the goroutines.  A file event counts as soon as it is received; [handleUpdate]
    runs its first statement later, also when the watcher is closed by then. *)
Inductive clstep : Closable -> Closable -> Prop :=
  | cl_file_event closing w :
      closing <> WatcherClosed -> clstep (Live closing w) (Live closing (file_event w))
  | cl_begin closing w :
      w_spawned w <> 0 -> clstep (Live closing w) (Live closing (update_begin w))
  | cl_timer closing w i modCount read :
      w_sleeping w !! i = Some modCount ->
      clstep (Live closing w) (Live closing (update_fire w i modCount read))
  | cl_commit closing w i newEntries :
      w_ready w !! i = Some newEntries ->
      clstep (Live closing w) (Live closing (update_commit w i newEntries))
  | cl_send closing w i batch :
      w_blocked w !! i = Some batch -> can_send closing w ->
      clstep (Live closing w) (send_on closing w i batch)
  | cl_recv closing w batch :
      w_chan w !! 0 = Some batch -> clstep (Live closing w) (Live closing (chan_recv w batch)).

(** A call of [Close], taken apart. *)
Inductive clcall : Closable -> Closable -> Prop :=
  | call_close_events closing w : clcall (Live closing w) (close_events closing w)
  | call_close_watcher w : clcall (Live EventsClosed w) (close_watcher w).

(** ** Lemmas *)

(** Before [Close] the steps are the watcher's. *)
Lemma clstep_open w st :
  clstep (Live NotClosed w) st <-> exists w', st = Live NotClosed w' /\ wstep w w'.
Proof.
  split.
  - intros Hs. inversion Hs as [? ? Hc|? ? Hc|? ? i mc read Hi|? ? i new Hi|? ? i b Hi Hc|? ? b Hb]; subst.
    + eexists. split; [done|apply step_file_event].
    + eexists. split; [done|by apply step_update, step_begin].
    + eexists. split; [done|by apply step_update, step_timer].
    + eexists. split; [done|by apply step_update, step_commit].
    + eexists. split; [done|]. apply step_update, step_send; [done|by apply Hc].
    + eexists. split; [done|by apply step_recv].
  - intros (w' & -> & Hs). destruct Hs as [w|w w' [w0 Hb|w0 i mc read Hi|w0 i new Hi|w0 i b Hi Hc]|w b Hb].
    + by apply cl_file_event.
    + by apply cl_begin.
    + by apply cl_timer.
    + by apply cl_commit.
    + apply (cl_send NotClosed w0 i b); [done|by intros _].
    + by apply cl_recv.
Qed.

(** An update that will still send a batch if its file can be read: one that has only been
    started, one that waits for its timer and is the last, one that waits for the mutex, or a
    sender. *)
Definition update_under_way (w : Watcher) : Prop :=
  w_blocked w <> [] \/ w_ready w <> [] \/ w_modCounter w ∈ w_sleeping w \/ w_spawned w <> 0.

(** What is left of a closed watcher without such an update. *)
Definition settled (delivered : list (list ConfigEvent)) (st : Closable) : Prop :=
  exists w, st = Live WatcherClosed w /\ ~ update_under_way w /\
    w_received w ++ w_chan w = delivered.

Lemma elem_of_remove_at {A} (x : A) i l : x ∈ remove_at i l -> x ∈ l.
Proof. unfold remove_at. rewrite elem_of_app. intros [Hx|Hx]; [by eapply subseteq_take|by eapply subseteq_drop]. Qed.

Lemma clstep_settled delivered st st' : clstep st st' -> settled delivered st -> settled delivered st'.
Proof.
  intros Hs (w & -> & Hn & Hd). unfold update_under_way in Hn.
  assert (Hb : w_blocked w = []) by (destruct (w_blocked w); [done|naive_solver]).
  assert (Hr : w_ready w = []) by (destruct (w_ready w); [done|naive_solver]).
  assert (Hc : w_modCounter w ∉ w_sleeping w) by tauto.
  assert (Hsp : w_spawned w = 0) by lia.
  inversion Hs as [? ? Hcl|? ? Hcl|? ? i mc read Hi|? ? i new Hi|? ? i b Hi Hcs|? ? b Hi]; subst; try done.
  - exists (update_fire w i mc read). split; [done|]. unfold update_under_way, update_fire.
    cbn [w_blocked w_ready w_modCounter w_sleeping w_spawned w_received w_chan]. rewrite Hb, Hr, Hsp. split; [|done].
    destruct (Z.eqb_spec (w_modCounter w) mc) as [He|He].
    + exfalso. apply Hc. rewrite He. by eapply list_elem_of_lookup_2.
    + cbn [negb]. intros [?|[?|[Hin%elem_of_remove_at|?]]]; done.
  - by rewrite Hr in Hi.
  - by rewrite Hb in Hi.
  - exists (chan_recv w b). split; [done|]. split; [done|]. cbn [chan_recv w_received w_chan].
    destruct (w_chan w) as [|b' l]; [done|]. injection Hi as ->. cbn [drop]. by rewrite drop_0, <- app_assoc.
Qed.

Lemma reachable_settled delivered st st' : rtc clstep st st' -> settled delivered st -> settled delivered st'.
Proof. induction 1; eauto using clstep_settled. Qed.

Lemma drain w :
  exists w', rtc clstep (Live WatcherClosed w) (Live WatcherClosed w') /\ w_chan w' = [] /\
    w_received w' = w_received w ++ w_chan w.
Proof.
  remember (w_chan w) as l eqn:Hl. revert w Hl. induction l as [|b l IH]; intros w Hl.
  - exists w. split; [apply rtc_refl|]. by rewrite app_nil_r.
  - destruct (IH (chan_recv w b)) as (w' & Hs & Hc & Hr).
    { cbn [chan_recv w_chan]. rewrite <- Hl. cbn [drop]. by rewrite drop_0. }
    exists w'. split; [|split; [done|]].
    + eapply rtc_l; [apply cl_recv|exact Hs]. by rewrite <- Hl.
    + rewrite Hr. cbn [chan_recv w_received]. by rewrite <- app_assoc.
Qed.

Lemma blocked_panics w : w_blocked w <> [] -> rtc clstep (Live WatcherClosed w) Panicked.
Proof.
  intros Hb. destruct (w_blocked w) as [|b l] eqn:E; [done|].
  apply rtc_once. apply (cl_send WatcherClosed w 0 b); [by rewrite E|done].
Qed.

Lemma ready_panics w : w_ready w <> [] -> rtc clstep (Live WatcherClosed w) Panicked.
Proof.
  intros Hr. destruct (w_ready w) as [|new l] eqn:E; [done|].
  eapply rtc_l; [apply (cl_commit _ w 0 new); by rewrite E|]. apply blocked_panics.
  cbn [update_commit w_blocked]. by destruct (w_blocked w).
Qed.

Lemma sleeping_panics w :
  w_modCounter w ∈ w_sleeping w -> rtc clstep (Live WatcherClosed w) Panicked.
Proof.
  intros [i Hi]%list_elem_of_lookup_1.
  eapply rtc_l; [by apply (cl_timer _ w i (w_modCounter w) ([], None, []))|]. apply ready_panics.
  unfold update_fire. cbn [w_ready]. rewrite Z.eqb_refl. cbn [negb]. by destruct (w_ready w).
Qed.

Lemma spawned_panics w : w_spawned w <> 0 -> rtc clstep (Live WatcherClosed w) Panicked.
Proof.
  intros Hw. eapply rtc_l; [by apply cl_begin|]. apply sleeping_panics.
  cbn [update_begin w_modCounter w_sleeping]. apply elem_of_app. right. by left.
Qed.

#[export] Instance update_under_way_dec w : Decision (update_under_way w).
Proof. unfold update_under_way. apply _. Defined.

(** ** Properties *)

(** C36. When closing a configuration is safe: after [Close] the program can still panic, on
    a send to the closed channel, exactly when an update is under way; otherwise the
    server gets what the channel held, and nothing else, and its loop can end. *)
Theorem Close_panics_iff w :
  (rtc clstep (Live WatcherClosed w) Panicked <-> update_under_way w) /\
  (~ update_under_way w -> forall st, rtc clstep (Live WatcherClosed w) st ->
     exists w', st = Live WatcherClosed w' /\
       w_received w' ++ w_chan w' = w_received w ++ w_chan w /\
       exists w'', rtc clstep st (Live WatcherClosed w'') /\ w_chan w'' = [] /\
         w_received w'' = w_received w ++ w_chan w).
Proof.
  assert (Hset : ~ update_under_way w -> forall st, rtc clstep (Live WatcherClosed w) st ->
    settled (w_received w ++ w_chan w) st).
  { intros Hn st Hr. eapply reachable_settled; [exact Hr|]. by exists w. }
  split; [split|].
  - intros Hr. destruct (decide (update_under_way w)) as [|Hn]; [done|].
    by destruct (Hset Hn _ Hr) as (w' & ? & _).
  - intros [?|[?|[?|?]]];
      [by apply blocked_panics|by apply ready_panics|by apply sleeping_panics|by apply spawned_panics].
  - intros Hn st Hr. destruct (Hset Hn _ Hr) as (w' & -> & _ & Hd). exists w'.
    split; [done|]. split; [done|]. destruct (drain w') as (w'' & Hs & Hc & Hr').
    exists w''. by rewrite Hr', Hd.
Qed.

(** ** Witness *)

Definition closed_idle : Watcher := mk_Watcher [] 0 0 [] [] [] [[]] [] [[]] [[]].

Lemma Close_panics_iff_witness :
  (exists w'', rtc clstep (Live WatcherClosed closed_idle) (Live WatcherClosed w'') /\
     w_chan w'' = [] /\ w_received w'' = [[]]) /\
  rtc clstep (Live WatcherClosed (file_event closed_idle)) Panicked.
Proof.
  split.
  - destruct (proj2 (Close_panics_iff closed_idle)) with (st := Live WatcherClosed closed_idle)
      as (w' & [= <-] & _ & Hd); [|apply rtc_refl|exact Hd].
    intros [Hb|[Hb|[Hb|Hb]]]; [by apply Hb..|by apply elem_of_nil in Hb|by apply Hb].
  - apply (Close_panics_iff (file_event closed_idle)). right. right. right. done.
Defined.
