(* ===== verification/ConfigTypes.v ===== *)
(** The entries a configuration file can give (pkg/config/config.go): what [readConfigLine]
    lets through. *)

From S2P Require Import Prelude GoStrings Url Config ConfigProps.

Local Open Scope go_scope.

(** ** Words of a line *)

(** White space of ASCII. *)
Definition blank (c : ascii) : bool := in_range 9 13 (byte_val c) || (byte_val c =? 32)%Z.

(** A word: not empty and without white space. *)
Definition is_word (w : string) : Prop :=
  w <> EmptyString /\ forall c, blank c = true -> str_elem c w = false.

Lemma is_word_app w v : is_word w -> is_word v -> is_word (w +:+ v).
Proof.
  intros [Hw Hw'] [_ Hv]. split; [by destruct w|]. intros c Hc. by rewrite str_elem_app, Hw', Hv.
Qed.

Lemma blank_small c : blank c = true -> (byte_val c < 128)%Z.
Proof. unfold blank, in_range. intros Hb. apply orb_true_iff in Hb as [Hb|Hb]; bool_prop; lia. Qed.

Lemma high_is_word w : w <> EmptyString -> (forall c, str_elem c w = true -> (128 <= byte_val c)%Z) -> is_word w.
Proof.
  intros Hw Hh. split; [done|]. intros c Hc%blank_small. destruct (str_elem c w) eqn:E; [|done].
  apply Hh in E. lia.
Qed.

(** The bytes of a decoded rune that is no space. *)
Lemma DecodeRune_word c s :
  let '(r, n) := DecodeRune (String c s) in
  0 < n /\ (rune_is_space (r, EmptyString) = false -> is_word (str_take n (String c s))).
Proof.
  assert (Hhigh : forall w : string, w <> EmptyString ->
    (forall d, str_elem d w = true -> (128 <=? byte_val d)%Z = true) -> is_word w).
  { intros w Hw Hh. apply high_is_word; [done|]. intros d Hd%Hh. lia. }
  assert (Hin : forall lo d, (128 <= lo)%Z -> forall hi, negb (in_range lo hi (byte_val d)) = false -> (128 <=? byte_val d)%Z = true).
  { unfold in_range. intros lo d Hlo hi Hd. bool_prop. lia. }
  cbn [DecodeRune]. destruct (byte_val c <? 128)%Z eqn:Ec.
  { split; [lia|]. unfold rune_is_space, IsSpace. cbn [fst]. intros Hs. bool_prop.
    split; [done|]. intros d Hd. cbn [str_take str_elem]. rewrite orb_false_r. apply Ascii.eqb_neq.
    intros ->. unfold blank in Hd. apply orb_true_iff in Hd as [Hd|Hd]; [congruence|]. bool_prop. lia. }
  assert (Hc : (128 <=? byte_val c)%Z = true) by (bool_prop; lia).
  repeat match goal with
  | |- context [if ?b then _ else _] => destruct b eqn:?
  | |- context [match ?t with EmptyString => _ | String _ _ => _ end] => destruct t
  end.
  all: split; [lia|intros _]; apply Hhigh; [done|]; intros d; cbn [str_take str_elem].
  all: rewrite ?orb_true_iff.
  all: repeat match goal with |- (_ \/ _) -> _ => intros [->%Ascii.eqb_eq|Hd]; [|revert Hd] end.
  all: try discriminate.
  all: first [exact Hc | eapply Hin; [|eassumption]; unfold second_lo; repeat case_match; lia].
Qed.

(** The pieces of the runes that are no space are words. *)
Lemma runes_fuel_word fuel s p :
  p ∈ runes_fuel fuel s -> rune_is_space p = false -> is_word p.2.
Proof.
  revert s. induction fuel as [|fuel IH]; intros s; [by intros ?%elem_of_nil|].
  destruct s as [|c s]; [by intros ?%elem_of_nil|]. cbn [runes_fuel].
  pose proof (DecodeRune_word c s) as Hd. destruct (DecodeRune (String c s)) as [r n].
  intros [->|Hp]%elem_of_cons Hs; [by apply Hd|by eapply IH].
Qed.

Lemma words_are_words cur l :
  Forall is_word cur -> (forall p, p ∈ l -> rune_is_space p = false -> is_word p.2) ->
  Forall is_word (words cur l).
Proof.
  assert (Hcat : forall cur, Forall is_word cur -> cur <> [] -> is_word (str_concat (reverse cur))).
  { intros c Hc Hne. rewrite <- Forall_reverse in Hc.
    assert (Hr : reverse c <> []) by (intros He; apply Hne; by rewrite <- (reverse_involutive c), He).
    induction Hc as [|w ws Hw Hws IH]; [done|]. cbn [str_concat]. destruct ws as [|v ws].
    - cbn [str_concat]. by rewrite sapp_nil_r.
    - apply is_word_app; [done|]. by apply IH. }
  revert cur. induction l as [|p l IH]; intros cur Hc Hl; cbn [words].
  - destruct cur; [constructor|]. constructor; [by apply Hcat|constructor].
  - destruct (rune_is_space p) eqn:Es.
    + assert (Hrest : Forall is_word (words [] l)) by (apply IH; [constructor|intros q Hq; apply Hl; by right]).
      destruct cur; [done|]. constructor; [by apply Hcat|done].
    + apply IH; [|intros q Hq; apply Hl; by right]. constructor; [apply Hl; [by left|done]|done].
Qed.

Lemma Fields_words s : Forall is_word (Fields s).
Proof. apply words_are_words; [constructor|]. intros p. apply runes_fuel_word. Qed.

(** ** Words of a piece *)

Definition within (w s : string) : Prop := exists a b, s = a +:+ w +:+ b.

Lemma str_concat_runes_fuel fuel s :
  String.length s <= fuel -> str_concat (snd <$> runes_fuel fuel s) = s.
Proof.
  revert s. induction fuel as [|fuel IH]; intros [|c s] Hf; cbn [String.length] in *; [done|lia|done|].
  cbn [runes_fuel]. pose proof (DecodeRune_word c s) as Hd. destruct (DecodeRune (String c s)) as [r n].
  destruct Hd as [Hn _]. rewrite fmap_cons. cbn [str_concat snd]. rewrite IH; [apply stake_drop_app|].
  rewrite slength_drop. cbn [String.length]. lia.
Qed.

Lemma words_within cur l w :
  w ∈ words cur l -> within w (str_concat (reverse cur) +:+ str_concat (snd <$> l)).
Proof.
  revert cur. induction l as [|p l IH]; intros cur; cbn [words].
  - destruct cur; [by intros ?%elem_of_nil|]. intros ->%list_elem_of_singleton.
    exists EmptyString, EmptyString. by rewrite sapp_nil_l.
  - rewrite fmap_cons. cbn [str_concat].
    assert (Hrest : w ∈ words [] l -> within w (str_concat (reverse cur) +:+ p.2 +:+ str_concat (snd <$> l))).
    { intros (a & b & Hab)%IH. change (str_concat (reverse [])) with EmptyString in Hab. rewrite sapp_nil_l in Hab.
      exists ((str_concat (reverse cur) +:+ p.2) +:+ a), b. by rewrite Hab, <- !sapp_assoc. }
    destruct (rune_is_space p).
    + destruct cur as [|x cur]; [done|]. intros [->|Hw]%elem_of_cons; [|by apply Hrest].
      by exists EmptyString, (p.2 +:+ str_concat (snd <$> l)).
    + intros Hw%IH. rewrite reverse_cons, str_concat_app in Hw. cbn [str_concat] in Hw.
      by rewrite sapp_nil_r, <- sapp_assoc in Hw.
Qed.

Lemma Fields_within s w : w ∈ Fields s -> within w s.
Proof.
  intros Hw%words_within. change (str_concat (reverse [])) with EmptyString in Hw. rewrite sapp_nil_l in Hw.
  unfold runes in Hw. by rewrite str_concat_runes_fuel in Hw.
Qed.

(** [Index] finds the first occurrence. *)
Lemma Index_first x p y : exists i, Index (x +:+ p +:+ y) p = Some i /\ i <= String.length x.
Proof.
  induction x as [|c x IH].
  - exists 0. rewrite sapp_nil_l. split; [|simpl; lia].
    assert (Hp : HasPrefix (p +:+ y) p = true) by apply HasPrefix_app. by destruct (p +:+ y); cbn [Index]; rewrite Hp.
  - destruct IH as (i & Hi & Hl). rewrite sapp_cons. cbn [Index String.length].
    destruct (HasPrefix _ _); [exists 0; split; [done|lia]|]. rewrite Hi. exists (S i). split; [done|lia].
Qed.

Lemma within_trans w t s : within w t -> within t s -> within w s.
Proof. intros (a & b & ->) (a' & b' & ->). exists (a' +:+ a), (b +:+ b'). by rewrite <- !sapp_assoc. Qed.

(** What is before the arrow holds no arrow. *)
Lemma before_first s p i : p <> EmptyString -> Index s p = Some i -> ~ within p (str_take i s).
Proof.
  intros Hp Hi (x & y & Hxy). rewrite <- (stake_drop_app i s), Hxy, <- !sapp_assoc in Hi.
  destruct (Index_first x p (y +:+ str_drop i s)) as (j & Hj & Hl). rewrite Hj in Hi. injection Hi as ->.
  assert (Hlen : String.length (str_take i s) <= i) by (clear; revert s; induction i; intros [|]; cbn; [lia..|]; by apply le_n_S).
  rewrite Hxy, !slength_app in Hlen. destruct p; [done|]. cbn in Hlen. lia.
Qed.

(** ** Entries *)

(** The entry of a line: its host name is a word without an arrow, its target what a word
    parses to. *)
Definition well_formed (e : ConfigEntry) : Prop :=
  is_word (Hostname e) /\ ~ within "->" (Hostname e) /\
  exists t, is_word t /\ Parse t = Ok (Target e).

Lemma parse_targets_words acc targets urls err :
  Forall is_word targets -> parse_targets acc targets = (urls, err) ->
  Forall (fun u => exists t, is_word t /\ Parse t = Ok u) acc ->
  Forall (fun u => exists t, is_word t /\ Parse t = Ok u) urls.
Proof.
  intros Ht. revert acc. induction Ht as [|t targets Hw _ IH]; intros acc; cbn [parse_targets].
  - by intros [= <- _].
  - destruct (Parse t) as [u|e] eqn:Ep; [|by intros [= <- _]]. intros Hp Ha. eapply IH; [exact Hp|].
    apply Forall_app. split; [done|]. constructor; [by exists t|constructor].
Qed.

Lemma readConfigLine_well_formed text line err :
  readConfigLine text = (line, err) -> Forall well_formed (line_toConfigEntries line).
Proof.
  unfold readConfigLine. destruct (_ || _); [by intros [= <- _]; constructor|].
  set (s := TrimSpace text). unfold SplitN. cbn [Nat.sub split_cuts].
  destruct (Index s "->") as [i|] eqn:Ei; [|by intros [= <- _]; constructor].
  destruct (parse_targets [] _) as [urls e] eqn:Ep. intros [= <- _].
  pose proof (parse_targets_words _ _ _ _ (Fields_words _) Ep (Forall_nil_2 _)) as Hu.
  unfold line_toConfigEntries. cbn [Hostnames Targets]. apply Forall_forall. intros x Hx.
  rewrite list_elem_of_In, in_flat_map in Hx. destruct Hx as (h & Hh & Hx).
  rewrite <- list_elem_of_In in Hh. rewrite <- list_elem_of_In in Hx. apply list_elem_of_fmap in Hx as (u & -> & Hx).
  rewrite Forall_forall in Hu. split; [|split; [|by apply Hu]].
  - pose proof (Fields_words (str_take i s)) as Hw. rewrite Forall_forall in Hw. by apply Hw.
  - cbn [Hostname]. intros Harrow. eapply (before_first s "->" i); [done|exact Ei|].
    eapply within_trans; [exact Harrow|by apply Fields_within].
Qed.

(** ** Properties *)

(** C35. What a configuration can contain: whatever the file holds, every entry read from it
    has a host name that is not empty and holds neither white space nor an arrow, and a
    target that is the URL of a word of the line; and the events computed from such
    entries are about such entries. *)
Theorem config_entries_well_formed {Template} tpl_Parse (tpl_Execute : Template -> string * option string) content :
  Forall well_formed (ReadConfig tpl_Parse tpl_Execute content).1.1 /\
  forall prev new, Forall well_formed prev -> Forall well_formed new ->
    Forall (fun ev => well_formed (ce_entry ev)) (change_events prev new).
Proof.
  split.
  - unfold ReadConfig. destruct (executeTemplates _ _ content) as [text|]; [|constructor].
    destruct (scan_lines text) as [tokens long].
    pose proof (read_lines_entries tokens) as Hr. destruct (read_lines tokens) as [config logs].
    cbn [fst] in *. rewrite Hr. apply Forall_forall. intros x Hx.
    rewrite list_elem_of_In, in_flat_map in Hx. destruct Hx as (t & _ & Hx). rewrite <- list_elem_of_In in Hx.
    destruct (readConfigLine t) as [line [e|]] eqn:El; [by apply elem_of_nil in Hx|].
    pose proof (readConfigLine_well_formed t line None El) as Hw. rewrite Forall_forall in Hw. by apply Hw.
  - intros prev new Hp Hn. unfold change_events, getConfigChange. rewrite Forall_forall in Hp, Hn.
    apply Forall_app. split; apply Forall_fmap, Forall_forall; intros e [He _]%elem_of_not_contained; auto.
Qed.

(** ** Witness *)

Lemma config_entries_well_formed_witness :
  let entries := (ReadConfig Ok no_directives (Ok "a.com b.com -> http://x http://y")).1.1 in
  length entries = 4 /\
  Forall (fun ev => well_formed (ce_entry ev)) (change_events [] entries).
Proof.
  cbv zeta. split; [vm_compute; reflexivity|].
  destruct (config_entries_well_formed Ok no_directives (Ok "a.com b.com -> http://x http://y")) as [Hr Hc].
  apply Hc; [constructor|exact Hr].
Defined.
