(* ===== verification/Util.v ===== *)
(** pkg/util/bytecount.go: human-readable byte counts.

    [float64(b)/float64(div)] is computed exactly: the conversion of [b] rounds to
    53 significant bits (to nearest, ties to even), the division by a power of two
    is exact, and [%.1f] rounds the exact value to tenths, ties to even. *)

From S2P Require Import Prelude GoStrings.
From Stdlib Require Import DecimalString.

Local Open Scope Z_scope.
Local Open Scope go_scope.

(** [strconv.Itoa], [%d]. *)
Definition Itoa (z : Z) : string := NilZero.string_of_int (Z.to_int z).

Definition unit_size : Z := 1024.

(** [a / b] and [a * b] on int64. *)
Definition i64_mul (a b : Z) : Z := i64_wrap (a * b).

(** The loop [for n := b / unit; n >= unit; n /= unit]. *)
Fixpoint iec_loop (fuel : nat) (n div : Z) (exp : nat) : outcome (Z * nat) :=
  match fuel with
  | O => Panic
  | S fuel =>
      if n >=? unit_size then iec_loop fuel (n / unit_size) (i64_mul div unit_size) (S exp)
      else Return (div, exp)
  end.

(** An int64 has less than 64 binary digits, and each round drops ten. *)
Definition iec_fuel : nat := 8.

(** Nearest multiple, ties to even: [round_div n d] is [n / d] rounded. *)
Definition round_div (n d : Z) : Z :=
  let q := n / d in
  let r := n mod d in
  if (2 * r <? d) || ((2 * r =? d) && Z.even q) then q else q + 1.

(** [float64(b)] for a non-negative [b]. *)
Definition float64_of (b : Z) : Z :=
  let e := Z.log2 b - 52 in
  if e <=? 0 then b else round_div b (2 ^ e) * 2 ^ e.

(** [%.1f] of [n / d]. *)
Definition tenths (n d : Z) : Z := round_div (10 * n) d.

Definition format_tenths (t : Z) : string := Itoa (t / 10) +:+ "." +:+ Itoa (t mod 10).

Definition suffixes : list ascii := ["K"; "M"; "G"; "T"; "P"; "E"]%char.

(** [ByteCountIEC(b)]; [Panic] is the index [exp] out of range. *)
Definition ByteCountIEC (b : Z) : outcome string :=
  if b <? unit_size then Return (Itoa b +:+ " B")
  else
    let! (div, exp) := iec_loop iec_fuel (b / unit_size) unit_size 0 in
    let! c := slice_get suffixes exp in
    Return (format_tenths (tenths (float64_of b) div) +:+ " " +:+ str1 c +:+ "iB").

(** ** Lemmas *)

Lemma round_div_bounds n d :
  0 < d -> 2 * n - d <= 2 * d * round_div n d <= 2 * n + d.
Proof.
  intros Hd. unfold round_div. pose proof (Z.div_mod n d ltac:(lia)) as Hn.
  pose proof (Z.mod_pos_bound n d Hd) as Hr.
  set (q := n / d) in *. set (r := n mod d) in *.
  destruct (2 * r <? d) eqn:E1; simpl; [apply Z.ltb_lt in E1; nia|].
  apply Z.ltb_ge in E1. destruct (2 * r =? d) eqn:E2; simpl; [|nia].
  apply Z.eqb_eq in E2. destruct (Z.even q); nia.
Qed.

Lemma round_div_le n d k : 0 < d -> n <= k * d -> round_div n d <= k.
Proof.
  intros Hd Hn. unfold round_div. pose proof (Z.div_mod n d ltac:(lia)) as Hdm.
  pose proof (Z.mod_pos_bound n d Hd) as Hr.
  set (q := n / d) in *. set (r := n mod d) in *.
  destruct (decide (q < k)); [destruct (_ || _); lia|].
  assert (q = k) by nia. assert (Hr0 : r = 0) by nia. rewrite Hr0.
  rewrite (proj2 (Z.ltb_lt _ _)) by lia. simpl. lia.
Qed.

Lemma round_div_ge n d k : 0 < d -> k * d <= n -> k <= round_div n d.
Proof.
  intros Hd Hn. unfold round_div.
  pose proof (Z.div_le_lower_bound n d k Hd ltac:(lia)). destruct (_ || _); lia.
Qed.

(** The loop keeps [div = 1024^(exp+1)] and [n = b / div]. *)
Lemma iec_loop_spec fuel b exp :
  i64_range b ->
  1024 ^ (Z.of_nat exp + 1) <= b < 1024 ^ (Z.of_nat exp + 1 + Z.of_nat fuel) ->
  exists exp', iec_loop fuel (b / 1024 ^ (Z.of_nat exp + 1)) (1024 ^ (Z.of_nat exp + 1)) exp =
      Return (1024 ^ (Z.of_nat exp' + 1), exp') /\
    1024 ^ (Z.of_nat exp' + 1) <= b < 1024 ^ (Z.of_nat exp' + 2).
Proof.
  intros Hb. revert exp. induction fuel as [|fuel IH]; intros exp Hrange.
  { rewrite Z.add_0_r in Hrange. lia. }
  cbn [iec_loop]. unfold unit_size. set (div := 1024 ^ (Z.of_nat exp + 1)) in *.
  assert (Hdiv : 0 < div) by (apply Z.pow_pos_nonneg; lia).
  assert (Hnext : 1024 ^ (Z.of_nat exp + 2) = div * 1024).
  { replace (Z.of_nat exp + 2) with ((Z.of_nat exp + 1) + 1) by lia.
    by rewrite Z.pow_add_r by lia. }
  pose proof (Z.div_mod b div ltac:(lia)) as Hdm. pose proof (Z.mod_pos_bound b div Hdiv).
  rewrite Z.geb_leb. destruct (1024 <=? b / div) eqn:E.
  - apply Z.leb_le in E. assert (Hge : div * 1024 <= b) by nia.
    assert (Hmul : i64_mul div 1024 = 1024 ^ (Z.of_nat (S exp) + 1)).
    { unfold i64_mul. rewrite i64_wrap_small by (unfold i64_range in *; lia).
      rewrite <- Hnext. f_equal. lia. }
    rewrite Hmul, Z.div_div by lia.
    replace (div * 1024) with (1024 ^ (Z.of_nat (S exp) + 1))
      by (rewrite <- Hnext; f_equal; lia).
    apply IH. replace (Z.of_nat (S exp) + 1) with (Z.of_nat exp + 2) by lia.
    rewrite Hnext. split; [done|].
    replace (Z.of_nat exp + 2 + Z.of_nat fuel) with (Z.of_nat exp + 1 + Z.of_nat (S fuel)) by lia.
    lia.
  - apply Z.leb_gt in E. exists exp. split; [done|]. rewrite Hnext. split; [lia|]. nia.
Qed.

Lemma float64_of_bounds b k :
  0 <= k -> 2 ^ k <= b < 2 ^ (k + 10) -> 2 ^ k <= float64_of b <= 2 ^ (k + 10).
Proof.
  intros Hk Hb. unfold float64_of. destruct (Z.log2 b - 52 <=? 0) eqn:E; [lia|].
  apply Z.leb_gt in E. set (e := Z.log2 b - 52) in *.
  assert (Hb0 : 0 < b) by (pose proof (Z.pow_pos_nonneg 2 k); lia).
  pose proof (Z.log2_spec b Hb0) as [Hl1 Hl2].
  assert (Hkl : k <= Z.log2 b) by (apply Z.log2_le_pow2; lia).
  assert (Hlk : Z.log2 b < k + 10) by (apply Z.log2_lt_pow2; lia).
  assert (He : 0 < 2 ^ e) by (apply Z.pow_pos_nonneg; lia).
  assert (Hsplit : forall j, e <= j -> 2 ^ j = 2 ^ (j - e) * 2 ^ e).
  { intros j Hj. rewrite <- Z.pow_add_r by lia. f_equal. lia. }
  assert (Hupper : round_div b (2 ^ e) <= 2 ^ (k + 10 - e)).
  { apply round_div_le; [done|]. rewrite <- Hsplit by lia. lia. }
  rewrite (Hsplit (k + 10)) by lia.
  assert (Hlow : 2 ^ Z.log2 b <= round_div b (2 ^ e) * 2 ^ e).
  { rewrite (Hsplit (Z.log2 b)) by lia. apply Z.mul_le_mono_nonneg_r; [lia|].
    apply round_div_ge; [done|]. rewrite <- Hsplit by lia. lia. }
  pose proof (Z.pow_le_mono_r 2 k (Z.log2 b) ltac:(lia) Hkl). split; [lia|]. nia.
Qed.

Lemma float64_of_error b e :
  0 < b -> e = Z.log2 b - 52 -> 0 <= e -> 2 * Z.abs (float64_of b - b) <= 2 ^ e.
Proof.
  intros Hb He He0. unfold float64_of. rewrite <- He.
  destruct (e <=? 0) eqn:E; [rewrite Z.sub_diag; pose proof (Z.pow_nonneg 2 e); simpl; lia|].
  assert (Hp : 0 < 2 ^ e) by (apply Z.pow_pos_nonneg; lia).
  pose proof (round_div_bounds b (2 ^ e) Hp). nia.
Qed.

Lemma float64_of_small b e : e = Z.log2 b - 52 -> e < 0 -> float64_of b = b.
Proof. intros -> He. unfold float64_of. by rewrite (proj2 (Z.leb_le _ _)) by lia. Qed.

(** The conversion to float64 is far more precise than the printed tenths. *)
Lemma float64_of_relative b div :
  0 < div -> b < div * 1024 -> 0 < b -> 100000 * Z.abs (float64_of b - b) <= div.
Proof.
  intros Hdiv Hlt Hb. set (e := Z.log2 b - 52).
  destruct (decide (e < 0)) as [He|He].
  { rewrite (float64_of_small b e eq_refl He), Z.sub_diag. simpl. lia. }
  pose proof (float64_of_error b e Hb eq_refl ltac:(lia)) as Herr.
  pose proof (Z.log2_spec b Hb) as [Hlog _].
  assert (Hsplit : 2 ^ Z.log2 b = 2 ^ e * 2 ^ 52)
    by (rewrite <- Z.pow_add_r by lia; f_equal; lia).
  change (2 ^ 52) with 4503599627370496 in Hsplit. nia.
Qed.

Lemma tenths_close b div t :
  0 < div -> div <= b < div * 1024 -> t = tenths (float64_of b) div ->
  100 * Z.abs (t * div - 10 * b) <= 51 * div.
Proof.
  intros Hdiv Hb ->. unfold tenths.
  pose proof (round_div_bounds (10 * float64_of b) div Hdiv) as Hr.
  pose proof (float64_of_relative b div Hdiv ltac:(lia) ltac:(lia)) as Hf.
  set (f := float64_of b) in *. set (t := round_div _ _) in *. clearbody f t. nia.
Qed.

(** What the function promises: the unit is the largest one not above [b], and the
    printed number of tenths is within 0.051 units of [b]. *)
Definition shows_bytes (b : Z) (s : string) : Prop :=
  (b < 1024 /\ s = Itoa b +:+ " B") \/
  (exists (exp : nat) (c : ascii) (t : Z),
     let div := 1024 ^ (Z.of_nat exp + 1) in
     suffixes !! exp = Some c /\ div <= b < 1024 * div /\ 10 <= t <= 10240 /\
     100 * Z.abs (t * div - 10 * b) <= 51 * div /\
     s = format_tenths t +:+ " " +:+ str1 c +:+ "iB").

Lemma i64_exp_bound (b : Z) (exp : nat) :
  i64_range b -> 1024 ^ (Z.of_nat exp + 1) <= b -> (exp < 6)%nat.
Proof.
  intros Hb Hle. destruct (decide (exp < 6)%nat); [done|]. exfalso.
  assert (1024 ^ 7 <= 1024 ^ (Z.of_nat exp + 1)) by (apply Z.pow_le_mono_r; lia).
  unfold i64_range in Hb. change (1024 ^ 7) with (2 ^ 70) in *.
  assert (2 ^ 63 < 2 ^ 70) by (apply Z.pow_lt_mono_r; lia). lia.
Qed.

Lemma tenths_range b (exp : nat) :
  let div := 1024 ^ (Z.of_nat exp + 1) in
  div <= b < 1024 * div -> 10 <= tenths (float64_of b) div <= 10240.
Proof.
  intros div Hb.
  assert (Hpow : div = 2 ^ (10 * (Z.of_nat exp + 1))).
  { unfold div. change 1024 with (2 ^ 10). rewrite <- Z.pow_mul_r by lia. done. }
  assert (Hdiv : 0 < div) by (rewrite Hpow; apply Z.pow_pos_nonneg; lia).
  pose proof (float64_of_bounds b (10 * (Z.of_nat exp + 1)) ltac:(lia)) as Hf.
  rewrite Z.pow_add_r in Hf by lia. rewrite <- Hpow in Hf.
  change (2 ^ 10) with 1024 in Hf. specialize (Hf ltac:(lia)). unfold tenths.
  split; [apply round_div_ge | apply round_div_le]; lia.
Qed.

Lemma ByteCountIEC_spec b :
  i64_range b -> exists s, ByteCountIEC b = Return s /\ shows_bytes b s.
Proof.
  intros Hb. unfold ByteCountIEC, unit_size.
  destruct (b <? 1024) eqn:E; [apply Z.ltb_lt in E; eexists; split; [done|]; by left|].
  apply Z.ltb_ge in E. unfold i64_range in Hb.
  assert (Hmax : b < 1024 ^ (Z.of_nat 0 + 1 + Z.of_nat iec_fuel)).
  { change (1024 ^ _) with (2 ^ 90). assert (2 ^ 63 < 2 ^ 90) by (apply Z.pow_lt_mono_r; lia). lia. }
  destruct (iec_loop_spec iec_fuel b 0 Hb (conj E Hmax)) as (exp & Hloop & Hexp).
  change (1024 ^ (Z.of_nat 0 + 1)) with 1024 in Hloop. rewrite Hloop. simpl.
  assert (Hnext : 1024 ^ (Z.of_nat exp + 2) = 1024 * 1024 ^ (Z.of_nat exp + 1)).
  { rewrite <- Z.pow_succ_r by lia. f_equal. lia. }
  rewrite Hnext in Hexp.
  assert (Hlen : (exp < length suffixes)%nat) by (apply (i64_exp_bound b); [done|lia]).
  destruct (lookup_lt_is_Some_2 _ _ Hlen) as [c Hc].
  unfold slice_get. rewrite Hc. simpl. eexists; split; [done|]. right.
  exists exp, c, (tenths (float64_of b) (1024 ^ (Z.of_nat exp + 1))).
  split; [done|]. split; [lia|]. split; [apply tenths_range; lia|]. split; [|done].
  apply (tenths_close b); [apply Z.pow_pos_nonneg; lia | lia | done].
Qed.

(** C40. [ByteCountIEC] on any int64: it never indexes out of "KMGTPE", a count below
    1024 is printed in bytes, and any other count is printed in the largest unit not
    above it, as a number of tenths between 1.0 and 1024.0 that is within 0.051
    units of the exact quotient (float64 conversion included). *)
Theorem ByteCountIEC_shows b :
  i64_range b -> exists s, ByteCountIEC b = Return s /\ shows_bytes b s.
Proof. apply ByteCountIEC_spec. Qed.

Lemma ByteCountIEC_shows_witness :
  ByteCountIEC 1536 = Return "1.5 KiB" /\ ByteCountIEC (2 ^ 63 - 1) = Return "8.0 EiB" /\
  exists s, ByteCountIEC (2 ^ 63 - 1) = Return s /\ shows_bytes (2 ^ 63 - 1) s.
Proof.
  split; [vm_compute; reflexivity|]. split; [vm_compute; reflexivity|].
  apply (ByteCountIEC_shows (2 ^ 63 - 1)). unfold i64_range. lia.
Defined.
