(* ===== verification/Http.v ===== *)
(** The parts of net/http and io the program is written against: header maps,
    requests, and handlers as programs over the [http.ResponseWriter] interface.

    A handler is a finite tree of calls ([prog]): each node is a method call on the
    response writer or a read of the request body, and its branches are indexed by
    what the call returns.  [exec] runs a program on net/http's own response object;
    a [Writer] instance interposes a wrapping writer (the byte counter, the HTML
    rewriter), whose methods are themselves programs over the wrapped writer, and
    [wrap] runs a handler on the wrapping writer. *)

From S2P Require Import Prelude GoStrings Url.

Local Open Scope go_scope.

(** ** Header maps (net/http.Header, net/textproto) *)

Abbreviation Header := (gmap string (list string)).

(** [validHeaderFieldByte]: the token characters of RFC 7230. *)
Definition validHeaderFieldByte (c : ascii) : bool :=
  let v := byte_val c in
  in_range 48 57 v || in_range 65 90 v || in_range 97 122 v ||
  str_elem c "!#$%&'*+-.^_`|~".

Definition to_upper (c : ascii) : ascii :=
  if in_range 97 122 (byte_val c) then ascii_of_nat (nat_of_ascii c - 32) else c.

Definition to_lower (c : ascii) : ascii :=
  if in_range 65 90 (byte_val c) then ascii_of_nat (nat_of_ascii c + 32) else c.

Fixpoint canonical_loop (upper : bool) (s : string) : string :=
  match s with
  | EmptyString => EmptyString
  | String c s =>
      String (if upper then to_upper c else to_lower c)
        (canonical_loop (Ascii.eqb c "-") s)
  end.

Fixpoint str_forall (f : ascii -> bool) (s : string) : bool :=
  match s with
  | EmptyString => true
  | String c s => f c && str_forall f s
  end.

Definition CanonicalMIMEHeaderKey (s : string) : string :=
  if str_forall validHeaderFieldByte s then canonical_loop true s else s.

Definition Header_Values (h : Header) (key : string) : list string :=
  default [] (h !! CanonicalMIMEHeaderKey key).

Definition Header_Get (h : Header) (key : string) : string :=
  default EmptyString (head (Header_Values h key)).

Definition Header_Set (key value : string) (h : Header) : Header :=
  <[CanonicalMIMEHeaderKey key := [value]]> h.

Definition Header_Add (key value : string) (h : Header) : Header :=
  <[CanonicalMIMEHeaderKey key := Header_Values h key ++ [value]]> h.

Definition Header_Del (key : string) (h : Header) : Header :=
  delete (CanonicalMIMEHeaderKey key) h.

(** ** Requests *)

Record Request := mk_Request {
  Method : string;
  r_URL : URL;
  r_Header : Header;
  r_Host : string;
  RemoteAddr : string
}.

Definition set_r_URL (u : URL) (r : Request) : Request :=
  mk_Request (Method r) u (r_Header r) (r_Host r) (RemoteAddr r).
Definition set_r_Header (h : Header) (r : Request) : Request :=
  mk_Request (Method r) (r_URL r) h (r_Host r) (RemoteAddr r).
Definition set_r_Host (host : string) (r : Request) : Request :=
  mk_Request (Method r) (r_URL r) (r_Header r) host (RemoteAddr r).

(** ** Readers *)

(** An [io.Reader] as what its successive [Read] calls return: non-empty chunks,
    then [io.EOF] ([None]) or an error. *)
Record Reader := mk_Reader { rd_chunks : list string; rd_err : option string }.

(** ** Handler programs *)

Inductive prog (A : Type) : Type :=
  | Ret (a : A)
  | Crash                                                  (* a run-time panic *)
  | GetHeader (k : Header -> prog A)                       (* reading w.Header() *)
  | PutHeader (f : Header -> Header) (k : prog A)          (* mutating w.Header() *)
  | Write (p : string) (k : Z -> option string -> prog A)
  | WriteHeader (code : Z) (k : prog A)
  | Flush (k : bool -> prog A)            (* w.(http.Flusher); false: not one *)
  | ReadFrom (r : Reader) (k : option (Z * option string) -> prog A)
                                          (* w.(io.ReaderFrom); None: not one *)
  | ReadBody (n : nat) (k : string -> option string -> prog A).
Arguments Ret {A} a.
Arguments Crash {A}.
Arguments GetHeader {A} k.
Arguments PutHeader {A} f k.
Arguments Write {A} p k.
Arguments WriteHeader {A} code k.
Arguments Flush {A} k.
Arguments ReadFrom {A} r k.
Arguments ReadBody {A} n k.

Fixpoint bind {A B} (p : prog A) (f : A -> prog B) : prog B :=
  match p with
  | Ret a => f a
  | Crash => Crash
  | GetHeader k => GetHeader (fun h => bind (k h) f)
  | PutHeader g k => PutHeader g (bind k f)
  | Write s k => Write s (fun n e => bind (k n e) f)
  | WriteHeader c k => WriteHeader c (bind k f)
  | Flush k => Flush (fun b => bind (k b) f)
  | ReadFrom r k => ReadFrom r (fun o => bind (k o) f)
  | ReadBody n k => ReadBody n (fun s e => bind (k s e) f)
  end.

Declare Scope prog_scope.
Delimit Scope prog_scope with prog.
Notation "'let*' x := p 'in' k" := (bind p (fun x => k))
  (at level 10, x pattern, p at level 100, k at level 200) : prog_scope.
Notation "'do*' p 'in' k" := (bind p (fun _ => k))
  (at level 10, p at level 100, k at level 200) : prog_scope.
Local Open Scope prog_scope.

Definition p_header : prog Header := GetHeader Ret.
Definition p_put (f : Header -> Header) : prog unit := PutHeader f (Ret tt).
Definition p_write (s : string) : prog (Z * option string) := Write s (fun n e => Ret (n, e)).
Definition p_write_header (code : Z) : prog unit := WriteHeader code (Ret tt).
Definition p_flush : prog bool := Flush Ret.

(** A Go expression that may panic, inside a handler. *)
Definition p_outcome {A} (o : outcome A) : prog A :=
  match o with Return a => Ret a | Panic => Crash end.

(** An [http.Handler]: [ServeHTTP(w, r)] with [w] left implicit. *)
Definition HandlerFunc := Request -> prog unit.

(** The copying loop of [io.Copy]. *)
Fixpoint copy_loop (chunks : list string) (err : option string) (written : Z)
    : prog (Z * option string) :=
  match chunks with
  | [] => Ret (written, err)
  | c :: chunks =>
      let* (nw, ew) := p_write c in
      let written := (written + nw)%Z in
      match ew with
      | Some e => Ret (written, Some e)
      | None =>
          if negb (nw =? Z.of_nat (String.length c))%Z
          then Ret (written, Some "short write")
          else copy_loop chunks err written
      end
  end.

(** [io.Copy(w, r)]: through [ReadFrom] when the writer has it. *)
Definition io_Copy (r : Reader) : prog (Z * option string) :=
  ReadFrom r (fun res =>
    match res with
    | Some ne => Ret ne
    | None => copy_loop (rd_chunks r) (rd_err r) 0
    end).

(** [http.Error] *)
Definition http_Error (error : string) (code : Z) : prog unit :=
  do* p_put (Header_Set "Content-Type" "text/plain; charset=utf-8") in
  do* p_put (Header_Set "X-Content-Type-Options" "nosniff") in
  do* p_write_header code in
  do* p_write (error +:+ str1 "010"%char) in
  Ret tt.

(** ** net/http's own response object *)

(** [strconv.ParseInt(s, 10, 64)] restricted to what WriteHeader accepts: a
    decimal number in [0, 2^63). *)
Fixpoint parse_digits (acc : Z) (s : string) : option Z :=
  match s with
  | EmptyString => Some acc
  | String c s =>
      if in_range 48 57 (byte_val c) then parse_digits (acc * 10 + (byte_val c - 48))%Z s
      else None
  end.

Definition ParseLength (s : string) : option Z :=
  let digits := if HasPrefix s "+" then str_drop 1 s else s in
  if (String.length digits =? 0)%nat then None
  else match parse_digits 0 digits with
       | Some v => if (v <? 2 ^ 63)%Z then Some v else None
       | None => None
       end.

(** One exchange on a connection.  [c_live] is the header map handlers mutate,
    [c_sent] its copy taken by the effective [WriteHeader]; [c_limit] is the number
    of body bytes the connection takes before it breaks, if it does. *)
Record Conn := mk_Conn {
  c_live : Header;
  c_status : option Z;                 (* None: header not written *)
  c_sent : Header;
  c_length : option Z;                 (* declared Content-Length *)
  c_written : Z;
  c_body : string;
  c_limit : option nat;
  c_input : string                     (* what is left of the request body *)
}.

Definition new_Conn (input : string) (limit : option nat) : Conn :=
  mk_Conn ∅ None ∅ None 0 EmptyString limit input.

Definition set_live (h : Header) (c : Conn) : Conn :=
  mk_Conn h (c_status c) (c_sent c) (c_length c) (c_written c) (c_body c) (c_limit c) (c_input c).

Definition set_input (s : string) (c : Conn) : Conn :=
  mk_Conn (c_live c) (c_status c) (c_sent c) (c_length c) (c_written c) (c_body c) (c_limit c) s.

(** [response.WriteHeader]; [None] is the panic on an invalid code. *)
Definition conn_WriteHeader (code : Z) (c : Conn) : option Conn :=
  match c_status c with
  | Some _ => Some c
  | None =>
      if ((code <? 100) || (999 <? code))%Z then None
      else
        let cl := Header_Get (c_live c) "Content-Length" in
        let '(live, length) :=
          if (String.length cl =? 0)%nat then (c_live c, None)
          else match ParseLength cl with
               | Some v => (c_live c, Some v)
               | None => (Header_Del "Content-Length" (c_live c), None)
               end in
        Some (mk_Conn live (Some code) (c_live c) length (c_written c) (c_body c)
                (c_limit c) (c_input c))
  end.

(** [bodyAllowedForStatus] *)
Definition bodyAllowed (status : Z) : bool :=
  negb (((100 <=? status) && (status <=? 199)) || (status =? 204) || (status =? 304))%Z.

(** The bytes of [p] the connection takes, and the error if not all of them. *)
Definition conn_send (p : string) (c : Conn) : Conn * (Z * option string) :=
  let room := match c_limit c with
              | None => String.length p
              | Some lim => lim - String.length (c_body c)
              end in
  let taken := str_take room p in
  (mk_Conn (c_live c) (c_status c) (c_sent c) (c_length c) (c_written c)
     (c_body c +:+ taken) (c_limit c) (c_input c),
   (Z.of_nat (String.length taken),
    if (room <? String.length p)%nat then Some "write: broken pipe" else None)).

Definition add_written (n : Z) (c : Conn) : Conn :=
  mk_Conn (c_live c) (c_status c) (c_sent c) (c_length c) (c_written c + n)%Z (c_body c)
    (c_limit c) (c_input c).

(** [response.Write] *)
Definition conn_Write (p : string) (c : Conn) : Conn * (Z * option string) :=
  let c := default c (conn_WriteHeader 200 c) in
  let len := Z.of_nat (String.length p) in
  if (len =? 0)%Z then (c, (0%Z, None))
  else if negb (bodyAllowed (default 200%Z (c_status c))) then
    (c, (0%Z, Some "http: request method or response status code does not allow body"))
  else
    let c := add_written len c in
    if match c_length c with Some l => (l <? c_written c)%Z | None => false end
    then (c, (0%Z, Some "http: wrote more than the declared Content-Length"))
    else conn_send p c.

(** [response.ReadFrom]: the same copying loop over [Write]. *)
Fixpoint conn_copy (chunks : list string) (err : option string) (written : Z) (c : Conn)
    : Conn * (Z * option string) :=
  match chunks with
  | [] => (c, (written, err))
  | p :: chunks =>
      let '(c, (nw, ew)) := conn_Write p c in
      let written := (written + nw)%Z in
      match ew with
      | Some e => (c, (written, Some e))
      | None =>
          if negb (nw =? Z.of_nat (String.length p))%Z
          then (c, (written, Some "short write"))
          else conn_copy chunks err written c
      end
  end.

(** Reading at most [n] bytes of the request body. *)
Definition conn_read (n : nat) (c : Conn) : Conn * (string * option string) :=
  if (String.length (c_input c) =? 0)%nat then (c, (EmptyString, Some "EOF"))
  else (set_input (str_drop n (c_input c)) c, (str_take n (c_input c), None)).

(** Running a handler: its result ([None] when it panicked) and the exchange. *)
Fixpoint exec {A} (p : prog A) (c : Conn) : option A * Conn :=
  match p with
  | Ret a => (Some a, c)
  | Crash => (None, c)
  | GetHeader k => exec (k (c_live c)) c
  | PutHeader f k => exec k (set_live (f (c_live c)) c)
  | Write b k => let '(c, (n, e)) := conn_Write b c in exec (k n e) c
  | WriteHeader code k =>
      match conn_WriteHeader code c with
      | Some c => exec k c
      | None => (None, c)
      end
  | Flush k => exec (k true) c
  | ReadFrom r k =>
      let '(c, ne) := conn_copy (rd_chunks r) (rd_err r) 0 c in exec (k (Some ne)) c
  | ReadBody n k => let '(c, (s, e)) := conn_read n c in exec (k s e) c
  end.

(** ** Wrapping writers *)

(** The methods of a writer that wraps another one, with its own state [S].  The
    wrappers of the program return the wrapped writer's map from [Header], so header
    reads and mutations go straight through. *)
Class Writer (S : Type) := {
  w_Write : S -> string -> prog (S * (Z * option string));
  w_WriteHeader : S -> Z -> prog S;
  w_Flush : S -> prog (S * bool);
  w_ReadFrom : S -> Reader -> prog (S * option (Z * option string));
  w_ReadBody : S -> nat -> prog (S * (string * option string))
}.

(** Run a handler on the wrapping writer; [fin] is what is deferred, run when the
    handler panics (the caller runs it when the handler returns). *)
Fixpoint wrap {S A} `{Writer S} (fin : S -> prog unit) (p : prog A) (s : S) : prog (S * A) :=
  match p with
  | Ret a => Ret (s, a)
  | Crash => do* fin s in Crash
  | GetHeader k => GetHeader (fun h => wrap fin (k h) s)
  | PutHeader f k => PutHeader f (wrap fin k s)
  | Write b k => let* (s, (n, e)) := w_Write s b in wrap fin (k n e) s
  | WriteHeader code k => let* s := w_WriteHeader s code in wrap fin k s
  | Flush k => let* (s, b) := w_Flush s in wrap fin (k b) s
  | ReadFrom r k => let* (s, o) := w_ReadFrom s r in wrap fin (k o) s
  | ReadBody n k => let* (s, (b, e)) := w_ReadBody s n in wrap fin (k b e) s
  end.

(** ** Lemmas *)

Lemma exec_bind {A B} (p : prog A) (f : A -> prog B) c :
  exec (bind p f) c =
  match exec p c with
  | (Some a, c') => exec (f a) c'
  | (None, c') => (None, c')
  end.
Proof.
  revert c. induction p as [a| |k IH|g k IH|b k IH|code k IH|k IH|r k IH|n k IH];
    intros c; cbn [bind exec]; auto.
  - by destruct (conn_Write b c) as [c' [n e]].
  - by destruct (conn_WriteHeader code c) as [c'|].
  - by destruct (conn_copy _ _ _ c) as [c' ne].
  - by destruct (conn_read n c) as [c' [s e]].
Qed.

Lemma exec_copy_loop chunks err written c :
  exec (copy_loop chunks err written) c =
  (Some (conn_copy chunks err written c).2, (conn_copy chunks err written c).1).
Proof.
  revert written c. induction chunks as [|p chunks IH]; intros written c; [done|].
  cbn [copy_loop conn_copy]. rewrite exec_bind. cbn [p_write exec].
  destruct (conn_Write p c) as [c' [nw ew]]. destruct ew; [done|].
  case_match; [done|]. apply IH.
Qed.

Lemma exec_io_Copy r c :
  exec (io_Copy r) c =
  (Some (conn_copy (rd_chunks r) (rd_err r) 0 c).2,
   (conn_copy (rd_chunks r) (rd_err r) 0 c).1).
Proof. cbn [io_Copy exec]. by destruct (conn_copy _ _ _ c). Qed.

#[export] Hint Rewrite @exec_bind @exec_copy_loop @exec_io_Copy : go_rw.

(** A wrapping writer whose methods do to the exchange what the wrapped writer's
    methods do, and keep [I] between its state and the exchange, is transparent. *)
Section Transparent.
Context {S : Type} `{Writer S} (I : S -> Conn -> Prop).
Context (keeps_live : forall s c h, I s c -> I s (set_live h c)).
Context (keeps_Write : forall s c b, I s c ->
  exists s', exec (w_Write s b) c = (Some (s', (conn_Write b c).2), (conn_Write b c).1) /\
    I s' (conn_Write b c).1).
Context (keeps_WriteHeader : forall s c code, I s c ->
  match conn_WriteHeader code c with
  | Some c' => exists s', exec (w_WriteHeader s code) c = (Some s', c') /\ I s' c'
  | None => exec (w_WriteHeader s code) c = (None, c)
  end).
Context (keeps_Flush : forall s c, I s c ->
  exists s', exec (w_Flush s) c = (Some (s', true), c) /\ I s' c).
Context (keeps_ReadFrom : forall s c r, I s c ->
  let res := conn_copy (rd_chunks r) (rd_err r) 0 c in
  exists s', exec (w_ReadFrom s r) c = (Some (s', Some res.2), res.1) /\ I s' res.1).
Context (keeps_ReadBody : forall s c n, I s c ->
  exists s', exec (w_ReadBody s n) c = (Some (s', (conn_read n c).2), (conn_read n c).1) /\
    I s' (conn_read n c).1).

Lemma wrap_transparent {A} (p : prog A) s c :
  I s c ->
  exists s', exec (wrap (fun _ => Ret tt) p s) c =
    (match (exec p c).1 with Some a => Some (s', a) | None => None end, (exec p c).2) /\
    I s' (exec p c).2.
Proof.
  revert s c. induction p as [a| |k IH|g k IH|b k IH|code k IH|k IH|r k IH|n k IH];
    intros s c Hi; cbn [wrap].
  - by exists s.
  - by exists s.
  - cbn [exec]. by apply IH.
  - cbn [exec]. apply IH. by apply keeps_live.
  - rewrite exec_bind. destruct (keeps_Write s c b Hi) as (s' & -> & Hi').
    cbn [exec]. destruct (conn_Write b c) as [c' [n e]]. by apply IH.
  - rewrite exec_bind. pose proof (keeps_WriteHeader s c code Hi) as Hk. cbn [exec].
    destruct (conn_WriteHeader code c) as [c'|].
    + destruct Hk as (s' & -> & Hi'). by apply IH.
    + rewrite Hk. by exists s.
  - rewrite exec_bind. destruct (keeps_Flush s c Hi) as (s' & -> & Hi'). by apply IH.
  - rewrite exec_bind. destruct (keeps_ReadFrom s c r Hi) as (s' & -> & Hi').
    cbn [exec]. destruct (conn_copy _ _ _ c) as [c' ne]. by apply IH.
  - rewrite exec_bind. destruct (keeps_ReadBody s c n Hi) as (s' & -> & Hi').
    cbn [exec]. destruct (conn_read n c) as [c' [b e]]. by apply IH.
Qed.
End Transparent.

(** *** Header keys *)

Lemma canonical_valid_byte c :
  validHeaderFieldByte c = true ->
  validHeaderFieldByte (to_upper c) = true /\ validHeaderFieldByte (to_lower c) = true.
Proof. destruct c as [[] [] [] [] [] [] [] []]; vm_compute; intros; by split. Qed.

Lemma canonical_byte_idem (upper : bool) c :
  (if upper then to_upper (to_upper c) else to_lower (to_lower c)) =
  (if upper then to_upper c else to_lower c).
Proof. destruct upper; destruct c as [[] [] [] [] [] [] [] []]; reflexivity. Qed.

Lemma canonical_byte_dash (upper : bool) c :
  Ascii.eqb (if upper then to_upper c else to_lower c) "-" = Ascii.eqb c "-".
Proof. destruct upper; destruct c as [[] [] [] [] [] [] [] []]; reflexivity. Qed.

Lemma canonical_loop_idem upper s :
  canonical_loop upper (canonical_loop upper s) = canonical_loop upper s.
Proof.
  revert upper. induction s as [|c s IH]; intros upper; [done|]. cbn [canonical_loop].
  rewrite canonical_byte_dash, IH. f_equal.
  pose proof (canonical_byte_idem upper c). by destruct upper.
Qed.

Lemma canonical_loop_valid upper s :
  str_forall validHeaderFieldByte s = true ->
  str_forall validHeaderFieldByte (canonical_loop upper s) = true.
Proof.
  revert upper. induction s as [|c s IH]; intros upper Hs; [done|]. simpl in *. bool_prop.
  destruct (canonical_valid_byte c) as [Hu Hl]; [done|].
  apply andb_true_iff. split; [by destruct upper|]. by apply IH.
Qed.

Lemma CanonicalMIMEHeaderKey_idem s :
  CanonicalMIMEHeaderKey (CanonicalMIMEHeaderKey s) = CanonicalMIMEHeaderKey s.
Proof.
  unfold CanonicalMIMEHeaderKey.
  destruct (str_forall validHeaderFieldByte s) eqn:E; [|by rewrite E].
  by rewrite canonical_loop_valid, canonical_loop_idem.
Qed.

Lemma Header_Get_Set k v h : Header_Get (Header_Set k v h) k = v.
Proof. unfold Header_Get, Header_Values, Header_Set. by rewrite lookup_insert_eq. Qed.

Lemma Header_Values_Add k v h :
  Header_Values (Header_Add k v h) k = Header_Values h k ++ [v].
Proof. unfold Header_Values at 1, Header_Add. by rewrite lookup_insert_eq. Qed.

Lemma Header_Values_Del k h : Header_Values (Header_Del k h) k = [].
Proof. unfold Header_Values, Header_Del. by rewrite lookup_delete_eq. Qed.

Lemma Header_Values_other k k' v h :
  CanonicalMIMEHeaderKey k <> CanonicalMIMEHeaderKey k' ->
  Header_Values (Header_Set k v h) k' = Header_Values h k' /\
  Header_Values (Header_Add k v h) k' = Header_Values h k' /\
  Header_Values (Header_Del k h) k' = Header_Values h k'.
Proof.
  intros Hne. unfold Header_Values, Header_Set, Header_Add, Header_Del.
  by rewrite !lookup_insert_ne, lookup_delete_ne.
Qed.

(** *** What the exchange's methods keep *)

Definition body_len (c : Conn) : Z := Z.of_nat (String.length (c_body c)).
Definition input_len (c : Conn) : Z := Z.of_nat (String.length (c_input c)).

Lemma conn_WriteHeader_keeps code c c' :
  conn_WriteHeader code c = Some c' -> body_len c' = body_len c /\ input_len c' = input_len c.
Proof.
  unfold conn_WriteHeader. intros Hw. destruct (c_status c); [by injection Hw as <-|].
  destruct ((code <? 100) || (999 <? code))%Z; [done|].
  destruct (if (String.length _ =? 0)%nat then _ else _) as [live len]. by injection Hw as <-.
Qed.

(** The count returned by [Write] is the number of body bytes that went out. *)
Lemma conn_Write_counts b c :
  let '(c', (n, _)) := conn_Write b c in
  body_len c' = (body_len c + n)%Z /\ input_len c' = input_len c.
Proof.
  assert (Hd : body_len (default c (conn_WriteHeader 200 c)) = body_len c /\
               input_len (default c (conn_WriteHeader 200 c)) = input_len c).
  { destruct (conn_WriteHeader 200 c) eqn:E; [by apply conn_WriteHeader_keeps in E | done]. }
  unfold conn_Write. set (c0 := default c (conn_WriteHeader 200 c)) in *.
  destruct Hd as [<- <-]. clearbody c0.
  destruct (Z.of_nat (String.length b) =? 0)%Z; [lia|].
  destruct (negb (bodyAllowed _)); [lia|].
  destruct (match c_length _ with Some _ => _ | None => _ end);
    [unfold body_len, input_len; cbn [add_written c_body c_input]; lia|].
  unfold conn_send, body_len, input_len. cbn [c_body c_input c_limit add_written].
  rewrite slength_app. lia.
Qed.

Lemma conn_copy_counts chunks err written c :
  let '(c', (n, _)) := conn_copy chunks err written c in
  body_len c' = (body_len c + (n - written))%Z /\ input_len c' = input_len c.
Proof.
  revert written c. induction chunks as [|b chunks IH]; intros written c; cbn [conn_copy].
  { split; [lia|done]. }
  pose proof (conn_Write_counts b c) as Hw. destruct (conn_Write b c) as [c1 [n1 e1]].
  destruct Hw as [Hb Hin]. destruct e1; [split; [lia|done]|].
  destruct (negb (n1 =? _)%Z); [split; [lia|done]|].
  specialize (IH (written + n1)%Z c1).
  destruct (conn_copy chunks err (written + n1)%Z c1) as [c2 [n2 e2]]. lia.
Qed.

Lemma conn_read_counts n c :
  let '(c', (s, _)) := conn_read n c in
  body_len c' = body_len c /\ input_len c = (input_len c' + Z.of_nat (String.length s))%Z.
Proof.
  unfold conn_read. destruct (String.length (c_input c) =? 0)%nat; [split; cbn; lia|].
  split; [done|].
  unfold input_len. cbn [c_input set_input]. rewrite slength_drop, slength_take. lia.
Qed.

(** *** The exchange once the header is out *)

Definition header_out (c : Conn) : Prop := c_status c <> None.

Lemma conn_WriteHeader_out code c : header_out c -> conn_WriteHeader code c = Some c.
Proof. unfold header_out, conn_WriteHeader. by destruct (c_status c). Qed.

(** A response that takes a body, with no declared length, on a good connection. *)
Record taking (code : Z) (c : Conn) : Prop := {
  taking_status : c_status c = Some code;
  taking_allowed : bodyAllowed code = true;
  taking_length : c_length c = None;
  taking_limit : c_limit c = None
}.

(** [c'] is [c] with [s] added to the body. *)
Definition with_body (s : string) (c c' : Conn) : Prop :=
  c_body c' = c_body c +:+ s /\ c_sent c' = c_sent c.

Lemma str_take_all s : str_take (String.length s) s = s.
Proof. pose proof (stake_app_length s EmptyString) as H. by rewrite sapp_nil_r in H. Qed.

Lemma conn_Write_taking code b c :
  taking code c ->
  let '(c', (n, e)) := conn_Write b c in
  taking code c' /\ with_body b c c' /\ n = Z.of_nat (String.length b) /\ e = None.
Proof.
  intros [Hs Ha Hl Hm]. unfold conn_Write.
  rewrite conn_WriteHeader_out by (unfold header_out; by rewrite Hs). cbn [default from_option id].
  destruct (Z.of_nat (String.length b) =? 0)%Z eqn:E.
  { apply Z.eqb_eq in E. split; [by constructor|]. split; [|done].
    destruct b; [|by simpl in E]. by split; rewrite ?sapp_nil_r. }
  rewrite Hs. cbn [default from_option id]. rewrite Ha. cbn [negb c_length add_written].
  rewrite Hl. unfold conn_send. cbn [c_limit add_written]. rewrite Hm.
  rewrite Nat.ltb_irrefl, str_take_all. split; [by constructor|]. done.
Qed.

Lemma conn_copy_taking code cs w c :
  taking code c ->
  let c' := (conn_copy cs None w c).1 in taking code c' /\ with_body (str_concat cs) c c'.
Proof.
  revert w c. induction cs as [|b cs IH]; intros w c Hc; cbn [conn_copy str_concat].
  { split; [done|]. by split; rewrite ?sapp_nil_r. }
  pose proof (conn_Write_taking code b c Hc) as Hw.
  destruct (conn_Write b c) as [c1 [n e]]. destruct Hw as (Hc1 & [Hb Hs] & -> & ->).
  rewrite Z.eqb_refl. cbn [negb]. cbv zeta.
  destruct (IH (w + Z.of_nat (String.length b))%Z c1 Hc1) as (Ht & Hb' & Hs').
  split; [done|]. split; [by rewrite Hb', Hb, sapp_assoc | by rewrite Hs'].
Qed.

(** The effective [WriteHeader] of a response without a declared length. *)
Lemma conn_WriteHeader_taking code c :
  c_status c = None -> c_limit c = None -> (100 <= code <= 999)%Z -> bodyAllowed code = true ->
  Header_Get (c_live c) "Content-Length" = EmptyString ->
  exists c', conn_WriteHeader code c = Some c' /\ taking code c' /\
    c_sent c' = c_live c /\ c_live c' = c_live c /\ c_body c' = c_body c.
Proof.
  intros Hst Hlim Hcode Hall Hcl. unfold conn_WriteHeader. rewrite Hst.
  rewrite (proj2 (Z.ltb_ge _ _)), (proj2 (Z.ltb_ge _ _)) by lia. cbn [orb].
  rewrite Hcl. cbn [String.length Nat.eqb]. eexists. split; [done|]. by repeat split.
Qed.

(** An implicit header: the first write sends status 200. *)
Lemma conn_Write_first b c c' :
  conn_WriteHeader 200 c = Some c' -> header_out c' -> conn_Write b c = conn_Write b c'.
Proof.
  intros Hw Ho. unfold conn_Write. rewrite Hw, (conn_WriteHeader_out 200 c' Ho). done.
Qed.

(** [http.Error] on a response that has not been started. *)
Lemma exec_http_Error msg code c :
  c_status c = None -> c_limit c = None -> (100 <= code <= 999)%Z -> bodyAllowed code = true ->
  Header_Get (c_live c) "Content-Length" = EmptyString ->
  let res := exec (http_Error msg code) c in
  res.1 = Some tt /\ c_status res.2 = Some code /\
  c_body res.2 = c_body c +:+ msg +:+ str1 "010"%char /\
  Header_Get (c_sent res.2) "Content-Type" = "text/plain; charset=utf-8".
Proof.
  intros Hst Hlim Hcode Hall Hcl. cbv zeta. unfold http_Error.
  cbn [p_put p_write_header p_write bind exec c_live set_live].
  set (h := Header_Set "X-Content-Type-Options" _ _).
  destruct (conn_WriteHeader_taking code (set_live h (set_live (Header_Set "Content-Type"
    "text/plain; charset=utf-8" (c_live c)) c))) as (c1 & Hw & Ht & Hs & Hl & Hb); try done.
  { cbn [c_live set_live]. fold h. unfold h, Header_Get.
    destruct (Header_Values_other "X-Content-Type-Options" "Content-Length" "nosniff"
      (Header_Set "Content-Type" "text/plain; charset=utf-8" (c_live c))) as (-> & _); [done|].
    by destruct (Header_Values_other "Content-Type" "Content-Length" "text/plain; charset=utf-8"
      (c_live c)) as (-> & _). }
  cbn [c_live set_live] in *. fold h. rewrite Hw.
  pose proof (conn_Write_taking code (msg +:+ str1 "010"%char) c1 Ht) as Hwr.
  destruct (conn_Write _ c1) as [c2 [n e]]. destruct Hwr as (Ht2 & [Hb2 Hs2] & _).
  cbn [exec fst snd]. split; [done|]. split; [apply Ht2|]. split; [by rewrite Hb2, Hb|].
  rewrite Hs2, Hs. unfold h, Header_Get.
  destruct (Header_Values_other "X-Content-Type-Options" "Content-Type" "nosniff"
      (Header_Set "Content-Type" "text/plain; charset=utf-8" (c_live c))) as (-> & _); [done|].
  apply (Header_Get_Set "Content-Type").
Qed.

(** What has been sent stays sent. *)
Lemma conn_Write_sent b c :
  header_out c ->
  let c' := (conn_Write b c).1 in c_status c' = c_status c /\ c_sent c' = c_sent c.
Proof.
  intros Hc. unfold conn_Write. rewrite conn_WriteHeader_out by done. cbn [default from_option id].
  destruct (Z.of_nat (String.length b) =? 0)%Z; [done|].
  destruct (negb (bodyAllowed _)); [done|].
  by destruct (match c_length _ with Some _ => _ | None => _ end).
Qed.

Lemma conn_copy_sent chunks err w c :
  header_out c ->
  let c' := (conn_copy chunks err w c).1 in c_status c' = c_status c /\ c_sent c' = c_sent c.
Proof.
  revert w c. induction chunks as [|b chunks IH]; intros w c Hc; [done|]. cbn [conn_copy].
  pose proof (conn_Write_sent b c Hc) as [H1 H2].
  destruct (conn_Write b c) as [c1 [n e]]. cbn [fst] in *. cbv zeta.
  destruct e; [done|]. destruct (negb (n =? _)%Z); [done|].
  destruct (IH (w + n)%Z c1) as [-> ->]; [|done]. unfold header_out in *. by rewrite H1.
Qed.

Lemma exec_sent {A} (p : prog A) c :
  header_out c ->
  c_status (exec p c).2 = c_status c /\ c_sent (exec p c).2 = c_sent c.
Proof.
  revert c. induction p as [a| |k IH|g k IH|b k IH|code k IH|k IH|r k IH|n k IH];
    intros c Hc; cbn [exec]; auto.
  - by apply (IH (set_live (g (c_live c)) c)).
  - pose proof (conn_Write_sent b c Hc) as [H1 H2].
    destruct (conn_Write b c) as [c1 [m e]]. cbn [fst] in *.
    destruct (IH m e c1) as [-> ->]; [|done]. unfold header_out in *. by rewrite H1.
  - rewrite conn_WriteHeader_out by done. by apply IH.
  - pose proof (conn_copy_sent (rd_chunks r) (rd_err r) 0 c Hc) as [H1 H2].
    destruct (conn_copy _ _ _ c) as [c1 ne]. cbn [fst] in *.
    destruct (IH (Some ne) c1) as [-> ->]; [|done]. unfold header_out in *. by rewrite H1.
  - assert (Hr : exists s, (conn_read n c).1 = set_input s c).
    { unfold conn_read. destruct (String.length (c_input c) =? 0)%nat; [|by eexists].
      exists (c_input c). by destruct c. }
    destruct Hr as [s Hr]. destruct (conn_read n c) as [c1 [b e]]. cbn [fst] in Hr. subst c1.
    by apply (IH b e (set_input s c)).
Qed.
