(* ===== verification/Logger.v ===== *)
(** pkg/util (byte counters) and pkg/logger: the middleware that logs requests.

    [ReadCloserCounter] and [ResponseWriterCounter] count the bytes going through a
    request body and a response writer; their [int64] counters are the state of the
    wrapping writer [LogWriter].  User-agent parsing is third-party code ([ua]), and
    the clock reading is an argument. *)

From S2P Require Import Prelude GoStrings Url Http Util.

Local Open Scope go_scope.
Local Open Scope prog_scope.

(** ** Counters *)

(** [NewReadCloserCounter] and [NewResponseWriterCounter]: the counts they start with. *)
Definition NewReadCloserCounter : Z := 0.
Definition NewResponseWriterCounter : Z := 0.

(** [ReadCloserCounter.Read] with a buffer of [n] bytes. *)
Definition ReadCloserCounter_Read (count : Z) (n : nat)
    : prog (Z * (string * option string)) :=
  ReadBody n (fun buf err =>
    Ret (i64_add count (Z.of_nat (String.length buf)), (buf, err))).

(** [ResponseWriterCounter.Write] *)
Definition ResponseWriterCounter_Write (count : Z) (buf : string)
    : prog (Z * (Z * option string)) :=
  let* (n, err) := p_write buf in Ret (i64_add count n, (n, err)).

(** [ResponseWriterCounter.ReadFrom]: through the wrapped writer's [ReadFrom] when
    it has one, by [io.Copy] otherwise. *)
Definition ResponseWriterCounter_ReadFrom (count : Z) (r : Reader)
    : prog (Z * (Z * option string)) :=
  ReadFrom r (fun rf =>
    let* (n, err) := match rf with Some ne => Ret ne | None => io_Copy r end in
    Ret (i64_add count n, (n, err))).

(** [ResponseWriterCounter.WriteHeader] *)
Definition ResponseWriterCounter_WriteHeader (code : Z) : prog unit := p_write_header code.

(** [ResponseWriterCounter.Flush]: the counter is a [Flusher] whatever it wraps. *)
Definition ResponseWriterCounter_Flush : prog bool := do* p_flush in Ret true.

(** The counters of one logged request, and what their [Count] methods return. *)
Record LogWriter := mk_LogWriter { rcount : Z; wcount : Z }.

Definition ReadCloserCounter_Count (s : LogWriter) : Z := rcount s.
Definition ResponseWriterCounter_Count (s : LogWriter) : Z := wcount s.

#[export] Instance LogWriter_Writer : Writer LogWriter := {
  w_Write s b := let* (n, res) := ResponseWriterCounter_Write (wcount s) b in
                 Ret (mk_LogWriter (rcount s) n, res);
  w_WriteHeader s code := do* ResponseWriterCounter_WriteHeader code in Ret s;
  w_Flush s := let* b := ResponseWriterCounter_Flush in Ret (s, b);
  w_ReadFrom s r := let* (n, res) := ResponseWriterCounter_ReadFrom (wcount s) r in
                    Ret (mk_LogWriter (rcount s) n, Some res);
  w_ReadBody s n := let* (m, res) := ReadCloserCounter_Read (rcount s) n in
                    Ret (mk_LogWriter m (wcount s), res)
}.

(** ** The middleware *)

Definition hex_digit (v : Z) : ascii := default "0"%char (String.get (Z.to_nat v) "0123456789abcdef").

(** [%08x] of a [uint32]. *)
Definition hex8 (v : Z) : string :=
  str_concat ((fun i => str1 (hex_digit (Z.shiftr v (4 * (7 - Z.of_nat i)) mod 16)%Z)) <$> seq 0 8).

Section Middleware.
(** [user_agent.New(s)]: operating system, browser and version. *)
Context (ua : string -> string * (string * string)).

Definition log_begin (reqId : Z) (r : Request) : string :=
  let '(os, (browser, ver)) := ua (Header_Get (r_Header r) "User-Agent") in
  "#" +:+ hex8 reqId +:+ " BEGIN - " +:+ Method r +:+ " " +:+ r_Host r +:+
  RequestURI (r_URL r) +:+ " - " +:+ RemoteAddr r +:+
  " (" +:+ os +:+ " " +:+ browser +:+ " " +:+ ver +:+ ")".

Definition log_end (reqId : Z) (request response elapsed : string) : string :=
  "#" +:+ hex8 reqId +:+ " END - request: " +:+ request +:+ " - response: " +:+ response +:+
  " - elapsed: " +:+ elapsed +:+ " sec".

(** [LoggerMiddleware(handler)] serving one request: the middleware's counter
    afterwards, and the program, which returns the lines logged.  [elapsed] is what
    [%.6f] prints of the time the handler took. *)
Definition LoggerMiddleware (handler : HandlerFunc) (elapsed : string) (counter : Z)
    (r : Request) : Z * prog (list string) :=
  if HasSuffix (Path (r_URL r)) "/favicon.ico" then
    (counter, do* handler r in Ret [])
  else
    let reqId := u32_add counter 1 in
    (reqId,
     let* (s, _) := wrap (fun _ => Ret tt) (handler r)
       (mk_LogWriter NewReadCloserCounter NewResponseWriterCounter) in
     let* request := p_outcome (ByteCountIEC (ReadCloserCounter_Count s)) in
     let* response := p_outcome (ByteCountIEC (ResponseWriterCounter_Count s)) in
     Ret [log_begin reqId r; log_end reqId request response elapsed]).
End Middleware.

(** ** Lemmas *)

Section Counting.
Context (c0 : Conn).

(** The counters hold what has gone through since the exchange was at [c0]. *)
Definition counts (s : LogWriter) (c : Conn) : Prop :=
  rcount s = i64_wrap (input_len c0 - input_len c) /\
  wcount s = i64_wrap (body_len c - body_len c0).

Lemma counts_write r w n c c' :
  counts (mk_LogWriter r w) c -> body_len c' = (body_len c + n)%Z ->
  input_len c' = input_len c -> counts (mk_LogWriter r (i64_add w n)) c'.
Proof.
  intros [Hr Hw] Hb Hi. cbn [rcount wcount] in *. split; cbn [rcount wcount].
  - by rewrite Hr, Hi.
  - rewrite Hw. unfold i64_add. rewrite i64_wrap_add_l. f_equal. lia.
Qed.

Lemma LogWriter_Write s b c :
  counts s c ->
  exists s', exec (w_Write s b) c = (Some (s', (conn_Write b c).2), (conn_Write b c).1) /\
    counts s' (conn_Write b c).1.
Proof.
  intros Hs. destruct s as [r w]. pose proof (conn_Write_counts b c) as Hw.
  cbn [w_Write LogWriter_Writer]. unfold ResponseWriterCounter_Write.
  rewrite !exec_bind. cbn [p_write exec]. destruct (conn_Write b c) as [c' [n e]].
  destruct Hw as [Hb Hi]. eexists. split; [done|]. by eapply counts_write.
Qed.

Lemma LogWriter_ReadFrom s r c :
  counts s c ->
  let res := conn_copy (rd_chunks r) (rd_err r) 0 c in
  exists s', exec (w_ReadFrom s r) c = (Some (s', Some res.2), res.1) /\ counts s' res.1.
Proof.
  intros Hs. destruct s as [rc w]. pose proof (conn_copy_counts (rd_chunks r) (rd_err r) 0 c) as Hw.
  cbn [w_ReadFrom LogWriter_Writer]. unfold ResponseWriterCounter_ReadFrom.
  rewrite !exec_bind. cbn [exec]. cbv zeta. destruct (conn_copy _ _ _ c) as [c' [n e]].
  cbn [bind exec fst snd]. destruct Hw as [Hb Hi]. eexists. split; [done|]. eapply counts_write; [done| |done]. cbn [fst]. lia.
Qed.

Lemma LogWriter_ReadBody s n c :
  counts s c ->
  exists s', exec (w_ReadBody s n) c = (Some (s', (conn_read n c).2), (conn_read n c).1) /\
    counts s' (conn_read n c).1.
Proof.
  intros [Hr Hw]. destruct s as [rc w]. pose proof (conn_read_counts n c) as Hc.
  cbn [w_ReadBody LogWriter_Writer]. unfold ReadCloserCounter_Read.
  rewrite !exec_bind. cbn [exec]. destruct (conn_read n c) as [c' [b e]].
  destruct Hc as [Hb Hi]. eexists. split; [done|]. split; cbn [rcount wcount fst] in *.
  - rewrite Hr. unfold i64_add. rewrite i64_wrap_add_l. f_equal. lia.
  - by rewrite Hw, Hb.
Qed.

Lemma LogWriter_WriteHeader s c code :
  counts s c ->
  match conn_WriteHeader code c with
  | Some c' => exists s', exec (w_WriteHeader s code) c = (Some s', c') /\ counts s' c'
  | None => exec (w_WriteHeader s code) c = (None, c)
  end.
Proof.
  intros [Hr Hw]. cbn [w_WriteHeader LogWriter_Writer].
  rewrite exec_bind. cbn [ResponseWriterCounter_WriteHeader p_write_header exec].
  destruct (conn_WriteHeader code c) as [c'|] eqn:E; [|done].
  apply conn_WriteHeader_keeps in E as [Hb Hi].
  eexists. split; [done|]. split; [by rewrite Hi | by rewrite Hb].
Qed.

Lemma LogWriter_transparent {A} (p : prog A) s c :
  counts s c ->
  exists s', exec (wrap (fun _ => Ret tt) p s) c =
    (match (exec p c).1 with Some a => Some (s', a) | None => None end, (exec p c).2) /\
    counts s' (exec p c).2.
Proof.
  apply wrap_transparent.
  - done.
  - intros s' c' b. apply LogWriter_Write.
  - intros s' c' code. apply LogWriter_WriteHeader.
  - intros s' c' Hs. by exists s'.
  - intros s' c' r. apply LogWriter_ReadFrom.
  - intros s' c' n. apply LogWriter_ReadBody.
Qed.
End Counting.

Lemma ByteCountIEC_returns b : i64_range b -> exists s, ByteCountIEC b = Return s.
Proof. intros Hb. destruct (ByteCountIEC_spec b Hb) as (s & Hs & _). by exists s. Qed.

(** One request through the middleware. *)
Lemma LoggerMiddleware_spec ua handler elapsed counter r c :
  let '(counter', p) := LoggerMiddleware ua handler elapsed counter r in
  (exec p c).2 = (exec (handler r) c).2 /\
  match (exec (handler r) c).1 with
  | None => (exec p c).1 = None
  | Some _ =>
      if HasSuffix (Path (r_URL r)) "/favicon.ico"
      then (exec p c).1 = Some [] /\ counter' = counter
      else counter' = u32_wrap (counter + 1) /\
        let c' := (exec p c).2 in
        exists request response,
          ByteCountIEC (i64_wrap (input_len c - input_len c')) = Return request /\
          ByteCountIEC (i64_wrap (body_len c' - body_len c)) = Return response /\
          (exec p c).1 = Some [log_begin ua counter' r; log_end counter' request response elapsed]
  end.
Proof.
  unfold LoggerMiddleware. destruct (HasSuffix (Path (r_URL r)) "/favicon.ico") eqn:E.
  - rewrite exec_bind. by destruct (exec (handler r) c) as [[[]|] c'].
  - destruct (LogWriter_transparent c (handler r)
      (mk_LogWriter NewReadCloserCounter NewResponseWriterCounter) c) as (s & Hex & Hr & Hw).
    { split; cbn [rcount wcount]; by rewrite Z.sub_diag. }
    rewrite exec_bind, Hex. destruct (exec (handler r) c) as [[[]|] c']; [|done].
    cbn [fst snd] in *. unfold ReadCloserCounter_Count, ResponseWriterCounter_Count.
    rewrite Hr, Hw. clear Hr Hw Hex.
    destruct (ByteCountIEC_returns (i64_wrap (input_len c - input_len c'))) as [s1 H1]; [apply i64_wrap_range|].
    destruct (ByteCountIEC_returns (i64_wrap (body_len c' - body_len c))) as [s2 H2]; [apply i64_wrap_range|].
    rewrite H1, H2. cbn [p_outcome bind exec snd fst]. repeat (split; [done|]). by exists s1, s2.
Qed.

Lemma LoggerMiddleware_conn ua handler elapsed counter r c :
  (exec (LoggerMiddleware ua handler elapsed counter r).2 c).2 = (exec (handler r) c).2.
Proof.
  pose proof (LoggerMiddleware_spec ua handler elapsed counter r c) as Hl.
  by destruct (LoggerMiddleware _ _ _ _ _) as [counter' p], Hl.
Qed.

(** ** Properties *)

(** Logging changes nothing: for every handler and request the exchange with
    the client is exactly the unwrapped handler's, panics included.  When the handler
    returns, the sizes logged are those of the request bytes read and of the
    response bytes sent (as int64), and a request for a favicon is not counted. *)
Theorem LoggerMiddleware_transparent ua handler elapsed counter r c :
  let '(counter', p) := LoggerMiddleware ua handler elapsed counter r in
  (exec p c).2 = (exec (handler r) c).2 /\
  match (exec (handler r) c).1 with
  | None => (exec p c).1 = None
  | Some _ =>
      if HasSuffix (Path (r_URL r)) "/favicon.ico"
      then (exec p c).1 = Some [] /\ counter' = counter
      else counter' = u32_wrap (counter + 1) /\
        let c' := (exec p c).2 in
        exists request response,
          ByteCountIEC (i64_wrap (input_len c - input_len c')) = Return request /\
          ByteCountIEC (i64_wrap (body_len c' - body_len c)) = Return response /\
          (exec p c).1 = Some [log_begin ua counter' r; log_end counter' request response elapsed]
  end.
Proof. apply LoggerMiddleware_spec. Qed.
