(* ===== verification/Writers.v ===== *)
(** The response writers a request goes through, as far as taking over the connection is
    concerned: pkg/util/responsewritercounter.go ([Hijack]) and the interfaces
    pkg/stream/pathprefixwriter.go does not implement.

    What a writer is besides an [http.ResponseWriter] depends on its dynamic type; [Http]
    models [Flusher] and [ReaderFrom] as calls that may not be there.  A hijacked
    connection is outside of the exchange [Http] models, so [http.Hijacker] is modelled
    here, on the stack of writers alone. *)

From S2P Require Import Prelude GoStrings Url Http.

Local Open Scope go_scope.

(** net/http's response, of a connection that speaks HTTP/1 or HTTP/2, and the writers
    wrapped around it. *)
Inductive ResponseWriter :=
  | HTTPResponse (http2 : bool)
  | ResponseWriterCounter (w : ResponseWriter)
  | pathPrefixHTMLResponseWriter (w : ResponseWriter).

(** [w.(http.Hijacker)]: its [Hijack] method, if its type has one.  The counter has one
    whatever it wraps, and asserts that the wrapped writer does. *)
Fixpoint as_Hijacker (w : ResponseWriter) : option (outcome unit) :=
  match w with
  | HTTPResponse http2 => if http2 then None else Some (Return tt)
  | ResponseWriterCounter w =>
      Some (match as_Hijacker w with Some hijack => hijack | None => Panic end)
  | pathPrefixHTMLResponseWriter _ => None
  end.

(** The writer [LoggerMiddleware] gives its handler. *)
Definition logged_writer (r : Request) (w : ResponseWriter) : ResponseWriter :=
  if HasSuffix (Path (r_URL r)) "/favicon.ico" then w else ResponseWriterCounter w.

(** The writers that reach the reverse proxy, from the server's listeners and from the
    debug listener. *)
Definition proxy_writer (r : Request) (w : ResponseWriter) : ResponseWriter :=
  pathPrefixHTMLResponseWriter (logged_writer r w).

Definition debug_proxy_writer (r : Request) (w : ResponseWriter) : ResponseWriter :=
  pathPrefixHTMLResponseWriter (pathPrefixHTMLResponseWriter (logged_writer r w)).

(** [handleUpgradeResponse] of the reverse proxy: a backend's switch of protocols is
    carried out only on a [Hijacker]. *)
Definition can_upgrade (w : ResponseWriter) : bool :=
  match as_Hijacker w with Some (Return tt) => true | _ => false end.

(** No connection through the proxy can switch protocols: WebSockets do not work behind
    this server, although the connection itself and the logging writer would allow it. *)
Lemma proxy_cannot_upgrade r :
  can_upgrade (logged_writer r (HTTPResponse false)) = true /\
  forall w, can_upgrade (proxy_writer r w) = false /\ can_upgrade (debug_proxy_writer r w) = false.
Proof. split; [unfold logged_writer; by destruct (HasSuffix _ _)|done]. Qed.

(** Over HTTP/2 the logging writer claims to be a [Hijacker] and panics when asked. *)
Lemma counter_Hijack_panics r :
  HasSuffix (Path (r_URL r)) "/favicon.ico" = false ->
  as_Hijacker (logged_writer r (HTTPResponse true)) = Some Panic.
Proof. intros Hf. unfold logged_writer. by rewrite Hf. Qed.
