(* ===== verification/GoPath.v ===== *)
(** path and path/filepath: lexical operations on slash-separated paths. *)

From S2P Require Import Prelude GoStrings Glob.

Local Open Scope go_scope.

(** ** Operations *)

(** One segment of [path.Clean]'s loop; [stack] holds the segments kept so far,
    last first. *)
Definition clean_step (rooted : bool) (stack : list string) (seg : string) : list string :=
  if String.eqb seg EmptyString || String.eqb seg "." then stack
  else if String.eqb seg ".." then
    match stack with
    | top :: rest => if String.eqb top ".." then seg :: stack else rest
    | [] => if rooted then [] else [seg]
    end
  else seg :: stack.

Definition clean_segs (rooted : bool) (stack : list string) (path : string) : list string :=
  fold_left (clean_step rooted) (split_byte path slash_c) stack.

(** The absolute path with the given segments. *)
Definition abs_path (segs : list string) : string := slash +:+ Join segs slash.

(** [path.Clean(path)] *)
Definition Clean (path : string) : string :=
  if String.eqb path EmptyString then "."
  else
    let rooted := HasPrefix path slash in
    let segs := rev (clean_segs rooted [] path) in
    if rooted then abs_path segs
    else match segs with [] => "." | _ => Join segs slash end.

(** [path.Join(elem...)]: leading empty elements are dropped, the others joined. *)
Fixpoint drop_empty (elems : list string) : list string :=
  match elems with
  | e :: elems' => if String.eqb e EmptyString then drop_empty elems' else elems
  | [] => []
  end.

Definition path_Join (elems : list string) : string :=
  match drop_empty elems with
  | [] => EmptyString
  | elems => Clean (Join elems slash)
  end.

(** [path.Split(path)] *)
Definition path_Split (path : string) : string * string :=
  match LastIndexByte path slash_c with
  | Some i => (str_take (S i) path, str_drop (S i) path)
  | None => (EmptyString, path)
  end.

(** [path.Dir(path)] *)
Definition path_Dir (path : string) : string := Clean (path_Split path).1.

(** [filepath.Abs(path)] on Unix; [getwd] is what [os.Getwd] answers. *)
Definition Abs (getwd : result string) (path : string) : result string :=
  if HasPrefix path slash then Ok (Clean path)
  else try wd <- getwd;; Ok (path_Join [wd; path]).

(** ** Segments *)

(** A segment that [Clean] keeps: no slash, and neither empty, [.] nor [..]. *)
Definition proper_seg (w : string) : Prop :=
  str_elem slash_c w = false /\ w <> EmptyString /\ w <> "." /\ w <> "..".

#[export] Instance proper_seg_dec w : Decision (proper_seg w).
Proof. unfold proper_seg. apply _. Defined.

Lemma clean_step_proper rooted stack w :
  proper_seg w -> clean_step rooted stack w = w :: stack.
Proof.
  intros (_ & H1 & H2 & H3). unfold clean_step.
  by rewrite !(proj2 (String.eqb_neq _ _)).
Qed.

Lemma clean_step_keeps stack w :
  str_elem slash_c w = false -> Forall proper_seg stack ->
  Forall proper_seg (clean_step true stack w).
Proof.
  intros Hw Hs. unfold clean_step.
  destruct (String.eqb w EmptyString) eqn:E1; [done|].
  destruct (String.eqb w ".") eqn:E2; [done|]. cbn [orb].
  destruct (String.eqb w "..") eqn:E3.
  - destruct stack as [|top rest]; [done|]. inversion_clear Hs as [|? ? (_ & _ & _ & Hn) Hrest].
    by rewrite (proj2 (String.eqb_neq _ _) Hn).
  - bool_prop. by constructor.
Qed.

Lemma clean_steps_keep segs stack :
  (forall w, w ∈ segs -> str_elem slash_c w = false) -> Forall proper_seg stack ->
  Forall proper_seg (fold_left (clean_step true) segs stack).
Proof.
  revert stack. induction segs as [|w segs IH]; intros stack Hs Hst; [done|]. simpl.
  apply IH; [set_solver|]. apply clean_step_keeps; [set_solver|done].
Qed.

Lemma clean_segs_keep path stack :
  Forall proper_seg stack -> Forall proper_seg (clean_segs true stack path).
Proof. apply clean_steps_keep. intros w. apply split_byte_pieces. Qed.

Lemma clean_steps_proper rooted segs stack :
  Forall proper_seg segs -> fold_left (clean_step rooted) segs stack = rev segs ++ stack.
Proof.
  intros Hs. revert stack. induction Hs as [|w segs Hw Hs IH]; intros stack; [done|]. simpl.
  by rewrite clean_step_proper, IH, <- app_assoc.
Qed.

Lemma split_byte_slash t c : split_byte (String c t) c = EmptyString :: split_byte t c.
Proof. simpl. by rewrite Ascii.eqb_refl. Qed.

Lemma clean_segs_slash rooted stack t :
  clean_segs rooted stack (slash +:+ t) = clean_segs rooted stack t.
Proof.
  unfold clean_segs, slash. rewrite sapp_cons, sapp_nil_l, split_byte_slash. done.
Qed.

(** Cleaning goes segment by segment over a slash. *)
Lemma clean_segs_app rooted stack a b :
  clean_segs rooted stack (a +:+ slash +:+ b) =
  clean_segs rooted (clean_segs rooted stack a) b.
Proof.
  unfold clean_segs, slash. rewrite sapp_cons, sapp_nil_l, split_byte_app_sep.
  apply fold_left_app.
Qed.

Lemma clean_segs_Join rooted stack segs :
  Forall proper_seg segs -> clean_segs rooted stack (Join segs slash) = rev segs ++ stack.
Proof.
  intros Hs. destruct (decide (segs = [])) as [->|Hne]; [done|].
  unfold clean_segs, slash. change (String "/" EmptyString) with (str1 slash_c).
  rewrite split_byte_Join; [by apply clean_steps_proper | done |].
  intros w Hw. rewrite Forall_forall in Hs. by destruct (Hs w Hw).
Qed.

Lemma clean_segs_abs stack segs :
  Forall proper_seg segs -> clean_segs true stack (abs_path segs) = rev segs ++ stack.
Proof. intros Hs. unfold abs_path. by rewrite clean_segs_slash, clean_segs_Join. Qed.

Lemma HasPrefix_slash t : HasPrefix (slash +:+ t) slash = true.
Proof. apply HasPrefix_app. Qed.

Lemma slash_app_nonempty t : String.eqb (slash +:+ t) EmptyString = false.
Proof. unfold slash. by rewrite sapp_cons. Qed.

(** [Clean] of a rooted path. *)
Lemma Clean_rooted t : Clean (slash +:+ t) = abs_path (rev (clean_segs true [] t)).
Proof.
  unfold Clean. rewrite HasPrefix_slash. cbn [String.eqb slash].
  by rewrite clean_segs_slash.
Qed.

Lemma Clean_rooted_segs p :
  HasPrefix p slash = true ->
  exists segs, Clean p = abs_path segs /\ Forall proper_seg segs.
Proof.
  intros [t ->]%HasPrefix_spec. rewrite Clean_rooted. eexists. split; [done|].
  apply Forall_rev. by apply clean_segs_keep.
Qed.

Lemma Clean_abs segs : Forall proper_seg segs -> Clean (abs_path segs) = abs_path segs.
Proof.
  intros Hs. unfold abs_path at 1. rewrite Clean_rooted, clean_segs_Join by done.
  by rewrite app_nil_r, rev_involutive.
Qed.

Lemma Clean_idem_rooted p : HasPrefix p slash = true -> Clean (Clean p) = Clean p.
Proof. intros (segs & -> & Hs)%Clean_rooted_segs. by apply Clean_abs. Qed.

(** Joining to an absolute path walks down, and up, from its segments. *)
Lemma path_Join_abs segs b :
  Forall proper_seg segs ->
  path_Join [abs_path segs; b] = abs_path (rev (clean_segs true (rev segs) b)).
Proof.
  intros Hs. unfold path_Join. cbn [drop_empty].
  rewrite (slash_app_nonempty _ : String.eqb (abs_path segs) EmptyString = false).
  cbn [Join]. unfold abs_path at 1.
  rewrite <- sapp_assoc, Clean_rooted, clean_segs_app, clean_segs_Join by done.
  by rewrite app_nil_r.
Qed.

(** An absolute second argument can only walk down. *)
Lemma path_Join_abs_abs segs segs' :
  Forall proper_seg segs -> Forall proper_seg segs' ->
  path_Join [abs_path segs; abs_path segs'] = abs_path (segs ++ segs').
Proof.
  intros Hs Hs'. rewrite path_Join_abs, clean_segs_abs by done.
  by rewrite rev_app_distr, !rev_involutive.
Qed.

Lemma Join_app_segs l l' :
  l <> [] -> l' <> [] -> Join (l ++ l') slash = Join l slash +:+ slash +:+ Join l' slash.
Proof.
  intros Hl Hl'. induction l as [|w [|v l] IH]; [done| |].
  - cbn [app]. by rewrite Join_cons by done.
  - change ((w :: v :: l) ++ l') with (w :: ((v :: l) ++ l')).
    rewrite (Join_cons w ((v :: l) ++ l')), (Join_cons w (v :: l)), IH by done.
    by rewrite !sapp_assoc.
Qed.

Lemma abs_path_app segs segs' :
  segs <> [] -> segs' <> [] -> abs_path (segs ++ segs') = abs_path segs +:+ abs_path segs'.
Proof. intros. unfold abs_path. by rewrite Join_app_segs, !sapp_assoc. Qed.

(** Segments can be read back. *)
Lemma abs_path_inj segs segs' :
  Forall proper_seg segs -> Forall proper_seg segs' ->
  abs_path segs = abs_path segs' -> segs = segs'.
Proof.
  intros Hs Hs' Heq.
  pose proof (clean_segs_abs [] segs Hs) as H1. pose proof (clean_segs_abs [] segs' Hs') as H2.
  rewrite Heq, H2, !app_nil_r in H1. apply (f_equal (@rev _)) in H1.
  by rewrite !rev_involutive in H1.
Qed.

Lemma Abs_rooted cwd p :
  HasPrefix cwd slash = true ->
  exists segs, Abs (Ok cwd) p = Ok (abs_path segs) /\ Forall proper_seg segs.
Proof.
  intros Hc. unfold Abs. destruct (HasPrefix p slash) eqn:E.
  { destruct (Clean_rooted_segs p E) as (segs & -> & Hs). by exists segs. }
  cbn [result_bind].
  destruct (HasPrefix_spec cwd slash) as [[t ->] _]; [done|].
  unfold path_Join. cbn [drop_empty]. rewrite slash_app_nonempty. cbn [Join].
  destruct (Clean_rooted_segs ((slash +:+ t) +:+ slash +:+ p)) as (segs & Hc' & Hs).
  { rewrite <- sapp_assoc. apply HasPrefix_slash. }
  exists segs. by rewrite <- Hc'.
Qed.
