(* ===== verification/Listing.v ===== *)
(** pkg/fileserver/fileserver.go: the page of a directory listing.

    [fsTemplate] is a template of html/template, which escapes what it inserts according
    to where it is inserted: here the [href] of a link and the text of table cells.  The
    escapers are those of the Go library for these two places; the pieces of text are the
    template's own. *)

From S2P Require Import Prelude GoStrings Glob Url Http GoPath.

Local Open Scope go_scope.
Local Open Scope prog_scope.

(** ** Escapers of html/template *)

Definition nul : ascii := ascii_of_nat 0.

(** [htmlReplacementTable] *)
Definition html_replacement (c : ascii) : string :=
  if Ascii.eqb c nul then String (ascii_of_nat 239) (String (ascii_of_nat 191) (str1 (ascii_of_nat 189)))
  else if Ascii.eqb c dquote then "&#34;"
  else if Ascii.eqb c "&" then "&amp;"
  else if Ascii.eqb c "'" then "&#39;"
  else if Ascii.eqb c "+" then "&#43;"
  else if Ascii.eqb c "<" then "&lt;"
  else if Ascii.eqb c ">" then "&gt;"
  else str1 c.

(** [htmlReplacer]: what it replaces are single bytes, never part of a longer rune. *)
Fixpoint htmlReplacer (s : string) : string :=
  match s with
  | EmptyString => EmptyString
  | String c s => html_replacement c +:+ htmlReplacer s
  end.

(** [strings.EqualFold] with a lower-case ASCII word: besides the letters' upper case, the
    long s (U+017F) is folded to [s]; no other rune folds to a letter of these words. *)
Fixpoint fold_ascii (s : string) : string :=
  match s with
  | EmptyString => EmptyString
  | String c t =>
      match t with
      | String d u =>
          if (byte_val c =? 197)%Z && (byte_val d =? 191)%Z then String "s" (fold_ascii u)
          else String (to_lower c) (fold_ascii t)
      | EmptyString => str1 (to_lower c)
      end
  end.

Definition isSafeURL (s : string) : bool :=
  match Cut s ":"%char with
  | (protocol, _, true) =>
      Contains protocol "/" || String.eqb (fold_ascii protocol) "http" ||
      String.eqb (fold_ascii protocol) "https" || String.eqb (fold_ascii protocol) "mailto"
  | _ => true
  end.

(** [urlFilter] *)
Definition urlFilter (s : string) : string := if isSafeURL s then s else "#ZgotmplZ".

Definition url_kept (c : ascii) : bool := one_of c "!#$&*+,/:;=?@[]-._~" || is_alnum c.

(** [urlNormalizer]: [processURLOnto] with [norm]; an escape already there is kept. *)
Fixpoint urlNormalizer (s : string) : string :=
  match s with
  | EmptyString => EmptyString
  | String c t =>
      (if Ascii.eqb c percent_c then
         match t with
         | String h (String l _) => if ishex h && ishex l then str1 c else percent_byte c
         | _ => percent_byte c
         end
       else if url_kept c then str1 c else percent_byte c) +:+ urlNormalizer t
  end.

(** What [{{.FullName}}] in the quoted [href], and [{{.Name}}] in a cell, insert.  The
    attribute escaper's treatment of noncharacters does not arise: a normalized URL is
    ASCII. *)
Definition href_value (s : string) : string := htmlReplacer (urlNormalizer (urlFilter s)).
Definition cell_text (s : string) : string := htmlReplacer s.

(** ** The template *)

Record fsEntry := mk_fsEntry {
  e_Icon : string;
  e_Name : string;
  e_FullName : string;
  e_Size : string;
  e_Modified : string;
  e_Created : string
}.

(** The text before the entries. *)
Definition page_head : string :=
  "
<style type=" +:+ quote +:+ "text/css" +:+ quote +:+ " scoped>
a {
	color: black;
	text-decoration: underline;
	text-decoration-color: rgb(220, 53, 69);
	-webkit-text-decoration-color: rgb(220, 53, 69);
}
a:hover {
	color: dimgrey;
}
table {
	border-collapse: collapse;
	margin-bottom: 1rem;
	border-spacing: 0;
}
td {
	padding: 10px;
	border: 1px solid transparent;
}
tr:nth-child(odd) > td {
	background-color: #F0F0F0;
}
tr:first-child > td {
	font-weight: bold;
	border-bottom: 1px solid black;
	background-color: white;
}
tr:not(:first-child):hover > td {
	background-color: lightsteelblue;
}
</style>
<table>
	<tr>
		<td>Name</td>
		<td>Size</td>
		<td>Modified</td>
		<td>Created</td>
	</tr>
	".

(** One entry, in the pieces it is written as: text and values in turn. *)
Definition entry_row (e : fsEntry) : list string :=
  ["
	<tr>
		<td>";
   e_Icon e;
   " <a href=" +:+ quote;
   href_value (e_FullName e);
   quote +:+ ">";
   cell_text (e_Name e);
   "</a></td>
		<td>";
   cell_text (e_Size e);
   "</td>
		<td>";
   cell_text (e_Modified e);
   "</td>
		<td>";
   cell_text (e_Created e);
   "</td>
	</tr>
	"].

(** The row of an empty directory. *)
Definition empty_row : list string :=
  ["
	<tr>
		<td colspan=" +:+ quote +:+ "4" +:+ quote +:+ ">Empty</td>
	</tr>
	"].

Definition page_end : string := "
</table>
".

(** The writes of [fsTemplate.Execute(w, entries)]. *)
Definition fsTemplate (entries : list fsEntry) : list string :=
  page_head :: (if (length entries =? 0)%nat then empty_row else mjoin (entry_row <$> entries)) ++ [page_end].

(** [Execute] stops at the first write that fails. *)
Fixpoint template_Execute (writes : list string) : prog (option string) :=
  match writes with
  | [] => Ret None
  | s :: writes =>
      let* (_, err) := p_write s in
      match err with
      | Some e => Ret (Some e)
      | None => template_Execute writes
      end
  end.

(** ** Reading the page *)

(** What a browser, or the tokenizer, reads where the escapers wrote entities. *)
Fixpoint html_decode (s : string) : string :=
  match s with
  | EmptyString => EmptyString
  | String "&" (String "#" (String "3" (String "4" (String ";" t)))) => String dquote (html_decode t)
  | String "&" (String "#" (String "3" (String "9" (String ";" t)))) => String "'" (html_decode t)
  | String "&" (String "#" (String "4" (String "3" (String ";" t)))) => String "+" (html_decode t)
  | String "&" (String "a" (String "m" (String "p" (String ";" t)))) => String "&" (html_decode t)
  | String "&" (String "l" (String "t" (String ";" t))) => String "<" (html_decode t)
  | String "&" (String "g" (String "t" (String ";" t))) => String ">" (html_decode t)
  | String c t => String c (html_decode t)
  end.

Lemma html_decode_plain c t : c <> "&"%char -> html_decode (String c t) = String c (html_decode t).
Proof.
  intros Hc. destruct c as [[] [] [] [] [] [] [] []]; first [reflexivity | by exfalso; apply Hc].
Qed.

Lemma html_decode_replacement c t :
  c <> nul -> html_decode (html_replacement c +:+ t) = String c (html_decode t).
Proof.
  intros Hn. unfold html_replacement. rewrite (proj2 (Ascii.eqb_neq _ _) Hn).
  repeat match goal with
  | |- context [if Ascii.eqb c ?d then _ else _] =>
      destruct (Ascii.eqb_spec c d) as [->|?]; [rewrite ?sapp_cons, ?sapp_nil_l; reflexivity|]
  end.
  unfold str1. rewrite sapp_cons, sapp_nil_l. by apply html_decode_plain.
Qed.

(** Escaped text is read back, and holds nothing that could be markup. *)
Lemma html_decode_replacer s : str_elem nul s = false -> html_decode (htmlReplacer s) = s.
Proof.
  induction s as [|c s IH]; [done|]. cbn [str_elem htmlReplacer]. intros Hs. bool_prop.
  rewrite html_decode_replacement by done. by rewrite IH.
Qed.

Definition html_markup : list ascii := [dquote; "'"; "<"; ">"]%char.

Lemma html_replacement_safe_all :
  forallb (fun c => forallb (fun m => negb (str_elem m (html_replacement c))) html_markup) all_bytes = true.
Proof. vm_compute. reflexivity. Qed.

Lemma htmlReplacer_safe s m : m ∈ html_markup -> str_elem m (htmlReplacer s) = false.
Proof.
  intros Hm. induction s as [|c s IH]; [done|]. cbn [htmlReplacer]. rewrite str_elem_app, IH, orb_false_r.
  pose proof (byte_forall _ html_replacement_safe_all c) as Hc. rewrite forallb_forall in Hc.
  apply negb_true_iff, Hc. by apply list_elem_of_In.
Qed.

(** ** Normalized URLs *)

(** A path the normalizer does not change the meaning of: no query, no fragment, and no
    percent sign that could be read as an escape. *)
Fixpoint url_plain (s : string) : bool :=
  match s with
  | EmptyString => true
  | String c t =>
      negb (Ascii.eqb c "?") && negb (Ascii.eqb c "#") &&
      negb (Ascii.eqb c percent_c &&
            match t with String h (String l _) => ishex h && ishex l | _ => false end) &&
      url_plain t
  end.

(** The bytes of a normalized plain URL. *)
Definition url_printable (c : ascii) : bool :=
  in_range 33 126 (byte_val c) && negb (Ascii.eqb c "?") && negb (Ascii.eqb c "#").

Definition norm_byte (c : ascii) : string := if url_kept c then str1 c else percent_byte c.

Definition norm_byte_ok (c : ascii) : bool :=
  let h := hex_lower (byte_val c / 16) in
  let l := hex_lower (byte_val c mod 16) in
  ishex h && ishex l && Ascii.eqb (byte_of (unhex h * 16 + unhex l)) c &&
  url_printable h && url_printable l &&
  (Ascii.eqb c "?" || Ascii.eqb c "#" || negb (url_kept c) || url_printable c) &&
  negb (Ascii.eqb c percent_c && url_kept c).

Lemma norm_byte_ok_all c : norm_byte_ok c = true.
Proof. revert c. apply byte_forall. vm_compute. reflexivity. Qed.

(** On plain text the normalizer works byte by byte. *)
Lemma urlNormalizer_plain c t :
  url_plain (String c t) = true ->
  urlNormalizer (String c t) = norm_byte c +:+ urlNormalizer t /\ url_plain t = true /\
  c <> "?"%char /\ c <> "#"%char.
Proof.
  cbn [url_plain]. intros Hp. bool_prop. split; [|done]. cbn [urlNormalizer]. f_equal.
  unfold norm_byte. destruct (Ascii.eqb_spec c percent_c) as [->|_]; [|done].
  cbn [andb] in *. change (url_kept percent_c) with false. cbv iota.
  destruct t as [|h [|l t]]; [done..|].
  by match goal with H : ishex h && ishex l = false |- _ => rewrite H end.
Qed.

Lemma norm_byte_unescape c t :
  unescape (norm_byte c +:+ t) encodePath = try u <- unescape t encodePath;; Ok (String c u).
Proof.
  pose proof (norm_byte_ok_all c) as Hok. unfold norm_byte_ok in Hok. unfold norm_byte. bool_prop.
  destruct (url_kept c) eqn:Ek.
  - unfold str1. rewrite sapp_cons, sapp_nil_l. rewrite andb_true_r in *. bool_prop.
    rewrite unescape_plain by done. rewrite (proj2 (text_mode_bad encodePath c c c eq_refl)).
    by rewrite andb_false_r.
  - unfold percent_byte, str1. rewrite !sapp_cons, sapp_nil_l, unescape_triple.
    repeat match goal with H : ishex _ = true |- _ => rewrite H end.
    assert (Hb : forall h l, bad_triple h l encodePath = false) by done. rewrite Hb. cbn [andb negb].
    by match goal with H : byte_of _ = c |- _ => rewrite H end.
Qed.

Lemma unescape_urlNormalizer s : url_plain s = true -> unescape (urlNormalizer s) encodePath = Ok s.
Proof.
  induction s as [|c s IH]; [done|]. intros Hp. apply urlNormalizer_plain in Hp as (-> & Hp & _).
  by rewrite norm_byte_unescape, IH.
Qed.

Lemma str_forall_app f s t : str_forall f (s +:+ t) = str_forall f s && str_forall f t.
Proof. induction s as [|c s IH]; [done|]. rewrite sapp_cons. cbn. by rewrite IH, andb_assoc. Qed.

Lemma urlNormalizer_printable s : url_plain s = true -> str_forall url_printable (urlNormalizer s) = true.
Proof.
  induction s as [|c s IH]; [done|]. intros Hp. apply urlNormalizer_plain in Hp as (-> & Hp & Hq & Hf).
  rewrite str_forall_app, IH, andb_true_r by done.
  pose proof (norm_byte_ok_all c) as Hok. unfold norm_byte_ok in Hok. unfold norm_byte.
  rewrite (proj2 (Ascii.eqb_neq _ _) Hq), (proj2 (Ascii.eqb_neq _ _) Hf) in Hok. cbn [orb] in Hok.
  destruct (url_kept c); bool_prop; cbn [str_forall str1 percent_byte].
  - by rewrite andb_true_r.
  - repeat match goal with H : url_printable _ = true |- _ => rewrite H end. reflexivity.
Qed.

Lemma urlFilter_rooted p : HasPrefix p slash = true -> urlFilter p = p.
Proof.
  intros [t ->]%HasPrefix_spec. unfold urlFilter, isSafeURL, Cut.
  unfold slash. rewrite sapp_cons, sapp_nil_l. cbn [IndexByte]. change (Ascii.eqb "/" ":") with false.
  cbv iota. destruct (IndexByte t ":") as [i|]; [|done]. cbn [fmap option_fmap option_map str_take].
  assert (Hc : Contains (String "/" (str_take i t)) "/" = true).
  { unfold Contains. cbn [Index HasPrefix]. by rewrite Ascii.eqb_refl, HasPrefix_nil. }
  by rewrite Hc.
Qed.

(** ** Following a link *)

Lemma printable_no_byte f s c : str_forall f s = true -> f c = false -> str_elem c s = false.
Proof.
  intros Hs Hc. induction s as [|d s IH]; [done|]. cbn [str_forall str_elem] in *. bool_prop.
  rewrite IH, orb_false_r by done. apply Ascii.eqb_neq. intros ->. congruence.
Qed.

Lemma printable_no_ctl s : str_forall url_printable s = true -> stringContainsCTLByte s = false.
Proof.
  induction s as [|c s IH]; [done|]. cbn [str_forall stringContainsCTLByte]. intros Hs. bool_prop.
  rewrite IH, orb_false_r by done. unfold url_printable, in_range in *. bool_prop. lia.
Qed.

(** A rooted reference without query and fragment is a path. *)
Lemma Parse_rooted s p :
  str_forall url_printable s = true -> HasPrefix s slash = true -> HasPrefix s "//" = false ->
  unescape s encodePath = Ok p ->
  exists raw, Parse s = Ok (set_Paths p raw empty_URL).
Proof.
  intros Hs Hr Hnn Hu.
  pose proof (printable_no_byte _ s "?" Hs eq_refl) as Hq.
  pose proof (printable_no_byte _ s "#" Hs eq_refl) as Hf.
  assert (Hcut : forall c, str_elem c s = false -> Cut s c = (s, EmptyString, false)).
  { intros c Hc. unfold Cut. by rewrite (proj2 (IndexByte_None s c) Hc). }
  unfold Parse. rewrite Hcut by done. unfold parse. rewrite printable_no_ctl by done.
  destruct s as [|c t]; [done|]. assert (Hc : c = "/"%char).
  { unfold slash in Hr. cbn [HasPrefix] in Hr. bool_prop. by symmetry. }
  subst c. assert (Hstar : String.eqb (String "/" t) "*" = false) by done. rewrite Hstar.
  assert (Hg : getScheme (String "/" t) = Ok (EmptyString, String "/" t)) by done.
  rewrite Hg. cbn [result_bind ToLower].
  assert (Hsq : split_query (String "/" t) = (String "/" t, false, EmptyString)).
  { unfold split_query. rewrite Hcut by done. destruct (HasSuffix (String "/" t) "?") eqn:E; [|done].
    apply HasSuffix_spec in E as [x Hx]. rewrite Hx, str_elem_app in Hq. cbn in Hq.
    by rewrite orb_true_r in Hq. }
  rewrite Hsq. change (HasPrefix (String "/" t) "/") with (HasPrefix (String "/" t) slash).
  rewrite Hr, Hnn, !andb_false_r. cbn [negb andb String.eqb]. unfold setPath. rewrite Hu.
  cbn [result_bind]. eexists. reflexivity.
Qed.
