(* ===== verification/Stream.v ===== *)
(** pkg/stream: the HTML streamer that rewrites links, and what it is made of.

    The tokenizer is third-party code; a tokenizer in mid-stream is represented by
    what its successive [Next] and [Token] calls return: tokens, then the error
    [Err()] reports ([Tokenizer]).  Tokens and [EscapeString] are those of the
    vendored golang.org/x/net/html. *)

From S2P Require Import Prelude GoStrings Url Util.

Local Open Scope go_scope.

(** ** Tokens *)

Inductive TokenType :=
  | ErrorToken | TextToken | StartTagToken | EndTagToken
  | SelfClosingTagToken | CommentToken | DoctypeToken
  | OtherToken (t : Z).                       (* a value outside the enumeration *)

#[export] Instance TokenType_eq_dec : EqDecision TokenType.
Proof. solve_decision. Defined.

Record Attribute := mk_Attribute { Namespace : string; Key : string; Val : string }.

(** [DataAtom] is the name of the atom; an atom is an index of its name. *)
Record Token := mk_Token {
  Type_ : TokenType;
  DataAtom : string;
  Data : string;
  Attr : list Attribute
}.

Definition set_Data (s : string) (t : Token) : Token :=
  mk_Token (Type_ t) (DataAtom t) s (Attr t).
Definition set_Attr (l : list Attribute) (t : Token) : Token :=
  mk_Token (Type_ t) (DataAtom t) (Data t) l.
Definition set_Val (s : string) (a : Attribute) : Attribute :=
  mk_Attribute (Namespace a) (Key a) s.

(** [html.EscapeString] *)
Definition escape_char (c : ascii) : string :=
  if Ascii.eqb c "&" then "&amp;"
  else if Ascii.eqb c "'" then "&#39;"
  else if Ascii.eqb c "<" then "&lt;"
  else if Ascii.eqb c ">" then "&gt;"
  else if Ascii.eqb c (ascii_of_nat 34) then "&#34;"
  else if Ascii.eqb c (ascii_of_nat 13) then "&#13;"
  else str1 c.

Fixpoint EscapeString (s : string) : string :=
  match s with
  | EmptyString => EmptyString
  | String c s => escape_char c +:+ EscapeString s
  end.

(** The closure [tagString] of [tokenToString]. *)
Definition attr_string (a : Attribute) : string :=
  " " +:+ Key a +:+ "=" +:+ quote +:+ EscapeString (Val a) +:+ quote.

Definition tagString (t : Token) : string :=
  if (length (Attr t) =? 0)%nat then Data t
  else Data t +:+ str_concat (attr_string <$> Attr t).

Definition token_number (t : TokenType) : Z :=
  match t with
  | ErrorToken => 0 | TextToken => 1 | StartTagToken => 2 | EndTagToken => 3
  | SelfClosingTagToken => 4 | CommentToken => 5 | DoctypeToken => 6 | OtherToken t => t
  end.

Definition tokenToString (t : Token) : string :=
  match Type_ t with
  | ErrorToken => EmptyString
  | TextToken => Data t
  | StartTagToken => "<" +:+ tagString t +:+ ">"
  | EndTagToken => "</" +:+ tagString t +:+ ">"
  | SelfClosingTagToken => "<" +:+ tagString t +:+ "/>"
  | CommentToken => "<!--" +:+ Data t +:+ "-->"
  | DoctypeToken => "<!DOCTYPE " +:+ Data t +:+ ">"
  | OtherToken n => "Invalid(" +:+ Itoa n +:+ ")"
  end.

(** ** The streamer *)

Record Tokenizer := mk_Tokenizer { z_tokens : list Token; z_err : string }.

(** [R] and [ModifyToken] are the tokenizer's source and the function [modify];
    [noEscape] is an int that tags move by one. *)
Record HTMLStreamer := mk_HTMLStreamer {
  buffer : string;
  z : Tokenizer;
  noEscape : Z
}.

Definition raw_atoms : list string := ["textarea"; "title"; "script"; "style"].

Section Streamer.
Context (modify : Token -> Token).

(** The [switch token.DataAtom]: the depth of elements whose text stays as is. *)
Definition next_noEscape (token : Token) (n : Z) : Z :=
  if bool_decide (DataAtom token ∈ raw_atoms) then
    match Type_ token with
    | StartTagToken => n + 1
    | EndTagToken => n - 1
    | _ => n
    end
  else n.

(** A token that has been read: the text it is sent as and the depth after it. *)
Definition render_token (token : Token) (noEscape : Z) : string * Z :=
  let token := modify token in
  let noEscape := next_noEscape token noEscape in
  let token :=
    if bool_decide (Type_ token = TextToken) && (noEscape <=? 0)%Z
    then set_Data (EscapeString (Data token)) token else token in
  (tokenToString token, noEscape).

(** [copy(p, h.buffer)] and the update of the buffer. *)
Definition read_buffer (h : HTMLStreamer) (n : nat)
    : HTMLStreamer * (string * option string) :=
  (mk_HTMLStreamer (str_drop n (buffer h)) (z h) (noEscape h),
   (str_take n (buffer h), None)).

(** [HTMLStreamer.Read] with a buffer of [n] bytes: the bytes read, the error. *)
Definition Read (h : HTMLStreamer) (n : nat) : HTMLStreamer * (string * option string) :=
  if (String.length (buffer h) =? 0)%nat then
    match z_tokens (z h) with
    | [] => (h, (EmptyString, Some (z_err (z h))))
    | token :: tokens =>
        let '(s, d) := render_token token (noEscape h) in
        read_buffer (mk_HTMLStreamer s (mk_Tokenizer tokens (z_err (z h))) d) n
    end
  else read_buffer h n.

(** The pieces the tokens are sent as, starting at depth [d]. *)
Fixpoint rendered (tokens : list Token) (d : Z) : list string :=
  match tokens with
  | [] => []
  | token :: tokens =>
      let '(s, d) := render_token token d in s :: rendered tokens d
  end.

(** Successive reads with buffers of the given sizes, up to the first error: the
    bytes obtained and the error. *)
Fixpoint reads (h : HTMLStreamer) (sizes : list nat) : string * option string :=
  match sizes with
  | [] => (EmptyString, None)
  | n :: sizes =>
      let '(h, (s, err)) := Read h n in
      match err with
      | Some e => (s, Some e)
      | None => let '(t, err) := reads h sizes in (s +:+ t, err)
      end
  end.

(** What is still to be read. *)
Definition remaining (h : HTMLStreamer) : string :=
  buffer h +:+ str_concat (rendered (z_tokens (z h)) (noEscape h)).
End Streamer.

(** A streamer on a fresh tokenizer. *)
Definition new_HTMLStreamer (tokens : list Token) (err : string) : HTMLStreamer :=
  mk_HTMLStreamer EmptyString (mk_Tokenizer tokens err) 0.

(** ** Rewriting links *)

(** [join] of [updateLocation] (and [singleJoiningSlash]). *)
Definition join_slash (a b : string) : string :=
  let aslash := HasSuffix a slash in
  let bslash := HasPrefix b slash in
  if aslash && bslash then a +:+ str_drop 1 b
  else if negb aslash && negb bslash then a +:+ slash +:+ b
  else a +:+ b.

Definition updateLocation (loc hostname hostPath targetPath : string) : string :=
  match Parse loc with
  | Err _ => loc
  | Ok u =>
      if (0 <? String.length (Host u))%nat && negb (String.eqb (Host u) hostname) then loc
      else
        let loc := if (0 <? String.length (Host u))%nat then RequestURI u else loc in
        if HasPrefix loc slash then join_slash hostPath (TrimPrefix loc targetPath) else loc
  end.

Definition link_keys : list string := ["href"; "src"; "action"; "formaction"].

(** [modifyToken] of [NewPathPrefixHTMLStreamer]. *)
Definition modifyToken (hostname hostPath targetPath : string) (token : Token) : Token :=
  if negb (bool_decide (Type_ token = StartTagToken)) &&
     negb (bool_decide (Type_ token = SelfClosingTagToken)) then token
  else
    set_Attr ((fun a =>
      if bool_decide (Key a ∈ link_keys)
      then set_Val (updateLocation (Val a) hostname hostPath targetPath) a else a)
      <$> Attr token) token.

(** ** Lemmas: reading *)

Section Reading.
Context (modify : Token -> Token).
Implicit Types (h : HTMLStreamer) (sizes : list nat).

(** The work left: bytes and tokens. *)
Definition left_over h : nat :=
  String.length (remaining modify h) + length (z_tokens (z h)).

Lemma read_buffer_step h n :
  let '(h', (s, err)) := read_buffer h n in
  match err with
  | Some _ => False
  | None => remaining modify h = s +:+ remaining modify h' /\ z_err (z h') = z_err (z h) /\
      (1 <= n -> left_over h' < String.length (remaining modify h) + S (length (z_tokens (z h))))
  end.
Proof.
  cbn [read_buffer].
  assert (Hr : remaining modify h = str_take n (buffer h) +:+
    remaining modify (mk_HTMLStreamer (str_drop n (buffer h)) (z h) (noEscape h))).
  { unfold remaining. cbn [buffer z noEscape]. by rewrite sapp_assoc, stake_drop_app. }
  split; [done|]. split; [done|]. intros _. unfold left_over.
  apply (f_equal String.length) in Hr. rewrite slength_app in Hr. cbn [z z_tokens]. lia.
Qed.

Lemma Read_spec h n :
  let '(h', (s, err)) := Read modify h n in
  match err with
  | Some e => s = EmptyString /\ remaining modify h = EmptyString /\ e = z_err (z h)
  | None => remaining modify h = s +:+ remaining modify h' /\ z_err (z h') = z_err (z h) /\
      (1 <= n -> left_over h' < left_over h)
  end.
Proof.
  unfold Read. destruct (String.length (buffer h) =? 0)%nat eqn:Eb.
  - apply Nat.eqb_eq in Eb. assert (Hb : buffer h = EmptyString) by (by destruct (buffer h)).
    destruct (z_tokens (z h)) as [|t ts] eqn:Ez.
    { unfold remaining. by rewrite Hb, Ez. }
    destruct (render_token modify t (noEscape h)) as [s d] eqn:Er.
    set (h1 := mk_HTMLStreamer s (mk_Tokenizer ts (z_err (z h))) d).
    assert (Hrem : remaining modify h = remaining modify h1).
    { unfold remaining. rewrite Hb, Ez, sapp_nil_l. cbn [rendered]. by rewrite Er. }
    assert (Hlen : length (z_tokens (z h)) = S (length (z_tokens (z h1)))) by (by rewrite Ez).
    unfold left_over. rewrite Hrem, Hlen. apply (read_buffer_step h1 n).
  - apply Nat.eqb_neq in Eb. pose proof (read_buffer_step h n) as Hr.
    destruct (read_buffer h n) as [h' [s err]] eqn:E. injection E as <- <- <-.
    destruct Hr as (Hr & Hz & _). split; [done|]. split; [done|]. intros Hn.
    unfold left_over. cbn [z z_tokens]. unfold remaining. cbn [buffer z noEscape].
    rewrite !slength_app, slength_drop. lia.
Qed.

Lemma reads_prefix sizes h :
  match reads modify h sizes with
  | (s, Some e) => s = remaining modify h /\ e = z_err (z h)
  | (s, None) => exists rest, remaining modify h = s +:+ rest
  end.
Proof.
  revert h. induction sizes as [|n sizes IH]; intros h; cbn [reads].
  { exists (remaining modify h). by rewrite sapp_nil_l. }
  pose proof (Read_spec h n) as Hr. destruct (Read modify h n) as [h' [s [e|]]].
  - by destruct Hr as (-> & -> & ->).
  - destruct Hr as (Hr & Hz & _). specialize (IH h'). rewrite Hr, <- Hz.
    destruct (reads modify h' sizes) as [t [e|]].
    + destruct IH as [-> ->]. done.
    + destruct IH as [rest ->]. exists rest. by rewrite sapp_assoc.
Qed.

Lemma reads_end sizes h :
  Forall (fun n => 1 <= n) sizes -> left_over h < length sizes ->
  exists s, reads modify h sizes = (s, Some (z_err (z h))).
Proof.
  intros Hs. revert h. induction Hs as [|n sizes Hn Hs IH]; intros h Hl; cbn [length reads] in *; [lia|].
  pose proof (Read_spec h n) as Hr. destruct (Read modify h n) as [h' [s [e|]]].
  - destruct Hr as (_ & _ & ->). by exists s.
  - destruct Hr as (_ & Hz & Hlt). specialize (Hlt Hn).
    destruct (IH h') as [t Ht]; [lia|]. rewrite Ht, Hz. by eexists.
Qed.
End Reading.

(** ** Lemmas: escaping *)

Lemma escape_char_cases c :
  escape_char c = str1 c /\ c <> "&"%char \/ exists s, escape_char c = String "&" s.
Proof.
  unfold escape_char.
  destruct (Ascii.eqb c "&") eqn:E0; [right; by eexists|].
  destruct (Ascii.eqb c "'"); [right; by eexists|].
  destruct (Ascii.eqb c "<"); [right; by eexists|].
  destruct (Ascii.eqb c ">"); [right; by eexists|].
  destruct (Ascii.eqb c (ascii_of_nat 34)); [right; by eexists|].
  destruct (Ascii.eqb c (ascii_of_nat 13)); [right; by eexists|].
  bool_prop. by left.
Qed.

(** The escapes form a prefix code. *)
Lemma escape_char_prefix c d s t :
  escape_char c +:+ s = escape_char d +:+ t -> c = d /\ s = t.
Proof.
  unfold escape_char.
  repeat match goal with
  | |- context [Ascii.eqb ?x ?y] => destruct (Ascii.eqb_spec x y)
  end; subst; unfold str1; rewrite ?sapp_cons, ?sapp_nil_l; intros Heq;
    try (injection Heq as Heq; subst; done);
    try (injection Heq as ??; subst; done).
Qed.

Lemma EscapeString_inj s t : EscapeString s = EscapeString t -> s = t.
Proof.
  revert t. induction s as [|c s IH]; intros [|d t]; cbn [EscapeString]; intros Heq; [done| | |].
  - exfalso. destruct (escape_char_cases d) as [[E _]|[x E]]; rewrite E in Heq;
      unfold str1 in Heq; rewrite sapp_cons in Heq; done.
  - exfalso. destruct (escape_char_cases c) as [[E _]|[x E]]; rewrite E in Heq;
      unfold str1 in Heq; rewrite sapp_cons in Heq; done.
  - apply escape_char_prefix in Heq as [-> Heq]. f_equal. by apply IH.
Qed.

(** Characters that would end a quoted attribute value or open a tag. *)
Definition markup_chars : list ascii := ["'"; "<"; ">"; ascii_of_nat 34]%char.

Lemma escape_char_no_markup m c : m ∈ markup_chars -> str_elem m (escape_char c) = false.
Proof.
  intros Hm.
  assert (Hms : m = "'"%char \/ m = "<"%char \/ m = ">"%char \/ m = ascii_of_nat 34).
  { unfold markup_chars in Hm. set_solver. }
  clear Hm. destruct Hms as [-> | [-> | [-> | ->]]]; unfold escape_char;
    repeat (match goal with
            | |- context [if Ascii.eqb ?x ?y then _ else _] =>
                destruct (Ascii.eqb_spec x y); [by subst|]
            end);
    cbn; rewrite orb_false_r; by apply Ascii.eqb_neq.
Qed.

Lemma EscapeString_no_markup m s : m ∈ markup_chars -> str_elem m (EscapeString s) = false.
Proof.
  intros Hm. induction s as [|c s IH]; [done|]. cbn [EscapeString].
  by rewrite str_elem_app, escape_char_no_markup.
Qed.

(** ** Lemmas: rendered tags *)

(** Two texts cut at the first delimiter. *)
Lemma before_delim (D : list ascii) a a' c c' t t' :
  (forall d, d ∈ D -> str_elem d a = false) -> (forall d, d ∈ D -> str_elem d a' = false) ->
  c ∈ D -> c' ∈ D -> a +:+ String c t = a' +:+ String c' t' -> a = a' /\ c = c' /\ t = t'.
Proof.
  intros Ha Ha' Hc Hc'. revert a' Ha Ha'.
  assert (Hcl : forall b (d : ascii) u, (forall e, e ∈ D -> str_elem e (String d u) = false) ->
    b ∈ D -> d <> b /\ forall e, e ∈ D -> str_elem e u = false).
  { intros b d u Hd Hb. split.
    - intros ->. specialize (Hd b Hb). cbn [str_elem] in Hd. rewrite Ascii.eqb_refl in Hd. done.
    - intros e He. specialize (Hd e He). cbn [str_elem] in Hd. by bool_prop. }
  induction a as [|d a IH]; intros [|d' a'] Ha Ha' Heq; rewrite ?sapp_nil_l, ?sapp_cons in Heq;
    injection Heq as Hd Heq.
  - done.
  - destruct (Hcl c d' a' Ha' Hc) as [Hne _]. congruence.
  - destruct (Hcl c' d a Ha Hc') as [Hne _]. congruence.
  - destruct (Hcl c d a Ha Hc) as [_ Ha1]. destruct (Hcl c d' a' Ha' Hc) as [_ Ha1'].
    destruct (IH a' Ha1 Ha1' Heq) as (-> & -> & ->). by rewrite Hd.
Qed.

(** Characters that end the name of a tag or of an attribute. *)
Definition tag_delims : list ascii := [" "; "="; ">"; "/"; "<"; ascii_of_nat 34]%char.

Definition tag_name (s : string) : Prop := forall c, c ∈ tag_delims -> str_elem c s = false.

(** The tokens of tags whose names a tag can hold. *)
Definition tag_token_ok (t : Token) : Prop :=
  (Type_ t = StartTagToken \/ Type_ t = EndTagToken \/ Type_ t = SelfClosingTagToken) /\
  tag_name (Data t) /\ Data t <> EmptyString /\ Forall (fun a => tag_name (Key a)) (Attr t).

Definition key_val (a : Attribute) : string * string := (Key a, Val a).

Definition tag_end (ty : TokenType) : string :=
  if decide (ty = SelfClosingTagToken) then "/>" else ">".

Lemma tag_end_cases ty : tag_end ty = ">" \/ tag_end ty = "/>".
Proof. unfold tag_end. destruct (decide _); auto. Qed.

Definition attrs_text (l : list Attribute) (rest : string) : string :=
  str_concat (attr_string <$> l) +:+ rest.

Lemma attrs_text_cons a l rest :
  attrs_text (a :: l) rest =
  String " " (Key a +:+ String "=" (String (ascii_of_nat 34)
    (EscapeString (Val a) +:+ String (ascii_of_nat 34) (attrs_text l rest)))).
Proof.
  unfold attrs_text, attr_string, quote, str1. cbn [fmap list_fmap str_concat].
  rewrite <- !sapp_assoc, !sapp_cons, !sapp_nil_l. by rewrite <- ?sapp_assoc.
Qed.

Lemma attrs_text_inj l l' ty ty' :
  Forall (fun a => tag_name (Key a)) l -> Forall (fun a => tag_name (Key a)) l' ->
  attrs_text l (tag_end ty) = attrs_text l' (tag_end ty') ->
  key_val <$> l = key_val <$> l' /\ tag_end ty = tag_end ty'.
Proof.
  intros Hl. revert l'. induction Hl as [|a l Ha Hl IH]; intros l' Hl' Heq.
  - destruct l' as [|a' l']; [done|]. rewrite attrs_text_cons in Heq.
    unfold attrs_text in Heq. cbn [fmap list_fmap str_concat] in Heq. rewrite sapp_nil_l in Heq.
    by destruct (tag_end_cases ty) as [E|E]; rewrite E in Heq.
  - destruct l' as [|a' l'].
    { rewrite attrs_text_cons in Heq. unfold attrs_text in Heq at 2.
      cbn [fmap list_fmap str_concat] in Heq. rewrite sapp_nil_l in Heq.
      by destruct (tag_end_cases ty') as [E|E]; rewrite E in Heq. }
    apply Forall_cons in Hl' as [Ha' Hl']. rewrite !attrs_text_cons in Heq. injection Heq as Heq.
    apply (before_delim tag_delims) in Heq as (Hk & _ & Heq);
      [|done|done|unfold tag_delims; set_solver..].
    injection Heq as Heq.
    apply (before_delim [ascii_of_nat 34]) in Heq as (Hv & _ & Heq);
      [|intros d Hd; apply EscapeString_no_markup; unfold markup_chars; set_solver..|by left|by left].
    apply EscapeString_inj in Hv. destruct (IH l' Hl' Heq) as [Hm He].
    split; [|done]. cbn [fmap list_fmap]. unfold key_val at 1 3. by rewrite Hk, Hv, Hm.
Qed.

Lemma tokenToString_tag t :
  tag_token_ok t ->
  tokenToString t = String "<" ((if decide (Type_ t = EndTagToken) then "/" else EmptyString) +:+
    Data t +:+ attrs_text (Attr t) (tag_end (Type_ t))).
Proof.
  intros (Hty & _). unfold tokenToString, tag_end, attrs_text.
  assert (Hs : tagString t = Data t +:+ str_concat (attr_string <$> Attr t)).
  { unfold tagString. destruct (Attr t) as [|a l]; [|done]. cbn. by rewrite sapp_nil_r. }
  destruct Hty as [-> | [-> | ->]]; rewrite Hs; cbn [decide]; rewrite !sapp_cons, ?sapp_nil_l, ?sapp_assoc; done.
Qed.

(** ** Lemmas: links *)

(** What serving a path does with a prefix: [handlePathCombinations] and a proxy's
    target see the path without it, and always rooted. *)
Definition unprefix (prefix p : string) : string :=
  let t := TrimPrefix p prefix in
  if HasPrefix t slash then t else slash +:+ t.

Lemma HasPrefix_slash_drop b :
  HasPrefix b slash = true -> b = slash +:+ str_drop 1 b.
Proof. intros [t ->]%HasPrefix_spec. unfold slash. by rewrite sapp_cons, sapp_nil_l. Qed.

Lemma join_slash_prefix a b : HasPrefix (join_slash a b) a = true.
Proof.
  unfold join_slash. destruct (HasSuffix a slash), (HasPrefix b slash); cbn; apply HasPrefix_app.
Qed.

(** Joining a path under a prefix, then removing the prefix, gives the path back. *)
Lemma unprefix_join_slash a b :
  HasSuffix a slash && HasPrefix b "//" = false ->
  unprefix a (join_slash a b) = (if HasPrefix b slash then b else slash +:+ b).
Proof.
  intros Hs. unfold join_slash, unprefix.
  destruct (HasSuffix a slash) eqn:Ea, (HasPrefix b slash) eqn:Eb; cbn [andb negb];
    rewrite TrimPrefix_app; cbn [andb] in Hs; rewrite ?Eb; try done.
  - pose proof (HasPrefix_slash_drop b Eb) as Hb.
    destruct (HasPrefix (str_drop 1 b) slash) eqn:E2; [|by rewrite <- Hb].
    exfalso. apply HasPrefix_spec in E2 as [t Ht]. rewrite Ht in Hb. subst b.
    rewrite sapp_assoc in Hs. change (slash +:+ slash) with "//" in Hs.
    by rewrite HasPrefix_app in Hs.
  - by rewrite (HasPrefix_app slash b).
Qed.

(** ** Lemmas: raw text elements *)

(** Whether [f] leaves alone everything the streamer's own logic looks at. *)
Definition keeps_tags (f : Token -> Token) : Prop :=
  forall t, Type_ (f t) = Type_ t /\ DataAtom (f t) = DataAtom t.

Lemma modifyToken_keeps hostname hostPath targetPath :
  keeps_tags (modifyToken hostname hostPath targetPath).
Proof. intros t. unfold modifyToken. by case_match. Qed.

(** Tokens that do not open or close an element whose text is sent as it is. *)
Definition plain_token (t : Token) : Prop :=
  DataAtom t ∉ raw_atoms \/ (Type_ t <> StartTagToken /\ Type_ t <> EndTagToken).

Lemma next_noEscape_plain t d : plain_token t -> next_noEscape t d = d.
Proof.
  intros [Ht|[H1 H2]]; unfold next_noEscape.
  - by rewrite bool_decide_eq_false_2.
  - case_bool_decide; [|done]. by destruct (Type_ t).
Qed.

Lemma rendered_plain_inside f body d rest :
  keeps_tags f -> (0 < d)%Z -> Forall plain_token body ->
  rendered f (body ++ rest) d = (tokenToString <$> (f <$> body)) ++ rendered f rest d.
Proof.
  intros Hf Hd. induction 1 as [|t body Ht _ IH]; [done|].
  cbn [app rendered fmap list_fmap]. unfold render_token.
  assert (Hp : plain_token (f t)).
  { destruct (Hf t) as [E1 E2]. unfold plain_token. by rewrite E1, E2. }
  rewrite next_noEscape_plain by done.
  rewrite (proj2 (Z.leb_gt _ _)) by lia. rewrite andb_false_r. by rewrite IH.
Qed.

(** Text outside such elements. *)
Lemma rendered_plain_outside f body d rest :
  keeps_tags f -> (d <= 0)%Z -> Forall plain_token body ->
  rendered f (body ++ rest) d =
  ((fun t => tokenToString (if bool_decide (Type_ t = TextToken)
     then set_Data (EscapeString (Data (f t))) (f t) else f t)) <$> body) ++ rendered f rest d.
Proof.
  intros Hf Hd. induction 1 as [|t body Ht _ IH]; [done|].
  cbn [app rendered fmap list_fmap]. unfold render_token. destruct (Hf t) as [E1 E2].
  assert (Hp : plain_token (f t)) by (unfold plain_token; by rewrite E1, E2).
  rewrite next_noEscape_plain by done.
  rewrite (proj2 (Z.leb_le _ _)) by lia. rewrite andb_true_r, IH. by rewrite E1.
Qed.

Lemma rendered_raw_tag f t d rest :
  keeps_tags f -> DataAtom t ∈ raw_atoms -> Type_ t = StartTagToken \/ Type_ t = EndTagToken ->
  rendered f (t :: rest) d =
  tokenToString (f t) ::
  rendered f rest (if bool_decide (Type_ t = StartTagToken) then d + 1 else d - 1)%Z.
Proof.
  intros Hf Ha Ht. cbn [rendered]. unfold render_token, next_noEscape.
  destruct (Hf t) as [-> ->]. rewrite (bool_decide_eq_true_2 (DataAtom t ∈ raw_atoms)) by done.
  destruct Ht as [-> | ->]; done.
Qed.

(** ** Properties *)

(** C32. Reading the rewritten document gives the same bytes whatever buffers the
    caller reads with: what has been read is always a prefix of the rendering of the
    tokens in order; an error reported is the tokenizer's, after the whole rendering;
    and with non-empty buffers the end is reached within one read per byte and token. *)
Theorem HTMLStreamer_Read_any_buffers modify tokens err sizes :
  let text := str_concat (rendered modify tokens 0) in
  match reads modify (new_HTMLStreamer tokens err) sizes with
  | (s, Some e) => s = text /\ e = err
  | (s, None) => (exists rest, text = s +:+ rest) /\
      (Forall (fun n => 1 <= n) sizes -> length sizes <= String.length text + length tokens)
  end.
Proof.
  cbv zeta. pose proof (reads_prefix modify sizes (new_HTMLStreamer tokens err)) as Hp.
  pose proof (reads_end modify sizes (new_HTMLStreamer tokens err)) as He.
  unfold left_over, remaining in *. cbn [buffer z noEscape z_tokens z_err new_HTMLStreamer] in *.
  rewrite !sapp_nil_l in *.
  destruct (reads modify _ sizes) as [s [e|]]; [done|]. split; [done|]. intros Hs.
  destruct (decide (length sizes <= String.length (str_concat (rendered modify tokens 0)) + length tokens));
    [done|]. destruct (He Hs) as [t Ht]; [lia|]. done.
Qed.

(** C33. Rendering tags loses nothing and lets nothing escape: two tag tokens, with names
    a tag can hold and any attribute values, that are rendered alike are of the same
    kind and have the same name and the same attributes in the same order; and the
    attribute values hold no character that would end them or open a tag. *)
Theorem tag_rendering_faithful t t' :
  tag_token_ok t -> tag_token_ok t' -> tokenToString t = tokenToString t' ->
  Type_ t = Type_ t' /\ Data t = Data t' /\ key_val <$> Attr t = key_val <$> Attr t' /\
  forall a m, a ∈ Attr t -> m ∈ markup_chars -> str_elem m (EscapeString (Val a)) = false.
Proof.
  intros Ht Ht' Heq. rewrite !tokenToString_tag in Heq by done.
  destruct Ht as (Hty & Hd & Hne & Hk), Ht' as (Hty' & Hd' & Hne' & Hk').
  injection Heq as Heq.
  assert (Hend : Type_ t = EndTagToken <-> Type_ t' = EndTagToken).
  { destruct (Data t) as [|c s] eqn:E; [done|]. destruct (Data t') as [|c' s'] eqn:E'; [done|].
    specialize (Hd "/"%char ltac:(unfold tag_delims; set_solver)).
    specialize (Hd' "/"%char ltac:(unfold tag_delims; set_solver)). cbn [str_elem] in Hd, Hd'.
    bool_prop. rewrite !sapp_cons in Heq.
    destruct (decide (Type_ t = EndTagToken)), (decide (Type_ t' = EndTagToken));
      rewrite ?sapp_cons, ?sapp_nil_l in Heq; [done| | |done]; injection Heq as Hc _; congruence. }
  assert (Heq' : Data t +:+ attrs_text (Attr t) (tag_end (Type_ t)) =
                 Data t' +:+ attrs_text (Attr t') (tag_end (Type_ t'))).
  { destruct (decide (Type_ t = EndTagToken)), (decide (Type_ t' = EndTagToken)); [|tauto..|].
    - unfold str1 in Heq. by apply (sapp_inj_l "/") in Heq.
    - by rewrite !sapp_nil_l in Heq. }
  assert (Hhead : forall l ty, exists c u, attrs_text l (tag_end ty) = String c u /\ c ∈ tag_delims).
  { intros [|a l] ty; [|rewrite attrs_text_cons; do 2 eexists; split; [done|]; by left].
    unfold attrs_text. cbn [fmap list_fmap str_concat]. rewrite sapp_nil_l.
    destruct (tag_end_cases ty) as [E|E]; rewrite E; do 2 eexists; (split; [done|]);
      unfold tag_delims; set_solver. }
  destruct (Hhead (Attr t) (Type_ t)) as (c & u & Hc & Hcd).
  destruct (Hhead (Attr t') (Type_ t')) as (c' & u' & Hc' & Hcd').
  rewrite Hc, Hc' in Heq'.
  apply (before_delim tag_delims) in Heq' as (Hdata & -> & ->); [|done..].
  rewrite <- Hc' in Hc. destruct (attrs_text_inj _ _ _ _ Hk Hk' Hc) as [Hkv He].
  split; [|split; [done|split; [done|intros a m _; apply EscapeString_no_markup]]].
  destruct Hty as [E|[E|E]], Hty' as [E'|[E'|E']]; rewrite E, E' in He, Hend |- *; try done;
    exfalso; naive_solver.
Qed.

(** Links keep their meaning: [updateLocation] leaves alone what it cannot parse,
    links to another host, and relative links; any other link (with its origin
    dropped when it names this host) is moved under [hostPath], and serving the moved
    link, which strips [hostPath], asks the target for what it named, relative to
    [targetPath]. *)
Theorem updateLocation_routes_back loc hostname hostPath targetPath :
  let loc' := updateLocation loc hostname hostPath targetPath in
  match Parse loc with
  | Err _ => loc' = loc
  | Ok u =>
      let base := if (0 <? String.length (Host u))%nat then RequestURI u else loc in
      if (0 <? String.length (Host u))%nat && negb (String.eqb (Host u) hostname)
      then loc' = loc
      else if HasPrefix base slash
      then HasPrefix loc' hostPath = true /\
           (HasSuffix hostPath slash && HasPrefix (TrimPrefix base targetPath) "//" = false ->
            unprefix hostPath loc' = unprefix targetPath base)
      else loc' = base
  end.
Proof.
  cbv zeta. unfold updateLocation. destruct (Parse loc) as [u|e]; [|done].
  destruct ((0 <? String.length (Host u))%nat && negb (String.eqb (Host u) hostname)); [done|].
  destruct (HasPrefix (if (0 <? String.length (Host u))%nat then RequestURI u else loc) slash); [|done].
  split; [apply join_slash_prefix|]. intros Hs. rewrite unprefix_join_slash by done. done.
Qed.

(** An element with raw text ([script], [style], [title], [textarea]) goes
    through with its text untouched, and what follows it is rendered at the depth
    that was there before it. *)
Theorem raw_element_verbatim hostname hostPath targetPath open close body rest d :
  let f := modifyToken hostname hostPath targetPath in
  (0 <= d)%Z -> DataAtom open ∈ raw_atoms -> Type_ open = StartTagToken ->
  DataAtom close ∈ raw_atoms -> Type_ close = EndTagToken ->
  Forall (fun t => Type_ t = TextToken) body ->
  rendered f (open :: body ++ close :: rest) d =
  tokenToString (f open) :: (Data <$> body) ++ tokenToString close :: rendered f rest d.
Proof.
  intros f Hd Ho Hot Hc Hct Hb.
  assert (Hplain : Forall plain_token body).
  { eapply Forall_impl; [done|]. intros t Ht. right. by rewrite Ht. }
  assert (Hf : keeps_tags f) by apply modifyToken_keeps.
  rewrite rendered_raw_tag, Hot by auto. rewrite bool_decide_eq_true_2 by done.
  rewrite rendered_plain_inside by (done || lia). rewrite rendered_raw_tag, Hct by auto.
  rewrite bool_decide_eq_false_2 by done. replace (d + 1 - 1)%Z with d by lia.
  assert (Hfc : f close = close) by (unfold f, modifyToken; by rewrite Hct).
  rewrite Hfc. f_equal. f_equal. clear - Hb. induction Hb as [|t body Ht _ IH]; [done|].
  cbn [fmap list_fmap]. f_equal; [|done].
  assert (Hft : f t = t) by (unfold f, modifyToken; by rewrite Ht).
  rewrite Hft. unfold tokenToString. by rewrite Ht.
Qed.

(** ** Witnesses *)

Definition text_token (s : string) : Token := mk_Token TextToken EmptyString s [].
Definition tag_token (ty : TokenType) (name : string) : Token := mk_Token ty name name [].

Lemma raw_element_verbatim_witness :
  let f := modifyToken "example.com" "/app" "" in
  rendered f [tag_token StartTagToken "script"; text_token "a < b";
              tag_token EndTagToken "script"; text_token "a < b"] 0 =
  ["<script>"; "a < b"; "</script>"; "a &lt; b"].
Proof.
  assert (Hs : DataAtom (tag_token StartTagToken "script") ∈ raw_atoms)
    by (cbn; unfold raw_atoms; set_solver).
  pose proof (raw_element_verbatim "example.com" "/app" "" (tag_token StartTagToken "script")
    (tag_token EndTagToken "script") [text_token "a < b"] [text_token "a < b"] 0
    ltac:(lia) Hs eq_refl Hs eq_refl ltac:(by repeat constructor)) as Hr.
  cbv zeta. etransitivity; [exact Hr | vm_compute; reflexivity].
Defined.

Lemma tag_rendering_faithful_witness :
  let t atom ns := mk_Token StartTagToken atom "a"
    [mk_Attribute ns "href" ("/?q=<b>&c='" +:+ quote); mk_Attribute "" "id" "x"] in
  tokenToString (t "a" "") = "<a href=" +:+ quote +:+ "/?q=&lt;b&gt;&amp;c=&#39;&#34;" +:+ quote +:+
                             " id=" +:+ quote +:+ "x" +:+ quote +:+ ">" /\
  key_val <$> Attr (t "a" "") = key_val <$> Attr (t "" "svg").
Proof.
  cbv zeta. split; [vm_compute; reflexivity|].
  assert (Hok : forall atom ns, tag_token_ok (mk_Token StartTagToken atom "a"
    [mk_Attribute ns "href" ("/?q=<b>&c='" +:+ quote); mk_Attribute "" "id" "x"])).
  { intros atom ns. split; [by left|]. split; [|split; [done|]]; [|repeat constructor];
      intros c Hc; unfold tag_delims in Hc; repeat (apply elem_of_cons in Hc as [->|Hc]; [reflexivity|]);
      by apply elem_of_nil in Hc. }
  exact (proj1 (proj2 (proj2 (tag_rendering_faithful _ _ (Hok "a" "") (Hok "" "svg") eq_refl)))).
Defined.
