(* ===== verification/PrefixWriter.v ===== *)
(** pkg/stream/pathprefixwriter.go: the response writer that moves the links of an
    HTML response under a path prefix.

    HTML goes through a pipe to a goroutine that copies the rewritten document to the
    wrapped writer.  The pipe is given twice: sequentially ([with_prefix_writer], the
    document is copied on [Close]), which the handlers are verified with, and as a
    transition system [pstep] of the handler's goroutine and the copying one, where a write
    to the pipe waits for its reader and [Close] is a sequence of statements;
    [PrefixWriterProps] proves that every schedule that completes agrees with the
    sequential one, and which schedules complete. *)

From S2P Require Import Prelude GoStrings Url Http Stream.

Local Open Scope go_scope.
Local Open Scope prog_scope.

(** ** The copied document *)

(** The buffer of [io.Copy]. *)
Definition copy_buf : nat := Pos.to_nat 32768.

Fixpoint pieces (fuel n : nat) (s : string) : list string :=
  match fuel with
  | O => []
  | S fuel =>
      if (String.length s =? 0)%nat then []
      else str_take n s :: pieces fuel n (str_drop n s)
  end.

(** What the reads of [io.Copy] return for these tokens: each token's text in pieces
    of at most the buffer's size. *)
Definition stream_chunks (modify : Token -> Token) (tokens : list Token) : list string :=
  flat_map (fun s => pieces (String.length s) copy_buf s) (rendered modify tokens 0).

(** ** The writer *)

(** [piped] is what has been written to the pipe. *)
Record pathPrefixWriter := mk_pathPrefixWriter {
  hostPath : string;
  targetPath : string;
  hostname : string;
  isHTML : bool;
  headerSent : bool;
  piped : string
}.

Definition set_headerSent (w : pathPrefixWriter) : pathPrefixWriter :=
  mk_pathPrefixWriter (hostPath w) (targetPath w) (hostname w) (isHTML w) true (piped w).
Definition set_isHTML (w : pathPrefixWriter) : pathPrefixWriter :=
  mk_pathPrefixWriter (hostPath w) (targetPath w) (hostname w) true (headerSent w) (piped w).
Definition pipe_write (p : string) (w : pathPrefixWriter) : pathPrefixWriter :=
  mk_pathPrefixWriter (hostPath w) (targetPath w) (hostname w) (isHTML w) (headerSent w)
    (piped w +:+ p).

Definition NewPathPrefixHTMLResponseWriter (hostname hostPath targetPath : string)
    : pathPrefixWriter :=
  mk_pathPrefixWriter hostPath targetPath hostname false false EmptyString.

(** The token function of the streamer this writer reads its pipe through. *)
Definition ppw_modify (w : pathPrefixWriter) : Token -> Token :=
  modifyToken (hostname w) (hostPath w) (targetPath w).

Section PrefixWriter.
(** [http.DetectContentType]; the tokens of a complete document. *)
Context (DetectContentType : string -> string).
Context (tokenize : string -> list Token).

Definition ppw_WriteHeader (w : pathPrefixWriter) (statusCode : Z) : prog pathPrefixWriter :=
  let w := set_headerSent w in
  let* h := p_header in
  let location := Header_Get h "Location" in
  let* _ :=
    if (0 <? String.length location)%nat
    then p_put (Header_Set "Location"
                 (updateLocation location (hostname w) (hostPath w) (targetPath w)))
    else Ret tt in
  let* h := p_header in
  let* w :=
    if HasPrefix (Header_Get h "Content-Type") "text/html"
    then do* p_put (Header_Del "Content-Length") in Ret (set_isHTML w)
    else Ret w in
  do* p_write_header statusCode in
  Ret w.

Definition ppw_Write (w : pathPrefixWriter) (p : string)
    : prog (pathPrefixWriter * (Z * option string)) :=
  let* w :=
    if negb (headerSent w)
    then do* p_put (Header_Set "Content-Type" (DetectContentType p)) in ppw_WriteHeader w 200
    else Ret w in
  if isHTML w then Ret (pipe_write p w, (Z.of_nat (String.length p), None))
  else let* res := p_write p in Ret (w, res).

Definition ppw_Flush (w : pathPrefixWriter) : prog (pathPrefixWriter * bool) :=
  do* p_flush in Ret (w, true).

(** [Close]: the pipe is closed and the copying goroutine waited for. *)
Definition ppw_Close (w : pathPrefixWriter) : prog unit :=
  do* io_Copy (mk_Reader (stream_chunks (ppw_modify w) (tokenize (piped w))) None) in Ret tt.

(** The writer is a [Flusher] but not a [ReaderFrom]. *)
Definition ppw_Writer : Writer pathPrefixWriter := {|
  w_Write := ppw_Write;
  w_WriteHeader := ppw_WriteHeader;
  w_Flush := ppw_Flush;
  w_ReadFrom w _ := Ret (w, None);
  w_ReadBody w n := ReadBody n (fun s e => Ret (w, (s, e)))
|}.

(** [ww := NewPathPrefixHTMLResponseWriter(...)], [defer ww.Close()], then the
    handler. *)
Definition finish {A} (w : pathPrefixWriter) (p : prog A) : prog A :=
  let* (w, a) := @wrap _ _ ppw_Writer ppw_Close p w in
  do* ppw_Close w in Ret a.

Definition with_prefix_writer {A} (hostname hostPath targetPath : string) (p : prog A)
    : prog A :=
  finish (NewPathPrefixHTMLResponseWriter hostname hostPath targetPath) p.

(** ** Interleaving *)

(** The tokens that the tokenizer gives of the beginning of a document before it reads more
    of it. *)
Context (available : string -> list Token).

(** The first call of a handler, performed on the writer up to the write to the pipe; what is
    left of the handler. *)
Definition first_call {A} (p : prog A) (w : pathPrefixWriter)
    : prog (prog A * pathPrefixWriter) :=
  match p with
  | Ret a => Ret (Ret a, w)
  | Crash => Ret (Crash, w)
  | GetHeader k => GetHeader (fun h => Ret (k h, w))
  | PutHeader f k => PutHeader f (Ret (k, w))
  | Write b k => let* (w, (n, e)) := ppw_Write w b in Ret (k n e, w)
  | WriteHeader code k => let* w := ppw_WriteHeader w code in Ret (k, w)
  | Flush k => let* (w, b) := ppw_Flush w in Ret (k b, w)
  | ReadFrom r k => Ret (k None, w)
  | ReadBody n k => ReadBody n (fun s e => Ret (k s e, w))
  end.

(** What the call writes to the pipe. *)
Definition pipe_offer {A} (p : prog A) (w' : pathPrefixWriter) : option string :=
  match p with
  | Write b _ => if isHTML w' then Some b else None
  | _ => None
  end.

Definition ended {A} (p : prog A) : bool :=
  match p with Ret _ | Crash => true | _ => false end.

(** The statements of the deferred [Close], and those of the copying goroutine. *)
Inductive close_stmt := WriterClose | WgWait | ReaderClose.

Definition Close_stmts : list close_stmt := [WriterClose; WgWait; ReaderClose].

Inductive copy_stmt := IoCopy | WgDone.

Definition copy_stmts : list copy_stmt := [IoCopy; WgDone].

(** The handler's goroutine: the handler and its writer, what its write to the pipe still
    offers to the reader, and once the handler has returned or panicked what is left of
    [Close]; the exchange, whether the pipe's write end is closed, and the counter of the
    wait group; the copying goroutine: what it has read from the pipe, how many chunks it
    has copied, the statements left, and the error [io.Copy] ended with. *)
Record Pipe (A : Type) := mk_Pipe {
  y_prog : prog A;
  y_w : pathPrefixWriter;
  y_offer : option string;
  y_close : option (list close_stmt);
  y_conn : Conn;
  y_closed : bool;
  y_wg : nat;
  y_read : string;
  y_copied : nat;
  y_copier : list copy_stmt;
  y_err : option string
}.
Arguments mk_Pipe {A} _ _ _ _ _ _ _ _ _ _ _.
Arguments y_prog {A} _.
Arguments y_w {A} _.
Arguments y_offer {A} _.
Arguments y_close {A} _.
Arguments y_conn {A} _.
Arguments y_closed {A} _.
Arguments y_wg {A} _.
Arguments y_read {A} _.
Arguments y_copied {A} _.
Arguments y_copier {A} _.
Arguments y_err {A} _.

(** The chunks the copying goroutine can get at without reading more; once the pipe is
    closed the document is complete. *)
Definition ready_chunks {A} (y : Pipe A) : list string :=
  stream_chunks (ppw_modify (y_w y))
    ((if y_closed y then tokenize else available) (y_read y)).

(** A call of the handler, and its panic. *)
Definition y_called {A} (y : Pipe A) (p' : prog A) (w' : pathPrefixWriter) (c' : Conn) : Pipe A :=
  mk_Pipe p' w' (pipe_offer (y_prog y) w') (y_close y) c' (y_closed y) (y_wg y) (y_read y)
    (y_copied y) (y_copier y) (y_err y).

Definition y_panicked {A} (y : Pipe A) (c' : Conn) : Pipe A :=
  mk_Pipe Crash (y_w y) None (y_close y) c' (y_closed y) (y_wg y) (y_read y)
    (y_copied y) (y_copier y) (y_err y).

(** A statement of [Close] is done, or [Close] called. *)
Definition y_closing {A} (y : Pipe A) (closed : bool) (l : list close_stmt) : Pipe A :=
  mk_Pipe (y_prog y) (y_w y) (y_offer y) (Some l) (y_conn y) closed (y_wg y) (y_read y)
    (y_copied y) (y_copier y) (y_err y).

(** The tokenizer reads [s] of what is offered, [t] is left. *)
Definition y_reads {A} (y : Pipe A) (s t : string) : Pipe A :=
  mk_Pipe (y_prog y) (y_w y) (if (String.length t =? 0)%nat then None else Some t) (y_close y)
    (y_conn y) (y_closed y) (y_wg y) (y_read y +:+ s) (y_copied y) (y_copier y) (y_err y).

(** A chunk was written to the exchange; [io.Copy] returns the error. *)
Definition y_copies {A} (y : Pipe A) (c' : Conn) (err : option string) (k : list copy_stmt) : Pipe A :=
  mk_Pipe (y_prog y) (y_w y) (y_offer y) (y_close y) c' (y_closed y) (y_wg y) (y_read y)
    (S (y_copied y)) (match err with None => IoCopy :: k | Some _ => k end) err.

(** The copying goroutine is past a statement. *)
Definition y_goes_on {A} (y : Pipe A) (wg : nat) (k : list copy_stmt) : Pipe A :=
  mk_Pipe (y_prog y) (y_w y) (y_offer y) (y_close y) (y_conn y) (y_closed y) wg (y_read y)
    (y_copied y) k (y_err y).

(** A write to the pipe waits until all of it was read, an empty one until it was read once;
    the tokenizer reads when it has nothing more to give, in pieces of any size; [Close]
    waits for the counter. *)
Inductive pstep {A} : Pipe A -> Pipe A -> Prop :=
  | step_call y p' w' c' :
      y_close y = None -> y_offer y = None -> ended (y_prog y) = false ->
      exec (first_call (y_prog y) (y_w y)) (y_conn y) = (Some (p', w'), c') ->
      pstep y (y_called y p' w' c')
  | step_panic y c' :
      y_close y = None -> y_offer y = None -> ended (y_prog y) = false ->
      exec (first_call (y_prog y) (y_w y)) (y_conn y) = (None, c') ->
      pstep y (y_panicked y c')
  | step_return y :
      y_close y = None -> y_offer y = None -> ended (y_prog y) = true ->
      pstep y (y_closing y (y_closed y) Close_stmts)
  | step_writer_close y l :
      y_close y = Some (WriterClose :: l) -> pstep y (y_closing y true l)
  | step_wait y l :
      y_close y = Some (WgWait :: l) -> y_wg y = 0 -> pstep y (y_closing y (y_closed y) l)
  | step_reader_close y l :
      y_close y = Some (ReaderClose :: l) -> pstep y (y_closing y (y_closed y) l)
  | step_read y k s t :
      y_copier y = IoCopy :: k -> ready_chunks y !! y_copied y = None ->
      y_offer y = Some (s +:+ t) -> (s = EmptyString -> t = EmptyString) ->
      pstep y (y_reads y s t)
  | step_copy y k chunk c' n err :
      y_copier y = IoCopy :: k -> ready_chunks y !! y_copied y = Some chunk ->
      conn_Write chunk (y_conn y) = (c', (n, err)) -> pstep y (y_copies y c' err k)
  | step_eof y k :
      y_copier y = IoCopy :: k -> ready_chunks y !! y_copied y = None -> y_closed y = true ->
      pstep y (y_goes_on y (y_wg y) k)
  | step_done y k :
      y_copier y = WgDone :: k -> pstep y (y_goes_on y (pred (y_wg y)) k).

(** [NewPathPrefixHTMLResponseWriter]: the pipe is made, [wg.Add(1)] done and the goroutine
    started. *)
Definition start {A} (w : pathPrefixWriter) (p : prog A) (c : Conn) : Pipe A :=
  mk_Pipe p w None None c false 1 EmptyString 0 copy_stmts None.

(** The handler returned and so did [Close]. *)
Definition completed {A} (y : Pipe A) (a : A) : Prop := y_prog y = Ret a /\ y_close y = Some [].
End PrefixWriter.

Arguments mk_Pipe {A} _ _ _ _ _ _ _ _ _ _ _.
Arguments y_prog {A} _.
Arguments y_w {A} _.
Arguments y_offer {A} _.
Arguments y_close {A} _.
Arguments y_conn {A} _.
Arguments y_closed {A} _.
Arguments y_wg {A} _.
Arguments y_read {A} _.
Arguments y_copied {A} _.
Arguments y_copier {A} _.
Arguments y_err {A} _.
