(* ===== verification/PrefixWriterProps.v ===== *)
(** Properties of the prefix writer (pkg/stream/pathprefixwriter.go): what a page
    looks like after going through it, independence of the schedule of the copying
    goroutine, that handler and goroutine end, and when they do not get to their end. *)

From S2P Require Import Prelude GoStrings Url Http Stream PrefixWriter.

Local Open Scope go_scope.
Local Open Scope prog_scope.

(** ** The copied chunks *)

Lemma pieces_concat fuel n s :
  1 <= n -> String.length s <= fuel -> str_concat (pieces fuel n s) = s.
Proof.
  intros Hn. revert s. induction fuel as [|fuel IH]; intros s Hs; cbn [pieces].
  { by destruct s; simpl in Hs; [|lia]. }
  destruct (String.length s =? 0)%nat eqn:E; [by destruct s; simpl in E|].
  apply Nat.eqb_neq in E. cbn [str_concat]. rewrite IH, stake_drop_app; [done|].
  rewrite slength_drop. lia.
Qed.

Lemma copy_buf_pos : 1 <= copy_buf.
Proof. unfold copy_buf. lia. Qed.

Lemma stream_chunks_concat modify tokens :
  str_concat (stream_chunks modify tokens) = str_concat (rendered modify tokens 0).
Proof.
  unfold stream_chunks. induction (rendered modify tokens 0) as [|s l IH]; [done|].
  cbn [flat_map str_concat]. rewrite str_concat_app, IH, pieces_concat; [done|apply copy_buf_pos|done].
Qed.

Lemma rendered_app modify l l' d :
  exists d', rendered modify (l ++ l') d = rendered modify l d ++ rendered modify l' d'.
Proof.
  revert d. induction l as [|t l IH]; intros d; [by exists d|]. cbn [app rendered].
  destruct (render_token modify t d) as [s d1]. destruct (IH d1) as [d' ->]. by exists d'.
Qed.

Lemma stream_chunks_prefix modify l l' :
  l `prefix_of` l' -> stream_chunks modify l `prefix_of` stream_chunks modify l'.
Proof.
  intros [k ->]. unfold stream_chunks. destruct (rendered_app modify l k 0) as [d' ->].
  rewrite flat_map_app. by apply prefix_app_r.
Qed.

(** ** The exchange once the header is out *)

(** A mutation of the parts of the exchange that writing the body does not look at. *)
Inductive side_op : (Conn -> Conn) -> Prop :=
  | side_live h : side_op (set_live h)
  | side_input s : side_op (set_input s).

Lemma conn_Write_side op b c :
  side_op op -> header_out c ->
  conn_Write b (op c) = (op (conn_Write b c).1, (conn_Write b c).2).
Proof.
  intros Hop Hc.
  assert (Hop' : header_out (op c)) by (destruct Hop; exact Hc).
  unfold conn_Write. rewrite !conn_WriteHeader_out by done. cbn [default from_option id].
  destruct (Z.of_nat (String.length b) =? 0)%Z; [done|].
  replace (c_status (op c)) with (c_status c) by (by destruct Hop).
  destruct (negb (bodyAllowed _)); [done|]. destruct Hop; cbn;
    by destruct (match c_length c with Some _ => _ | None => _ end).
Qed.

Lemma conn_Write_out b c :
  header_out c ->
  let c' := (conn_Write b c).1 in
  header_out c' /\ c_live c' = c_live c /\ c_input c' = c_input c.
Proof.
  intros Hc. unfold conn_Write. rewrite conn_WriteHeader_out by done. cbn [default from_option id].
  destruct (Z.of_nat (String.length b) =? 0)%Z; [done|].
  destruct (negb (bodyAllowed _)); [done|].
  by destruct (match c_length _ with Some _ => _ | None => _ end).
Qed.

(** A write reports an error when it is short. *)
Lemma conn_Write_full b c c' n :
  conn_Write b c = (c', (n, None)) -> n = Z.of_nat (String.length b).
Proof.
  unfold conn_Write. set (c0 := default c (conn_WriteHeader 200 c)). clearbody c0.
  destruct (Z.of_nat (String.length b) =? 0)%Z eqn:E; [apply Z.eqb_eq in E; intros [= _ <-]; by rewrite E|].
  destruct (negb (bodyAllowed _)); [done|].
  destruct (match c_length _ with Some _ => _ | None => _ end); [done|].
  unfold conn_send. cbv zeta.
  set (room := match c_limit _ with Some _ => _ | None => _ end). clearbody room.
  destruct (room <? String.length b)%nat eqn:Er; [done|].
  intros [= _ <-]. apply Nat.ltb_ge in Er. rewrite slength_take. lia.
Qed.

Lemma conn_copy_side op cs w c :
  side_op op -> header_out c ->
  conn_copy cs None w (op c) = (op (conn_copy cs None w c).1, (conn_copy cs None w c).2).
Proof.
  intros Hop. revert w c. induction cs as [|b cs IH]; intros w c Hc; [done|]. cbn [conn_copy].
  rewrite conn_Write_side by done. pose proof (conn_Write_out b c Hc) as (Hc' & _).
  destruct (conn_Write b c) as [c' [n e]]. cbn [fst snd] in *.
  destruct e; [done|]. destruct (negb (n =? _)%Z); [done|]. by apply IH.
Qed.

Lemma conn_copy_out cs w c :
  header_out c ->
  let c' := (conn_copy cs None w c).1 in
  header_out c' /\ c_live c' = c_live c /\ c_input c' = c_input c.
Proof.
  revert w c. induction cs as [|b cs IH]; intros w c Hc; [done|]. cbn [conn_copy].
  pose proof (conn_Write_out b c Hc) as (Hc' & Hl & Hi).
  destruct (conn_Write b c) as [c' [n e]]. cbn [fst snd] in *. cbv zeta.
  destruct e; [done|]. destruct (negb (n =? _)%Z); [done|].
  destruct (IH (w + n)%Z c' Hc') as (? & -> & ->). done.
Qed.

(** Copying stops at the first error. *)
Lemma conn_copy_app cs ds w c :
  conn_copy (cs ++ ds) None w c =
  match conn_copy cs None w c with
  | (c', (n, None)) => conn_copy ds None n c'
  | res => res
  end.
Proof.
  revert w c. induction cs as [|b cs IH]; intros w c; [done|]. cbn [app conn_copy].
  destruct (conn_Write b c) as [c' [n [e|]]]; [done|].
  destruct (negb (n =? _)%Z); [done|]. apply IH.
Qed.

Lemma conn_copy_snoc cs b w c c' n :
  conn_copy cs None w c = (c', (n, None)) ->
  conn_copy (cs ++ [b]) None w c =
  ((conn_Write b c').1, ((n + (conn_Write b c').2.1)%Z, (conn_Write b c').2.2)).
Proof.
  intros Hc. rewrite conn_copy_app, Hc. cbn [conn_copy].
  destruct (conn_Write b c') as [c'' [m [e|]]] eqn:E; [done|]. cbn [fst snd].
  apply conn_Write_full in E as ->. by rewrite Z.eqb_refl.
Qed.

(** ** Calls that do not write the body *)

Inductive quiet {A} : prog A -> Prop :=
  | quiet_Ret a : quiet (Ret a)
  | quiet_Crash : quiet Crash
  | quiet_GetHeader k : (forall h, quiet (k h)) -> quiet (GetHeader k)
  | quiet_PutHeader f k : quiet k -> quiet (PutHeader f k)
  | quiet_WriteHeader code k : quiet k -> quiet (WriteHeader code k)
  | quiet_Flush k : (forall b, quiet (k b)) -> quiet (Flush k)
  | quiet_ReadBody n k : (forall s e, quiet (k s e)) -> quiet (ReadBody n k).
#[local] Hint Constructors quiet : core.

Lemma quiet_bind {A B} (p : prog A) (f : A -> prog B) :
  quiet p -> (forall a, quiet (f a)) -> quiet (bind p f).
Proof. intros Hp Hf. induction Hp; cbn [bind]; auto. Qed.

Lemma conn_read_side n c :
  exists op, side_op op /\ (conn_read n c).1 = op c /\
    forall c', c_input c' = c_input c -> conn_read n c' = (op c', (conn_read n c).2).
Proof.
  exists (set_input (str_drop n (c_input c))). split; [constructor|].
  unfold conn_read. destruct (String.length (c_input c) =? 0)%nat eqn:E.
  - assert (Hi : c_input c = EmptyString) by (by destruct (c_input c)). cbn [fst snd].
    assert (Hid : forall c', c_input c' = c_input c -> set_input (str_drop n (c_input c)) c' = c').
    { intros [] H. cbn in H. subst. rewrite Hi. by destruct n. }
    split; [by rewrite Hid|]. intros c' Hc'. rewrite Hc', E, Hid; done.
  - split; [done|]. intros c' Hc'. by rewrite Hc', E.
Qed.

(** Such calls commute with the copying goroutine. *)
Lemma quiet_exec {A} (q : prog A) cs w c :
  quiet q -> header_out c ->
  let copy := conn_copy cs None w in
  exec q (copy c).1 = ((exec q c).1, (copy (exec q c).2).1) /\
  (copy (exec q c).2).2 = (copy c).2 /\ header_out (exec q c).2.
Proof.
  cbv zeta. intros Hq. revert c. induction Hq as
    [a| |k _ IH|f k _ IH|code k _ IH|k _ IH|n k _ IH]; intros c Hc; cbn [exec]; try done.
  - destruct (conn_copy_out cs w c Hc) as (_ & -> & _). by apply IH.
  - destruct (conn_copy_out cs w c Hc) as (_ & -> & _).
    pose proof (conn_copy_side (set_live (f (c_live c))) cs w c (side_live _) Hc) as Hs.
    destruct (IH (set_live (f (c_live c)) c)) as (H1 & H2 & H3); [done|].
    rewrite Hs in H1, H2. done.
  - destruct (conn_copy_out cs w c Hc) as (Hc' & _).
    rewrite !conn_WriteHeader_out by done. by apply IH.
  - by apply IH.
  - destruct (conn_copy_out cs w c Hc) as (_ & _ & Hi).
    destruct (conn_read_side n c) as (op & Hop & Hr & Hall).
    rewrite (Hall _ Hi). destruct (conn_read n c) as [c1 [s e]]. cbn [fst snd] in *. subst c1.
    pose proof (conn_copy_side op cs w c Hop Hc) as Hs.
    destruct (IH s e (op c)) as (H1 & H2 & H3); [destruct Hop; exact Hc|].
    rewrite Hs in H1, H2. done.
Qed.

(** ** The invariant of the interleaving *)

Section Schedules.
Context (DetectContentType : string -> string) (tokenize available : string -> list Token).
Context (available_prefix : forall a b, available a `prefix_of` tokenize (a +:+ b)).
Context (available_mono : forall a b, available a `prefix_of` available (a +:+ b)).
Context (tokenize_empty : tokenize EmptyString = []).

Implicit Types (w : pathPrefixWriter) (c : Conn).

#[local] Abbreviation call := (first_call DetectContentType).
#[local] Abbreviation close := (finish DetectContentType tokenize).

(** Writer and exchange agree on how far the response is. *)
Record good w c : Prop := {
  good_header : headerSent w = true -> header_out c;
  good_html : isHTML w = true -> headerSent w = true;
  good_piped : piped w <> EmptyString -> isHTML w = true
}.

(** [w'] is a later state of [w], to whose pipe [b] was written. *)
Definition later w w' (b : string) : Prop :=
  ppw_modify w' = ppw_modify w /\ piped w' = piped w +:+ b.

Lemma later_refl w : later w w EmptyString.
Proof. split; [done|]. by rewrite sapp_nil_r. Qed.

(** What a call writes to the pipe. *)
Definition written {A} (p : prog A) w' : string := default EmptyString (pipe_offer p w').

Lemma exec_wrap_call {A} (p : prog A) w c :
  ended p = false ->
  exec (close w p) c =
  match exec (call p w) c with
  | (Some (p', w'), c') => exec (close w' p') c'
  | (None, c') => (None, c')
  end.
Proof.
  intros He. unfold finish.
  rewrite exec_bind.
  destruct p as [a| |k|f k|b k|code k|k|r k|n k]; try done; cbn [wrap first_call exec];
    rewrite ?exec_bind; cbn [exec w_Write w_WriteHeader w_Flush w_ReadFrom w_ReadBody ppw_Writer];
    try done.
  - destruct (exec (ppw_Write DetectContentType w b) c) as [[[w' [n e]]|] c']; [|done].
    cbn [exec]. by rewrite exec_bind.
  - destruct (exec (ppw_WriteHeader w code) c) as [[w'|] c']; [|done].
    cbn [exec]. by rewrite exec_bind.
  - unfold ppw_Flush. cbn [p_flush bind exec]. by rewrite exec_bind.
  - destruct (conn_read n c) as [c' [s e]]. cbn [exec]. by rewrite exec_bind.
Qed.

Lemma ppw_WriteHeader_quiet w code : quiet (ppw_WriteHeader w code).
Proof.
  unfold ppw_WriteHeader, p_header, p_put, p_write_header.
  constructor. intros h. apply quiet_bind; [case_match; repeat constructor|]. intros _.
  constructor. intros h'. apply quiet_bind; [case_match; repeat constructor|]. intros w'.
  repeat constructor.
Qed.

(** Once the response is HTML no call writes to the exchange directly. *)
Lemma call_quiet {A} (p : prog A) w :
  headerSent w = true -> isHTML w = true -> quiet (call p w).
Proof.
  intros Hs Hh. destruct p; cbn [first_call]; try (by repeat constructor).
  - unfold ppw_Write. rewrite Hs. cbn [negb bind]. rewrite Hh. repeat constructor.
  - apply quiet_bind; [apply ppw_WriteHeader_quiet|]. repeat constructor.
Qed.

Lemma ppw_WriteHeader_good w code c w' c' :
  exec (ppw_WriteHeader w code) c = (Some w', c') ->
  (header_out c -> header_out c') /\ header_out c' /\ headerSent w' = true /\
  piped w' = piped w /\ ppw_modify w' = ppw_modify w /\
  (isHTML w = true -> isHTML w' = true).
Proof.
  unfold ppw_WriteHeader, p_header, p_put, p_write_header. cbn [bind exec].
  rewrite exec_bind.
  set (loc := if (0 <? _)%nat then _ else _).
  assert (Hloc : exists h, exec loc c = (Some tt, set_live h c)).
  { unfold loc. destruct (0 <? _)%nat; cbn [exec]; [by eexists|].
    exists (c_live c). by destruct c. }
  destruct Hloc as [h ->]. cbn [bind exec]. rewrite exec_bind.
  set (ct := if HasPrefix _ _ then _ else _).
  assert (Hct : exists h' w1, exec ct (set_live h c) = (Some w1, set_live h' c) /\
    headerSent w1 = true /\ piped w1 = piped w /\ ppw_modify w1 = ppw_modify w /\
    (isHTML w = true -> isHTML w1 = true)).
  { unfold ct. destruct (HasPrefix _ _); cbn [bind exec]; do 2 eexists; done. }
  destruct Hct as (h' & w1 & -> & Hw1). cbn [bind exec].
  unfold conn_WriteHeader. cbn [c_status set_live].
  destruct (c_status c) eqn:Es.
  - intros [= <- <-]. unfold header_out. cbn [c_status set_live]. by rewrite Es.
  - destruct ((code <? 100) || (999 <? code))%Z; [done|].
    destruct (if (String.length _ =? 0)%nat then _ else _) as [live len].
    intros [= <- <-]. unfold header_out. cbn [c_status]. done.
Qed.

(** Every call keeps writer and exchange in agreement. *)
Lemma call_good {A} (p : prog A) w c p' w' c' :
  good w c -> exec (call p w) c = (Some (p', w'), c') -> good w' c' /\ later w w' (written p w').
Proof.
  intros Hg.
  assert (Hmut : forall w' c', written p w' = EmptyString -> w' = w -> (header_out c -> header_out c') ->
    good w' c' /\ later w w' (written p w')).
  { intros ? ? -> -> Hh. split; [|apply later_refl]. by destruct Hg; constructor; auto. }
  destruct p as [a| |k|f k|b k|code k|k|r k|n k]; cbn [first_call exec];
    try (intros [= <- <- <-]; by apply Hmut).
  - intros Hex. rewrite exec_bind in Hex. unfold ppw_Write in Hex. rewrite exec_bind in Hex.
    assert (Hh : exists w1 c1, exec (if negb (headerSent w)
        then do* p_put (Header_Set "Content-Type" (DetectContentType b)) in ppw_WriteHeader w 200
        else Ret w) c = (Some w1, c1) /\ header_out c1 /\ headerSent w1 = true /\
        piped w1 = piped w /\ ppw_modify w1 = ppw_modify w /\
        (isHTML w = true -> isHTML w1 = true) \/
        exec (if negb (headerSent w)
        then do* p_put (Header_Set "Content-Type" (DetectContentType b)) in ppw_WriteHeader w 200
        else Ret w) c = (None, c1)).
    { destruct (headerSent w) eqn:Es; cbn [negb].
      - exists w, c. left. destruct Hg as [H1 _ _]. repeat split; auto.
      - rewrite exec_bind. cbn [p_put exec].
        destruct (exec (ppw_WriteHeader w 200) _) as [[w1|] c1] eqn:E.
        + exists w1, c1. left. by apply ppw_WriteHeader_good in E as (_ & ?).
        + exists w, c1. by right. }
    destruct Hh as (w1 & c1 & [(Hx & Ho & Hs & Hp & Hm & Hi)|Hx]); rewrite Hx in Hex; [|done].
    destruct (isHTML w1) eqn:Eh.
    + cbn in Hex. injection Hex as <- <- <-. split; [|split; [done|]].
      * by constructor.
      * unfold written, pipe_offer. cbn [piped pipe_write isHTML]. by rewrite Hp, Eh.
    + cbn [p_write bind exec] in Hex. rewrite ?exec_bind in Hex. cbn [exec] in Hex.
      pose proof (conn_Write_out b c1 Ho) as (Ho' & _).
      destruct (conn_Write b c1) as [c2 [n e]]. cbn [bind exec fst] in *.
      injection Hex as <- <- <-.
      split; [|split; [done|unfold written, pipe_offer; rewrite Eh; cbn; by rewrite sapp_nil_r]].
      constructor; [done|by rewrite Eh|].
      rewrite Hp. intros Hne. apply (good_piped _ _ Hg) in Hne. by rewrite Hi in Eh.
  - intros Hex. rewrite exec_bind in Hex.
    destruct (exec (ppw_WriteHeader w code) c) as [[w1|] c1] eqn:E; [|done].
    cbn in Hex. injection Hex as <- <- <-.
    apply ppw_WriteHeader_good in E as (_ & Ho & Hs & Hp & Hm & Hi).
    split; [constructor; auto|split; [done|cbn; by rewrite sapp_nil_r]].
    rewrite Hp. intros Hne. by apply Hi, (good_piped _ _ Hg).
  - destruct (conn_read_side n c) as (op & Hop & Hr & _).
    destruct (conn_read n c) as [c1 [s e]]. cbn [fst] in Hr. subst c1. cbn [exec].
    intros [= <- <- <-]. apply Hmut; [done..|]. by destruct Hop.
Qed.

(** Where the interleaving started. *)
Context {A : Type} (w0 : pathPrefixWriter) (p0 : prog A) (c0 : Conn).

#[local] Abbreviation steps := (pstep DetectContentType tokenize available).
#[local] Abbreviation chunks := (ready_chunks tokenize available).

(** How far the two goroutines are: the handler's, and the copying one. *)
Inductive at_close (y : Pipe A) : Prop :=
  | close_handler : y_close y = None -> y_closed y = false -> at_close y
  | close_called : y_close y = Some Close_stmts -> y_closed y = false -> y_offer y = None -> at_close y
  | close_written : y_close y = Some [WgWait; ReaderClose] -> y_closed y = true -> y_offer y = None -> at_close y
  | close_waited l : y_close y = Some l -> l = [ReaderClose] \/ l = [] -> y_closed y = true -> y_offer y = None ->
      y_copier y = [] -> at_close y.

Inductive at_copy (y : Pipe A) : Prop :=
  | copy_running : y_copier y = copy_stmts -> y_wg y = 1 -> y_err y = None -> at_copy y
  | copy_ended k : y_copier y = k -> k = [WgDone] /\ y_wg y = 1 \/ k = [] /\ y_wg y = 0 ->
      is_Some (y_err y) \/ (y_closed y = true /\ chunks y !! y_copied y = None) -> at_copy y.

(** Unless the handler panicked, the exchange is what the sequential run has at this point,
    with the chunks copied so far written to it. *)
Definition copied_so_far (y : Pipe A) : Prop :=
  y_prog y = Crash \/
  exists c cs n,
    good (y_w y) c /\
    exec (close (y_w y) (y_prog y)) c = exec (close w0 p0) c0 /\
    piped (y_w y) = y_read y +:+ default EmptyString (y_offer y) /\
    cs `prefix_of` chunks y /\ length cs = y_copied y /\
    conn_copy cs None 0 c = (y_conn y, (n, y_err y)).

Definition inv (y : Pipe A) : Prop :=
  at_close y /\ at_copy y /\ (y_close y <> None -> ended (y_prog y) = true) /\ copied_so_far y.

(** Nothing is copied before the response is HTML. *)
Lemma chunks_none (y : Pipe A) c :
  good (y_w y) c -> isHTML (y_w y) = false ->
  piped (y_w y) = y_read y +:+ default EmptyString (y_offer y) -> chunks y = [].
Proof.
  intros Hg Hh Hr. assert (Hp : piped (y_w y) = EmptyString).
  { destruct (decide (piped (y_w y) = EmptyString)) as [|Hne]; [done|].
    apply (good_piped _ _ Hg) in Hne. congruence. }
  rewrite Hp in Hr. symmetry in Hr. apply sapp_eq_nil in Hr as [Hr _]. unfold ready_chunks. rewrite Hr.
  assert (Ha : available EmptyString = []).
  { pose proof (available_prefix EmptyString EmptyString) as Ha.
    rewrite sapp_nil_l, tokenize_empty in Ha. by apply prefix_nil_inv in Ha. }
  destruct (y_closed y); by rewrite ?tokenize_empty, ?Ha.
Qed.

(** What is left of [copied_so_far] when neither the handler nor the copies move. *)
Lemma copied_keeps (y y' : Pipe A) :
  y_prog y' = y_prog y -> y_w y' = y_w y -> y_conn y' = y_conn y -> y_copied y' = y_copied y -> y_err y' = y_err y ->
  y_read y' +:+ default EmptyString (y_offer y') = y_read y +:+ default EmptyString (y_offer y) ->
  chunks y `prefix_of` chunks y' -> copied_so_far y -> copied_so_far y'.
Proof.
  intros Hp Hw Hc Hk He Hr Hch [Hcr|(c & cs & n & Hg & Hseq & Hpi & Hpre & Hlen & Hcopy)]; [left; congruence|].
  right. exists c, cs, n. rewrite Hp, Hw, Hc, Hk, He, Hr. split; [done|]. split; [done|]. split; [done|].
  split; [by etransitivity|done].
Qed.

Lemma inv_call (y : Pipe A) p' w' c' :
  y_close y = None -> y_offer y = None -> ended (y_prog y) = false ->
  exec (call (y_prog y) (y_w y)) (y_conn y) = (Some (p', w'), c') ->
  inv y -> inv (y_called y p' w' c').
Proof.
  intros Hcl Hof He Hex (Hac & Hco & _ & [Hcr|(cq & cs & n & Hg & Hseq & Hpi & Hpre & Hlen & Hcopy)]);
    [by rewrite Hcr in He|].
  assert (Hboth : exists cq', exec (call (y_prog y) (y_w y)) cq = (Some (p', w'), cq') /\
    conn_copy cs None 0 cq' = (c', (n, y_err y))).
  { destruct (isHTML (y_w y)) eqn:Eh.
    - pose proof (good_html _ _ Hg Eh) as Hs.
      destruct (quiet_exec (call (y_prog y) (y_w y)) cs 0 cq) as (H1 & H2 & _);
        [by apply call_quiet | by apply (good_header _ _ Hg) |].
      cbv zeta in H1, H2. rewrite Hcopy in H1, H2. cbn [fst snd] in *. rewrite Hex in H1.
      injection H1 as H1 ->. exists (exec (call (y_prog y) (y_w y)) cq).2. rewrite H1.
      split; [by destruct (exec _ cq)|]. rewrite <- H2. by destruct (conn_copy cs None 0 _).
    - rewrite (chunks_none y cq Hg Eh Hpi) in Hpre.
      apply prefix_nil_inv in Hpre as ->. injection Hcopy as -> <- <-. by exists c'. }
  destruct Hboth as (cq' & Hq & Hcopy').
  pose proof (call_good (y_prog y) (y_w y) cq p' w' cq' Hg Hq) as [Hg' [Hm Hb]].
  assert (Hch : chunks (y_called y p' w' c') = chunks y) by (unfold ready_chunks; cbn; by rewrite Hm).
  rewrite Hof in Hpi. cbn [default from_option] in Hpi. rewrite sapp_nil_r in Hpi. split; [|split; [|split]].
  - apply close_handler; cbn; [done|]. destruct Hac; congruence.
  - destruct Hco as [H1 H2 H3|k H1 H2 H3]; [by apply copy_running|].
    eapply copy_ended; [exact H1|exact H2|]. rewrite Hch. exact H3.
  - cbn. congruence.
  - right. exists cq', cs, n. rewrite Hch. cbn [y_called y_prog y_w y_offer y_conn y_read y_copied y_err].
    split; [done|]. split; [by rewrite <- Hseq, (exec_wrap_call (y_prog y) (y_w y) cq He), Hq|].
    split; [by rewrite Hb, Hpi|done].
Qed.

Lemma inv_panic (y : Pipe A) c' : y_close y = None -> inv y -> inv (y_panicked y c').
Proof.
  intros Hcl (Hac & Hco & _ & _). split; [apply close_handler; cbn; [done|]; destruct Hac; congruence|].
  split; [destruct Hco as [H1 H2 H3|k H1 H2 H3]; [by apply copy_running|by eapply copy_ended]|].
  split; [done|by left].
Qed.

Lemma prefix_snoc_lookup {B} (l l' : list B) x :
  l `prefix_of` l' -> l' !! length l = Some x -> (l ++ [x]) `prefix_of` l'.
Proof.
  intros [k ->] Hx. rewrite lookup_app_r, Nat.sub_diag in Hx by done.
  destruct k as [|y k]; [done|]. injection Hx as ->. exists k. by rewrite <- app_assoc.
Qed.

(** Where [Close] is, from the statements left. *)
Lemma at_close_some (y : Pipe A) l :
  at_close y -> y_close y = Some l ->
  y_offer y = None /\
  (l = Close_stmts /\ y_closed y = false \/ l = [WgWait; ReaderClose] /\ y_closed y = true \/
   (l = [ReaderClose] \/ l = []) /\ y_closed y = true /\ y_copier y = []).
Proof.
  intros [H1 H2|H1 H2 H3|H1 H2 H3|l' H1 H2 H3 H4 H5] Hl; rewrite H1 in Hl;
    [done|injection Hl as <-..]; split; auto.
Qed.

(** While the copying goroutine has statements left, [Close] does not get past its wait. *)
Lemma at_close_keeps (y y' : Pipe A) :
  y_close y' = y_close y -> y_closed y' = y_closed y -> y_offer y' = y_offer y -> y_copier y <> [] ->
  at_close y -> at_close y'.
Proof.
  intros E1 E2 E3 Hne [H1 H2|H1 H2 H3|H1 H2 H3|l H1 H2 H3 H4 H5];
    [apply close_handler|apply close_called|apply close_written|done]; congruence.
Qed.

(** The copying goroutine, from the statements left. *)
Lemma at_copy_running (y : Pipe A) k :
  at_copy y -> y_copier y = IoCopy :: k -> k = [WgDone] /\ y_wg y = 1 /\ y_err y = None.
Proof.
  intros [H1 H2 H3|k' H1 [[-> _]|[-> _]] _] Hk; rewrite H1 in Hk; [|done..].
  by injection Hk as <-.
Qed.

Lemma at_copy_keeps (y y' : Pipe A) :
  y_copier y' = y_copier y -> y_wg y' = y_wg y -> y_err y' = y_err y -> y_copied y' = y_copied y ->
  (y_closed y = true -> y_closed y' = true) -> (y_closed y = true -> chunks y' = chunks y) ->
  at_copy y -> at_copy y'.
Proof.
  intros E1 E2 E3 E4 E5 E6 [H1 H2 H3|k H1 H2 H3]; [apply copy_running; congruence|].
  apply (copy_ended _ k); [congruence|by rewrite E2|]. rewrite E3, E4.
  destruct H3 as [H3|[Hc H3]]; [by left|right]. rewrite E6 by done. auto.
Qed.

(** The statements of [Close]. *)
Lemma inv_close (y : Pipe A) l s :
  y_close y = Some (s :: l) -> (s = WgWait -> y_wg y = 0) -> inv y ->
  inv (y_closing y (match s with WriterClose => true | _ => y_closed y end) l).
Proof.
  intros Hcl Hw (Hac & Hco & Hen & Hcs).
  destruct (at_close_some y _ Hac Hcl) as [Hof Hl].
  assert (He : ended (y_prog y) = true) by (apply Hen; congruence).
  destruct Hl as [[Hl Hc]|[[Hl Hc]|([Hl|Hl] & Hc & Hk)]]; [injection Hl as -> ->..|done].
  - assert (Hpre : chunks y `prefix_of` chunks (y_closing y true [WgWait; ReaderClose])).
    { unfold ready_chunks. cbn. rewrite Hc. apply stream_chunks_prefix.
      pose proof (available_prefix (y_read y) EmptyString) as Ha. by rewrite sapp_nil_r in Ha. }
    split; [by apply close_written|]. split; [by apply (at_copy_keeps y); try done; rewrite Hc|].
    split; [done|]. by apply (copied_keeps y).
  - specialize (Hw eq_refl). assert (Hk : y_copier y = []).
    { destruct Hco as [? H2 _|k H1 [[_ H2]|[-> _]] _]; congruence. }
    split; [apply (close_waited _ [ReaderClose]); [done|by left|done..]|].
    split; [by apply (at_copy_keeps y)|]. split; [done|]. by apply (copied_keeps y).
  - split; [apply (close_waited _ []); [done|by right|done..]|].
    split; [by apply (at_copy_keeps y)|]. split; [done|]. by apply (copied_keeps y).
Qed.

Lemma inv_read (y : Pipe A) k s t :
  y_copier y = IoCopy :: k -> y_offer y = Some (s +:+ t) -> inv y -> inv (y_reads y s t).
Proof.
  intros Hk Hof (Hac & Hco & Hen & Hcs).
  destruct (at_copy_running y k Hco Hk) as (-> & Hwg & Herr).
  assert (Hnc : y_close y = None /\ y_closed y = false) by (destruct Hac; split; congruence).
  destruct Hnc as [Hcl Hnc]. split; [by apply close_handler|]. split; [by apply copy_running|].
  split; [done|]. apply (copied_keeps y); try done.
  - rewrite Hof. cbn [y_reads y_read y_offer default from_option id].
    rewrite <- sapp_assoc. f_equal. by destruct t.
  - unfold ready_chunks. cbn. rewrite Hnc. apply stream_chunks_prefix, available_mono.
Qed.

Lemma inv_copy (y : Pipe A) k chunk c' n err :
  y_copier y = IoCopy :: k -> chunks y !! y_copied y = Some chunk ->
  conn_Write chunk (y_conn y) = (c', (n, err)) -> inv y -> inv (y_copies y c' err k).
Proof.
  intros Hk Hch Hw (Hac & Hco & Hen & Hcs).
  destruct (at_copy_running y k Hco Hk) as (-> & Hwg & Herr).
  split; [apply (at_close_keeps y); [done..|congruence|done]|].
  split; [destruct err; [by apply (copy_ended _ [WgDone]); [|left|left; eexists]|by apply copy_running]|].
  split; [done|]. destruct Hcs as [Hcr|(cq & cs & m & Hg & Hseq & Hpi & Hpre & Hlen & Hcopy)]; [by left|right].
  rewrite Herr in Hcopy. exists cq, (cs ++ [chunk]), (m + n)%Z. split; [done|]. split; [done|]. split; [done|].
  rewrite <- Hlen in Hch. split; [by apply prefix_snoc_lookup|].
  split; [rewrite length_app, Hlen; simpl; lia|].
  rewrite (conn_copy_snoc _ _ _ _ _ _ Hcopy), Hw. done.
Qed.

(** [io.Copy] ends at the end of the document, and then the wait group is told. *)
Lemma inv_eof (y : Pipe A) k :
  y_copier y = IoCopy :: k -> chunks y !! y_copied y = None -> y_closed y = true ->
  inv y -> inv (y_goes_on y (y_wg y) k).
Proof.
  intros Hk Hn Hc (Hac & Hco & Hen & Hcs).
  destruct (at_copy_running y k Hco Hk) as (-> & Hwg & Herr).
  split; [apply (at_close_keeps y); [done..|congruence|done]|].
  split; [apply (copy_ended _ [WgDone]); [done|by left|by right]|].
  split; [done|]. by apply (copied_keeps y).
Qed.

Lemma inv_done (y : Pipe A) k :
  y_copier y = WgDone :: k -> inv y -> inv (y_goes_on y (pred (y_wg y)) k).
Proof.
  intros Hk (Hac & Hco & Hen & Hcs). split; [apply (at_close_keeps y); [done..|congruence|done]|].
  split; [|split; [done|by apply (copied_keeps y)]].
  destruct Hco as [H1 H2 H3|k' H1 H2 H3]; [by rewrite H1 in Hk|].
  assert (Hd : k = [] /\ y_wg y = 1) by (destruct H2 as [[-> H2]|[-> _]]; split; congruence).
  destruct Hd as [-> Hwg]. apply (copy_ended _ []); [done| |done].
  right. split; [done|]. cbn. by rewrite Hwg.
Qed.

(** Every step of either goroutine keeps the invariant. *)
Lemma inv_step (y y' : Pipe A) : steps y y' -> inv y -> inv y'.
Proof.
  intros Hs Hi. destruct Hs as [y p' w' c' Hcl Hof He Hex|y c' Hcl Hof He Hex|y Hcl Hof He|y l Hcl|y l Hcl Hw|y l Hcl|
    y k s t Hk Hn Hof Hst|y k chunk c' n err Hk Hch Hw|y k Hk Hn Hc|y k Hk].
  - by apply inv_call.
  - by apply inv_panic.
  - destruct Hi as (Hac & Hco & Hen & Hcs).
    split; [apply close_called; [done| |done]; destruct Hac; [done|congruence..]|].
    split; [by apply (at_copy_keeps y)|]. split; [done|]. by apply (copied_keeps y).
  - by apply (inv_close y l WriterClose).
  - by apply (inv_close y l WgWait).
  - by apply (inv_close y l ReaderClose).
  - by apply (inv_read y k).
  - by eapply inv_copy.
  - by apply inv_eof.
  - by apply inv_done.
Qed.

Lemma inv_steps (y y' : Pipe A) : rtc steps y y' -> inv y -> inv y'.
Proof. induction 1; eauto using inv_step. Qed.

Lemma inv_completed (y : Pipe A) a :
  inv y -> completed y a -> exec (close w0 p0) c0 = (Some a, y_conn y).
Proof.
  intros (Hac & Hco & _ & Hcs) [Hp Hend].
  destruct (at_close_some y [] Hac Hend) as [Hof [[? _]|[[? _]|(_ & Hcl & Hk)]]]; [done..|].
  destruct Hcs as [Hcr|(cq & cs & n & _ & <- & Hpi & Hpre & Hlen & Hcopy)]; [congruence|].
  rewrite Hof in Hpi. cbn [default from_option] in Hpi. rewrite sapp_nil_r in Hpi.
  rewrite Hp. unfold finish. cbn [wrap bind]. unfold ppw_Close.
  rewrite !exec_bind, exec_io_Copy. cbn [rd_chunks rd_err exec]. f_equal.
  assert (Hall : chunks y = stream_chunks (ppw_modify (y_w y)) (tokenize (piped (y_w y)))).
  { unfold ready_chunks. by rewrite Hcl, Hpi. }
  rewrite <- Hall. destruct Hpre as [ds Hds]. rewrite Hds, conn_copy_app, Hcopy.
  destruct Hco as [H1 _ _|k H1 _ [[e He]|[_ He]]]; [by rewrite H1 in Hk|by rewrite He|].
  apply lookup_ge_None in He. rewrite Hds, length_app, Hlen in He.
  assert (ds = []) as -> by (destruct ds; [done|simpl in He; lia]). by destruct (y_err y).
Qed.

(** ** The end *)

(** Handler and copying goroutine are done. *)
Definition pipe_finished (y : Pipe A) : Prop :=
  ended (y_prog y) = true /\ y_close y = Some [] /\ y_copier y = [].

(** The handler waits for a reader of the pipe, and there is none. *)
Definition pipe_stuck (y : Pipe A) : Prop :=
  y_close y = None /\ is_Some (y_offer y) /\ is_Some (y_err y) /\ y_copier y = [].

(** The handler is only ever held up by the pipe. *)
Lemma handler_moves (y : Pipe A) : y_close y = None -> y_offer y = None -> exists y', steps y y'.
Proof.
  intros Hc Ho. destruct (ended (y_prog y)) eqn:He; [eexists; by apply step_return|].
  destruct (exec (call (y_prog y) (y_w y)) (y_conn y)) as [[[p' w']|] c'] eqn:Ex;
    eexists; [by apply step_call|by apply step_panic].
Qed.

(** The copying goroutine moves, or the handler does. *)
Lemma running_moves (y : Pipe A) k :
  y_copier y = IoCopy :: k -> at_close y -> exists y', steps y y'.
Proof.
  intros Hk Hac. destruct (chunks y !! y_copied y) as [chunk|] eqn:Ech.
  { destruct (conn_Write chunk (y_conn y)) as [c' [m e]] eqn:Ew. eexists. by eapply step_copy. }
  destruct (y_offer y) as [b|] eqn:Eo.
  { eexists. eapply (step_read _ _ _ y _ b EmptyString); [done..| |done]. by rewrite sapp_nil_r. }
  destruct Hac as [H1 H2|H1 H2 H3|H1 H2 H3|l H1 H2 H3 H4 H5].
  - by apply handler_moves.
  - eexists. by eapply step_writer_close.
  - eexists. by eapply step_eof.
  - by rewrite Hk in H5.
Qed.

Lemma inv_progress (y : Pipe A) : inv y -> (exists y', steps y y') \/ pipe_finished y \/ pipe_stuck y.
Proof.
  intros (Hac & Hco & Hen & _).
  destruct Hco as [Hk Hwg Herr|k Hk [[-> Hwg]|[-> Hwg]] Hd]; [left; by eapply running_moves|..].
  { left. eexists. by eapply step_done. }
  destruct Hac as [H1 H2|H1 H2 H3|H1 H2 H3|l H1 [-> | ->] H3 H4 H5].
  - destruct (y_offer y) as [b|] eqn:Eo; [|left; by apply handler_moves].
    right. right. split; [done|]. split; [by rewrite Eo|]. split; [|done].
    destruct Hd as [Hd|[Hd _]]; [done|congruence].
  - left. eexists. by eapply step_writer_close.
  - left. eexists. by eapply step_wait.
  - left. eexists. by eapply step_reader_close.
  - right. left. split; [apply Hen; congruence|done].
Qed.

(** What a handler can be after a call. *)
Inductive after_call : prog A -> prog A -> Prop :=
  | after_GetHeader k h : after_call (k h) (GetHeader k)
  | after_PutHeader f k : after_call k (PutHeader f k)
  | after_Write b k n e : after_call (k n e) (Write b k)
  | after_WriteHeader code k : after_call k (WriteHeader code k)
  | after_Flush k b : after_call (k b) (Flush k)
  | after_ReadFrom r k e : after_call (k e) (ReadFrom r k)
  | after_ReadBody n k s e : after_call (k s e) (ReadBody n k)
  | after_panic p : ended p = false -> after_call Crash p.

Lemma after_call_wf : well_founded after_call.
Proof.
  assert (Hc : Acc after_call Crash) by (constructor; intros p Hp; inversion Hp; subst; done).
  intros p. induction p; constructor; intros q Hq; inversion Hq; subst; done || auto.
Qed.

Lemma call_after (p : prog A) w c p' w' c' :
  ended p = false -> exec (call p w) c = (Some (p', w'), c') -> after_call p' p.
Proof.
  intros He. destruct p as [a| |k|f k|b k|code k|k|r k|n k]; try done; cbn [first_call exec]; rewrite ?exec_bind.
  - intros [= <- _ _]. constructor.
  - intros [= <- _ _]. constructor.
  - destruct (exec (ppw_Write DetectContentType w b) c) as [[[w1 [n e]]|] c1]; [|done]. intros [= <- _ _]. constructor.
  - destruct (exec (ppw_WriteHeader w code) c) as [[w1|] c1]; [|done]. intros [= <- _ _]. constructor.
  - unfold ppw_Flush. cbn [p_flush bind exec]. intros [= <- _ _]. constructor.
  - intros [= <- _ _]. constructor.
  - destruct (conn_read n c) as [c1 [s e]]. cbn [exec]. intros [= <- _ _]. constructor.
Qed.

(** What is left to do: calls of the handler, statements of [Close], what is offered, chunks
    to copy, statements of the copying goroutine. *)
Definition pipe_work (y : Pipe A) : prog A * (nat * (nat * (nat * nat))) :=
  (y_prog y,
   (match y_close y with None => S (length Close_stmts) | Some l => length l end,
    (match y_offer y with None => 0 | Some s => S (String.length s) end,
     (length (chunks y) - y_copied y, length (y_copier y))))).

Definition pipe_lt := lex after_call (lex lt (lex lt (lex lt lt))).

Lemma pipe_lt_wf : well_founded pipe_lt.
Proof. repeat apply lex_wf; [apply after_call_wf|apply lt_wf..]. Qed.

Lemma pstep_work (y y' : Pipe A) : steps y y' -> pipe_lt (pipe_work y') (pipe_work y).
Proof.
  unfold pipe_lt, pipe_work. intros Hs.
  destruct Hs as [y p' w' c' Hcl Hof He Hex|y c' Hcl Hof He Hex|y Hcl Hof He|y l Hcl|y l Hcl Hw|y l Hcl|
    y k s t Hk Hn Hof Hst|y k chunk c' n err Hk Hch Hw|y k Hk Hn Hc|y k Hk].
  - left. cbn. by eapply call_after.
  - left. cbn. by apply after_panic.
  - right. split; [done|]. left. cbn [fst snd y_closing y_close]. rewrite Hcl. lia.
  - right. split; [done|]. left. cbn [fst snd y_closing y_close]. rewrite Hcl. cbn. lia.
  - right. split; [done|]. left. cbn [fst snd y_closing y_close]. rewrite Hcl. cbn. lia.
  - right. split; [done|]. left. cbn [fst snd y_closing y_close]. rewrite Hcl. cbn. lia.
  - right. split; [done|]. right. split; [done|]. left. cbn [fst snd y_reads y_offer]. rewrite Hof, slength_app.
    destruct (String.length t =? 0)%nat eqn:Et; [lia|]. apply Nat.eqb_neq in Et.
    destruct s as [|x s]; [by rewrite (Hst eq_refl) in Et|]. cbn. lia.
  - right. split; [done|]. right. split; [done|]. right. split; [done|]. left. cbn [fst snd].
    change (chunks (y_copies y c' err k)) with (chunks y). cbn [y_copies y_copied].
    apply lookup_lt_Some in Hch. lia.
  - right. split; [done|]. right. split; [done|]. right. split; [done|]. right. split; [done|].
    cbn [fst snd y_goes_on y_copier]. rewrite Hk. cbn. lia.
  - right. split; [done|]. right. split; [done|]. right. split; [done|]. right. split; [done|].
    cbn [fst snd y_goes_on y_copier]. rewrite Hk. cbn. lia.
Qed.

Lemma pstep_wf : well_founded (fun y2 y1 : Pipe A => steps y1 y2).
Proof. eapply (wf_projected pipe_lt pipe_work); [|exact pipe_lt_wf]. exact (fun y2 y1 => pstep_work y1 y2). Qed.

Lemma inv_ends (y : Pipe A) : inv y -> exists y', rtc steps y y' /\ (pipe_finished y' \/ pipe_stuck y').
Proof.
  induction (pstep_wf y) as [y _ IH]. intros Hi. destruct (inv_progress y Hi) as [[y1 Hs]|Hend]; [|by exists y].
  destruct (IH y1 Hs (inv_step y y1 Hs Hi)) as (y2 & Hr & He). exists y2. split; [by eapply rtc_l|done].
Qed.
End Schedules.

(** ** Pages *)

Fixpoint writes (bs : list string) : prog unit :=
  match bs with
  | [] => Ret tt
  | b :: bs => Write b (fun _ _ => writes bs)
  end.

(** A handler that sends headers, a status and a body in pieces. *)
Definition page (h : Header) (code : Z) (bs : list string) : prog unit :=
  PutHeader (fun _ => h) (WriteHeader code (writes bs)).

Section Pages.
Context (DetectContentType : string -> string) (tokenize : string -> list Token).
Context (tokenize_empty : tokenize EmptyString = []).

#[local] Abbreviation wrapped :=
  (@wrap _ _ (ppw_Writer DetectContentType) (ppw_Close tokenize)).

Lemma writes_html bs w c :
  headerSent w = true -> isHTML w = true ->
  exec (wrapped (writes bs) w) c = (Some (pipe_write (str_concat bs) w, tt), c).
Proof.
  revert w. induction bs as [|b bs IH]; intros w Hs Hh; cbn [writes wrap exec str_concat].
  { do 3 f_equal. destruct w. unfold pipe_write. cbn. by rewrite sapp_nil_r. }
  rewrite exec_bind. cbn [w_Write ppw_Writer]. unfold ppw_Write.
  rewrite Hs. cbn [negb bind]. rewrite Hh. cbn [exec]. rewrite IH by done.
  do 3 f_equal. unfold pipe_write. cbn. by rewrite sapp_assoc.
Qed.

Lemma writes_plain code bs w c :
  headerSent w = true -> isHTML w = false -> taking code c ->
  exists c', exec (wrapped (writes bs) w) c = (Some (w, tt), c') /\
    taking code c' /\ with_body (str_concat bs) c c'.
Proof.
  intros Hs Hh. revert c. induction bs as [|b bs IH]; intros c Hc; cbn [writes wrap exec str_concat].
  { exists c. split; [done|]. split; [done|]. by split; rewrite ?sapp_nil_r. }
  rewrite exec_bind. cbn [w_Write ppw_Writer]. unfold ppw_Write.
  rewrite Hs. cbn [negb bind]. rewrite Hh. cbn [p_write bind exec].
  pose proof (conn_Write_taking code b c Hc) as Hw.
  destruct (conn_Write b c) as [c1 [n e]]. destruct Hw as (Hc1 & [Hb Hse] & _). cbn [exec].
  destruct (IH c1 Hc1) as (c' & -> & Ht & Hb' & Hs'). exists c'. split; [done|].
  split; [done|]. split; [by rewrite Hb', Hb, sapp_assoc | by rewrite Hs'].
Qed.

(** Headers as the writer sends them. *)
Definition moved_location (hostname hostPath targetPath : string) (h : Header) : Header :=
  let location := Header_Get h "Location" in
  if (0 <? String.length location)%nat
  then Header_Set "Location" (updateLocation location hostname hostPath targetPath) h else h.

Definition is_html (h : Header) : bool := HasPrefix (Header_Get h "Content-Type") "text/html".

Lemma ppw_WriteHeader_exec w code c :
  c_status c = None ->
  let h := moved_location (hostname w) (hostPath w) (targetPath w) (c_live c) in
  let sent := if is_html h then Header_Del "Content-Length" h else h in
  let w' := if is_html h then set_isHTML (set_headerSent w) else set_headerSent w in
  exec (ppw_WriteHeader w code) c =
  match conn_WriteHeader code (set_live sent c) with
  | Some c' => (Some w', c')
  | None => (None, set_live sent c)
  end.
Proof.
  intros Hst. cbv zeta. unfold ppw_WriteHeader, p_header, p_put, p_write_header. cbn [bind exec].
  rewrite exec_bind. unfold moved_location.
  assert (Hid : c = set_live (c_live c) c) by (by destruct c).
  destruct (0 <? String.length (Header_Get (c_live c) "Location"))%nat; cbn [exec bind];
    cbn [c_live set_live hostname hostPath targetPath set_headerSent]; rewrite exec_bind.
  - unfold is_html. destruct (HasPrefix _ "text/html"); cbn [bind exec]; done.
  - unfold is_html. destruct (HasPrefix _ "text/html"); cbn [bind exec]; rewrite <- ?Hid; done.
Qed.

Lemma page_exec hostname hostPath targetPath h code bs c :
  c_status c = None -> c_limit c = None -> c_length c = None ->
  (100 <= code <= 999)%Z -> bodyAllowed code = true ->
  let h1 := moved_location hostname hostPath targetPath h in
  let html := is_html h1 in
  (html = false -> Header_Get h1 "Content-Length" = EmptyString) ->
  let res := exec (with_prefix_writer DetectContentType tokenize hostname hostPath targetPath
                     (page h code bs)) c in
  res.1 = Some tt /\ c_status res.2 = Some code /\
  c_sent res.2 = (if html then Header_Del "Content-Length" h1 else h1) /\
  c_body res.2 = c_body c +:+
    (if html
     then str_concat (rendered (modifyToken hostname hostPath targetPath)
                        (tokenize (str_concat bs)) 0)
     else str_concat bs).
Proof.
  intros Hst Hlim Hlen Hcode Hall h1 html Hcl. cbv zeta.
  unfold with_prefix_writer, finish, page. cbn [wrap bind exec]. rewrite !exec_bind.
  cbn [w_WriteHeader ppw_Writer].
  rewrite ppw_WriteHeader_exec by done.
  cbn [c_live set_live PrefixWriter.hostname PrefixWriter.hostPath PrefixWriter.targetPath
       NewPathPrefixHTMLResponseWriter].
  fold h1. fold html.
  set (sent := if html then Header_Del "Content-Length" h1 else h1).
  assert (Hcl' : Header_Get sent "Content-Length" = EmptyString).
  { unfold sent. destruct html; [|auto]. unfold Header_Get. by rewrite Header_Values_Del. }
  assert (Hw : exists c1, conn_WriteHeader code (set_live sent (set_live h c)) = Some c1 /\
    taking code c1 /\ c_sent c1 = sent /\ c_body c1 = c_body c).
  { unfold conn_WriteHeader. cbn [c_status set_live c_live]. rewrite Hst.
    rewrite (proj2 (Z.ltb_ge _ _)), (proj2 (Z.ltb_ge _ _)) by lia. cbn [orb].
    rewrite Hcl'. cbn [String.length Nat.eqb]. eexists. split; [done|].
    by repeat split. }
  destruct Hw as (c1 & -> & Htk & Hsent & Hbody).
  set (w1 := set_headerSent _).
  destruct html eqn:Eh.
  - rewrite writes_html by done. rewrite exec_bind. unfold ppw_Close. rewrite !exec_bind.
    rewrite exec_io_Copy. cbn [rd_chunks rd_err exec fst snd].
    destruct (conn_copy_taking code (stream_chunks (ppw_modify (pipe_write (str_concat bs)
      (set_isHTML w1))) (tokenize (piped (pipe_write (str_concat bs) (set_isHTML w1))))) 0 c1 Htk)
      as (Ht & Hb & Hs).
    split; [done|]. split; [apply Ht|]. split; [by rewrite Hs|].
    rewrite Hb, Hbody, stream_chunks_concat. cbn [piped pipe_write set_isHTML w1 set_headerSent
      NewPathPrefixHTMLResponseWriter]. by rewrite sapp_nil_l.
  - destruct (writes_plain code bs w1 c1 eq_refl eq_refl Htk) as (c2 & -> & Ht2 & Hb2 & Hs2).
    rewrite exec_bind. unfold ppw_Close. rewrite !exec_bind, exec_io_Copy.
    cbn [rd_chunks rd_err exec fst snd].
    assert (Hno : tokenize (piped w1) = []) by done. rewrite Hno. cbn.
    split; [done|]. split; [apply Ht2|]. split; [by rewrite Hs2|]. by rewrite Hb2, Hbody.
Qed.
End Pages.

(** ** Properties *)

Section Properties.
Context (DetectContentType : string -> string) (tokenize available : string -> list Token).

(** What a tokenizer of a stream does: what it tells from the beginning of a document
    stays when more of the document arrives, and an empty document has no tokens. *)
Context (available_prefix : forall a b, available a `prefix_of` tokenize (a +:+ b)).
Context (available_mono : forall a b, available a `prefix_of` available (a +:+ b)).
Context (tokenize_empty : tokenize EmptyString = []).

#[local] Abbreviation steps := (pstep DetectContentType tokenize available).

#[local] Abbreviation new_writer := NewPathPrefixHTMLResponseWriter.

Lemma start_inv {A} hostname hostPath targetPath (p : prog A) c :
  let w := new_writer hostname hostPath targetPath in
  inv DetectContentType tokenize available w p c (start w p c).
Proof.
  cbv zeta. split; [by apply close_handler|]. split; [by apply copy_running|]. split; [done|]. right.
  exists c, [], 0%Z. cbn [start y_prog y_w y_conn y_copied y_err y_read y_offer].
  split; [by constructor|]. split; [done|]. split; [done|]. split; [apply prefix_nil|]. done.
Qed.

Lemma reachable_inv {A} hostname hostPath targetPath (p : prog A) c y :
  rtc steps (start (new_writer hostname hostPath targetPath) p c) y ->
  inv DetectContentType tokenize available (new_writer hostname hostPath targetPath) p c y.
Proof. intros Hr. eapply inv_steps; [done..|apply start_inv]. Qed.

(** C23. The copying goroutine changes nothing: however its work interleaves with the
    handler's calls, a request that completes leaves the exchange exactly as when the
    rewritten document is copied once, when the writer is closed. *)
Theorem prefix_writer_schedule_independent {A} hostname hostPath targetPath (p : prog A) c y a :
  rtc steps (start (new_writer hostname hostPath targetPath) p c) y ->
  completed y a ->
  exec (with_prefix_writer DetectContentType tokenize hostname hostPath targetPath p) c =
  (Some a, y_conn y).
Proof.
  intros Hr Hc. unfold with_prefix_writer.
  eapply (inv_completed DetectContentType tokenize available); [|exact Hc]. by apply reachable_inv.
Qed.

(** C24. Handler and copying goroutine end.  Whatever was done so far, every way to go on is
    finite and leads to one of two states: handler, [Close] and the copying goroutine are all
    done (the handler returned or panicked), or the handler is held up in a write to the pipe
    after [io.Copy] ended with a write error and the copying goroutine is gone.  There is no
    other state in which nothing moves: a write is read, [Close] waits for a goroutine that
    tells the wait group. *)
Theorem prefix_writer_progress {A} hostname hostPath targetPath (p : prog A) c y :
  rtc steps (start (new_writer hostname hostPath targetPath) p c) y ->
  Acc (fun y2 y1 => steps y1 y2) y /\
  (exists y', rtc steps y y' /\ (pipe_finished y' \/ pipe_stuck y')) /\
  ((forall y', ~ steps y y') -> pipe_finished y \/ pipe_stuck y).
Proof.
  intros Hr. apply reachable_inv in Hr. split; [apply pstep_wf|]. split.
  - eapply inv_ends; [done..|exact Hr].
  - intros Hn. eapply inv_progress in Hr as [[y' Hs]|He]; [by apply Hn in Hs|done].
Qed.

(** The bug in the pipe: once the copying goroutine has stopped on a write error (a client
    that went away), nothing reads the pipe any more, and a handler that writes more of its
    HTML response is held up for ever, with the [Close] it deferred. *)
Theorem pipe_write_blocks_forever {A} (y : Pipe A) b :
  y_close y = None -> y_offer y = Some b -> y_copier y = [WgDone] \/ y_copier y = [] ->
  forall y', rtc steps y y' -> y_offer y' = Some b /\ forall a, ~ completed y' a.
Proof.
  intros Hc Ho Hk y' Hr. assert (H : y_close y' = None /\ y_offer y' = Some b).
  { induction Hr as [y|y y1 y2 Hs _ IH]; [done|].
    assert (Hcop : forall k, y_copier y = IoCopy :: k -> False) by (intros k Hk'; destruct Hk; congruence).
    destruct Hs as [| | |? l H|? l H|? l H|? k s t H|? k s t ? ? H|? k H|y k H]; try congruence;
      [by apply Hcop in H..|].
    apply IH; [done..|]. cbn. destruct Hk as [Hk|Hk]; rewrite Hk in H; [injection H as <-; auto|done]. }
  destruct H as [Hc' Ho']. split; [done|]. intros a [_ Hd]. congruence.
Qed.

(** C25. A page through the prefix writer: the status is the handler's, a location
    header is moved under the prefix; an HTML body is the rewritten rendering of the
    whole body's tokens, however it was cut into writes, and is sent without the
    length the handler declared; any other body goes through as it is. *)
Theorem page_through_prefix_writer hostname hostPath targetPath h code bs c :
  c_status c = None -> c_limit c = None -> c_length c = None ->
  (100 <= code <= 999)%Z -> bodyAllowed code = true ->
  let h1 := moved_location hostname hostPath targetPath h in
  let html := is_html h1 in
  (html = false -> Header_Get h1 "Content-Length" = EmptyString) ->
  let res := exec (with_prefix_writer DetectContentType tokenize hostname hostPath targetPath
                     (page h code bs)) c in
  res.1 = Some tt /\ c_status res.2 = Some code /\
  c_sent res.2 = (if html then Header_Del "Content-Length" h1 else h1) /\
  c_body res.2 = c_body c +:+
    (if html
     then str_concat (rendered (modifyToken hostname hostPath targetPath)
                        (tokenize (str_concat bs)) 0)
     else str_concat bs).
Proof. by apply page_exec. Qed.
End Properties.

(** ** Witnesses *)

(** A tokenizer that takes every byte for a token of text, and tells it as soon as
    it arrives. *)
Definition byte_tokens (s : string) : list Token := (fun c => text_token (str1 c)) <$> chars s.

Lemma byte_tokens_prefix a b : byte_tokens a `prefix_of` byte_tokens (a +:+ b).
Proof. unfold byte_tokens. rewrite chars_app, fmap_app. by apply prefix_app_r. Qed.

Definition html_headers : Header := {[ "Content-Type" := ["text/html"]; "Content-Length" := ["3"] ]}.

Definition sniff (s : string) : string := "text/html".

(** A step of the handler's goroutine, or one of the copying goroutine, reading at most [n]
    bytes if it reads. *)
Inductive choice := Handler | Copier (n : nat).

Definition do_handler (y : Pipe unit) : option (Pipe unit) :=
  match y_close y, y_offer y with
  | None, None =>
      if ended (y_prog y) then Some (y_closing y (y_closed y) Close_stmts)
      else match exec (first_call sniff (y_prog y) (y_w y)) (y_conn y) with
           | (Some (p', w'), c') => Some (y_called y p' w' c')
           | (None, c') => Some (y_panicked y c')
           end
  | Some (WriterClose :: l), _ => Some (y_closing y true l)
  | Some (WgWait :: l), _ => match y_wg y with 0 => Some (y_closing y (y_closed y) l) | S _ => None end
  | Some (ReaderClose :: l), _ => Some (y_closing y (y_closed y) l)
  | _, _ => None
  end.

Definition do_copier (n : nat) (y : Pipe unit) : option (Pipe unit) :=
  match y_copier y with
  | IoCopy :: k =>
      match ready_chunks byte_tokens byte_tokens y !! y_copied y, y_offer y with
      | Some chunk, _ =>
          let '(c', (_, err)) := conn_Write chunk (y_conn y) in Some (y_copies y c' err k)
      | None, Some b => match n with 0 => None | S _ => Some (y_reads y (str_take n b) (str_drop n b)) end
      | None, None => if y_closed y then Some (y_goes_on y (y_wg y) k) else None
      end
  | WgDone :: k => Some (y_goes_on y (pred (y_wg y)) k)
  | [] => None
  end.

Definition do_step (ch : choice) : Pipe unit -> option (Pipe unit) :=
  match ch with Handler => do_handler | Copier n => do_copier n end.

Fixpoint do_steps (schedule : list choice) (y : Pipe unit) : option (Pipe unit) :=
  match schedule with
  | [] => Some y
  | s :: schedule => y ← do_step s y; do_steps schedule y
  end.

Lemma do_handler_sound y y' : do_handler y = Some y' -> pstep sniff byte_tokens byte_tokens y y'.
Proof.
  unfold do_handler.
  destruct (y_close y) as [[|[] l]|] eqn:Ec, (y_offer y) eqn:Eo; try done;
    try (intros [= <-]; by constructor);
    try (destruct (y_wg y) eqn:Ew; [intros [= <-]; by constructor|done]).
  destruct (ended (y_prog y)) eqn:Ee; [intros [= <-]; by constructor|].
  destruct (exec (first_call sniff (y_prog y) (y_w y)) (y_conn y)) as [[[p' w']|] c'] eqn:Ex;
    intros [= <-]; [by apply step_call|by apply step_panic].
Qed.

Lemma do_copier_sound n y y' : do_copier n y = Some y' -> pstep sniff byte_tokens byte_tokens y y'.
Proof.
  unfold do_copier. destruct (y_copier y) as [|[] k] eqn:Ek; [done| |intros [= <-]; by constructor].
  destruct (ready_chunks _ _ _ !! y_copied y) as [chunk|] eqn:Ech.
  { destruct (conn_Write chunk (y_conn y)) as [c' [m err]] eqn:Ew. intros [= <-]. by eapply step_copy. }
  destruct (y_offer y) as [b|] eqn:Eo.
  - destruct n as [|n]; [done|]. intros [= <-]. apply (step_read _ _ _ y k (str_take (S n) b) (str_drop (S n) b)); [done..| |].
    + rewrite (stake_drop_app (S n) b). exact Eo.
    + by destruct b.
  - destruct (y_closed y) eqn:Ec; [|done]. intros [= <-]. by apply step_eof.
Qed.

Lemma do_steps_sound schedule y y' :
  do_steps schedule y = Some y' -> rtc (pstep sniff byte_tokens byte_tokens) y y'.
Proof.
  revert y. induction schedule as [|s schedule IH]; intros y; cbn [do_steps].
  { intros [= <-]. constructor. }
  destruct (do_step s y) as [y1|] eqn:E; [|done]. intros Hs.
  eapply rtc_l; [|by apply IH]. destruct s; [by apply do_handler_sound|by eapply do_copier_sound].
Qed.

Lemma do_steps_default schedule y :
  bool_decide (is_Some (do_steps schedule y)) = true ->
  rtc (pstep sniff byte_tokens byte_tokens) y (default y (do_steps schedule y)).
Proof.
  intros Hs. apply bool_decide_eq_true_1 in Hs as [y' Hy]. rewrite Hy.
  by eapply do_steps_sound.
Qed.

Definition demo_page : prog unit := page html_headers 200 ["a<"; "b"].
Definition demo_writer : pathPrefixWriter := NewPathPrefixHTMLResponseWriter "h" "/p" "".

Lemma page_through_prefix_writer_witness :
  let res := exec (with_prefix_writer sniff byte_tokens "h" "/p" "" demo_page)
               (new_Conn EmptyString None) in
  c_body res.2 = "a&lt;b" /\ res.1 = Some tt /\ Header_Get (c_sent res.2) "Content-Length" = "".
Proof.
  pose proof (page_through_prefix_writer sniff byte_tokens eq_refl "h" "/p" "" html_headers 200
    ["a<"; "b"] (new_Conn EmptyString None) eq_refl eq_refl eq_refl ltac:(lia) eq_refl) as Hp.
  cbv zeta in Hp. destruct Hp as (H1 & _ & H3 & H4); [intros Hf; vm_compute in Hf; discriminate|].
  cbv zeta. unfold demo_page. split; [|split; [exact H1|]].
  - etransitivity; [exact H4 | vm_compute; reflexivity].
  - etransitivity; [exact (f_equal (fun h => Header_Get h "Content-Length") H3) | vm_compute; reflexivity].
Defined.

(** Headers, first write, of which one byte is read and copied; the rest is read, and the
    second write is done while it is copied; then the end of both. *)
Definition demo_start : Pipe unit := start demo_writer demo_page (new_Conn EmptyString None).
Definition demo_begin : list choice :=
  [Handler; Handler; Handler; Copier 1; Copier 1; Copier 7].
Definition demo_rest : list choice :=
  [Handler; Copier 7; Copier 7; Handler; Copier 7; Handler; Copier 7; Copier 7; Handler; Handler].
Definition demo_mid : Pipe unit := default demo_start (do_steps demo_begin demo_start).
Definition demo_end : Pipe unit := default demo_start (do_steps (demo_begin ++ demo_rest) demo_start).

Lemma prefix_writer_schedule_independent_witness :
  exec (with_prefix_writer sniff byte_tokens "h" "/p" "" demo_page) (new_Conn EmptyString None) =
    (Some tt, y_conn demo_end) /\ c_body (y_conn demo_end) = "a&lt;b".
Proof.
  split; [|vm_compute; reflexivity].
  apply (prefix_writer_schedule_independent sniff byte_tokens byte_tokens byte_tokens_prefix
    byte_tokens_prefix eq_refl "h" "/p" "" demo_page (new_Conn EmptyString None) demo_end tt).
  - apply (do_steps_default (demo_begin ++ demo_rest) demo_start). vm_compute. reflexivity.
  - split; vm_compute; reflexivity.
Defined.

(** A client that goes away after the first byte of an HTML response. *)
Definition broken_start : Pipe unit :=
  start demo_writer (page html_headers 200 ["ab"; "c"]) (new_Conn EmptyString (Some 1)).
Definition broken_begin : list choice :=
  [Handler; Handler; Handler; Copier 7; Copier 7; Copier 7; Handler].
Definition broken_mid : Pipe unit := default broken_start (do_steps broken_begin broken_start).

Lemma prefix_writer_progress_witness :
  y_offer demo_mid = None /\ length (y_copier demo_mid) = 2 /\
  (exists y', rtc (pstep sniff byte_tokens byte_tokens) demo_mid y' /\ (pipe_finished y' \/ pipe_stuck y')) /\
  y_offer broken_mid = Some "c" /\
  (exists y', rtc (pstep sniff byte_tokens byte_tokens) broken_mid y' /\ (pipe_finished y' \/ pipe_stuck y')).
Proof.
  split; [vm_compute; reflexivity|]. split; [vm_compute; reflexivity|]. split; [|split; [vm_compute; reflexivity|]].
  - apply (prefix_writer_progress sniff byte_tokens byte_tokens byte_tokens_prefix
      byte_tokens_prefix eq_refl "h" "/p" "" demo_page (new_Conn EmptyString None) demo_mid).
    apply (do_steps_default demo_begin demo_start). vm_compute. reflexivity.
  - apply (prefix_writer_progress sniff byte_tokens byte_tokens byte_tokens_prefix
      byte_tokens_prefix eq_refl "h" "/p" "" (page html_headers 200 ["ab"; "c"])
      (new_Conn EmptyString (Some 1)) broken_mid).
    apply (do_steps_default broken_begin broken_start). vm_compute. reflexivity.
Defined.

Lemma pipe_write_blocks_forever_witness :
  rtc (pstep sniff byte_tokens byte_tokens) broken_start broken_mid /\ y_err broken_mid <> None /\
  forall y', rtc (pstep sniff byte_tokens byte_tokens) broken_mid y' ->
    y_offer y' = Some "c" /\ forall a, ~ completed y' a.
Proof.
  split; [apply (do_steps_default broken_begin); vm_compute; reflexivity|].
  split; [vm_compute; discriminate|].
  apply (pipe_write_blocks_forever sniff byte_tokens byte_tokens broken_mid "c");
    [vm_compute; reflexivity..|left; vm_compute; reflexivity].
Defined.
