(* ===== verification/FileServer.v ===== *)
(** pkg/fileserver: serving files and directory listings under a root directory.

    The operating system is an argument ([OS]): what [lstat], [readlink] and [open]
    answer for a path.  [http.ServeContent] is a parameter of the handler; the page of a
    listing is that of [Listing]. *)

From S2P Require Import Prelude GoStrings Glob Url Http Util GoPath Listing.

Local Open Scope go_scope.
Local Open Scope prog_scope.

(** ** Files *)

(** [os.FileInfo]; times are Unix seconds, [Ctim] is the system's creation time when
    [Sys()] gives one. *)
Record FileInfo := mk_FileInfo {
  Name : string;
  Size : Z;
  IsDir : bool;
  IsSymlink : bool;
  ModTime : Z;
  Ctim : option Z
}.

(** An open [http.File] as what its methods return; [f_seek] is the error of
    [Seek(0, io.SeekStart)]. *)
Record File := mk_File {
  f_Stat : result FileInfo;
  f_Readdir : result (list FileInfo);
  f_seek : option string;
  f_reader : Reader
}.

(** [http.FileSystem] *)
Definition FileSystem := string -> result File.

(** ** Directory *)

Definition ErrOutsideRoot : string := "File points outside of the root directory".
Definition ErrSymlinkMaxDepth : string := "Symlink max depth exceeded".

Record OS := mk_OS {
  Getwd : result string;
  Lstat : string -> result FileInfo;
  Readlink : string -> result string;
  os_Open : string -> result File
}.

Section Directory.
Context (os : OS).

(** [filepath.Abs] of the root, the empty name standing for the working directory. *)
Definition absRoot (root : string) : result string :=
  Abs (Getwd os) (if String.eqb root EmptyString then "." else root).

(** The path below the root a checked file name is opened as. *)
Definition below_root (abs filename : string) : string :=
  let resolvedPath := TrimPrefix filename abs in
  if (String.length resolvedPath =? 0)%nat then "."
  else if HasPrefix resolvedPath slash then str_drop 1 resolvedPath
  else resolvedPath.

(** The loop of [resolve]; [more] is [16 - depth]. *)
Fixpoint resolve_loop (more : nat) (abs filename : string) : result string :=
  match Lstat os filename with
  | Err err => Err err
  | Ok fi =>
      if negb (IsSymlink fi) then
        if negb (HasPrefix filename abs) then Err ErrOutsideRoot
        else Ok (below_root abs filename)
      else
        match Readlink os filename with
        | Err err => Err err
        | Ok filename =>
            match more with
            | O => Err ErrSymlinkMaxDepth
            | S more => resolve_loop more abs filename
            end
        end
  end.

Definition max_depth : nat := 16.

Definition resolve (root relPath : string) : result string :=
  try abs <- absRoot root;;
  resolve_loop max_depth abs (path_Join [abs; relPath]).

(** [http.Dir(root).Open(name)]: the name is made absolute and cleaned, then taken
    below the root. *)
Definition http_Dir_name (root name : string) : string :=
  path_Join [if String.eqb root EmptyString then "." else root; Clean (slash +:+ name)].

Definition Directory_Open (root relPath : string) : result File :=
  match resolve root relPath with
  | Err err => Err err
  | Ok filename =>
      match os_Open os (http_Dir_name root filename) with
      | Err _ => Err ("Failed to open: " +:+ relPath)
      | Ok file => Ok file
      end
  end.
End Directory.

(** ** Listings *)

(** [getCreationTime] (Linux). *)
Definition getCreationTime (fi : FileInfo) : Z := default (ModTime fi) (Ctim fi).

(** [syscall.Filetime] and its [Nanoseconds]: units of 100ns since 1601. *)
Record Filetime := mk_Filetime { LowDateTime : Z; HighDateTime : Z }.          (* uint32 *)

Definition Filetime_Nanoseconds (ft : Filetime) : Z :=
  let nsec := i64_add (i64_wrap (Z.shiftl (HighDateTime ft) 32)) (LowDateTime ft) in
  let nsec := i64_add nsec (-116444736000000000) in
  i64_wrap (nsec * 100).

(** [getCreationTime] (Windows): [sys] is the [CreationTime] of the attributes, if they are
    known. *)
Definition getCreationTime_windows (sys : option Filetime) (fi : FileInfo) : Z :=
  match sys with
  | Some ft => (Filetime_Nanoseconds ft / 10 ^ 9)%Z
  | None => ModTime fi
  end.

(** [sort.SliceStable]: a stable sort, here by insertion from the right. *)
Section Sort.
Context {A : Type} (less : A -> A -> bool).

Fixpoint sort_insert (x : A) (l : list A) : list A :=
  match l with
  | [] => [x]
  | y :: l' => if less y x then y :: sort_insert x l' else x :: l
  end.

Fixpoint SliceStable (l : list A) : list A :=
  match l with
  | [] => []
  | x :: l => sort_insert x (SliceStable l)
  end.
End Sort.

Definition name_less (a b : FileInfo) : bool := String.ltb (Name a) (Name b).
Definition dir_less (a b : FileInfo) : bool := IsDir a && negb (IsDir b).

Definition sort_files (files : list FileInfo) : list FileInfo :=
  SliceStable dir_less (SliceStable name_less files).

Section Handler.
(** [Time.Format] with the listing's layout. *)
Context (format_time : Z -> string).
(** [%q] *)
Context (Quote : string -> string).
(** [http.ServeContent(w, r, name, modtime, file)] *)
Context (ServeContent : Request -> string -> Z -> File -> prog unit).

Definition newFsEntry (fi : FileInfo) (prefix : string) : outcome fsEntry :=
  let! size := ByteCountIEC (Size fi) in
  Return (mk_fsEntry (if IsDir fi then "&#128194;" else "&#128196;")
    (Name fi) (path_Join [prefix; Name fi]) size
    (format_time (ModTime fi)) (format_time (getCreationTime fi))).

Fixpoint newFsEntries (files : list FileInfo) (prefix : string) : outcome (list fsEntry) :=
  match files with
  | [] => Return []
  | fi :: files =>
      let! e := newFsEntry fi prefix in
      let! entries := newFsEntries files prefix in
      Return (e :: entries)
  end.

Definition parent_entry (uri : string) : fsEntry :=
  mk_fsEntry "&#128194;" ".." (path_Dir uri) "" "" "".

(** The entries [handleDir] lists for a directory's files. *)
Definition dir_entries (files : list FileInfo) (uri : string) : outcome (list fsEntry) :=
  let! entries := newFsEntries (sort_files files) uri in
  Return ((if negb (String.eqb uri ".") && negb (String.eqb uri slash)
           then [parent_entry uri] else []) ++ entries).

Definition handleDir (dir : File) (uri : string) : prog unit :=
  match f_Readdir dir with
  | Err err => http_Error err 500
  | Ok files =>
      let* entries := p_outcome (dir_entries files uri) in
      do* template_Execute (fsTemplate entries) in Ret tt
  end.

(** The handler of [FileServer(fs)]. *)
Definition FileServer (fs : FileSystem) : HandlerFunc := fun r =>
  let uri := Clean (Path (r_URL r)) in
  match fs uri with
  | Err err => http_Error err 404
  | Ok file =>
      match f_Stat file with
      | Err err => http_Error err 500
      | Ok fi =>
          if IsDir fi then handleDir file uri
          else
            let* _ :=
              match f_seek file with
              | None => Ret tt
              | Some _ =>
                  do* p_put (Header_Set "Content-Disposition"
                        ("attachment; filename=" +:+ Quote (Name fi))) in
                  do* io_Copy (f_reader file) in Ret tt
              end in
            ServeContent r (Name fi) (ModTime fi) file
      end
  end.
End Handler.

(** On Windows the time is right from 1678 to 2262; before, as for a file without creation
    time, the multiplication overflows. *)
Lemma getCreationTime_windows_exact ft fi :
  u32_range (LowDateTime ft) -> u32_range (HighDateTime ft) ->
  let units := (HighDateTime ft * 2 ^ 32 + LowDateTime ft - 116444736000000000)%Z in
  i64_range (units * 100) ->
  (10 ^ 9 * getCreationTime_windows (Some ft) fi <= units * 100 < 10 ^ 9 * (getCreationTime_windows (Some ft) fi + 1))%Z.
Proof.
  intros Hl Hh units Hu. assert (He : Filetime_Nanoseconds ft = (units * 100)%Z).
  { unfold Filetime_Nanoseconds, i64_add, units. rewrite Z.shiftl_mul_pow2 by lia.
    unfold i64_range, u32_range in *. rewrite (i64_wrap_add_l (HighDateTime ft * 2 ^ 32)), i64_wrap_add_l.
    rewrite (i64_wrap_small (_ + _ + _)); [rewrite i64_wrap_small; unfold i64_range; lia|].
    unfold i64_range. lia. }
  cbn [getCreationTime_windows]. rewrite He.
  pose proof (Z.mul_div_le (units * 100) (10 ^ 9)). pose proof (Z.mul_succ_div_gt (units * 100) (10 ^ 9)). lia.
Qed.

Lemma getCreationTime_windows_none fi :
  getCreationTime_windows (Some (mk_Filetime 0 0)) fi = 6802270473%Z.
Proof. reflexivity. Qed.

(** ** Lemmas: sorting *)

Lemma string_compare_trans s t u :
  String.compare s t <> Gt -> String.compare t u <> Gt -> String.compare s u <> Gt.
Proof.
  revert t u. induction s as [|a s IH]; intros [|b t] [|c u]; cbn [String.compare]; try done.
  unfold Ascii.compare. destruct (N.compare_spec (N_of_ascii a) (N_of_ascii b)) as [Hab|Hab|Hab],
    (N.compare_spec (N_of_ascii b) (N_of_ascii c)) as [Hbc|Hbc|Hbc],
    (N.compare_spec (N_of_ascii a) (N_of_ascii c)) as [Hac|Hac|Hac]; try done; try lia.
  apply IH.
Qed.

(** The order of names, and that of a listing: directories first, then by name. *)
Definition name_le (a b : FileInfo) : Prop := String.compare (Name a) (Name b) <> Gt.

Definition listing_le (a b : FileInfo) : Prop :=
  if Bool.eqb (IsDir a) (IsDir b) then name_le a b else IsDir a = true.

Lemma name_less_le a b : name_less b a = false -> name_le a b.
Proof.
  unfold name_less, name_le, String.ltb. rewrite String.compare_antisym.
  by destruct (String.compare (Name a) (Name b)).
Qed.

Lemma name_less_lt a b : name_less a b = true -> name_le a b.
Proof.
  unfold name_less, name_le, String.ltb. by destruct (String.compare (Name a) (Name b)).
Qed.

Section SortLemmas.
Context {A : Type} (less : A -> A -> bool).

Lemma sort_insert_Permutation x (l : list A) : sort_insert less x l ≡ₚ x :: l.
Proof.
  induction l as [|y l IH]; [done|]. cbn [sort_insert].
  destruct (less y x); [|done]. rewrite IH. constructor.
Qed.

Lemma SliceStable_Permutation (l : list A) : SliceStable less l ≡ₚ l.
Proof.
  induction l as [|x l IH]; [done|]. cbn [SliceStable]. by rewrite sort_insert_Permutation, IH.
Qed.

(** Insertion keeps an order the new element fits in. *)
Lemma sort_insert_sorted (R : relation A) x l :
  StronglySorted R l ->
  (forall y, y ∈ l -> less y x = true -> R y x) ->
  (forall y z, y ∈ l -> z ∈ l -> y = z \/ R y z -> less y x = false -> R x z) ->
  StronglySorted R (sort_insert less x l).
Proof.
  intros Hl. induction Hl as [|y l Hl IH Hy]; intros H1 H2; [by repeat constructor|].
  cbn [sort_insert]. destruct (less y x) eqn:E.
  - constructor; [apply IH; intros; [apply H1|eapply H2]; set_solver|].
    rewrite sort_insert_Permutation. constructor; [apply H1; [set_solver|done]|done].
  - constructor; [by constructor|]. constructor; [eapply (H2 y y); [set_solver..|by left|done]|].
    rewrite Forall_forall in Hy |- *. intros z Hz. eapply (H2 y z); [set_solver..|right; auto|done].
Qed.
End SortLemmas.

Lemma name_sorted l : StronglySorted name_le (SliceStable name_less l).
Proof.
  induction l as [|x l IH]; [constructor|]. cbn [SliceStable].
  apply sort_insert_sorted; [done| |].
  - intros y _ Hy. by apply name_less_lt.
  - intros y z _ _ Hyz Hy. apply name_less_le in Hy.
    destruct Hyz as [->|Hyz]; [done|]. by eapply string_compare_trans.
Qed.

Lemma dir_sorted l : StronglySorted name_le l -> StronglySorted listing_le (SliceStable dir_less l).
Proof.
  induction 1 as [|x l _ IH Hx]; [constructor|]. cbn [SliceStable].
  rewrite Forall_forall in Hx. setoid_rewrite <- (SliceStable_Permutation dir_less l) in Hx.
  apply sort_insert_sorted; [done| |]; unfold dir_less, listing_le.
  - intros y Hy Hyx. bool_prop. by rewrite H, H0.
  - intros y z Hy Hz Hyz Hyx. pose proof (Hx y Hy). pose proof (Hx z Hz).
    destruct (IsDir x) eqn:Ex, (IsDir y) eqn:Ey, (IsDir z) eqn:Ez; cbn [Bool.eqb andb negb] in *;
      try done; destruct Hyz as [->|Hyz]; congruence.
Qed.

(** ** Lemmas: paths *)

Lemma LastIndexByte_None s c : str_elem c s = false -> LastIndexByte s c = None.
Proof.
  induction s as [|d s IH]; [done|]. cbn [str_elem LastIndexByte]. intros H. bool_prop.
  rewrite IH by done. by rewrite (proj2 (Ascii.eqb_neq _ _)).
Qed.

Lemma LastIndexByte_last a c n :
  str_elem c n = false -> LastIndexByte (a +:+ String c n) c = Some (String.length a).
Proof.
  intros Hn. induction a as [|d a IH].
  - rewrite sapp_nil_l. cbn [LastIndexByte]. rewrite LastIndexByte_None by done.
    by rewrite Ascii.eqb_refl.
  - rewrite sapp_cons. cbn [LastIndexByte]. by rewrite IH.
Qed.

Lemma path_Split_last a n :
  str_elem slash_c n = false -> path_Split (a +:+ slash +:+ n) = (a +:+ slash, n).
Proof.
  intros Hn. unfold path_Split, slash. rewrite sapp_cons, sapp_nil_l.
  change "/"%char with slash_c. rewrite LastIndexByte_last by done.
  assert (Hs : a +:+ String slash_c n = (a +:+ str1 slash_c) +:+ n).
  { unfold str1. by rewrite <- sapp_assoc, sapp_cons, sapp_nil_l. }
  assert (Hl : S (String.length a) = String.length (a +:+ str1 slash_c)).
  { rewrite slength_app. simpl. lia. }
  rewrite Hs, Hl, stake_app_length, sdrop_app_length. done.
Qed.

Lemma abs_path_snoc segs n :
  segs <> [] -> abs_path (segs ++ [n]) = abs_path segs +:+ slash +:+ n.
Proof. intros Hs. by rewrite abs_path_app. Qed.

Lemma path_Dir_abs segs n :
  Forall proper_seg segs -> proper_seg n -> path_Dir (abs_path (segs ++ [n])) = abs_path segs.
Proof.
  intros Hs (Hn & _). unfold path_Dir.
  destruct (decide (segs = [])) as [->|Hne].
  - cbn [app]. unfold abs_path. cbn [Join]. rewrite <- (sapp_nil_l (slash +:+ n)).
    rewrite path_Split_last by done. done.
  - rewrite abs_path_snoc, path_Split_last by done. cbn [fst].
    unfold abs_path. rewrite <- sapp_assoc, Clean_rooted.
    rewrite <- (sapp_nil_r slash) at 2. rewrite clean_segs_app, clean_segs_Join by done.
    unfold clean_segs at 1. cbn. by rewrite app_nil_r, rev_involutive.
Qed.

Lemma path_Join_name segs n :
  Forall proper_seg segs -> proper_seg n ->
  path_Join [abs_path segs; n] = abs_path (segs ++ [n]).
Proof.
  intros Hs Hn. rewrite path_Join_abs by done.
  change n with (Join [n] slash) at 1. rewrite clean_segs_Join by (by constructor).
  cbn [rev app]. by rewrite rev_involutive.
Qed.

Lemma path_Join_rooted root segs' :
  HasPrefix root slash = true -> Forall proper_seg segs' ->
  exists segs, Clean root = abs_path segs /\ Forall proper_seg segs /\
    path_Join [root; abs_path segs'] = abs_path (segs ++ segs').
Proof.
  intros [t ->]%HasPrefix_spec Hs'. exists (rev (clean_segs true [] t)).
  split; [apply Clean_rooted|]. split; [apply Forall_rev; by apply clean_segs_keep|].
  unfold path_Join. cbn [drop_empty]. rewrite slash_app_nonempty. cbn [Join].
  rewrite <- sapp_assoc, Clean_rooted, clean_segs_app, clean_segs_abs by done.
  by rewrite rev_app_distr, rev_involutive.
Qed.

Lemma absRoot_rooted os root : HasPrefix root slash = true -> absRoot os root = Ok (Clean root).
Proof.
  intros Hr. unfold absRoot, Abs.
  destruct (String.eqb_spec root EmptyString) as [->|_]; [done|]. by rewrite Hr.
Qed.

Lemma proper_Join_no_slash segs :
  Forall proper_seg segs -> segs <> [] ->
  Join segs slash <> EmptyString /\ HasPrefix (Join segs slash) slash = false.
Proof.
  intros Hs Hne. destruct Hs as [|w segs (Hw & Hwe & _) Hs]; [done|].
  assert (Hw' : forall t, w +:+ t <> EmptyString /\ HasPrefix (w +:+ t) slash = false).
  { intros t. destruct w as [|d w]; [done|]. rewrite sapp_cons. split; [done|].
    simpl in Hw. bool_prop. destruct (HasPrefix (String d (w +:+ t)) slash) eqn:E; [|done].
    apply HasPrefix_spec in E as [x Hx]. unfold slash in Hx. rewrite sapp_cons in Hx.
    by injection Hx as -> _. }
  destruct segs as [|v segs].
  - cbn [Join]. destruct (Hw' EmptyString) as [H1 H2]. by rewrite sapp_nil_r in H1, H2.
  - rewrite Join_cons by done. apply Hw'.
Qed.

Lemma TrimPrefix_refl s : TrimPrefix s s = EmptyString.
Proof. pose proof (TrimPrefix_app s EmptyString) as H. by rewrite sapp_nil_r in H. Qed.

(** The name below the root of a file under it. *)
Lemma below_root_abs segs segs' :
  Forall proper_seg segs -> Forall proper_seg segs' ->
  HasPrefix (abs_path (segs ++ segs')) (abs_path segs) = true /\
  Clean (slash +:+ below_root (abs_path segs) (abs_path (segs ++ segs'))) = abs_path segs'.
Proof.
  intros Hs Hs'. unfold below_root. destruct (decide (segs' = [])) as [->|Hne'].
  { rewrite app_nil_r, HasPrefix_refl. split; [done|].
    by rewrite TrimPrefix_refl. }
  destruct (proper_Join_no_slash segs' Hs' Hne') as [Hj1 Hj2].
  assert (Hc : Clean (slash +:+ Join segs' slash) = abs_path segs') by (by apply Clean_abs).
  assert (Hlen : forall s, s <> EmptyString -> (String.length s =? 0)%nat = false) by (by intros []).
  destruct (decide (segs = [])) as [->|Hne].
  - change (abs_path []) with slash. cbn [app].
    assert (Ht : TrimPrefix (abs_path segs') slash = Join segs' slash) by apply TrimPrefix_app.
    split; [apply HasPrefix_slash|]. by rewrite Ht, (Hlen _ Hj1), Hj2.
  - rewrite abs_path_app, HasPrefix_app, TrimPrefix_app by done. split; [done|].
    assert (Hd : str_drop 1 (abs_path segs') = Join segs' slash).
    { unfold abs_path, slash. by rewrite sapp_cons, sapp_nil_l. }
    assert (Hn : abs_path segs' <> EmptyString) by (unfold abs_path, slash; by rewrite sapp_cons).
    by rewrite (Hlen _ Hn), (HasPrefix_slash _ : HasPrefix (abs_path segs') slash = true), Hd.
Qed.

(** ** Lemmas: links *)

(** [n] symbolic links lead from [f] to [g]. *)
Inductive links (os : OS) : nat -> string -> string -> Prop :=
  | links_0 f : links os 0 f f
  | links_S n f fi g h :
      Lstat os f = Ok fi -> IsSymlink fi = true -> Readlink os f = Ok g ->
      links os n g h -> links os (S n) f h.

Lemma resolve_loop_Ok os more abs f p :
  resolve_loop os more abs f = Ok p <->
  exists n g fi, n <= more /\ links os n f g /\ Lstat os g = Ok fi /\ IsSymlink fi = false /\
    HasPrefix g abs = true /\ p = below_root abs g.
Proof.
  revert f. induction more as [|more IH]; intros f; cbn [resolve_loop]; split.
  - destruct (Lstat os f) as [fi|] eqn:El; [|done].
    destruct (IsSymlink fi) eqn:Es; cbn [negb]; [by destruct (Readlink os f)|].
    destruct (HasPrefix f abs) eqn:Ep; [|done]. intros [= <-].
    exists 0, f, fi. repeat (split; [by constructor|]). done.
  - intros (n & g & fi & Hn & Hl & Hg & Hs & Hp & ->). assert (n = 0) as -> by lia.
    inversion Hl; subst. by rewrite Hg, Hs, Hp.
  - destruct (Lstat os f) as [fi|] eqn:El; [|done].
    destruct (IsSymlink fi) eqn:Es; cbn [negb].
    + destruct (Readlink os f) as [g|] eqn:Er; [|done]. intros Hr.
      apply IH in Hr as (n & h & fi' & Hn & Hl & Hrest).
      exists (S n), h, fi'. split; [lia|]. split; [by econstructor|done].
    + destruct (HasPrefix f abs) eqn:Ep; [|done]. intros [= <-].
      exists 0, f, fi. split; [lia|]. split; [constructor|done].
  - intros (n & g & fi & Hn & Hl & Hg & Hs & Hp & ->). inversion Hl as [|n' f' fi' g' h' H1 H2 H3 H4]; subst.
    + by rewrite Hg, Hs, Hp.
    + rewrite H1, H2, H3. cbn [negb]. apply IH. exists n', g, fi. split; [lia|done].
Qed.

(** Why the name [f], reached by links, is refused. *)
Definition refused (os : OS) (abs f err : string) : Prop :=
  Lstat os f = Err err \/
  (exists fi, Lstat os f = Ok fi /\ IsSymlink fi = false /\ HasPrefix f abs = false /\ err = ErrOutsideRoot) \/
  (exists fi, Lstat os f = Ok fi /\ IsSymlink fi = true /\ Readlink os f = Err err).

Lemma refused_0 os more abs f err : refused os abs f err -> resolve_loop os more abs f = Err err.
Proof.
  intros [Hl|[(fi & Hl & Hs & Hp & ->)|(fi & Hl & Hs & Hr)]]; destruct more; cbn [resolve_loop];
    rewrite Hl, ?Hs, ?Hp, ?Hr; done.
Qed.

Lemma resolve_loop_deep os more abs f g :
  links os (S more) f g -> resolve_loop os more abs f = Err ErrSymlinkMaxDepth.
Proof.
  revert f. induction more as [|more IH]; intros f Hl;
    inversion Hl as [|n' f' fi' g' h' H1 H2 H3 H4]; subst; cbn [resolve_loop];
    rewrite H1, H2, H3; cbn [negb]; [done|]. by apply IH.
Qed.

Lemma resolve_loop_Err os more abs f err :
  resolve_loop os more abs f = Err err <->
  (exists n g, n <= more /\ links os n f g /\ refused os abs g err) \/
  (err = ErrSymlinkMaxDepth /\ exists g, links os (S more) f g).
Proof.
  split.
  - revert f. induction more as [|more IH]; intros f; cbn [resolve_loop].
    + destruct (Lstat os f) as [fi|e] eqn:El.
      2:{ intros [= ->]. left. exists 0, f. split; [done|]. split; [constructor|by left]. }
      destruct (IsSymlink fi) eqn:Es; cbn [negb].
      * destruct (Readlink os f) as [g|e] eqn:Er; intros [= <-].
        -- right. split; [done|]. exists g. econstructor; [done..|constructor].
        -- left. exists 0, f. split; [done|]. split; [constructor|right; right; by exists fi].
      * destruct (HasPrefix f abs) eqn:Ep; [done|]. intros [= <-].
        left. exists 0, f. split; [done|]. split; [constructor|right; left; by exists fi].
    + destruct (Lstat os f) as [fi|e] eqn:El.
      2:{ intros [= ->]. left. exists 0, f. split; [lia|]. split; [constructor|by left]. }
      destruct (IsSymlink fi) eqn:Es; cbn [negb].
      * destruct (Readlink os f) as [g|e] eqn:Er.
        -- intros [(n & h & Hn & Hl & Hr)|(-> & h & Hl)]%IH.
           ++ left. exists (S n), h. split; [lia|]. split; [by econstructor|done].
           ++ right. split; [done|]. exists h. by econstructor.
        -- intros [= ->]. left. exists 0, f. split; [lia|]. split; [constructor|right; right; by exists fi].
      * destruct (HasPrefix f abs) eqn:Ep; [done|]. intros [= <-].
        left. exists 0, f. split; [lia|]. split; [constructor|right; left; by exists fi].
  - intros [(n & g & Hn & Hl & Hr)|(-> & g & Hl)]; [|by apply (resolve_loop_deep os more abs f g)].
    revert more Hn. induction Hl as [f|n f fi g h H1 H2 H3 _ IH]; intros more Hn; [by apply refused_0|].
    destruct more as [|more]; [lia|]. cbn [resolve_loop]. rewrite H1, H2, H3. cbn [negb]. apply IH; [done|lia].
Qed.

(** ** Properties *)

(** C27. What [resolve] answers.  It follows links from the request's name under the root
    ([filepath.Abs] of it, whose error it returns).  It succeeds exactly with the names that at
    most 16 symbolic links lead to, that are not links themselves and start with the root; and
    it fails exactly with the error of looking at such a name or of reading it as a link, with
    [ErrOutsideRoot] when the name is no link and does not start with the root, and with
    [ErrSymlinkMaxDepth] when there are more than 16 links. *)
Theorem resolve_spec os root relPath :
  match absRoot os root with
  | Err err => resolve os root relPath = Err err
  | Ok abs =>
      let start := path_Join [abs; relPath] in
      (forall p, resolve os root relPath = Ok p <->
         exists n f fi, n <= 16 /\ links os n start f /\ Lstat os f = Ok fi /\
           IsSymlink fi = false /\ HasPrefix f abs = true /\ p = below_root abs f) /\
      (forall err, resolve os root relPath = Err err <->
         (exists n f, n <= 16 /\ links os n start f /\ refused os abs f err) \/
         (err = ErrSymlinkMaxDepth /\ exists f, links os 17 start f))
  end.
Proof.
  unfold resolve. destruct (absRoot os root) as [abs|err]; [|done]. cbn [result_bind]. cbv zeta.
  split; [intros p; apply resolve_loop_Ok | intros err; apply resolve_loop_Err].
Qed.

(** The name a checked file is opened under is below the root. *)
Lemma http_Dir_name_below os root p :
  HasPrefix root slash = true ->
  exists segs segs', absRoot os root = Ok (abs_path segs) /\ Forall proper_seg (segs ++ segs') /\
    http_Dir_name root p = abs_path (segs ++ segs').
Proof.
  intros Hroot. destruct (Clean_rooted_segs (slash +:+ p) (HasPrefix_slash p)) as (segs' & Hc & Hs').
  destruct (path_Join_rooted root segs' Hroot Hs') as (segs & Hr & Hs & Hj).
  unfold http_Dir_name. rewrite Hc. destruct (String.eqb_spec root EmptyString) as [->|_]; [done|].
  exists segs, segs'. rewrite absRoot_rooted, Hr by done. split; [done|]. split; [by apply Forall_app_2|done].
Qed.

(** Whatever the request and the links say, the file that [Directory.Open] opens is
    named below the root: the root's segments, followed by segments none of which is
    empty, [.] or [..]. *)
Theorem Directory_Open_confined os root relPath file :
  HasPrefix root slash = true -> Directory_Open os root relPath = Ok file ->
  exists segs segs', absRoot os root = Ok (abs_path segs) /\ Forall proper_seg (segs ++ segs') /\
    os_Open os (abs_path (segs ++ segs')) = Ok file.
Proof.
  intros Hroot. unfold Directory_Open. destruct (resolve os root relPath) as [p|]; [|done].
  destruct (http_Dir_name_below os root p Hroot) as (segs & segs' & Hr & Hs & ->).
  destruct (os_Open os (abs_path (segs ++ segs'))) as [f|] eqn:E; [|done]. intros [= ->].
  by exists segs, segs'.
Qed.

(** Without a symbolic link in the last component, the file opened for a clean
    rooted request path is the very one that was checked, the one the path names under
    the root; the components before the last are not looked at. *)
Theorem Directory_Open_opens_checked os root relPath fi :
  HasPrefix root slash = true -> HasPrefix relPath slash = true -> Clean relPath = relPath ->
  let filename := path_Join [Clean root; relPath] in
  Lstat os filename = Ok fi -> IsSymlink fi = false ->
  Directory_Open os root relPath =
  match os_Open os filename with
  | Ok file => Ok file
  | Err _ => Err ("Failed to open: " +:+ relPath)
  end.
Proof.
  intros Hroot Hrel Hclean. cbv zeta.
  destruct (Clean_rooted_segs relPath Hrel) as (segs' & Hc & Hs'). rewrite Hclean in Hc.
  destruct (path_Join_rooted root segs' Hroot Hs') as (segs & Hr & Hs & Hj).
  rewrite Hr, Hc, path_Join_abs_abs by done. intros Hl Hlink.
  destruct (below_root_abs segs segs' Hs Hs') as [Hpre Hb].
  unfold Directory_Open, resolve. rewrite absRoot_rooted by done. cbn [result_bind]. rewrite Hr, path_Join_abs_abs by done.
  cbn [resolve_loop max_depth]. rewrite Hl, Hlink, Hpre. cbn [negb].
  unfold http_Dir_name. destruct (String.eqb_spec root EmptyString) as [->|_]; [done|].
  by rewrite Hb, Hj.
Qed.

(** A listing shows every file once, directories first, each group by name. *)
Theorem sort_files_sorted files :
  sort_files files ≡ₚ files /\ StronglySorted listing_le (sort_files files).
Proof.
  split; [unfold sort_files; by rewrite !SliceStable_Permutation|].
  apply dir_sorted, name_sorted.
Qed.

Lemma listing_le_antisym a b : listing_le a b -> listing_le b a -> Name a = Name b.
Proof.
  unfold listing_le, name_le. destruct (IsDir a) eqn:Ea, (IsDir b) eqn:Eb; cbn [Bool.eqb]; try done;
    rewrite (String.compare_antisym (Name b) (Name a)); pose proof (String.compare_eq_iff (Name a) (Name b)) as He;
    destruct (String.compare (Name a) (Name b)); cbn [CompOpp]; try done;
    intros _ _; by apply He.
Qed.

(** The order of a listing.  Files of distinct names are listed directories first, each
    group by name, and there is only one such order: the page of a directory does not depend
    on the order in which the system returns its files. *)
Theorem listing_order_unique fmt files files' uri :
  NoDup (Name <$> files) -> files' ≡ₚ files ->
  sort_files files ≡ₚ files /\ StronglySorted listing_le (sort_files files) /\
  (forall l, l ≡ₚ files -> StronglySorted listing_le l -> l = sort_files files) /\
  dir_entries fmt files' uri = dir_entries fmt files uri.
Proof.
  intros Hn Hp. assert (Hs : forall fs, sort_files fs ≡ₚ fs /\ StronglySorted listing_le (sort_files fs)).
  { intros fs. split; [unfold sort_files; by rewrite !SliceStable_Permutation|apply dir_sorted, name_sorted]. }
  assert (Hu : forall l, l ≡ₚ files -> StronglySorted listing_le l -> l = sort_files files).
  { intros l Hl Hsl. destruct (Hs files) as [Hp' Hs'].
    apply (StronglySorted_unique_strong listing_le); [|done..|by rewrite Hp'].
    intros a b Ha Hb Hab Hba. apply (listing_le_antisym a b) in Hab; [|done]. rewrite Hl in Ha. rewrite Hp' in Hb.
    apply list_elem_of_lookup in Ha as [i Hi]. apply list_elem_of_lookup in Hb as [j Hj].
    assert (i = j) as <-; [|congruence].
    eapply (NoDup_lookup (Name <$> files)); [done|rewrite list_lookup_fmap, Hi; done|].
    rewrite list_lookup_fmap, Hj. cbn. by rewrite Hab. }
  destruct (Hs files) as [H1 H2]. repeat (split; [done|]). unfold dir_entries.
  destruct (Hs files') as [H3 H4]. by rewrite (Hu (sort_files files')) by (done || by rewrite H3).
Qed.

(** A file whose name and size a file system can report. *)
Definition listable (fi : FileInfo) : Prop := proper_seg (Name fi) /\ i64_range (Size fi).

Lemma newFsEntries_listed fmt files segs :
  Forall proper_seg segs -> Forall listable files ->
  exists entries, newFsEntries fmt files (abs_path segs) = Return entries /\
    (fun e => (e_Name e, e_FullName e)) <$> entries =
    (fun fi => (Name fi, abs_path (segs ++ [Name fi]))) <$> files.
Proof.
  intros Hs. induction 1 as [|fi files [Hn Hsz] _ IH]; [by exists []|].
  destruct IH as (entries & He & Hf). cbn [newFsEntries]. unfold newFsEntry.
  destruct (ByteCountIEC_spec (Size fi) Hsz) as (size & Hsize & _).
  rewrite Hsize. cbn [outcome_bind]. rewrite He. cbn [outcome_bind].
  eexists. split; [done|]. cbn [fmap list_fmap e_FullName e_Name]. rewrite path_Join_name by done.
  f_equal. exact Hf.
Qed.

Lemma newFsEntries_listable fmt files segs :
  Forall proper_seg segs -> Forall listable files ->
  exists entries, newFsEntries fmt files (abs_path segs) = Return entries /\
    e_FullName <$> entries = (fun fi => abs_path (segs ++ [Name fi])) <$> files.
Proof.
  intros Hs Hf. destruct (newFsEntries_listed fmt files segs Hs Hf) as (entries & He & Hl).
  exists entries. split; [done|]. apply (f_equal (fmap snd)) in Hl. by rewrite <- !list_fmap_compose in Hl.
Qed.

Lemma Forall_sort_files P files : Forall P files -> Forall P (sort_files files).
Proof. intros H. unfold sort_files. by rewrite !SliceStable_Permutation. Qed.

Lemma abs_path_not_dot segs : String.eqb (abs_path segs) "." = false.
Proof. unfold abs_path, slash. by rewrite sapp_cons. Qed.

Lemma abs_path_root segs :
  Forall proper_seg segs -> String.eqb (abs_path segs) slash = bool_decide (segs = []).
Proof.
  intros Hs. destruct (decide (segs = [])) as [->|Hne]; [done|].
  rewrite bool_decide_eq_false_2 by done. apply String.eqb_neq. intros Heq.
  apply Hne. by apply (abs_path_inj segs []).
Qed.

(** Listing a directory never panics, and its links navigate: the entries link to
    the directory's path extended by each file's name, in listing order, preceded,
    except at the root, by a link to the parent directory. *)
Theorem dir_entries_navigate fmt files segs last :
  let uri := abs_path (segs ++ [last]) in
  Forall proper_seg (segs ++ [last]) -> Forall listable files ->
  (exists entries, dir_entries fmt files uri = Return entries /\
     e_FullName <$> entries =
     abs_path segs :: ((fun fi => abs_path (segs ++ [last; Name fi])) <$> sort_files files)) /\
  (exists entries, dir_entries fmt files slash = Return entries /\
     e_FullName <$> entries = (fun fi => abs_path [Name fi]) <$> sort_files files).
Proof.
  cbv zeta. intros Hs Hf. pose proof (Forall_sort_files _ _ Hf) as Hf'. unfold dir_entries. split.
  - destruct (newFsEntries_listable fmt _ _ Hs Hf') as (entries & -> & He).
    cbn [outcome_bind]. eexists. split; [done|].
    rewrite abs_path_not_dot, abs_path_root by done.
    rewrite bool_decide_eq_false_2 by (by destruct segs). cbn [negb andb app fmap list_fmap].
    apply Forall_app in Hs as [Hs Hl]. apply Forall_cons in Hl as [Hl _].
    cbn [parent_entry e_FullName]. rewrite path_Dir_abs by done. f_equal. etransitivity; [exact He|].
    apply list_fmap_ext. intros _ fi _. by rewrite <- app_assoc.
  - destruct (newFsEntries_listable fmt (sort_files files) [] (Forall_nil_2 _) Hf') as (entries & He & Hn).
    change (abs_path []) with slash in He. rewrite He. cbn [outcome_bind]. by exists entries.
Qed.

(** The missing [return] for files that cannot seek: after the file has been sent
    as an attachment, [http.ServeContent] runs as well; on a file that cannot seek it
    answers with an error, whose text is appended to the file's content. *)
Theorem unseekable_file_gets_error_text fmt Quote ServeContent fs r file fi err body :
  (forall r name time file, f_seek file <> None ->
     ServeContent r name time file = http_Error "seeker can't seek" 500) ->
  fs (Clean (Path (r_URL r))) = Ok file -> f_Stat file = Ok fi -> IsDir fi = false ->
  f_seek file = Some err -> f_reader file = mk_Reader [body] None ->
  let res := exec (FileServer fmt Quote ServeContent fs r) (new_Conn EmptyString None) in
  c_status res.2 = Some 200%Z /\ c_body res.2 = body +:+ "seeker can't seek" +:+ str1 "010"%char.
Proof.
  intros Hserve Hfs Hst Hd Hseek Hrd. cbv zeta. unfold FileServer. rewrite Hfs, Hst, Hd, Hseek.
  rewrite Hserve by (by rewrite Hseek). rewrite Hrd.
  rewrite !exec_bind. cbn [p_put exec]. rewrite exec_bind, exec_io_Copy.
  cbn [rd_chunks rd_err conn_copy]. set (c1 := set_live _ _).
  destruct (conn_WriteHeader_taking 200 c1) as (c2 & Hw & Ht & _ & _ & Hb); try done.
  rewrite (conn_Write_first body c1 c2) by (done || (unfold header_out; by rewrite (taking_status _ _ Ht))).
  pose proof (conn_Write_taking 200 body c2 Ht) as Hwr.
  destruct (conn_Write body c2) as [c3 [n e]]. destruct Hwr as (Ht3 & [Hb3 _] & -> & ->).
  rewrite Z.eqb_refl. cbn [negb fst snd]. unfold http_Error.
  cbn [p_put p_write_header p_write bind exec].
  rewrite conn_WriteHeader_out
    by (unfold header_out; cbn [c_status set_live]; by rewrite (taking_status _ _ Ht3)).
  set (c4 := set_live _ (set_live _ c3)).
  pose proof (conn_Write_taking 200 ("seeker can't seek" +:+ str1 "010"%char) c4) as Hwr.
  destruct (conn_Write _ c4) as [c5 [m e]].
  destruct Hwr as (Ht5 & [Hb5 _] & _); [unfold c4; by destruct Ht3|].
  cbn [exec snd]. split; [apply Ht5|]. rewrite Hb5. cbn [c4 set_live c_body]. by rewrite Hb3, Hb.
Qed.

(** The root test has no separator: a link to a sibling whose name merely starts
    with the root's (root [/srv/www], link to [/srv/www2/f]) passes it, and what is then
    looked up below the root is the rest of that name ([2/f]), another file. *)
Theorem resolve_accepts_siblings os root relPath abs fi gi rest :
  absRoot os root = Ok abs ->
  let start := path_Join [abs; relPath] in
  Lstat os start = Ok fi -> IsSymlink fi = true -> Readlink os start = Ok (abs +:+ rest) ->
  Lstat os (abs +:+ rest) = Ok gi -> IsSymlink gi = false ->
  rest <> EmptyString -> HasPrefix rest slash = false ->
  resolve os root relPath = Ok rest.
Proof.
  cbv zeta. intros Ha H1 H2 H3 H4 H5 Hne Hs. unfold resolve. rewrite Ha. cbn [result_bind resolve_loop max_depth].
  rewrite H1, H2, H3, H4, H5, HasPrefix_app. cbn [negb]. unfold below_root.
  rewrite TrimPrefix_app, Hs. by destruct rest.
Qed.

(** ** Witnesses *)

Definition demo_file (name : string) : FileInfo := mk_FileInfo name 10 false false 0 None.
Definition demo_link (name : string) : FileInfo := mk_FileInfo name 10 false true 0 None.
Definition demo_open (name : string) : File :=
  mk_File (Ok (demo_file name)) (Err "not a directory") (Some "illegal seek")
    (mk_Reader ["hi"] None).

(** A root [/srv/www] with a file [a], a link [l] to it and a link [s] to a sibling. *)
Definition demo_os : OS := {|
  Getwd := Ok "/";
  Lstat f :=
    if String.eqb f "/srv/www/l" || String.eqb f "/srv/www/s" then Ok (demo_link f)
    else if String.eqb f "/srv/www/a" || String.eqb f "/srv/www2/f" then Ok (demo_file f)
    else Err "no such file";
  Readlink f :=
    if String.eqb f "/srv/www/l" then Ok "/srv/www/a"
    else if String.eqb f "/srv/www/s" then Ok "/srv/www2/f" else Err "not a link";
  os_Open f := Ok (demo_open f)
|}.

Lemma resolve_spec_witness :
  (exists n f fi, n <= 16 /\ links demo_os n (path_Join ["/srv/www"; "/l"]) f /\
    Lstat demo_os f = Ok fi /\ IsSymlink fi = false /\
    HasPrefix f "/srv/www" = true /\ "a" = below_root "/srv/www" f) /\
  ((exists n f, n <= 16 /\ links demo_os n (path_Join ["/srv/www"; "/no"]) f /\
      refused demo_os "/srv/www" f "no such file") \/
   "no such file" = ErrSymlinkMaxDepth /\ exists f, links demo_os 17 (path_Join ["/srv/www"; "/no"]) f).
Proof.
  split.
  - apply (proj1 (resolve_spec demo_os "/srv/www" "/l")). vm_compute. reflexivity.
  - apply (proj2 (resolve_spec demo_os "/srv/www" "/no")). vm_compute. reflexivity.
Defined.

Lemma Directory_Open_confined_witness :
  Directory_Open demo_os "/srv/www" "/l" = Ok (demo_open "/srv/www/a") /\
  exists segs segs', absRoot demo_os "/srv/www" = Ok (abs_path segs) /\
    Forall proper_seg (segs ++ segs') /\
    os_Open demo_os (abs_path (segs ++ segs')) = Ok (demo_open "/srv/www/a").
Proof.
  assert (Ho : Directory_Open demo_os "/srv/www" "/l" = Ok (demo_open "/srv/www/a"))
    by (vm_compute; reflexivity).
  split; [exact Ho|]. by apply (Directory_Open_confined demo_os "/srv/www" "/l").
Defined.

Lemma Directory_Open_opens_checked_witness :
  Directory_Open demo_os "/srv/www" "/a" = Ok (demo_open "/srv/www/a").
Proof.
  rewrite (Directory_Open_opens_checked demo_os "/srv/www" "/a" (demo_file "/srv/www/a"));
    [vm_compute; reflexivity.. ].
Defined.

Lemma dir_entries_navigate_witness :
  exists entries, dir_entries (fun _ => "") [demo_file "b"; demo_file "a"] "/d" = Return entries /\
    e_FullName <$> entries = ["/"; "/d/a"; "/d/b"].
Proof.
  assert (Hf : Forall listable [demo_file "b"; demo_file "a"]).
  { repeat constructor; cbn; try done; unfold i64_range; lia. }
  destruct (dir_entries_navigate (fun _ => "") [demo_file "b"; demo_file "a"] [] "d") as [He _];
    [by repeat constructor|exact Hf|exact He].
Defined.

Definition demo_fs : FileSystem := fun name => Ok (demo_open name).
Definition demo_request : Request :=
  mk_Request "GET" (set_Paths "/pipe" "" empty_URL) ∅ "h" "".

Lemma unseekable_file_gets_error_text_witness :
  let serve (r : Request) (name : string) (time : Z) (file : File) :=
    match f_seek file with Some _ => http_Error "seeker can't seek" 500 | None => Ret tt end in
  c_body (exec (FileServer (fun _ => "") id serve demo_fs demo_request)
            (new_Conn EmptyString None)).2 =
  "hi" +:+ "seeker can't seek" +:+ str1 "010"%char.
Proof.
  cbv zeta. eapply (unseekable_file_gets_error_text (fun _ => "") id _ demo_fs
    demo_request (demo_open "/pipe") (demo_file "/pipe") "illegal seek" "hi");
    try reflexivity. intros r name time file Hf. by destruct (f_seek file).
Defined.

Lemma resolve_accepts_siblings_witness : resolve demo_os "/srv/www" "/s" = Ok "2/f".
Proof.
  eapply (resolve_accepts_siblings demo_os "/srv/www" "/s" "/srv/www");
    [vm_compute; reflexivity.. | done | vm_compute; reflexivity].
Defined.

Lemma listing_order_unique_witness :
  dir_entries (fun _ => "") [demo_file "b"; demo_file "a"] "/d" =
    dir_entries (fun _ => "") [demo_file "a"; demo_file "b"] "/d" /\
  sort_files [demo_file "a"; demo_file "b"] = [demo_file "a"; demo_file "b"].
Proof.
  destruct (listing_order_unique (fun _ => "") [demo_file "a"; demo_file "b"] [demo_file "b"; demo_file "a"] "/d")
    as (_ & _ & _ & He).
  - apply (bool_decide_unpack _). vm_compute. exact I.
  - constructor.
  - split; [exact He|vm_compute; reflexivity].
Defined.
