(* ===== verification/Assets.v ===== *)
(** assets/assets.go: the files embedded in the program.

    [//go:embed *] embeds the files of the package's own directory, under their names in
    that directory; what they contain is an argument. *)

From S2P Require Import Prelude GoStrings Http.

Local Open Scope go_scope.

(** The names in the embedded file system [assets], besides its root. *)
Definition assets : list string := ["assets.go"; "go-wasm.html"; "go-wasm.js"].

(** [Open]: [embed.FS.Open]. *)
Definition assets_Open (content : string -> string) (filename : string) : result Reader :=
  if String.eqb filename "." then Ok (mk_Reader [] (Some "read ./: is a directory"))
  else if bool_decide (filename ∈ assets) then Ok (mk_Reader [content filename] None)
  else Err ("open " +:+ filename +:+ ": file does not exist").
