(* ===== verification/Handlers.v ===== *)
(** pkg/handler: the handlers behind the routes, except the remote file systems
    (Remote.v) and the factory that chooses among them (Factory.v).

    What the handlers get from outside is a record of operations, [Deps]: parts of
    net/http that only produce the response ([ServeContent], [ServeFile], content
    sniffing), the transport of a reverse proxy, the HTML tokenizer, the FastCGI
    client, the tail library, the contents of the embedded files, and the operating
    system. *)

From S2P Require Import Prelude GoStrings Glob Url Http GoPath Stream PrefixWriter FileServer Assets.

Local Open Scope go_scope.
Local Open Scope prog_scope.

(** ** What the handlers are given *)

(** What the [select] of the tail handler can receive. *)
Inductive tail_event :=
  | TailLine (text : string) (err : option string)
  | TailClosed                                       (* [t.Lines] closed *)
  | ContextDone.

Record Deps := mk_Deps {
  d_DetectContentType : string -> string;
  d_tokenize : string -> list Token;
  d_ServeContent : Request -> string -> Z -> File -> prog unit;
  d_ServeFile : string -> HandlerFunc;
  d_transport : HandlerFunc;           (* ReverseProxy.ServeHTTP after the director *)
  d_php : string -> HandlerFunc;       (* the FastCGI session for an endpoint *)
  d_TailFile : string -> Z -> result (list tail_event);
  d_assets : string -> string;         (* the contents of the embedded files *)
  d_format_time : Z -> string;
  d_Quote : string -> string;
  d_os : OS;
  d_Stat : string -> result FileInfo
}.

(** ** util.go *)

(** The mutation of the request's URL. *)
Definition strip_prefix (hostPath : string) (u : URL) : URL :=
  let path := TrimPrefix (Path u) hostPath in
  let rawPath := TrimPrefix (RawPath u) hostPath in
  if negb (HasPrefix path slash)
  then set_Paths (slash +:+ path) (slash +:+ rawPath) u
  else set_Paths path rawPath u.

Section Handlers.
Context (d : Deps).

Definition handlePathCombinations (handler : HandlerFunc)
    (hostname hostPath targetPath : string) : HandlerFunc := fun r =>
  with_prefix_writer (d_DetectContentType d) (d_tokenize d) hostname hostPath targetPath
    (handler (set_r_URL (strip_prefix hostPath (r_URL r)) r)).

(** ** redirect.go *)

Definition singleJoiningSlash (a b : string) : string :=
  let aslash := HasSuffix a slash in
  let bslash := HasPrefix b slash in
  if aslash && bslash then a +:+ str_drop 1 b
  else if negb aslash && negb bslash then a +:+ slash +:+ b
  else a +:+ b.

(** [s[1:]], which panics on the empty string. *)
Definition tail_slice (s : string) : outcome string :=
  match s with EmptyString => Panic | String _ s => Return s end.

Definition joinURLPath (a b : URL) : outcome (string * string) :=
  if String.eqb (RawPath a) EmptyString && String.eqb (RawPath b) EmptyString
  then Return (singleJoiningSlash (Path a) (Path b), EmptyString)
  else
    let apath := EscapedPath a in
    let bpath := EscapedPath b in
    let aslash := HasSuffix apath slash in
    let bslash := HasPrefix bpath slash in
    if aslash && bslash then
      let! p := tail_slice (Path b) in
      let! q := tail_slice bpath in
      Return (Path a +:+ p, apath +:+ q)
    else if negb aslash && negb bslash then
      Return (Path a +:+ slash +:+ Path b, apath +:+ slash +:+ bpath)
    else Return (Path a +:+ Path b, apath +:+ bpath).

(** The query of the target in front of the request's. *)
Definition joinQuery (targetQuery query : string) : string :=
  if String.eqb targetQuery EmptyString || String.eqb query EmptyString
  then targetQuery +:+ query else targetQuery +:+ "&" +:+ query.

(** [hexEscapeNonASCII] and [htmlEscape] of net/http. *)
Fixpoint hexEscapeNonASCII (s : string) : string :=
  match s with
  | EmptyString => EmptyString
  | String c s =>
      (if (128 <=? byte_val c)%Z
       then percent_byte c else str1 c) +:+ hexEscapeNonASCII s
  end.

Fixpoint htmlEscape (s : string) : string :=
  match s with
  | EmptyString => EmptyString
  | String c s =>
      (if Ascii.eqb c "&" then "&amp;" else if Ascii.eqb c "<" then "&lt;"
       else if Ascii.eqb c ">" then "&gt;" else if Ascii.eqb c (ascii_of_nat 34) then "&#34;"
       else if Ascii.eqb c "'" then "&#39;" else str1 c) +:+ htmlEscape s
  end.

(** The location [http.Redirect] sends: a URL without scheme and host is made
    absolute and cleaned. *)
Definition redirect_location (r : Request) (url : string) : string :=
  match Parse url with
  | Err _ => url
  | Ok u =>
      if String.eqb (Scheme u) EmptyString && String.eqb (Host u) EmptyString then
        let oldpath := if String.eqb (Path (r_URL r)) EmptyString then slash else Path (r_URL r) in
        let url := if HasPrefix url slash then url else (path_Split oldpath).1 +:+ url in
        let '(url, query) :=
          match IndexByte url "?"%char with
          | Some i => (str_take i url, str_drop i url)
          | None => (url, EmptyString)
          end in
        let trailing := HasSuffix url slash in
        let url := Clean url in
        (if trailing && negb (HasSuffix url slash) then url +:+ slash else url) +:+ query
      else url
  end.

(** [http.StatusText] of the redirections the program sends. *)
Definition StatusText (code : Z) : string :=
  if (code =? 302)%Z then "Found" else if (code =? 303)%Z then "See Other" else EmptyString.

(** [http.Redirect(w, r, url, code)] *)
Definition http_Redirect (r : Request) (url : string) (code : Z) : prog unit :=
  let url := redirect_location r url in
  let* h := p_header in
  let hadCT := bool_decide (is_Some (h !! "Content-Type")) in
  do* p_put (Header_Set "Location" (hexEscapeNonASCII url)) in
  let* _ :=
    if negb hadCT && (String.eqb (Method r) "GET" || String.eqb (Method r) "HEAD")
    then p_put (Header_Set "Content-Type" "text/html; charset=utf-8") else Ret tt in
  do* p_write_header code in
  if negb hadCT && String.eqb (Method r) "GET" then
    do* p_write ("<a href=" +:+ quote +:+ htmlEscape url +:+ quote +:+ ">" +:+ StatusText code +:+ "</a>." +:+
                 str1 "010"%char +:+ str1 "010"%char) in Ret tt
  else Ret tt.

(** [redirURL]: the request's URL on the target's host, under the target's path. *)
Definition redirect_URL (target u : URL) : outcome URL :=
  let redirURL := set_Host (Host target) u in
  let! (path, rawPath) := joinURLPath target redirURL in
  Return (set_RawQuery (joinQuery (RawQuery target) (RawQuery redirURL))
            (set_Paths path rawPath redirURL)).

Definition redirect_handler (target : URL) : HandlerFunc := fun r =>
  let* redirURL := p_outcome (redirect_URL target (r_URL r)) in
  http_Redirect r (URL_String redirURL) 303.

Definition newRedirectHandler (hostname hostPath : string) (target : URL) : HandlerFunc :=
  handlePathCombinations (redirect_handler target) "" hostPath "".

(** ** proxy.go *)

(** The director of [httputil.NewSingleHostReverseProxy(&target)]. *)
Definition proxy_director (target : URL) (r : Request) : outcome Request :=
  let u := set_Host (Host target) (set_Scheme (Scheme target) (r_URL r)) in
  let! (path, rawPath) := joinURLPath target u in
  let u := set_RawQuery (joinQuery (RawQuery target) (RawQuery u)) (set_Paths path rawPath u) in
  let h := match r_Header r !! "User-Agent" with
           | Some _ => r_Header r
           | None => Header_Set "User-Agent" "" (r_Header r)
           end in
  Return (set_r_Header h (set_r_URL u r)).

Definition proxy_handler (target : URL) : HandlerFunc := fun r =>
  let* r := p_outcome (proxy_director target r) in d_transport d r.

Definition newProxyHandler (hostname hostPath : string) (target : URL) : HandlerFunc :=
  handlePathCombinations (proxy_handler target) hostname hostPath (Path target).

(** ** fileserver.go *)

Definition file_server (fs : FileSystem) : HandlerFunc :=
  FileServer (d_format_time d) (d_Quote d) (d_ServeContent d) fs.

Definition newFileServer (hostname hostPath dir : string) : HandlerFunc :=
  let handler :=
    match d_Stat d dir with
    | Ok info => if negb (IsDir info) then d_ServeFile d dir
                 else file_server (Directory_Open (d_os d) dir)
    | Err _ => file_server (Directory_Open (d_os d) dir)
    end in
  handlePathCombinations handler hostname hostPath "".

(** ** gowasm.go *)

(** [file, _ := assets.Open(...)] and what follows: without a file, [defer file.Close()]
    is a call on a nil interface. *)
Definition send_asset (file : result Reader) (contentType : string) : prog unit :=
  match file with
  | Err _ => Crash
  | Ok file =>
      do* p_put (Header_Set "Content-Type" contentType) in
      do* io_Copy file in Ret tt
  end.

Definition newGoWasmHandler (hostname hostPath wasmFile : string) : HandlerFunc :=
  let cleanHostPath := Clean hostPath in
  let wasmJs := path_Join [hostPath; "go-wasm.js"] in
  let wasmMain := path_Join [hostPath; "main.wasm"] in
  fun r =>
    let path := Path (r_URL r) in
    if String.eqb path cleanHostPath then http_Redirect r (cleanHostPath +:+ slash) 303
    else if String.eqb path (cleanHostPath +:+ slash) then
      send_asset (assets_Open (d_assets d) "assets/go-wasm.html") "text/html; charset=utf-8"
    else if String.eqb path wasmJs then
      send_asset (assets_Open (d_assets d) "assets/go-wasm.js") "text/javascript"
    else if String.eqb path wasmMain then d_ServeFile d wasmFile r
    else http_Error "Not found" 404.

(** ** php.go *)

(** [setupPHP]: the network and the address of the FastCGI server. *)
Definition setupPHP (cgiaddr : URL) : string * string :=
  let network := Scheme cgiaddr in
  let address := Host cgiaddr in
  (network, if (String.length address =? 0)%nat then Path cgiaddr else address).

Definition newPHPHandler (phpClientFactory : option (string * string))
    (hostname hostPath endpoint : string) : result HandlerFunc :=
  match phpClientFactory with
  | None => Err "PHP not configured"
  | Some _ =>
      match d_Stat d endpoint with
      | Err err => Err err
      | Ok fi =>
          try endpoint <- Abs (Getwd (d_os d)) endpoint;;
          let targetPath := if IsDir fi then endpoint else path_Dir endpoint in
          Ok (handlePathCombinations (d_php d endpoint) hostname hostPath targetPath)
      end
  end.

(** ** tail.go *)

Definition SeekStart : Z := 0.
Definition SeekEnd : Z := 2.

(** The endless loop, on the events it receives; running out of events is waiting. *)
Fixpoint tail_loop (events : list tail_event) : prog unit :=
  match events with
  | [] => Ret tt
  | ContextDone :: _ => Ret tt
  | TailClosed :: _ => Ret tt
  | TailLine text err :: events =>
      do* p_write (text +:+ str1 "010"%char) in
      match err with
      | Some e => do* p_write e in Ret tt
      | None => do* p_flush in tail_loop events
      end
  end.

(** When [TailFile] fails there is no [return]: the loop then reads the channel of a
    nil pointer. *)
Definition newTailHandler (hostname hostPath tailFile : string) (whence : Z) : HandlerFunc :=
  fun r =>
    let t := d_TailFile d tailFile whence in
    let* _ := match t with Err err => http_Error err 500 | Ok _ => Ret tt end in
    do* p_put (Header_Add "content-type" "text/plain; charset=utf-8") in
    do* p_write_header 200 in
    match t with
    | Err _ => Crash
    | Ok events => tail_loop events
    end.
End Handlers.
