(* ===== verification/HandlersProps.v ===== *)
(** Properties of the handlers of pkg/handler. *)

From S2P Require Import Prelude GoStrings Glob Url Http GoPath Stream PrefixWriter.
From S2P Require Import FileServer PrefixWriterProps Handlers.

Local Open Scope go_scope.
Local Open Scope prog_scope.

(** ** Joining paths *)

Lemma singleJoiningSlash_join a b : singleJoiningSlash a b = join_slash a b.
Proof. reflexivity. Qed.

(** [p] is [a] and [b] with one slash between them: the slash [a] ends with, the one [b]
    starts with, or a new one. *)
Definition joined (a b p : string) : Prop :=
  exists x y, (a = x \/ a = x +:+ slash) /\ (b = y \/ b = slash +:+ y) /\ p = x +:+ slash +:+ y.

Lemma HasSuffix_slash_inv a : HasSuffix a slash = true -> exists x, a = x +:+ slash.
Proof. by intros [x ->]%HasSuffix_spec; exists x. Qed.

Lemma joined_join_slash a b : joined a b (join_slash a b).
Proof.
  unfold join_slash, joined. destruct (HasSuffix a slash) eqn:Ea, (HasPrefix b slash) eqn:Eb; cbn [andb negb].
  - apply HasSuffix_slash_inv in Ea as [x ->]. pose proof (HasPrefix_slash_drop b Eb) as Hb.
    exists x, (str_drop 1 b). split; [by right|]. split; [by right|]. by rewrite sapp_assoc.
  - apply HasSuffix_slash_inv in Ea as [x ->]. exists x, b.
    split; [by right|]. split; [by left|]. by rewrite sapp_assoc.
  - pose proof (HasPrefix_slash_drop b Eb) as Hb. exists a, (str_drop 1 b).
    split; [by left|]. split; [by right|]. by rewrite <- Hb.
  - exists a, b. split; [by left|]. split; [by left|done].
Qed.

Lemma tail_slice_slash t : tail_slice (slash +:+ t) = Return t.
Proof. unfold slash. by rewrite sapp_cons, sapp_nil_l. Qed.

(** [joinURLPath] never panics.  Without raw paths it joins the paths; otherwise it
    joins the encoded paths, and its path is what they decode to. *)
Lemma joinURLPath_spec a b :
  exists p raw, joinURLPath a b = Return (p, raw) /\
    ((raw = EmptyString /\ joined (Path a) (Path b) p) \/
     (joined (EscapedPath a) (EscapedPath b) raw /\ unescape raw encodePath = Ok p)).
Proof.
  unfold joinURLPath.
  destruct (String.eqb (RawPath a) EmptyString && String.eqb (RawPath b) EmptyString).
  { do 2 eexists. split; [done|]. left. split; [done|]. apply joined_join_slash. }
  pose proof (unescape_EscapedPath a) as Ha. pose proof (unescape_EscapedPath b) as Hb.
  pose proof (joined_join_slash (EscapedPath a) (EscapedPath b)) as Hj. unfold join_slash in Hj.
  set (apath := EscapedPath a) in *. set (bpath := EscapedPath b) in *. clearbody apath bpath.
  assert (Hraw : forall x y s t, unescape x encodePath = Ok s -> unescape y encodePath = Ok t ->
    unescape (x +:+ y) encodePath = Ok (s +:+ t)).
  { intros x y s t Hx Hy. by rewrite (unescape_app x y s encodePath Hx), Hy. }
  destruct (HasSuffix apath slash) eqn:Ea, (HasPrefix bpath slash) eqn:Eb; cbn [andb negb] in *.
  - apply HasPrefix_spec in Eb as [y ->].
    destruct (unescape_slash _ _ Hb) as (t & -> & Ht).
    rewrite !tail_slice_slash. cbn [outcome_bind].
    do 2 eexists. split; [done|]. right. split; [exact Hj | by apply Hraw].
  - do 2 eexists. split; [done|]. right. split; [exact Hj | by apply Hraw].
  - do 2 eexists. split; [done|]. right. split; [exact Hj | by apply Hraw].
  - do 2 eexists. split; [done|]. right. split; [exact Hj|].
    apply Hraw; [done|]. by apply (Hraw slash bpath slash (Path b)).
Qed.

(** ** Escaped text *)

Lemma escape_host_no_delim h : no_delim (escape h encodeHost).
Proof.
  assert (Hb : forall c, negb (str_elem "/" (escape_byte c encodeHost)) &&
    negb (str_elem "?" (escape_byte c encodeHost)) && negb (str_elem "#" (escape_byte c encodeHost)) &&
    negb (str_elem "@" (escape_byte c encodeHost)) = true)
    by (apply byte_forall; vm_compute; reflexivity).
  unfold no_delim. induction h as [|c h IH]; [done|]. cbn [escape]. rewrite !str_elem_app.
  destruct IH as (-> & -> & -> & ->). specialize (Hb c). bool_prop.
  by rewrite H, H0, H1, H2.
Qed.

Lemma escape_nonempty s m : s <> EmptyString -> escape s m <> EmptyString.
Proof.
  destruct s as [|c s]; [done|]. intros _. cbn [escape]. intros H.
  apply sapp_eq_nil in H as [H _]. revert H. unfold escape_byte.
  destruct (Ascii.eqb c " " && mode_is m encodeQueryComponent); [done|]. by destruct (shouldEscape c m).
Qed.

Definition ascii_text (s : string) : Prop := hexEscapeNonASCII s = s.

Lemma hexEscape_app s t : hexEscapeNonASCII (s +:+ t) = hexEscapeNonASCII s +:+ hexEscapeNonASCII t.
Proof.
  induction s as [|c s IH]; [done|]. rewrite sapp_cons. cbn [hexEscapeNonASCII].
  by rewrite IH, sapp_assoc.
Qed.

Lemma escape_ascii s m : ascii_text (escape s m).
Proof.
  assert (Hb : forall c, String.eqb (hexEscapeNonASCII (escape_byte c m)) (escape_byte c m) = true)
    by (apply byte_forall; destruct m; vm_compute; reflexivity).
  unfold ascii_text. induction s as [|c s IH]; [done|]. cbn [escape].
  rewrite hexEscape_app, IH. f_equal. by apply String.eqb_eq.
Qed.

Lemma hexEscape_starts chars t :
  str_elem "%"%char chars = false ->
  forallb (fun c => negb (str_elem c chars) || (byte_val c <? 128)%Z) all_bytes = true ->
  starts_in chars t -> starts_in chars (hexEscapeNonASCII t).
Proof.
  intros _ Hascii. destruct t as [|c t]; [done|]. cbn [starts_in hexEscapeNonASCII]. intros Hc.
  pose proof (byte_forall _ Hascii c) as Hb. cbn beta in Hb. rewrite Hc in Hb. cbn [negb orb] in Hb.
  apply Z.ltb_lt in Hb. rewrite (proj2 (Z.leb_gt _ _)) by lia. unfold str1. rewrite sapp_cons. done.
Qed.

(** ** Redirects *)

(** A URL the server hands to a handler: it has only a path and a query. *)
Definition request_URL (u : URL) : Prop :=
  Scheme u = EmptyString /\ User u = None /\ Opaque u = EmptyString /\ Host u = EmptyString.

Lemma url_string_tail u :
  exists t, starts_in "#?/" t /\
    (request_URL (set_Host EmptyString u) -> Host u <> EmptyString ->
     URL_String u = "//" +:+ escape (Host u) encodeHost +:+ t).
Proof.
  set (path := EscapedPath u).
  set (sep := if nonempty path && negb (HasPrefix path "/") then "/" else EmptyString).
  set (frag := if nonempty (Fragment u) then "#" +:+ EscapedFragment u else EmptyString).
  exists (sep +:+ path +:+ query_string u +:+ frag). split.
  - unfold sep. destruct path as [|c p] eqn:Ep.
    + rewrite !sapp_nil_l. unfold query_string. destruct (_ || _); [done|]. rewrite sapp_nil_l.
      unfold frag. by destruct (nonempty (Fragment u)).
    + destruct (HasPrefix (String c p) "/") eqn:Eh; [|done]. cbn [nonempty andb negb].
      apply HasPrefix_spec in Eh as [t ->]. done.
  - intros (Hs & Hu & Ho & _) Hh. cbn [Scheme User Opaque Host set_Host] in *.
    unfold URL_String. rewrite Hs, Ho.
    assert (Hnh : nonempty (Host u) = true) by (unfold nonempty; by destruct (String.eqb_spec (Host u) "")).
    assert (Hauth : authority_string u = "//" +:+ escape (Host u) encodeHost).
    { unfold authority_string. rewrite Hnh, Hu. done. }
    rewrite Hnh, Hauth. cbn [nonempty String.eqb negb orb]. fold path. rewrite andb_true_r.
    change (if nonempty path && negb (HasPrefix path "/") then "/" else EmptyString) with sep.
    assert (Hdot : nonempty (EmptyString +:+ ("//" +:+ escape (Host u) encodeHost) +:+ sep) = true) by done.
    rewrite Hdot. cbn [negb andb]. rewrite !sapp_nil_l. fold frag. by rewrite !sapp_assoc.
Qed.

(** The location of a redirect to another host parses as a URL with a host, before
    and after escaping. *)
Lemma Parse_redirect u url :
  request_URL (set_Host EmptyString u) -> Host u <> EmptyString ->
  Parse (URL_String u) = Ok url \/ Parse (hexEscapeNonASCII (URL_String u)) = Ok url ->
  Host url <> EmptyString.
Proof.
  intros Hu Hh. destruct (url_string_tail u) as (t & Ht & Hs). rewrite (Hs Hu Hh).
  assert (Hne : escape (Host u) encodeHost <> EmptyString) by (by apply escape_nonempty).
  intros [Hp|Hp].
  - eapply (Parse_net_path (escape (Host u) encodeHost) t); eauto. apply escape_host_no_delim.
  - rewrite !hexEscape_app, escape_ascii in Hp.
    eapply (Parse_net_path (escape (Host u) encodeHost) (hexEscapeNonASCII t));
      [apply escape_host_no_delim | done | | exact Hp].
    apply hexEscape_starts; [done | vm_compute; reflexivity | done].
Qed.

Lemma updateLocation_other_host loc hostPath targetPath :
  (forall url, Parse loc = Ok url -> Host url <> EmptyString) ->
  updateLocation loc EmptyString hostPath targetPath = loc.
Proof.
  intros Hp. unfold updateLocation. destruct (Parse loc) as [u|]; [|done]. specialize (Hp u eq_refl).
  destruct (Host u) as [|c h]; [done|]. done.
Qed.

Lemma redirect_location_host r url :
  (forall u, Parse url = Ok u -> Host u <> EmptyString) -> redirect_location r url = url.
Proof.
  intros Hp. unfold redirect_location. destruct (Parse url) as [u|]; [|done].
  specialize (Hp u eq_refl). rewrite (proj2 (String.eqb_neq (Host u) _)) by done.
  by rewrite andb_false_r.
Qed.

(** The header of a response whose handler, behind a prefix writer, starts with
    [WriteHeader]: nothing after it changes what is sent. *)
Lemma finish_WriteHeader_sent {A} Detect tokenize w code (k : prog A) c c1 :
  c_status c = None ->
  let h := moved_location (hostname w) (hostPath w) (targetPath w) (c_live c) in
  let sent := if is_html h then Header_Del "Content-Length" h else h in
  conn_WriteHeader code (set_live sent c) = Some c1 -> header_out c1 ->
  let res := exec (finish Detect tokenize w (WriteHeader code k)) c in
  c_status res.2 = c_status c1 /\ c_sent res.2 = c_sent c1.
Proof.
  intros Hst h sent Hw Ho. cbv zeta. unfold finish. cbn [wrap]. rewrite exec_bind.
  cbn [w_WriteHeader ppw_Writer]. rewrite exec_bind, ppw_WriteHeader_exec by done.
  fold h. fold sent. rewrite Hw. cbn [exec].
  set (w' := if is_html h then _ else _). clearbody w'.
  pose proof (exec_sent (@wrap _ _ (ppw_Writer Detect) (ppw_Close tokenize) k w') c1 Ho) as [H1 H2].
  destruct (exec (wrap (ppw_Close tokenize) k w') c1) as [[[w2 a]|] c2]; cbn [snd] in *; [|done].
  assert (Ho2 : header_out c2) by (unfold header_out in *; by rewrite H1).
  destruct (exec_sent (do* ppw_Close tokenize w2 in Ret a) c2 Ho2) as [H3 H4].
  by rewrite H3, H4.
Qed.

Lemma redirect_URL_spec target u :
  exists redirURL, redirect_URL target u = Return redirURL /\ Host redirURL = Host target /\
    Scheme redirURL = Scheme u /\ User redirURL = User u /\ Opaque redirURL = Opaque u /\
    RawQuery redirURL = joinQuery (RawQuery target) (RawQuery u) /\
    ((RawPath redirURL = EmptyString /\ joined (Path target) (Path u) (Path redirURL)) \/
     (joined (EscapedPath target) (EscapedPath u) (RawPath redirURL) /\
      unescape (RawPath redirURL) encodePath = Ok (Path redirURL))).
Proof.
  unfold redirect_URL.
  destruct (joinURLPath_spec target (set_Host (Host target) u)) as (p & raw & Hj & Hp).
  rewrite Hj. cbn [outcome_bind]. eexists. split; [done|]. by repeat (split; [done|]).
Qed.

Lemma finish_GetHeader {A} D t w (k : Header -> prog A) c :
  exec (finish D t w (GetHeader k)) c = exec (finish D t w (k (c_live c))) c.
Proof. reflexivity. Qed.

Lemma finish_PutHeader {A} D t w f (k : prog A) c :
  exec (finish D t w (PutHeader f k)) c = exec (finish D t w k) (set_live (f (c_live c)) c).
Proof. reflexivity. Qed.

Lemma Header_Get_Set_other k k' v h :
  CanonicalMIMEHeaderKey k <> CanonicalMIMEHeaderKey k' ->
  Header_Get (Header_Set k v h) k' = Header_Get h k'.
Proof. intros Hne. unfold Header_Get. by rewrite (proj1 (Header_Values_other k k' v h Hne)). Qed.

Lemma Header_Get_Del_other k k' h :
  CanonicalMIMEHeaderKey k <> CanonicalMIMEHeaderKey k' ->
  Header_Get (Header_Del k h) k' = Header_Get h k'.
Proof.
  intros Hne. unfold Header_Get. by rewrite (proj2 (proj2 (Header_Values_other k k' "" h Hne))).
Qed.

(** A header the prefix writer leaves alone. *)
Definition kept_name (name : string) : Prop :=
  CanonicalMIMEHeaderKey name <> "Location" /\ CanonicalMIMEHeaderKey name <> "Content-Type" /\
  CanonicalMIMEHeaderKey name <> "Content-Length".

Lemma Header_Values_kept name v h :
  kept_name name ->
  Header_Values (Header_Set "Location" v h) name = Header_Values h name /\
  Header_Values (Header_Set "Content-Type" v h) name = Header_Values h name /\
  Header_Values (Header_Del "Content-Length" h) name = Header_Values h name.
Proof.
  intros (H1 & H2 & H3).
  split; [apply (Header_Values_other "Location" name v h); by apply not_eq_sym|].
  split; [apply (Header_Values_other "Content-Type" name v h); by apply not_eq_sym|].
  apply (Header_Values_other "Content-Length" name v h). by apply not_eq_sym.
Qed.

Lemma moved_location_kept hostname hostPath targetPath h name :
  kept_name name -> Header_Values (moved_location hostname hostPath targetPath h) name = Header_Values h name.
Proof.
  intros Hn. unfold moved_location. destruct (0 <? _)%nat; [|done]. by apply Header_Values_kept.
Qed.

(** A status line sent behind a prefix writer that leaves the location alone. *)
Lemma location_sent {A} Detect tokenize w code (k : prog A) h c loc :
  c_status c = None -> c_limit c = None -> (100 <= code <= 999)%Z -> bodyAllowed code = true ->
  Header_Get h "Location" = loc -> Header_Get h "Content-Length" = EmptyString ->
  updateLocation loc (hostname w) (hostPath w) (targetPath w) = loc ->
  let res := exec (finish Detect tokenize w (WriteHeader code k)) (set_live h c) in
  c_status res.2 = Some code /\ Header_Get (c_sent res.2) "Location" = loc /\
  (forall name, kept_name name -> Header_Values (c_sent res.2) name = Header_Values h name).
Proof.
  intros Hst Hlim Hcode Hall Hg Hcl Hup. cbv zeta.
  set (h1 := moved_location (hostname w) (hostPath w) (targetPath w) h).
  assert (Hh1 : Header_Get h1 "Location" = loc /\ Header_Get h1 "Content-Length" = EmptyString).
  { unfold h1, moved_location. rewrite Hg, Hup. destruct (0 <? String.length loc)%nat; [|done].
    split; [apply Header_Get_Set|]. by rewrite Header_Get_Set_other. }
  set (sent := if is_html h1 then Header_Del "Content-Length" h1 else h1).
  assert (Hsent : Header_Get sent "Location" = loc /\ Header_Get sent "Content-Length" = EmptyString).
  { unfold sent. destruct (is_html h1); [|done]. rewrite Header_Get_Del_other by done.
    unfold Header_Get at 2. rewrite Header_Values_Del. by destruct Hh1. }
  destruct (conn_WriteHeader_taking code (set_live sent (set_live h c)))
    as (c1 & Hw & Ht & Hs & _); [done..|by destruct Hsent|].
  destruct (finish_WriteHeader_sent Detect tokenize w code k (set_live h c) c1) as [H1 H2];
    [done|exact Hw|unfold header_out; by rewrite (taking_status _ _ Ht)|].
  rewrite H1, H2, Hs, (taking_status _ _ Ht). split; [done|]. split; [by destruct Hsent|].
  intros name Hn. cbn [c_live set_live]. transitivity (Header_Values h1 name); [|by apply moved_location_kept].
  unfold sent. destruct (is_html h1); [|done]. by apply (Header_Values_kept name EmptyString h1).
Qed.

(** A redirect behind a prefix writer that leaves its location alone. *)
Lemma http_Redirect_sent Detect tokenize w r url c :
  c_status c = None -> c_limit c = None -> Header_Get (c_live c) "Content-Length" = EmptyString ->
  redirect_location r url = url ->
  let loc := hexEscapeNonASCII url in
  updateLocation loc (hostname w) (hostPath w) (targetPath w) = loc ->
  let res := exec (finish Detect tokenize w (http_Redirect r url 303)) c in
  c_status res.2 = Some 303%Z /\ Header_Get (c_sent res.2) "Location" = loc /\
  (forall name, kept_name name -> Header_Values (c_sent res.2) name = Header_Values (c_live c) name).
Proof.
  intros Hst Hlim Hcl Hloc loc Hup. cbv zeta. unfold http_Redirect, p_header, p_put, p_write_header.
  rewrite Hloc. cbn [bind]. rewrite finish_GetHeader, finish_PutHeader. fold loc.
  set (h := Header_Set "Location" loc (c_live c)).
  assert (Hh : Header_Get h "Location" = loc /\ Header_Get h "Content-Length" = EmptyString /\
    forall name, kept_name name -> Header_Values h name = Header_Values (c_live c) name).
  { split; [apply Header_Get_Set|]. split; [by unfold h; rewrite Header_Get_Set_other|].
    intros name Hn. by apply Header_Values_kept. }
  clearbody h. destruct Hh as (Hh1 & Hh2 & Hh3).
  destruct (negb _ && _); cbn [bind].
  - rewrite finish_PutHeader. cbn [c_live set_live].
    match goal with |- context [set_live ?h (set_live ?g ?c)] =>
      change (set_live h (set_live g c)) with (set_live h c) end.
    match goal with |- context [WriteHeader 303 ?k] => destruct (location_sent Detect tokenize w 303 k
      (Header_Set "Content-Type" "text/html; charset=utf-8" h) c loc) as (H1 & H2 & H3);
      [done..|by rewrite Header_Get_Set_other|by rewrite Header_Get_Set_other|done|] end.
    split; [exact H1|]. split; [exact H2|]. intros name Hn. etransitivity; [by apply H3|].
    rewrite <- Hh3 by done. by apply Header_Values_kept.
  - match goal with |- context [WriteHeader 303 ?k] =>
      destruct (location_sent Detect tokenize w 303 k h c loc) as (H1 & H2 & H3); [done..|] end.
    split; [exact H1|]. split; [exact H2|]. intros name Hn. etransitivity; [by apply H3|]. by apply Hh3.
Qed.

(** ** Properties *)

(** [joinURLPath] on any two URLs: it never slices an empty string; without raw
    paths the result is the two paths with exactly one slash between them, otherwise
    this holds of the encoded paths, and the path returned is what the raw path
    returned decodes to. *)
Theorem joinURLPath_coherent a b :
  exists p raw, joinURLPath a b = Return (p, raw) /\
    ((raw = EmptyString /\ joined (Path a) (Path b) p) \/
     (joined (EscapedPath a) (EscapedPath b) raw /\ unescape raw encodePath = Ok p)).
Proof. apply joinURLPath_spec. Qed.

(** The redirect handler of a route with a target host, on any response not begun: status
    303 and the location of the path below the route's under the target's, on the target's
    host, with the target's query in front of the request's; the prefix writer the handler
    runs behind does not touch it, and other headers stay. *)
Lemma redirected_sent d hostname hostPath target r c :
  c_status c = None -> c_limit c = None -> Header_Get (c_live c) "Content-Length" = EmptyString ->
  Host target <> EmptyString -> request_URL (r_URL r) ->
  let u := strip_prefix hostPath (r_URL r) in
  let res := exec (newRedirectHandler d hostname hostPath target r) c in
  exists redirURL, redirect_URL target u = Return redirURL /\
    c_status res.2 = Some 303%Z /\
    Header_Get (c_sent res.2) "Location" = hexEscapeNonASCII (URL_String redirURL) /\
    (forall name, kept_name name -> Header_Values (c_sent res.2) name = Header_Values (c_live c) name).
Proof.
  intros Hst Hlim Hcl Hh Hu. cbv zeta.
  destruct (redirect_URL_spec target (strip_prefix hostPath (r_URL r)))
    as (redirURL & Hr & Hhost & Hs & Hus & Hop & _).
  exists redirURL. split; [done|].
  assert (Hparts : Scheme (strip_prefix hostPath (r_URL r)) = Scheme (r_URL r) /\
    User (strip_prefix hostPath (r_URL r)) = User (r_URL r) /\
    Opaque (strip_prefix hostPath (r_URL r)) = Opaque (r_URL r)).
  { unfold strip_prefix. by destruct (negb _). }
  destruct Hparts as (P1 & P2 & P3). destruct Hu as (U1 & U2 & U3 & _).
  assert (Hreq : request_URL (set_Host EmptyString redirURL)).
  { unfold request_URL. cbn. by rewrite Hs, Hus, Hop, P1, P2, P3. }
  assert (Hne : Host redirURL <> EmptyString) by (by rewrite Hhost).
  unfold newRedirectHandler, handlePathCombinations, with_prefix_writer, redirect_handler.
  cbn [r_URL set_r_URL]. rewrite Hr. cbn [p_outcome bind].
  apply http_Redirect_sent; [done..| |].
  - apply redirect_location_host. intros url Hp. eapply Parse_redirect; eauto.
  - apply updateLocation_other_host. intros url Hp. eapply Parse_redirect; eauto.
Qed.

(** The path a handler sees: [handlePathCombinations] hands it a rooted path, which
    under the host path is the request's path with that prefix removed; whatever the raw
    path becomes, the encoded path of the stripped URL still stands for its path. *)
Theorem strip_prefix_rooted hostPath u :
  let u' := strip_prefix hostPath u in
  HasPrefix (Path u') slash = true /\ Path u' = unprefix hostPath (Path u) /\
  unescape (EscapedPath u') encodePath = Ok (Path u') /\
  (forall p, Path u = hostPath +:+ slash +:+ p -> Path u' = slash +:+ p).
Proof.
  cbv zeta.
  assert (Hp : Path (strip_prefix hostPath u) = unprefix hostPath (Path u)).
  { unfold strip_prefix, unprefix. by destruct (HasPrefix (TrimPrefix (Path u) hostPath) slash). }
  rewrite unescape_EscapedPath, Hp. unfold unprefix. split.
  { destruct (HasPrefix (TrimPrefix (Path u) hostPath) slash) eqn:E; [done|apply HasPrefix_slash]. }
  split; [done|]. split; [done|]. intros p ->. rewrite TrimPrefix_app. by rewrite HasPrefix_slash.
Qed.

Lemma proxy_director_spec target r :
  exists r', proxy_director target r = Return r' /\
    Scheme (r_URL r') = Scheme target /\ Host (r_URL r') = Host target /\
    RawQuery (r_URL r') = joinQuery (RawQuery target) (RawQuery (r_URL r)) /\
    ((RawPath (r_URL r') = EmptyString /\ joined (Path target) (Path (r_URL r)) (Path (r_URL r'))) \/
     (joined (EscapedPath target) (EscapedPath (r_URL r)) (RawPath (r_URL r')) /\
      unescape (RawPath (r_URL r')) encodePath = Ok (Path (r_URL r')))) /\
    Method r' = Method r /\ r_Host r' = r_Host r.
Proof.
  unfold proxy_director.
  destruct (joinURLPath_spec target (set_Host (Host target) (set_Scheme (Scheme target) (r_URL r))))
    as (p & raw & Hj & Hp).
  rewrite Hj. cbn [outcome_bind]. eexists. split; [done|]. by repeat (split; [done|]).
Qed.

(** A proxy forwards, for every request, one request to the target: its scheme and
    host, the path of the request without the route's host path joined to the target's
    path, and both queries; it is served behind a writer that moves the response's links
    from the target's path to the host path. *)
Theorem proxy_forwards d hostname hostPath target r :
  let u := strip_prefix hostPath (r_URL r) in
  exists r', newProxyHandler d hostname hostPath target r =
      with_prefix_writer (d_DetectContentType d) (d_tokenize d) hostname hostPath (Path target)
        (d_transport d r') /\
    Scheme (r_URL r') = Scheme target /\ Host (r_URL r') = Host target /\
    RawQuery (r_URL r') = joinQuery (RawQuery target) (RawQuery u) /\
    ((RawPath (r_URL r') = EmptyString /\ joined (Path target) (Path u) (Path (r_URL r'))) \/
     (joined (EscapedPath target) (EscapedPath u) (RawPath (r_URL r')) /\
      unescape (RawPath (r_URL r')) encodePath = Ok (Path (r_URL r')))) /\
    Method r' = Method r /\ r_Host r' = r_Host r.
Proof.
  cbv zeta. destruct (proxy_director_spec target (set_r_URL (strip_prefix hostPath (r_URL r)) r))
    as (r' & Hr & Hrest).
  exists r'. split; [|exact Hrest].
  unfold newProxyHandler, handlePathCombinations, proxy_handler. by rewrite Hr.
Qed.

(** ** Go WebAssembly *)

(** The bug of a WebAssembly route without a path (the documented
    [golang-project.com -> go-wasm:///...]): the clean form of the empty host path is
    [.], so none of the handler's cases is a request path, and every request is
    answered with 404. *)
Theorem gowasm_without_path_404 d hostname wasmFile r :
  HasPrefix (Path (r_URL r)) slash = true ->
  newGoWasmHandler d hostname EmptyString wasmFile r = http_Error "Not found" 404.
Proof.
  intros [p Hp]%HasPrefix_spec. unfold newGoWasmHandler. rewrite Hp.
  unfold slash. rewrite sapp_cons, sapp_nil_l. reflexivity.
Qed.

(** C34. A WebAssembly route under a path: its own path is redirected to the directory, the
    module is served, and any other path but the page's and the script's is answered with
    404.  The page and the script are asked for under names that the embedded file system
    does not have ([assets/go-wasm.html] instead of [go-wasm.html]), and the error is
    ignored: every request for them panics, so no WebAssembly program can be started. *)
Theorem gowasm_dispatch d hostname segs wasmFile r :
  Forall proper_seg segs -> segs <> [] ->
  let dir := abs_path segs in
  let serve path := newGoWasmHandler d hostname dir wasmFile (set_r_URL (set_Paths path "" (r_URL r)) r) in
  let at_ path := set_r_URL (set_Paths path "" (r_URL r)) r in
  serve dir = http_Redirect (at_ dir) (dir +:+ slash) 303 /\
  serve (dir +:+ slash) = Crash /\
  serve (dir +:+ slash +:+ "go-wasm.js") = Crash /\
  serve (dir +:+ slash +:+ "main.wasm") =
    d_ServeFile d wasmFile (at_ (dir +:+ slash +:+ "main.wasm")) /\
  (forall path, path <> dir -> path <> dir +:+ slash -> path <> dir +:+ slash +:+ "go-wasm.js" ->
     path <> dir +:+ slash +:+ "main.wasm" -> serve path = http_Error "Not found" 404).
Proof.
  intros Hs Hne dir serve at_.
  assert (Hjs : path_Join [dir; "go-wasm.js"] = dir +:+ slash +:+ "go-wasm.js").
  { unfold dir. rewrite path_Join_name by (done || by vm_compute). by apply abs_path_snoc. }
  assert (Hmain : path_Join [dir; "main.wasm"] = dir +:+ slash +:+ "main.wasm").
  { unfold dir. rewrite path_Join_name by (done || by vm_compute). by apply abs_path_snoc. }
  assert (Hinj : forall x y : string, String.eqb (dir +:+ x) (dir +:+ y) = String.eqb x y).
  { intros x y. destruct (String.eqb_spec x y) as [->|Hn]; [apply String.eqb_refl|].
    apply String.eqb_neq. intros Heq. by apply sapp_inj_l in Heq. }
  assert (Hdir : forall x, String.eqb (dir +:+ x) dir = String.eqb x EmptyString).
  { intros x. rewrite <- (sapp_nil_r dir) at 2. apply Hinj. }
  unfold serve, newGoWasmHandler. cbn [r_URL set_r_URL Path set_Paths].
  rewrite Hjs, Hmain. replace (Clean dir) with dir by (symmetry; by apply Clean_abs).
  clearbody dir. clear Hjs Hmain.
  split; [by rewrite String.eqb_refl|].
  split; [by rewrite Hdir, String.eqb_refl|].
  split; [by rewrite Hdir, !Hinj|]. split; [by rewrite Hdir, !Hinj|].
  intros path H1 H2 H3 H4. by rewrite !(proj2 (String.eqb_neq _ _)).
Qed.

(** ** Tailing *)

(** The text of the events up to the first that ends the response. *)
Fixpoint tail_text (events : list tail_event) : string :=
  match events with
  | TailLine text None :: events => text +:+ str1 "010"%char +:+ tail_text events
  | TailLine text (Some e) :: _ => text +:+ str1 "010"%char +:+ e
  | _ => EmptyString
  end.

Lemma tail_loop_exec events c :
  taking 200 c ->
  exists c', exec (tail_loop events) c = (Some tt, c') /\ with_body (tail_text events) c c'.
Proof.
  revert c. induction events as [|ev events IH]; intros c Hc.
  { exists c. split; [done|]. by split; rewrite ?sapp_nil_r. }
  destruct ev as [text err| |]; cbn [tail_loop tail_text];
    [|exists c; split; [done|]; by split; rewrite ?sapp_nil_r..].
  cbn [p_write bind exec].
  pose proof (conn_Write_taking 200 (text +:+ str1 "010"%char) c Hc) as Hw.
  destruct (conn_Write (text +:+ str1 "010"%char) c) as [c1 [n e]].
  destruct Hw as (Hc1 & [Hb1 Hs1] & _). destruct err as [e1|]; cbn [p_flush bind exec].
  - pose proof (conn_Write_taking 200 e1 c1 Hc1) as Hw2.
    destruct (conn_Write e1 c1) as [c2 [n2 e2]]. destruct Hw2 as (_ & [Hb2 Hs2] & _).
    exists c2. split; [done|]. split; [by rewrite Hb2, Hb1, !sapp_assoc | by rewrite Hs2].
  - destruct (IH c1 Hc1) as (c' & -> & Hb & Hs). exists c'. split; [done|].
    split; [by rewrite Hb, Hb1, !sapp_assoc | by rewrite Hs].
Qed.

(** Tailing a file sends status 200, plain text, and the lines received in order, one
    per line, up to the end of the request or the first error, whose text comes last.
    When the file cannot be tailed the answer is 500, and then the handler panics on the
    missing tail. *)
Theorem tail_streams_lines d hostname hostPath file whence r input :
  let res := exec (newTailHandler d hostname hostPath file whence r) (new_Conn input None) in
  match d_TailFile d file whence with
  | Ok events => res.1 = Some tt /\ c_status res.2 = Some 200%Z /\
      Header_Get (c_sent res.2) "Content-Type" = "text/plain; charset=utf-8" /\
      c_body res.2 = tail_text events
  | Err err => res.1 = None /\ c_status res.2 = Some 500%Z /\
      c_body res.2 = err +:+ str1 "010"%char
  end.
Proof.
  cbv zeta. unfold newTailHandler. destruct (d_TailFile d file whence) as [events|err].
  - cbn [bind p_put p_write_header exec].
    destruct (conn_WriteHeader_taking 200 (set_live (Header_Add "content-type"
      "text/plain; charset=utf-8" (c_live (new_Conn input None))) (new_Conn input None)))
      as (c1 & -> & Ht & Hs & Hl & Hb); try done.
    destruct (tail_loop_exec events c1 Ht) as (c2 & Hex & Hb2 & Hs2). rewrite Hex.
    pose proof (exec_sent (tail_loop events) c1) as Hst. rewrite Hex in Hst. cbn [snd fst] in *.
    destruct Hst as [Hst _]; [unfold header_out; by rewrite (taking_status _ _ Ht)|].
    rewrite Hst, Hb2, Hb, Hs2, Hs. split; [done|]. split; [apply Ht|]. split; [reflexivity|].
    by rewrite sapp_nil_l.
  - rewrite exec_bind.
    destruct (exec_http_Error err 500 (new_Conn input None)) as (H1 & H2 & H3 & _); try done.
    destruct (exec (http_Error err 500) (new_Conn input None)) as [o c1]. cbn [fst snd] in *. subst o.
    cbn [p_put p_write_header bind exec].
    rewrite conn_WriteHeader_out by (unfold header_out; cbn [c_status set_live]; by rewrite H2).
    cbn [exec]. split; [done|]. split; [exact H2|]. rewrite <- (sapp_nil_l (err +:+ _)). exact H3.
Qed.

(** ** Directory routes *)

(** The handlers' operations on another operating system. *)
Definition set_os (os : OS) (d : Deps) : Deps :=
  mk_Deps (d_DetectContentType d) (d_tokenize d) (d_ServeContent d) (d_ServeFile d) (d_transport d) (d_php d)
    (d_TailFile d) (d_assets d) (d_format_time d) (d_Quote d) os (d_Stat d).

(** Two systems with the same names and links, on which the files below a root are the
    same; any other file may differ. *)
Definition same_below (root : string) (os1 os2 : OS) : Prop :=
  Getwd os1 = Getwd os2 /\ (forall name, Lstat os1 name = Lstat os2 name) /\
  (forall name, Readlink os1 name = Readlink os2 name) /\
  (forall segs segs', absRoot os1 root = Ok (abs_path segs) -> Forall proper_seg (segs ++ segs') ->
     os_Open os1 (abs_path (segs ++ segs')) = os_Open os2 (abs_path (segs ++ segs'))).

Lemma resolve_same root os1 os2 relPath :
  same_below root os1 os2 -> resolve os1 root relPath = resolve os2 root relPath.
Proof.
  intros (Hc & Hl & Hk & _). unfold resolve, absRoot. rewrite Hc.
  destruct (Abs (Getwd os2) _) as [abs|err]; [|done]. cbn [result_bind]. generalize (path_Join [abs; relPath]) as filename.
  induction max_depth as [|more IH]; intros filename; cbn [resolve_loop]; rewrite Hl, Hk; [done|].
  destruct (Lstat os2 filename) as [fi|]; [|done]. destruct (negb (IsSymlink fi)); [done|].
  destruct (Readlink os2 filename); [apply IH|done].
Qed.

(** C28. A directory route shows nothing but its directory: what it answers to a request,
    listings included, is the same on two systems that differ in files outside the root
    only, whatever the path and whatever the links. *)
Theorem file_route_confined d os hostname hostPath root r :
  HasPrefix root slash = true -> same_below root (d_os d) os ->
  newFileServer (set_os os d) hostname hostPath root r = newFileServer d hostname hostPath root r.
Proof.
  intros Hroot Hsame.
  assert (Hopen : forall relPath, Directory_Open os root relPath = Directory_Open (d_os d) root relPath).
  { intros relPath. unfold Directory_Open. rewrite (resolve_same root (d_os d) os relPath Hsame).
    destruct (resolve os root relPath) as [p|]; [|done].
    destruct (http_Dir_name_below (d_os d) root p Hroot) as (segs & segs' & Hr & Hs & ->).
    destruct Hsame as (_ & _ & _ & Ho). by rewrite (Ho segs segs'). }
  assert (Hfs : forall r, file_server (set_os os d) (Directory_Open os root) r =
    file_server d (Directory_Open (d_os d) root) r).
  { intros r'. unfold file_server, FileServer. cbn [d_format_time d_Quote d_ServeContent set_os]. by rewrite Hopen. }
  unfold newFileServer, handlePathCombinations. cbn [d_Stat d_DetectContentType d_tokenize d_ServeFile d_os set_os].
  destruct (d_Stat d root) as [info|]; [destruct (negb (IsDir info))|]; by rewrite ?Hfs.
Qed.

(** ** Witnesses *)

Definition demo_deps : Deps := {|
  d_DetectContentType := sniff;
  d_tokenize := byte_tokens;
  d_ServeContent _ _ _ _ := Ret tt;
  d_ServeFile f _ := do* p_write f in Ret tt;
  d_transport r := do* p_write (r_Host r) in Ret tt;
  d_php _ _ := Ret tt;
  d_TailFile _ _ := Ok [TailLine "one" None; TailLine "two" None; ContextDone];
  d_assets f := f;
  d_format_time _ := "";
  d_Quote := id;
  d_os := demo_os;
  d_Stat f := Lstat demo_os f
|}.

Definition get (path query : string) : Request :=
  mk_Request "GET" (set_RawQuery query (set_Paths path "" empty_URL)) ∅ "h" "1.2.3.4:5".

Definition github : URL := set_Paths "/razzie" "" (set_Host "github.com" (set_Scheme "redirect" empty_URL)).

Definition backend : URL := set_Paths "/app" "" (set_Host "localhost:8080" (set_Scheme "http" empty_URL)).

Lemma gowasm_without_path_404_witness :
  newGoWasmHandler demo_deps "h" "" "build.wasm" (get "/main.wasm" "") = http_Error "Not found" 404.
Proof. apply gowasm_without_path_404. vm_compute. reflexivity. Defined.

Lemma gowasm_dispatch_witness :
  newGoWasmHandler demo_deps "h" (abs_path ["app"]) "build.wasm" (get "/app/" "") = Crash /\
  newGoWasmHandler demo_deps "h" (abs_path ["app"]) "build.wasm" (get "/app/main.wasm" "") =
    d_ServeFile demo_deps "build.wasm" (get "/app/main.wasm" "").
Proof.
  destruct (gowasm_dispatch demo_deps "h" ["app"] "build.wasm" (get "/" ""))
    as (_ & Hp & _ & Hm & _); [by repeat constructor|done|]. split; [exact Hp|exact Hm].
Defined.

(** A system on which nothing outside [/srv/www] can be opened. *)
Definition jailed_os : OS :=
  mk_OS (Getwd demo_os) (Lstat demo_os) (Readlink demo_os)
    (fun name => if HasPrefix name "/srv/www" then os_Open demo_os name else Err "no such file").

Lemma file_route_confined_witness :
  newFileServer (set_os jailed_os (set_os demo_os demo_deps)) "h" "/files" "/srv/www" (get "/files/l" "") =
  newFileServer (set_os demo_os demo_deps) "h" "/files" "/srv/www" (get "/files/l" "").
Proof.
  apply file_route_confined; [reflexivity|]. split; [reflexivity|]. split; [reflexivity|]. split; [reflexivity|].
  intros segs segs' Hr Hs. apply Forall_app in Hs as [Hs Hs'].
  destruct (below_root_abs segs segs' Hs Hs') as [Hp _].
  change (absRoot (d_os (set_os demo_os demo_deps)) "/srv/www") with (@Ok string "/srv/www") in Hr.
  assert (Hr' : "/srv/www" = abs_path segs) by congruence. rewrite <- Hr' in Hp.
  cbn [os_Open jailed_os]. by rewrite Hp.
Defined.
