(* ===== verification/Autocert.v ===== *)
(** vendor/golang.org/x/crypto/acme/autocert: the certificate manager of the server, as
    far as the server's behaviour depends on it: which certificate a TLS handshake gets, and
    how the plain HTTP port answers when TLS is on.

    The manager's own state is a record, the fields [NewServer] sets another.  Parameters:
    the conversion of a server name to ASCII (x/net/idna), the decoding and checking of a
    cached certificate (encoding/pem, crypto/x509), the file system behind the cache, and
    the exchange with the certificate authority ([createCert]).  A call of [createCert] or of
    [cachePut] is recorded in what [GetCertificate] returns. *)

From S2P Require Import Prelude GoStrings Url Http GoPath Handlers.

Local Open Scope go_scope.
Local Open Scope prog_scope.

(** ** Strings and addresses (strings, path and net) *)

Fixpoint trim_left (c : ascii) (s : string) : string :=
  match s with
  | EmptyString => EmptyString
  | String d t => if Ascii.eqb d c then trim_left c t else s
  end.

Fixpoint trim_right (c : ascii) (s : string) : string :=
  match s with
  | EmptyString => EmptyString
  | String d t =>
      match trim_right c t with
      | EmptyString => if Ascii.eqb d c then EmptyString else str1 d
      | t' => String d t'
      end
  end.

(** [strings.Trim] with a cut set of one byte. *)
Definition Trim (s : string) (c : ascii) : string := trim_right c (trim_left c s).

Definition TrimSuffix (s suffix : string) : string :=
  if HasSuffix s suffix then str_take (String.length s - String.length suffix) s else s.

(** [path.Base] *)
Definition path_Base (path : string) : string :=
  if String.eqb path EmptyString then "."
  else
    let path := trim_right "/" path in
    let path := match LastIndexByte path "/" with Some i => str_drop (S i) path | None => path end in
    if String.eqb path EmptyString then "/" else path.

(** [net.SplitHostPort] *)
Definition SplitHostPort (hostport : string) : result (string * string) :=
  match LastIndexByte hostport ":" with
  | None => Err "missing port in address"
  | Some i =>
      let port := str_drop (S i) hostport in
      let brackets (host : string) (j k : nat) :=
        match IndexByte (str_drop j hostport) "[" with
        | Some _ => Err "unexpected '[' in address"
        | None =>
            match IndexByte (str_drop k hostport) "]" with
            | Some _ => Err "unexpected ']' in address"
            | None => Ok (host, port)
            end
        end in
      if HasPrefix hostport "[" then
        match IndexByte hostport "]" with
        | None => Err "missing ']' in address"
        | Some close =>
            if (S close =? String.length hostport)%nat then Err "missing port in address"
            else if (S close =? i)%nat then brackets (str_drop 1 (str_take close hostport)) 1 (S close)
            else if HasPrefix (str_drop (S close) hostport) ":" then Err "too many colons in address"
            else Err "missing port in address"
        end
      else
        let host := str_take i hostport in
        match IndexByte host ":" with
        | Some _ => Err "too many colons in address"
        | None => brackets host 0 0
        end
  end.

(** [net.JoinHostPort] *)
Definition JoinHostPort (host port : string) : string :=
  match IndexByte host ":" with
  | Some _ => "[" +:+ host +:+ "]:" +:+ port
  | None => host +:+ ":" +:+ port
  end.

(** ** Data *)

Inductive cert_error := ErrCacheMiss | CertError (msg : string).

Definition cert_error_String (e : cert_error) : string :=
  match e with
  | ErrCacheMiss => "acme/autocert: certificate cache miss"
  | CertError msg => msg
  end.

(** [tls.ClientHelloInfo]; [None] is the nil slice of an extension that was not sent. *)
Record ClientHelloInfo := mk_Hello {
  ServerName : string;
  SupportedProtos : list string;
  SignatureSchemes : option (list Z);
  SupportedCurves : option (list Z);
  CipherSuites : list Z
}.

(** [tls.Certificate]: the chain, the private key and whether it can sign, the parsed leaf. *)
Record Certificate := mk_Certificate {
  Chain : list string;
  PrivateKey : string;
  is_Signer : bool;
  Leaf : string
}.

Record certKey := mk_certKey { domain : string; isRSA : bool; isToken : bool }.

#[global] Instance certKey_eq_dec : EqDecision certKey.
Proof. solve_decision. Defined.

#[global] Instance certKey_countable : Countable certKey.
Proof.
  apply (inj_countable' (fun k => (domain k, isRSA k, isToken k))
           (fun '(d, r, t) => mk_certKey d r t)). by intros [].
Defined.

Definition certKey_String (ck : certKey) : string :=
  if isToken ck then domain ck +:+ "+token"
  else if isRSA ck then domain ck +:+ "+rsa"
  else domain ck.

Record certState := mk_certState { cs_key : option string; cs_cert : list string; cs_leaf : string }.

(** [tlscert] *)
Definition tlscert (s : certState) : cert_error + Certificate :=
  match cs_key s with
  | None => inl (CertError "acme/autocert: missing signer")
  | Some key =>
      if (length (cs_cert s) =? 0)%nat then inl (CertError "acme/autocert: missing certificate")
      else inr (mk_Certificate (cs_cert s) key true (cs_leaf s))
  end.

(** The fields a user of the package sets. *)
Record ManagerConfig := mk_ManagerConfig {
  Prompt : option (string -> bool);
  Cache : option (string -> cert_error + string);               (* [Cache.Get] *)
  HostPolicy : option (string -> outcome (option string))       (* the error, if any *)
}.

(** The manager's state; of a renewal that has been started only its key is kept. *)
Record Manager := mk_Manager {
  m_state : gmap certKey certState;
  certTokens : gmap string Certificate;
  httpTokens : gmap string string;
  renewal : gset certKey
}.

Definition new_Manager : Manager := mk_Manager ∅ ∅ ∅ ∅.

Definition set_state (ck : certKey) (s : certState) (mg : Manager) : Manager :=
  mk_Manager (<[ck := s]> (m_state mg)) (certTokens mg) (httpTokens mg) (renewal mg).

(** [startRenew]: one renewal for each key. *)
Definition startRenew (ck : certKey) (mg : Manager) : Manager :=
  mk_Manager (m_state mg) (certTokens mg) (httpTokens mg) ({[ck]} ∪ renewal mg).

(** [AcceptTOS] *)
Definition AcceptTOS (tosURL : string) : bool := true.

(** [DirCache.Get]: [ReadFile] answers [Ok None] for a file that does not exist. *)
Definition DirCache_Get (ReadFile : string -> result (option string)) (d name : string)
    : cert_error + string :=
  match ReadFile (path_Join [d; Clean (slash +:+ name)]) with
  | Err err => inl (CertError err)
  | Ok None => inl ErrCacheMiss
  | Ok (Some data) => inr data
  end.

(** ** What the client offers *)

Definition ALPNProto : string := "acme-tls/1".

Definition wantsTokenCert (hello : ClientHelloInfo) : bool :=
  match SupportedProtos hello with
  | [proto] => String.eqb proto ALPNProto
  | _ => false
  end.

Definition z_elem (x : Z) (l : list Z) : bool := existsb (Z.eqb x) l.

(** ECDSAWithSHA1, ECDSAWithP256AndSHA256, ECDSAWithP384AndSHA384, ECDSAWithP521AndSHA512 *)
Definition ecdsa_schemes : list Z := [515; 1027; 1283; 1539]%Z.
Definition CurveP256 : Z := 23.

(** TLS_ECDHE_ECDSA_WITH_: RC4_128_SHA, AES_128_CBC_SHA, AES_256_CBC_SHA, AES_128_CBC_SHA256,
    AES_128_GCM_SHA256, AES_256_GCM_SHA384, CHACHA20_POLY1305 *)
Definition ecdsa_suites : list Z := [49159; 49161; 49162; 49187; 49195; 49196; 52393]%Z.

Definition supportsECDSA (hello : ClientHelloInfo) : bool :=
  match SignatureSchemes hello with
  | Some schemes => existsb (fun s => z_elem s ecdsa_schemes) schemes
  | None => true
  end &&
  match SupportedCurves hello with
  | Some curves => z_elem CurveP256 curves
  | None => true
  end &&
  existsb (fun s => z_elem s ecdsa_suites) (CipherSuites hello).

(** ** Certificates *)

(** Calls that ask for a certificate or store one. *)
Inductive act := CreateCert (ck : certKey) | CachePut (ck : certKey) (cert : Certificate).

Section Manager.
Context (mc : ManagerConfig).
Context (ToASCII : string -> result string) (Quote : string -> string).
(** [decode]: the part of [cacheGet] that turns the data of the cache into a certificate. *)
Context (decode : certKey -> string -> cert_error + Certificate).
Context (createCert : Manager -> certKey -> Manager * (cert_error + Certificate)).

Definition hostPolicy : string -> outcome (option string) :=
  match HostPolicy mc with
  | Some policy => policy
  | None => fun _ => Return None
  end.

Definition cacheGet (ck : certKey) : cert_error + Certificate :=
  match Cache mc with
  | None => inl ErrCacheMiss
  | Some get =>
      match get (certKey_String ck) with
      | inl err => inl err
      | inr data => decode ck data
      end
  end.

(** [cert] *)
Definition manager_cert (mg : Manager) (ck : certKey) : Manager * (cert_error + Certificate) :=
  match m_state mg !! ck with
  | Some s => (mg, tlscert s)
  | None =>
      match cacheGet ck with
      | inl err => (mg, inl err)
      | inr cert =>
          if negb (is_Signer cert) then (mg, inl (CertError "acme/autocert: private key cannot sign"))
          else (startRenew ck (set_state ck (mk_certState (Some (PrivateKey cert)) (Chain cert) (Leaf cert)) mg),
                inr cert)
      end
  end.

Definition GetCertificate (mg : Manager) (hello : ClientHelloInfo)
    : outcome (Manager * list act * (cert_error + Certificate)) :=
  let fail (err : string) := Return (mg, [], inl (CertError err)) in
  match Prompt mc with
  | None => fail "acme/autocert: Manager.Prompt not set"
  | Some _ =>
      let name := ServerName hello in
      if String.eqb name EmptyString then fail "acme/autocert: missing server name"
      else if negb (Contains (Trim name ".") ".")
      then fail "acme/autocert: server name component count invalid"
      else
        match ToASCII name with
        | Err _ => fail "acme/autocert: server name contains invalid character"
        | Ok name =>
            if wantsTokenCert hello then
              match certTokens mg !! name with
              | Some cert => Return (mg, [], inr cert)
              | None =>
                  match cacheGet (mk_certKey name false true) with
                  | inr cert => Return (mg, [], inr cert)
                  | inl _ => fail ("acme/autocert: no token cert for " +:+ Quote name)
                  end
              end
            else
              let ck := mk_certKey (TrimSuffix name ".") (negb (supportsECDSA hello)) false in
              match manager_cert mg ck with
              | (mg, inr cert) => Return (mg, [], inr cert)
              | (mg, inl (CertError err)) => Return (mg, [], inl (CertError err))
              | (mg, inl ErrCacheMiss) =>
                  let! refused := hostPolicy name in
                  match refused with
                  | Some err => Return (mg, [], inl (CertError err))
                  | None =>
                      match createCert mg ck with
                      | (mg, inl err) => Return (mg, [CreateCert ck], inl err)
                      | (mg, inr cert) => Return (mg, [CreateCert ck; CachePut ck cert], inr cert)
                      end
                  end
              end
        end
  end.

(** ** The plain HTTP port *)

Definition httpTokenCacheKey (tokenPath : string) : string := path_Base tokenPath +:+ "+http-01".

Definition httpToken (mg : Manager) (tokenPath : string) : cert_error + string :=
  match httpTokens mg !! tokenPath with
  | Some v => inr v
  | None =>
      match Cache mc with
      | None => inl (CertError ("acme/autocert: no token at " +:+ Quote tokenPath))
      | Some get => get (httpTokenCacheKey tokenPath)
      end
  end.

Definition stripPort (hostport : string) : string :=
  match SplitHostPort hostport with
  | Err _ => hostport
  | Ok (host, _) => JoinHostPort host "443"
  end.

(** The location of [handleHTTPRedirect]. *)
Definition https_target (r : Request) : string :=
  "https://" +:+ stripPort (r_Host r) +:+ RequestURI (r_URL r).

Definition handleHTTPRedirect : HandlerFunc := fun r =>
  if negb (String.eqb (Method r) "GET") && negb (String.eqb (Method r) "HEAD")
  then http_Error "Use HTTPS" 400
  else http_Redirect r (https_target r) 302.

Definition challenge_prefix : string := "/.well-known/acme-challenge/".

Definition HTTPHandler (mg : Manager) (fallback : option HandlerFunc) : HandlerFunc :=
  let fallback := match fallback with Some h => h | None => handleHTTPRedirect end in
  fun r =>
    if negb (HasPrefix (Path (r_URL r)) challenge_prefix) then fallback r
    else
      let* refused := p_outcome (hostPolicy (r_Host r)) in
      match refused with
      | Some err => http_Error err 403
      | None =>
          match httpToken mg (Path (r_URL r)) with
          | inl err => http_Error (cert_error_String err) 404
          | inr data => do* p_write data in Ret tt
          end
      end.
End Manager.

(** ** Examples *)

Example stripPort_examples :
  (stripPort "a.com", stripPort "a.com:80", stripPort "[::1]:8080", stripPort "::1") =
  ("a.com", "a.com:443", "[::1]:443", "::1").
Proof. reflexivity. Qed.

Example httpTokenCacheKey_example :
  httpTokenCacheKey "/.well-known/acme-challenge/tok//" = "tok+http-01".
Proof. reflexivity. Qed.

Example Trim_examples : (Trim "..a.b." ".", Trim "..." ".", TrimSuffix "a.com." ".") = ("a.b", "", "a.com").
Proof. reflexivity. Qed.
