(* ===== verification/ListingProps.v ===== *)
(** Properties of directory listings: the page [Listing] renders for the entries
    [FileServer] lists, read by a browser behind [handlePathCombinations]. *)

From S2P Require Import Prelude GoStrings Glob Url Http GoPath Listing Stream.
From S2P Require Import Util PrefixWriter FileServer PrefixWriterProps Handlers HandlersProps.

Local Open Scope go_scope.
Local Open Scope prog_scope.

(** ** Rooted paths *)

(** One slash at the start. *)
Definition rooted (p : string) : Prop := HasPrefix p slash = true /\ HasPrefix p "//" = false.

Lemma rooted_cons p : rooted p <-> exists t, p = slash +:+ t /\ HasPrefix t slash = false.
Proof.
  unfold rooted. split.
  - intros [[t ->]%HasPrefix_spec Hn]. exists t. split; [done|].
    unfold slash in *. rewrite sapp_cons, sapp_nil_l in Hn. exact Hn.
  - intros (t & -> & Ht). split; [apply HasPrefix_app|].
    unfold slash in *. rewrite sapp_cons, sapp_nil_l. exact Ht.
Qed.

Lemma abs_path_rooted segs : Forall proper_seg segs -> rooted (abs_path segs).
Proof.
  intros Hs. apply rooted_cons. exists (Join segs slash). split; [done|].
  destruct (decide (segs = [])) as [->|Hne]; [done|]. by apply proper_Join_no_slash.
Qed.

Lemma urlNormalizer_no_slash t :
  url_plain t = true -> HasPrefix t slash = false -> HasPrefix (urlNormalizer t) slash = false.
Proof.
  destruct t as [|c t]; [done|]. intros Hp Ht. apply urlNormalizer_plain in Hp as (-> & _).
  unfold norm_byte. unfold slash in *. cbn [HasPrefix] in Ht. rewrite HasPrefix_nil, andb_true_r in Ht.
  destruct (url_kept c); unfold str1, percent_byte; rewrite ?sapp_cons, ?sapp_nil_l; cbn [HasPrefix].
  - by rewrite Ht.
  - done.
Qed.

Lemma urlNormalizer_slash t : urlNormalizer (slash +:+ t) = slash +:+ urlNormalizer t.
Proof. unfold slash. by rewrite sapp_cons, sapp_nil_l. Qed.

(** ** Links *)

(** A path a route can have in a URL as it is. *)
Definition host_plain (hostPath : string) : Prop :=
  hostPath = EmptyString \/
  (rooted hostPath /\ str_forall url_printable hostPath = true /\ str_elem percent_c hostPath = false).

Lemma unescape_verbatim s : str_elem percent_c s = false -> unescape s encodePath = Ok s.
Proof.
  induction s as [|c s IH]; [done|]. cbn [str_elem]. intros Hs. bool_prop.
  rewrite unescape_plain by done. rewrite (proj2 (text_mode_bad encodePath c c c eq_refl)).
  rewrite IH, andb_false_r by done. done.
Qed.

(** The link of a path, as it is read from the page. *)
Lemma link_value p :
  rooted p -> url_plain p = true -> html_decode (href_value p) = urlNormalizer p.
Proof.
  intros [Hr _] Hp. unfold href_value. rewrite urlFilter_rooted by done. apply html_decode_replacer.
  apply (printable_no_byte url_printable); [by apply urlNormalizer_printable|done].
Qed.

(** Moved under the host path, it is a reference to the path below it. *)
Lemma moved_link hostname hostPath p :
  host_plain hostPath -> rooted p -> url_plain p = true ->
  exists u, Parse (updateLocation (urlNormalizer p) hostname hostPath EmptyString) = Ok u /\
    Path (strip_prefix hostPath u) = p.
Proof.
  intros Hh Hp Hpl. pose proof (proj1 (rooted_cons p) Hp) as (t & -> & Ht).
  assert (Htp : url_plain t = true).
  { unfold slash in Hpl. rewrite sapp_cons, sapp_nil_l in Hpl. by apply urlNormalizer_plain in Hpl as (_ & ? & _). }
  rewrite urlNormalizer_slash. pose proof (urlNormalizer_no_slash t Htp Ht) as Hnt.
  pose proof (urlNormalizer_printable t Htp) as Hpt. pose proof (unescape_urlNormalizer t Htp) as Hut.
  set (n := urlNormalizer t) in *. clearbody n.
  assert (Hu : unescape (slash +:+ n) encodePath = Ok (slash +:+ t)).
  { rewrite (unescape_app slash n slash) by done. by rewrite Hut. }
  assert (Hpr : str_forall url_printable (slash +:+ n) = true) by (rewrite str_forall_app; by rewrite Hpt).
  assert (Hroot : rooted (slash +:+ n)) by (apply rooted_cons; by exists n).
  destruct (Parse_rooted _ _ Hpr (proj1 Hroot) (proj2 Hroot) Hu) as [raw Hparse].
  unfold updateLocation. rewrite Hparse. cbn [Host set_Paths empty_URL String.length Nat.ltb Nat.leb andb].
  rewrite HasPrefix_slash, TrimPrefix_nil.
  assert (Hfin : forall loc q, str_forall url_printable loc = true -> rooted loc ->
    unescape loc encodePath = Ok q -> unprefix hostPath q = slash +:+ t ->
    exists u, Parse loc = Ok u /\ Path (strip_prefix hostPath u) = slash +:+ t).
  { intros loc q H1 [H2 H3] H4 H5. destruct (Parse_rooted loc q H1 H2 H3 H4) as [raw' Hl].
    exists (set_Paths q raw' empty_URL). split; [done|]. rewrite <- H5.
    unfold strip_prefix, unprefix. cbn [Path RawPath set_Paths].
    by destruct (HasPrefix (TrimPrefix q hostPath) slash). }
  destruct Hh as [->|(Hhr & Hhp & Hpc)].
  - assert (Hj : join_slash EmptyString (slash +:+ n) = slash +:+ n).
    { unfold join_slash. by rewrite HasPrefix_slash, sapp_nil_l. }
    rewrite Hj. apply (Hfin _ (slash +:+ t)); [done..|].
    unfold unprefix. by rewrite TrimPrefix_nil, HasPrefix_slash.
  - unfold join_slash. rewrite HasPrefix_slash. cbn [andb negb].
    apply rooted_cons in Hhr as (h & -> & Hh). pose proof (unescape_verbatim _ Hpc) as Huh.
    destruct (HasSuffix (slash +:+ h) slash) eqn:Es; cbn [andb negb].
    + change (str_drop 1 (slash +:+ n)) with n.
      apply (Hfin _ ((slash +:+ h) +:+ t)).
      * by rewrite str_forall_app, Hhp, Hpt.
      * apply rooted_cons. exists (h +:+ n). split; [by rewrite sapp_assoc|].
        destruct h as [|c h]; [by rewrite sapp_nil_l|]. rewrite sapp_cons. unfold slash in *.
        cbn [HasPrefix] in *. by rewrite HasPrefix_nil in *.
      * rewrite (unescape_app _ n _ _ Huh). by rewrite Hut.
      * unfold unprefix. by rewrite TrimPrefix_app, Ht.
    + apply (Hfin _ ((slash +:+ h) +:+ slash +:+ t)).
      * by rewrite str_forall_app, Hhp, Hpr.
      * apply rooted_cons. exists (h +:+ slash +:+ n). split; [by rewrite !sapp_assoc|].
        destruct h as [|c h]; [discriminate Es|]. rewrite sapp_cons. unfold slash in *.
        cbn [HasPrefix] in *. by rewrite HasPrefix_nil in *.
      * rewrite (unescape_app _ (slash +:+ n) _ _ Huh). by rewrite Hu.
      * unfold unprefix. by rewrite TrimPrefix_app, HasPrefix_slash.
Qed.

(** ** Entries *)

Lemma url_plain_slash a b : url_plain (a +:+ slash +:+ b) = url_plain a && url_plain b.
Proof.
  unfold slash. rewrite sapp_cons, sapp_nil_l. induction a as [|c a IH].
  - rewrite sapp_nil_l. reflexivity.
  - rewrite sapp_cons. cbn [url_plain]. rewrite IH, <- !andb_assoc. f_equal. f_equal.
    destruct a as [|h [|l a]]; rewrite ?sapp_cons, ?sapp_nil_l; [|by rewrite !andb_false_r|done].
    destruct b; by rewrite !andb_false_r.
Qed.

Lemma url_plain_Join segs : Forall (fun s => url_plain s = true) segs -> url_plain (Join segs slash) = true.
Proof.
  induction 1 as [|s segs Hs _ IH]; [done|]. destruct segs as [|t segs]; [done|].
  change (Join (s :: t :: segs) slash) with (s +:+ slash +:+ Join (t :: segs) slash).
  by rewrite url_plain_slash, Hs.
Qed.

Lemma url_plain_abs_path segs : Forall (fun s => url_plain s = true) segs -> url_plain (abs_path segs) = true.
Proof.
  intros Hs. unfold abs_path. rewrite <- (sapp_nil_l (slash +:+ _)), url_plain_slash.
  by apply url_plain_Join.
Qed.

(** What a listing shows: the name and the path of each entry. *)
Definition listed (segs : list string) (files : list FileInfo) : list (string * list string) :=
  match segs with [] => [] | _ => [("..", removelast segs)] end ++
  ((fun fi => (Name fi, segs ++ [Name fi])) <$> sort_files files).

Lemma dir_entries_listed fmt files segs :
  Forall proper_seg segs -> Forall listable files ->
  exists entries, dir_entries fmt files (abs_path segs) = Return entries /\
    (fun e => (e_Name e, e_FullName e)) <$> entries = prod_map id abs_path <$> listed segs files.
Proof.
  intros Hs Hf. pose proof (Forall_sort_files _ _ Hf) as Hf'. unfold dir_entries.
  destruct (newFsEntries_listed fmt _ _ Hs Hf') as (entries & -> & He). cbn [outcome_bind].
  eexists. split; [done|]. rewrite abs_path_not_dot, abs_path_root by done. unfold listed.
  rewrite !fmap_app, He. f_equal; [|by rewrite <- list_fmap_compose].
  destruct segs as [|s segs _] using rev_ind; [done|]. rewrite bool_decide_eq_false_2 by (by destruct segs).
  cbn [negb andb fmap list_fmap parent_entry e_FullName e_Name].
  rewrite removelast_last. apply Forall_app in Hs as [Hs Hl]. apply Forall_cons in Hl as [Hl _].
  rewrite path_Dir_abs by done. by destruct segs.
Qed.

(** The paths of the entries are paths of proper, plain names. *)
Lemma listed_paths (P : string -> Prop) segs files :
  Forall P segs -> Forall (fun fi => P (Name fi)) files -> Forall (fun e => Forall P e.2) (listed segs files).
Proof.
  intros Hs Hf. apply Forall_sort_files in Hf. unfold listed. apply Forall_app. split.
  - destruct segs as [|s segs _] using rev_ind; [constructor|]. rewrite removelast_last.
    apply Forall_app in Hs as [Hs _]. destruct segs; (constructor; [exact Hs|constructor]).
  - apply Forall_fmap. eapply Forall_impl; [exact Hf|]. cbn. intros fi Hn.
    apply Forall_app. by repeat constructor.
Qed.

Definition link_text (e : fsEntry) : string :=
  "<a href=" +:+ quote +:+ href_value (e_FullName e) +:+ quote +:+ ">" +:+ cell_text (e_Name e) +:+ "</a>".

Definition occurs_in (t s : string) : Prop := exists before after, s = before +:+ t +:+ after.

Lemma occurs_app_l t a s : occurs_in t s -> occurs_in t (a +:+ s).
Proof. intros (x & y & ->). exists (a +:+ x), y. by rewrite <- !sapp_assoc. Qed.

Lemma occurs_app_r t s b : occurs_in t s -> occurs_in t (s +:+ b).
Proof. intros (x & y & ->). exists x, (y +:+ b). by rewrite <- !sapp_assoc. Qed.

Lemma entry_row_link e : occurs_in (link_text e) (str_concat (entry_row e)).
Proof.
  unfold entry_row, link_text. cbn [str_concat]. do 2 apply occurs_app_l.
  match goal with |- occurs_in _ (_ +:+ _ +:+ _ +:+ _ +:+ (_ +:+ ?z)) =>
    exists " ", ("</td>
		<td>" +:+ z)
  end.
  rewrite <- !sapp_assoc. reflexivity.
Qed.

Lemma template_link e entries :
  e ∈ entries -> occurs_in (link_text e) (str_concat (fsTemplate entries)).
Proof.
  intros He. unfold fsTemplate. destruct (Nat.eqb_spec (length entries) 0) as [H0|_].
  { destruct entries; [by apply not_elem_of_nil in He|done]. }
  cbn [str_concat]. apply occurs_app_l. rewrite str_concat_app. apply occurs_app_r.
  apply list_elem_of_split in He as (l1 & l2 & ->). rewrite fmap_app, fmap_cons.
  rewrite join_app, str_concat_app; cbn [mjoin list_join]; rewrite str_concat_app. apply occurs_app_l, occurs_app_r, entry_row_link.
Qed.

(** The entries of a listing: for a directory whose path and files have names without [?], [#]
    and percent escapes, listing does not panic and shows the parent (except at the root) and
    the files in listing order; for every entry the page holds a link, in which nothing of a
    name can be read as markup and whose text is read as the entry's name; and the link, moved
    below the route's host path, is the request for exactly the path of the entry. *)
Lemma listing_links d hostname hostPath segs files :
  Forall proper_seg segs -> Forall (fun s => url_plain s = true) segs ->
  Forall listable files -> Forall (fun fi => url_plain (Name fi) = true) files ->
  host_plain hostPath ->
  exists entries, dir_entries (d_format_time d) files (abs_path segs) = Return entries /\
    (fun e => (e_Name e, e_FullName e)) <$> entries = prod_map id abs_path <$> listed segs files /\
    forall e, e ∈ entries ->
      occurs_in (link_text e) (str_concat (fsTemplate entries)) /\
      (forall m, m ∈ html_markup ->
         str_elem m (href_value (e_FullName e)) = false /\ str_elem m (cell_text (e_Name e)) = false) /\
      (str_elem nul (e_Name e) = false -> html_decode (cell_text (e_Name e)) = e_Name e) /\
      exists u,
        Parse (updateLocation (html_decode (href_value (e_FullName e))) hostname hostPath EmptyString) = Ok u /\
        Clean (Path (strip_prefix hostPath u)) = e_FullName e.
Proof.
  intros Hs Hps Hf Hpf Hh.
  destruct (dir_entries_listed (d_format_time d) files segs Hs Hf) as (entries & Hd & He).
  exists entries. split; [exact Hd|]. split; [exact He|]. intros e Hin.
  assert (Hpath : exists segs', e_FullName e = abs_path segs' /\ Forall proper_seg segs' /\
    Forall (fun s => url_plain s = true) segs').
  { assert (Hx : (e_Name e, e_FullName e) ∈ prod_map id abs_path <$> listed segs files).
    { rewrite <- He. apply list_elem_of_fmap. by exists e. }
    apply list_elem_of_fmap in Hx as ([n segs'] & [= _ ->] & Hx). exists segs'. split; [done|].
    assert (Hfp : Forall (fun fi => proper_seg (Name fi)) files).
    { eapply Forall_impl; [exact Hf|]. by intros fi [? _]. }
    pose proof (listed_paths proper_seg segs files Hs Hfp) as H1.
    pose proof (listed_paths (fun s => url_plain s = true) segs files Hps Hpf) as H2.
    rewrite Forall_forall in H1, H2. split; [exact (H1 _ Hx)|exact (H2 _ Hx)]. }
  destruct Hpath as (segs' & Hfull & Hs' & Hp').
  pose proof (abs_path_rooted segs' Hs') as Hr. pose proof (url_plain_abs_path segs' Hp') as Hp.
  split; [by apply template_link|]. split; [by intros; split; apply htmlReplacer_safe|].
  split; [apply html_decode_replacer|]. rewrite Hfull, link_value by done.
  destruct (moved_link hostname hostPath _ Hh Hr Hp) as (u & Hu & Hpu).
  exists u. split; [exact Hu|]. rewrite Hpu. by apply Clean_abs.
Qed.

(** The template does not escape paths for URLs ([href] values are normalized only): the
    link of a file whose name holds a question mark, a number sign or a percent escape
    leads to another path. *)
Lemma listing_link_other_path :
  (fun name => match Parse (html_decode (href_value (abs_path [name]))) with
               | Ok u => Path u
               | Err e => e
               end) <$> ["why?.txt"; "c#.txt"; "100%25"; "50% off"] = ["/why"; "/c"; "/100%"; "/50% off"].
Proof. vm_compute. reflexivity. Qed.
