(* ===== verification/Links.v ===== *)
(** Links of a proxied page (pkg/stream/pathprefixwriter.go, pkg/handler/proxy.go): a link to
    anything below the target's path, with escapes, a query and a fragment, is moved below the
    route's path and parsed by the browser into a request that the proxy turns back into the
    request the link stood for. *)

From S2P Require Import Prelude GoStrings Glob Url Http GoPath Listing Stream.
From S2P Require Import PrefixWriter FileServer PrefixWriterProps Handlers HandlersProps ListingProps.

Local Open Scope go_scope.

(** ** Parsing a reference behind a plain path *)

Lemma Cut_app_plain a t c :
  str_elem c a = false -> Cut (a +:+ t) c = (a +:+ (Cut t c).1.1, (Cut t c).1.2, (Cut t c).2).
Proof.
  intros Ha. unfold Cut. rewrite IndexByte_app by done. destruct (IndexByte t c) as [i|]; [|done].
  cbn [fmap option_fmap option_map fst snd]. rewrite str_take_app. do 2 f_equal.
  clear Ha. induction a as [|d a IH]; [by rewrite sapp_nil_l|]. rewrite sapp_cons. exact IH.
Qed.

Lemma ctl_app a t : stringContainsCTLByte (a +:+ t) = stringContainsCTLByte a || stringContainsCTLByte t.
Proof.
  induction a as [|c a IH]; [by rewrite sapp_nil_l|]. rewrite sapp_cons. cbn [stringContainsCTLByte].
  by rewrite IH, !orb_assoc.
Qed.

Lemma CountByte_none s c : str_elem c s = false -> CountByte s c = 0.
Proof.
  induction s as [|d s IH]; [done|]. cbn [str_elem CountByte]. intros Hs. bool_prop.
  rewrite IH by done. destruct (Ascii.eqb_spec d c) as [->|]; [congruence|done].
Qed.

Lemma HasSuffix_app a t p : HasSuffix t p = true -> HasSuffix (a +:+ t) p = true.
Proof. rewrite !HasSuffix_spec. intros [x ->]. exists (a +:+ x). by rewrite sapp_assoc. Qed.

Lemma split_query_app a c t :
  str_elem "?"%char a = false ->
  split_query (a +:+ String c t) =
  (a +:+ (split_query (String c t)).1.1, (split_query (String c t)).1.2, (split_query (String c t)).2).
Proof.
  intros Ha. unfold split_query at 1. rewrite CountByte_app, CountByte_none by done. cbn [Nat.add].
  assert (Hsuf : HasSuffix (a +:+ String c t) "?" = HasSuffix (String c t) "?").
  { destruct (HasSuffix (String c t) "?") eqn:E; [by apply HasSuffix_app|].
    apply not_true_iff_false. intros Hs. apply not_true_iff_false in E. apply E.
    unfold HasSuffix in *. apply andb_true_iff in Hs as [_ Hs]. apply andb_true_iff. split; [done|].
    rewrite slength_app in Hs. change (String.length "?") with 1 in *.
    replace (String.length a + String.length (String c t) - 1) with (String.length a + (String.length (String c t) - 1)) in Hs
      by (cbn [String.length]; lia).
    assert (Hd : forall n, str_drop (String.length a + n) (a +:+ String c t) = str_drop n (String c t)).
    { intros n. clear Ha Hs E. induction a as [|d a IH]; [by rewrite sapp_nil_l|]. rewrite sapp_cons. exact IH. }
    by rewrite Hd in Hs. }
  rewrite Hsuf. unfold split_query. destruct (HasSuffix (String c t) "?" && (CountByte (String c t) "?" =? 1)%nat).
  - cbn [fst snd]. rewrite slength_app.
    replace (String.length a + String.length (String c t) - 1) with (String.length a + (String.length (String c t) - 1))
      by (cbn [String.length]; lia).
    by rewrite str_take_app.
  - rewrite Cut_app_plain by done. by destruct (Cut (String c t) "?") as [[x y] z].
Qed.

(** [Parse] of a rooted reference behind a plain path. *)
Definition parse_ref (a s : string) : result URL :=
  let '(s1, frag, _) := Cut s "#"%char in
  if stringContainsCTLByte s1 then Err "net/url: invalid control character in URL"
  else
    let '(s2, force, q) := split_query s1 in
    try url <- setPath (a +:+ s2) (set_Query force q empty_URL);;
    if String.eqb frag EmptyString then Ok url else setFragment frag url.

Lemma host_plain_bytes a :
  host_plain a -> str_elem "?"%char a = false /\ str_elem "#"%char a = false /\
  stringContainsCTLByte a = false /\ str_elem percent_c a = false.
Proof.
  intros [->|(_ & Hp & Hn)]; [done|]. split; [by apply (printable_no_byte url_printable)|].
  split; [by apply (printable_no_byte url_printable)|]. split; [by apply printable_no_ctl|done].
Qed.

(** A path that can be put before a rooted one. *)
Definition plain_path (a : string) : Prop := host_plain a /\ HasSuffix a slash = false.

Lemma plain_rooted a t : plain_path a -> HasPrefix t slash = false -> rooted (a +:+ slash +:+ t).
Proof.
  intros [[->|(Hr & _)] Hs] Ht; [apply rooted_cons; rewrite sapp_nil_l; by exists t|].
  apply rooted_cons in Hr as (h & -> & Hh). apply rooted_cons. exists (h +:+ slash +:+ t).
  split; [by rewrite !sapp_assoc|]. destruct h as [|c h]; [discriminate|].
  clear Hs Ht. rewrite sapp_cons. unfold slash in *. cbn [HasPrefix] in *. by rewrite HasPrefix_nil in *.
Qed.

Lemma rooted_scheme s : rooted s -> getScheme s = Ok (EmptyString, s) /\ String.eqb s "*" = false.
Proof. intros (t & -> & _)%rooted_cons. done. Qed.

(** The part of a reference up to the query starts as the reference does. *)
Lemma Cut_slash t c : c <> slash_c -> (Cut (slash +:+ t) c).1.1 = slash +:+ (Cut t c).1.1.
Proof. intros Hc. apply Cut_app. unfold slash. cbn [str_elem str1]. rewrite orb_false_r. apply Ascii.eqb_neq. by apply not_eq_sym. Qed.

Lemma split_query_slash t : (split_query (slash +:+ t)).1.1 = slash +:+ (Cut t "?"%char).1.1.
Proof. rewrite split_query_Cut. by apply Cut_slash. Qed.

Lemma Cut_prefix t c p : HasPrefix t p = false -> HasPrefix (Cut t c).1.1 p = false.
Proof.
  intros Hp. apply not_true_iff_false. intros [x Hx]%HasPrefix_spec. apply not_true_iff_false in Hp. apply Hp.
  unfold Cut in Hx. destruct (IndexByte t c) as [i|]; cbn in Hx; apply HasPrefix_spec.
  - exists (x +:+ str_drop i t). by rewrite sapp_assoc, <- Hx, stake_drop_app.
  - by exists x.
Qed.

Lemma Parse_ref a t :
  plain_path a -> HasPrefix t slash = false -> Parse (a +:+ slash +:+ t) = parse_ref a (slash +:+ t).
Proof.
  intros Ha Ht. destruct (host_plain_bytes a (proj1 Ha)) as (Hq & Hf & Hc & _).
  unfold Parse, parse_ref. rewrite Cut_app_plain by done.
  destruct (Cut (slash +:+ t) "#") as [[s1 frag] cut] eqn:Ecut. cbn [fst snd].
  assert (Hs1 : s1 = slash +:+ (Cut t "#").1.1).
  { rewrite <- Cut_slash by done. by rewrite Ecut. }
  pose proof (Cut_prefix t "#" slash Ht) as Ht1. set (t1 := (Cut t "#").1.1) in *. clearbody t1. subst s1.
  unfold parse. rewrite ctl_app, Hc. cbn [orb].
  destruct (stringContainsCTLByte (slash +:+ t1)); [done|].
  pose proof (plain_rooted a t1 Ha Ht1) as Hr. destruct (rooted_scheme _ Hr) as [-> ->]. cbn [result_bind ToLower].
  unfold slash at 1. rewrite sapp_cons, sapp_nil_l, split_query_app by done.
  change (String "/" t1) with (slash +:+ t1).
  destruct (split_query (slash +:+ t1)) as [[s2 force] q] eqn:Esq. cbn [fst snd].
  assert (Hs2 : s2 = slash +:+ (Cut t1 "?").1.1) by (rewrite <- split_query_slash; by rewrite Esq).
  pose proof (plain_rooted a _ Ha (Cut_prefix t1 "?" slash Ht1)) as [Hr1 Hr2]. rewrite <- Hs2 in Hr1, Hr2.
  change (HasPrefix (a +:+ s2) "/") with (HasPrefix (a +:+ s2) slash). rewrite Hr1, Hr2. rewrite !andb_false_r.
  done.
Qed.

(** ** Moving a reference *)

(** A URL for the path [p], written [raw], below [a]. *)
Definition at_path (a p raw : string) (u : URL) : Prop :=
  Path u = a +:+ slash +:+ p /\ (RawPath u = EmptyString \/ RawPath u = a +:+ slash +:+ raw).

Lemma unescape_behind a s : host_plain a -> unescape (a +:+ s) encodePath = try p <- unescape s encodePath;; Ok (a +:+ p).
Proof.
  intros Ha. destruct (host_plain_bytes a Ha) as (_ & _ & _ & Hn).
  by rewrite (unescape_app a s a encodePath (unescape_verbatim a Hn)).
Qed.

Lemma setPath_behind a raw p u :
  host_plain a -> unescape (slash +:+ raw) encodePath = Ok (slash +:+ p) ->
  exists u', setPath (a +:+ slash +:+ raw) u = Ok u' /\ at_path a p raw u' /\
    (exists rp, u' = set_Paths (a +:+ slash +:+ p) rp u).
Proof.
  intros Ha Hu. unfold setPath. rewrite unescape_behind, Hu by done. cbn [result_bind].
  eexists. split; [done|]. split; [|by eexists]. split; [done|]. cbn. destruct (String.eqb _ _); auto.
Qed.

(** Behind another plain path a reference has the same path, query and fragment. *)
Lemma parse_ref_moved a b t u :
  plain_path a -> plain_path b -> HasPrefix t slash = false -> parse_ref a (slash +:+ t) = Ok u ->
  exists u' p raw, parse_ref b (slash +:+ t) = Ok u' /\
    unescape (slash +:+ raw) encodePath = Ok (slash +:+ p) /\ at_path a p raw u /\ at_path b p raw u' /\
    RawQuery u' = RawQuery u /\ Fragment u' = Fragment u /\ request_URL u /\ request_URL u'.
Proof.
  intros [Ha _] [Hb _] Ht. unfold parse_ref. destruct (Cut (slash +:+ t) "#") as [[s1 frag] cut] eqn:Ecut.
  assert (Hs1 : s1 = slash +:+ (Cut t "#").1.1) by (rewrite <- Cut_slash by done; by rewrite Ecut).
  subst s1. destruct (stringContainsCTLByte _); [done|].
  destruct (split_query (slash +:+ (Cut t "#").1.1)) as [[s2 force] q] eqn:Esq.
  assert (Hs2 : s2 = slash +:+ (Cut (Cut t "#").1.1 "?").1.1) by (rewrite <- split_query_slash; by rewrite Esq).
  set (raw := (Cut (Cut t "#").1.1 "?").1.1) in *. clearbody raw. subst s2.
  destruct (unescape (slash +:+ raw) encodePath) as [p'|] eqn:Eu.
  2:{ intros Hp. unfold setPath in Hp. by rewrite unescape_behind, Eu in Hp by done. }
  destruct (unescape_slash raw p' Eu) as (p & -> & _).
  destruct (setPath_behind a raw p (set_Query force q empty_URL) Ha Eu) as (ua & -> & Hua & rpa & Hea).
  destruct (setPath_behind b raw p (set_Query force q empty_URL) Hb Eu) as (ub & -> & Hub & rpb & Heb).
  cbn [result_bind]. destruct (String.eqb frag EmptyString).
  - intros [= <-]. exists ub, p, raw. rewrite Hea, Heb in *. by repeat (split; [done|]).
  - unfold setFragment. destruct (unescape frag encodeFragment) as [f|]; [|done]. cbn [result_bind].
    intros [= <-]. eexists _, p, raw. split; [done|]. split; [done|]. rewrite Hea, Heb in *. by repeat (split; [done|]).
Qed.

(** A link below the target's path is moved below the route's. *)
Lemma moved_reference hostname hostPath targetPath loc t u :
  plain_path hostPath -> plain_path targetPath -> loc = targetPath +:+ slash +:+ t -> HasPrefix t slash = false ->
  Parse loc = Ok u ->
  exists u' p raw, Parse (updateLocation loc hostname hostPath targetPath) = Ok u' /\
    unescape (slash +:+ raw) encodePath = Ok (slash +:+ p) /\
    at_path targetPath p raw u /\ at_path hostPath p raw u' /\
    RawQuery u' = RawQuery u /\ Fragment u' = Fragment u /\ request_URL u'.
Proof.
  intros Hh Ht -> Hnt Hp. pose proof Hp as Hp'. rewrite Parse_ref in Hp by done.
  destruct (parse_ref_moved targetPath hostPath t u Ht Hh Hnt Hp) as (u' & p & raw & Hu' & Hun & H1 & H2 & H3 & H4 & H5 & H6).
  exists u', p, raw. split; [|done]. unfold updateLocation. rewrite Hp'. destruct H5 as (_ & _ & _ & ->).
  cbn [String.length Nat.ltb Nat.leb andb]. destruct (plain_rooted targetPath t Ht Hnt) as [-> _].
  rewrite TrimPrefix_app. unfold join_slash. rewrite (proj2 Hh), HasPrefix_slash. cbn [andb negb].
  by rewrite Parse_ref.
Qed.

(** ** Forwarding it *)

Lemma escape_app a b m : escape (a +:+ b) m = escape a m +:+ escape b m.
Proof. induction a as [|c a IH]; [done|]. rewrite sapp_cons. cbn [escape]. by rewrite IH, sapp_assoc. Qed.

Lemma HasPrefix_EscapedPath u :
  HasPrefix (Path u) slash = true -> RawPath u = EmptyString \/ HasPrefix (RawPath u) slash = true ->
  HasPrefix (EscapedPath u) slash = true.
Proof.
  intros [p Hp]%HasPrefix_spec Hraw. unfold EscapedPath, escaped_form.
  destruct (negb (String.eqb (RawPath u) EmptyString) && _ && _) eqn:E.
  - bool_prop. destruct Hraw as [Hraw|Hraw]; [|done]. by rewrite Hraw in *.
  - rewrite Hp. rewrite andb_false_r. rewrite escape_app. apply HasPrefix_app.
Qed.

Lemma string_snoc s : s = EmptyString \/ exists x c, s = x +:+ str1 c.
Proof.
  induction s as [|c s IH]; [by left|]. right. destruct IH as [->|(x & d & ->)].
  - by exists EmptyString, c.
  - exists (String c x), d. by rewrite sapp_cons.
Qed.

Lemma HasSuffix_snoc a c : HasSuffix (a +:+ str1 c) slash = true -> c = slash_c.
Proof.
  intros [x Hx]%HasSuffix_spec. revert x Hx. induction a as [|d a IH]; intros [|e x] Hx.
  - by injection Hx.
  - injection Hx as _ Hx. by destruct x.
  - rewrite sapp_cons in Hx. injection Hx as _ Hx. by destruct a.
  - rewrite !sapp_cons in Hx. injection Hx as _ Hx. by apply (IH x).
Qed.

(** No byte but the slash is escaped to something that ends in a slash. *)
Definition escape_ends_ok (c : ascii) : bool :=
  match escape_byte c encodePath with
  | String d EmptyString => Ascii.eqb d c
  | String _ (String _ (String l EmptyString)) => negb (Ascii.eqb l slash_c)
  | _ => false
  end.

Lemma escape_ends_ok_all c : escape_ends_ok c = true.
Proof. apply byte_forall. vm_compute. reflexivity. Qed.

Lemma escape_no_end s : HasSuffix s slash = false -> HasSuffix (escape s encodePath) slash = false.
Proof.
  intros Hs. destruct (string_snoc s) as [->|(x & c & ->)]; [done|].
  apply not_true_iff_false. intros He. rewrite escape_app in He. unfold str1 in He. cbn [escape] in He.
  rewrite sapp_nil_r in He. pose proof (escape_ends_ok_all c) as Hc. unfold escape_ends_ok in Hc.
  destruct (escape_byte c encodePath) as [|d [|e [|l [|]]]]; try done.
  - apply Ascii.eqb_eq in Hc as ->. apply HasSuffix_snoc in He as ->. by rewrite HasSuffix_app in Hs.
  - change (String d (String e (String l EmptyString))) with ((str1 d +:+ str1 e) +:+ str1 l) in He.
    rewrite sapp_assoc in He. apply HasSuffix_snoc in He as ->. by rewrite Ascii.eqb_refl in Hc.
Qed.

(** The proxy turns a request below the route's path into the same one below the target's. *)
Lemma forwarded_reference hostPath target p raw r :
  plain_path (Path target) -> RawPath target = EmptyString ->
  at_path hostPath p raw (r_URL r) ->
  exists r', proxy_director target (set_r_URL (strip_prefix hostPath (r_URL r)) r) = Return r' /\
    Path (r_URL r') = Path target +:+ slash +:+ p.
Proof.
  intros [_ Ht] Hraw (Hp & Hr). set (u := strip_prefix hostPath (r_URL r)).
  assert (Hu : Path u = slash +:+ p /\ (RawPath u = EmptyString \/ HasPrefix (RawPath u) slash = true)).
  { unfold u, strip_prefix. rewrite Hp, TrimPrefix_app, HasPrefix_slash. cbn [negb Path RawPath set_Paths].
    split; [done|]. destruct Hr as [->| ->]; [left; by destruct hostPath|right]. by rewrite TrimPrefix_app, HasPrefix_slash. }
  clearbody u. destruct Hu as [Hpu Hru]. unfold proxy_director. cbn [r_URL set_r_URL].
  set (v := set_Host (Host target) (set_Scheme (Scheme target) u)).
  assert (Hv : HasPrefix (EscapedPath v) slash = true).
  { apply HasPrefix_EscapedPath; unfold v; cbn; [|done]. rewrite Hpu. apply HasPrefix_slash. }
  assert (Ha : HasSuffix (EscapedPath target) slash = false).
  { unfold EscapedPath, escaped_form. rewrite Hraw. cbn [String.eqb negb andb].
    destruct (mode_is _ _ && _); [done|]. by apply escape_no_end. }
  assert (Hj : exists raw', joinURLPath target v = Return (Path target +:+ slash +:+ p, raw')).
  { unfold joinURLPath. rewrite Ha, Hv. cbn [andb negb]. destruct (_ && _).
    - eexists. do 2 f_equal. unfold singleJoiningSlash, v. cbn [Path set_Host set_Scheme].
      by rewrite Hpu, Ht, HasPrefix_slash.
    - eexists. unfold v. cbn [Path set_Host set_Scheme]. by rewrite Hpu. }
  destruct Hj as [raw' Hj]. rewrite Hj. cbn [outcome_bind]. eexists. split; [done|]. done.
Qed.
