(* ===== verification/Remote.v ===== *)
(** pkg/handler/s3.go and sftp.go: file servers on remote file systems.

    The AWS session, the S3 file system and the SSH/SFTP client are third-party code:
    arguments of the definitions.  What the program computes before calling them (the
    configuration of the client) and how it uses them (which connections it opens and
    closes) is modelled. *)

From S2P Require Import Prelude GoStrings Glob Url Http GoPath Stream PrefixWriter.
From S2P Require Import FileServer Handlers HandlersProps.

Local Open Scope go_scope.

(** ** io/fs *)

Definition valid_utf8 (s : string) : bool :=
  forallb (fun rw => negb ((rw.1 =? RuneError)%Z && (String.length rw.2 =? 1)%nat)) (runes s).

(** [fs.ValidPath(name)] *)
Definition ValidPath (name : string) : bool :=
  valid_utf8 name &&
  (String.eqb name "." ||
   forallb (fun elem => negb (String.eqb elem EmptyString || String.eqb elem "." ||
                              String.eqb elem "..")) (Split name slash)).

(** An [fs.FS] as its [Open]. *)
Definition FS := string -> result File.

(** [fs.Sub(fsys, dir)] for a file system without a [Sub] method of its own. *)
Definition fs_Sub (fsys : FS) (dir : string) : result FS :=
  if negb (ValidPath dir) then Err ("sub " +:+ dir +:+ ": invalid name")
  else if String.eqb dir "." then Ok fsys
  else Ok (fun name =>
    if negb (ValidPath name) then Err ("open " +:+ name +:+ ": invalid name")
    else fsys (path_Join [dir; name])).

(** [http.FS(fsys)] *)
Definition http_FS (fsys : FS) : FileSystem := fun name =>
  fsys (if String.eqb name slash then "." else TrimPrefix name slash).

(** ** s3.go *)

Record S3Config := mk_S3Config {
  s3_credentials : option (string * string);      (* None: anonymous *)
  s3_endpoint : option string;
  s3_region : option string
}.

(** The configuration of the session, the bucket and the prefix for a target. *)
Definition s3_config (target : URL) : S3Config :=
  let credentials :=
    match Userinfo_Password (User target) with
    | (secret, true) => Some (Userinfo_Username (User target), secret)
    | _ => None
    end in
  let endpoint :=
    if Contains (Host target) "." then SplitN (Host target) "." 2 !! 1 else None in
  let region :=
    if Values_Has (Query target) "region" then Some (Values_Get (Query target) "region") else None in
  mk_S3Config credentials endpoint region.

Definition s3_bucket (target : URL) : string :=
  if Contains (Host target) "." then default EmptyString (SplitN (Host target) "." 2 !! 0)
  else Host target.

Definition s3_prefix (target : URL) : string :=
  if (String.length (Path target) <=? 1)%nat then "." else Path target.

Section Remote.
Context (d : Deps).
(** [session.NewSession] followed by [s3.New] and [s3fs.New] on a bucket. *)
Context (NewSession : S3Config -> result (string -> FS)).

Definition newS3Handler (hostname hostPath : string) (target : URL) : result HandlerFunc :=
  try s3fs <- NewSession (s3_config target);;
  let fsys := s3fs (s3_bucket target) in
  try fsys <- fs_Sub fsys (s3_prefix target);;
  Ok (handlePathCombinations d (file_server d (http_FS fsys)) hostname hostPath "").

(** ** sftp.go *)

Record sftpFS := mk_sftpFS {
  sf_hostname : string;
  sf_user : string;
  sf_password : option string;              (* None: no authentication method *)
  sf_dir : string
}.

Definition newSftpFS (target : URL) : sftpFS :=
  let '(user, password) :=
    match Userinfo_Password (User target) with
    | (password, true) => (Userinfo_Username (User target), Some password)
    | _ => ("anonymous", None)
    end in
  mk_sftpFS (Host target) user password
    (if (String.length (Path target) <=? 1)%nat then "." else Path target).

(** What a server answers: [ssh.Dial], [sftp.NewClient], and the client's [Stat],
    [ReadDir] and [Open]. *)
Record SftpServer := mk_SftpServer {
  ss_Dial : result unit;
  ss_NewClient : result unit;
  ss_Stat : string -> result FileInfo;
  ss_ReadDir : string -> result (list FileInfo);
  ss_Open : string -> result File
}.

(** The two kinds of [http.File] that [Open] returns. *)
Inductive sftpHandle :=
  | SftpDir (fi : FileInfo) (files : list FileInfo)
  | SftpFile (file : File).

Section Server.
Context (server : sftpFS -> SftpServer).

(** [getClient], counting open connections. *)
Definition getClient (fs : sftpFS) (conns : nat) : result unit * nat :=
  match ss_Dial (server fs) with
  | Err err => (Err err, conns)
  | Ok _ =>
      match ss_NewClient (server fs) with
      | Err err => (Err err, conns)          (* opened and closed again *)
      | Ok _ => (Ok tt, S conns)
      end
  end.

(** [sftpFS.Open], with the number of open connections before and after. *)
Definition sftp_Open (fs : sftpFS) (name : string) (conns : nat) : result sftpHandle * nat :=
  match getClient fs conns with
  | (Err err, conns) => (Err err, conns)
  | (Ok _, conns) =>
      let name := path_Join [sf_dir fs; name] in
      match ss_Stat (server fs) name with
      | Err err => (Err err, conns)
      | Ok fi =>
          if IsDir fi then
            match ss_ReadDir (server fs) name with
            | Err err => (Err err, conns)
            | Ok files => (Ok (SftpDir fi files), conns)
            end
          else
            match ss_Open (server fs) name with
            | Err err => (Err err, conns)
            | Ok file => (Ok (SftpFile file), conns)
            end
      end
  end.

(** [Close] of the returned file: only a file's closes the client. *)
Definition sftp_Close (h : sftpHandle) (conns : nat) : nat :=
  match h with
  | SftpDir _ _ => conns
  | SftpFile _ => Nat.pred conns
  end.

(** The handle as an [http.File]. *)
Definition sftp_File (h : sftpHandle) : File :=
  match h with
  | SftpDir fi files =>
      mk_File (Ok fi) (Ok files) (Some "not implemented") (mk_Reader [] (Some "not implemented"))
  | SftpFile file =>
      mk_File (f_Stat file) (Err "not implemented") (f_seek file) (f_reader file)
  end.

Definition sftp_FileSystem (fs : sftpFS) : FileSystem := fun name =>
  match (sftp_Open fs name 0).1 with
  | Ok h => Ok (sftp_File h)
  | Err err => Err err
  end.

Definition newSftpHandler (hostname hostPath : string) (target : URL) : HandlerFunc :=
  handlePathCombinations d (file_server d (sftp_FileSystem (newSftpFS target))) hostname hostPath "".
End Server.
End Remote.

(** ** Lemmas *)

Lemma ValidPath_rooted p : ValidPath (slash +:+ p) = false.
Proof.
  unfold ValidPath, slash. rewrite sapp_cons, sapp_nil_l.
  change "/" with (str1 slash_c). rewrite Split_byte.
  change "/"%char with slash_c. rewrite split_byte_slash. cbn. by rewrite andb_false_r.
Qed.

(** ** Properties *)

(** The documented S3 route with a prefix ([s3://bucket/prefix]) can never be set up:
    the prefix given to [fs.Sub] is the target's path with its leading slash, which is not
    a valid name of io/fs, so creating the handler always fails. *)
Theorem s3_prefix_always_fails d NewSession hostname hostPath target p :
  Path target = slash +:+ p -> p <> EmptyString ->
  exists err, newS3Handler d NewSession hostname hostPath target = Err err.
Proof.
  intros Hp Hne. unfold newS3Handler. destruct (NewSession (s3_config target)) as [s3fs|e]; [|by exists e].
  cbn [result_bind]. unfold fs_Sub, s3_prefix.
  assert (Hlen : (String.length (Path target) <=? 1)%nat = false).
  { rewrite Hp. destruct p; [done|]. reflexivity. }
  rewrite Hlen, Hp, ValidPath_rooted. cbn [negb result_bind]. by eexists.
Qed.

(** An S3 target without a path: the handler is created whenever the session is, for
    the bucket before the host's first dot, the rest being the endpoint, with the
    target's credentials only when it has a password. *)
Theorem s3_target_config target :
  (if Contains (Host target) "."
   then exists endpoint, s3_endpoint (s3_config target) = Some endpoint /\
        Host target = s3_bucket target +:+ "." +:+ endpoint /\
        str_elem "." (s3_bucket target) = false
   else s3_endpoint (s3_config target) = None /\ s3_bucket target = Host target) /\
  (s3_credentials (s3_config target) =
   if (Userinfo_Password (User target)).2
   then Some (Userinfo_Username (User target), (Userinfo_Password (User target)).1) else None).
Proof.
  split.
  - unfold s3_config, s3_bucket. cbn [s3_endpoint]. unfold Contains.
    destruct (Index (Host target) ".") as [i|] eqn:E; [|done].
    unfold SplitN. change (2 - 1) with 1. cbn [split_cuts]. rewrite E.
    eexists. split; [reflexivity|]. split; [by apply Index_Some|].
    change "." with (str1 "."%char) in E. rewrite Index_byte in E.
    by apply IndexByte_Some in E as [_ Hn].
  - unfold s3_config. cbn [s3_credentials]. by destruct (Userinfo_Password (User target)) as [p []].
Qed.


(** ** Witness *)

Lemma s3_prefix_always_fails_witness :
  let d := demo_deps in
  newS3Handler d (fun _ => Ok (fun _ _ => Err "")) "public-bucket.com" ""
    (set_Paths "/prefix" "" (set_Host "public-bucket" (set_Scheme "s3" empty_URL))) =
  Err "sub /prefix: invalid name" /\
  exists err, newS3Handler d (fun _ => Ok (fun _ _ => Err "")) "public-bucket.com" ""
    (set_Paths "/prefix" "" (set_Host "public-bucket" (set_Scheme "s3" empty_URL))) = Err err.
Proof.
  cbv zeta. split; [reflexivity|].
  apply (s3_prefix_always_fails demo_deps _ "public-bucket.com" "" _ "prefix"); [reflexivity|done].
Defined.
