(* ===== verification/Factory.v ===== *)
(** pkg/handler/handlerfactory.go: from a host name and a target to a handler.

    The factory is the server's view of the handlers; [Factory] is the interface the
    server is verified against, and [HandlerFactory] implements it. *)

From S2P Require Import Prelude GoStrings Glob Url Http GoPath Stream PrefixWriter.
From S2P Require Import FileServer Handlers Remote HandlersProps.

Local Open Scope go_scope.

(** ** Operations *)

(** [splitHostnameAndPath] *)
Definition splitHostnameAndPath (hostname : string) : string * string :=
  match Index hostname "/" with
  | None => (hostname, EmptyString)
  | Some i => (str_take i hostname, str_drop i hostname)
  end.

(** The FastCGI server of the PHP handlers, if there is one. *)
Record HandlerFactory := mk_HandlerFactory { phpClientFactory : option (string * string) }.

Definition NewHandlerFactory (phpaddr : option URL) : HandlerFactory :=
  mk_HandlerFactory (setupPHP <$> phpaddr).

Definition schemes : list string :=
  ["file"; "http"; "https"; "redirect"; "s3"; "sftp"; "php"; "go-wasm"; "tail"; "tail-new"].

Section Factory.
Context (d : Deps).
Context (NewSession : S3Config -> result (string -> FS)).
Context (sftp_server : sftpFS -> SftpServer).

(** [HandlerFactory.Handler(hostname, target)] *)
Definition Handler (hf : HandlerFactory) (hostname : string) (target : URL)
    : result HandlerFunc :=
  let '(hostname, hostPath) := splitHostnameAndPath hostname in
  let place := Host target +:+ Path target in
  let scheme := Scheme target in
  if String.eqb scheme "file" then Ok (newFileServer d hostname hostPath place)
  else if String.eqb scheme "http" || String.eqb scheme "https" then
    Ok (newProxyHandler d hostname hostPath target)
  else if String.eqb scheme "redirect" then Ok (newRedirectHandler d hostname hostPath target)
  else if String.eqb scheme "s3" then newS3Handler d NewSession hostname hostPath target
  else if String.eqb scheme "sftp" then Ok (newSftpHandler d sftp_server hostname hostPath target)
  else if String.eqb scheme "php" then
    newPHPHandler d (phpClientFactory hf) hostname hostPath place
  else if String.eqb scheme "go-wasm" then Ok (newGoWasmHandler d hostname hostPath place)
  else if String.eqb scheme "tail" then Ok (newTailHandler d hostname hostPath place SeekStart)
  else if String.eqb scheme "tail-new" then Ok (newTailHandler d hostname hostPath place SeekEnd)
  else Err ("unknown target URL scheme: " +:+ scheme).
End Factory.

(** ** Properties *)

(** A route splits into a host name without slashes and a path that is empty or
    starts with a slash; put together they are the route. *)
Theorem splitHostnameAndPath_spec route :
  let '(hostname, hostPath) := splitHostnameAndPath route in
  hostname +:+ hostPath = route /\ str_elem slash_c hostname = false /\
  (hostPath = EmptyString \/ HasPrefix hostPath slash = true).
Proof.
  unfold splitHostnameAndPath. change "/" with (str1 slash_c). rewrite Index_byte.
  destruct (IndexByte route slash_c) as [i|] eqn:E.
  - apply IndexByte_Some in E as [Hr Hn]. split; [apply stake_drop_app|]. split; [done|]. right.
    assert (Hd : str_drop i route = String slash_c (str_drop (S i) route)).
    { rewrite <- (stake_drop_app i route) in Hr at 1. by apply sapp_inj_l in Hr. }
    rewrite Hd. apply (HasPrefix_slash (str_drop (S i) route)).
  - apply IndexByte_None in E. split; [apply sapp_nil_r|]. split; [done|by left].
Qed.

(** Which targets can be served: an unknown scheme is an error naming it; S3 targets
    fail with their session or their prefix, PHP targets without a FastCGI server, an
    endpoint or the working directory its absolute path needs; every target of the other schemes gets a handler. *)
Theorem Handler_fails d NewSession sftp hf hostname target err :
  Handler d NewSession sftp hf hostname target = Err err ->
  ((Scheme target ∉ schemes) /\ err = ("unknown target URL scheme: " +:+ Scheme target)) \/
  (Scheme target = "s3" /\
   (NewSession (s3_config target) = Err err \/ ValidPath (s3_prefix target) = false)) \/
  (Scheme target = "php" /\
   (phpClientFactory hf = None \/ d_Stat d (Host target +:+ Path target) = Err err \/
    Abs (Getwd (d_os d)) (Host target +:+ Path target) = Err err)).
Proof.
  unfold Handler. destruct (splitHostnameAndPath hostname) as [hn hp].
  destruct (String.eqb_spec (Scheme target) "file") as [|N1]; [done|].
  destruct (String.eqb_spec (Scheme target) "http") as [|N2]; [done|].
  destruct (String.eqb_spec (Scheme target) "https") as [|N3]; [done|]. cbn [orb].
  destruct (String.eqb_spec (Scheme target) "redirect") as [|N4]; [done|].
  destruct (String.eqb_spec (Scheme target) "s3") as [E|N5].
  { unfold newS3Handler. destruct (NewSession (s3_config target)) as [s3fs|e].
    - cbn [result_bind]. unfold fs_Sub. destruct (ValidPath (s3_prefix target)) eqn:Ev; cbn [negb].
      + by destruct (String.eqb (s3_prefix target) ".").
      + intros _. right. left. split; [done|by right].
    - cbn [result_bind]. intros [= <-]. right. left. split; [done|by left]. }
  destruct (String.eqb_spec (Scheme target) "sftp") as [|N6]; [done|].
  destruct (String.eqb_spec (Scheme target) "php") as [E|N7].
  { unfold newPHPHandler. destruct (phpClientFactory hf) as [f|].
    - destruct (d_Stat d (Host target +:+ Path target)) as [fi|e] eqn:Es.
      + destruct (Abs (Getwd (d_os d)) (Host target +:+ Path target)) as [ep|e] eqn:Ea; [done|].
        cbn [result_bind]. intros [= <-]. right. right. split; [done|by right; right].
      + intros [= <-]. right. right. split; [done|by right; left].
    - intros _. right. right. split; [done|by left]. }
  destruct (String.eqb_spec (Scheme target) "go-wasm") as [|N8]; [done|].
  destruct (String.eqb_spec (Scheme target) "tail") as [|N9]; [done|].
  destruct (String.eqb_spec (Scheme target) "tail-new") as [|N10]; [done|].
  intros [= <-]. left. split; [|done]. unfold schemes. set_solver.
Qed.

(** ** Witness *)

Definition no_session (cfg : S3Config) : result (string -> FS) := Err "no session".
Definition no_sftp (fs : sftpFS) : SftpServer :=
  mk_SftpServer (Err "refused") (Ok tt) (fun _ => Err "") (fun _ => Err "") (fun _ => Err "").

Lemma Handler_fails_witness :
  let target := set_Scheme "ftp" empty_URL in
  ((Scheme target ∉ schemes) /\
   "unknown target URL scheme: ftp" = ("unknown target URL scheme: " +:+ Scheme target)) \/
  (Scheme target = "s3" /\
   (no_session (s3_config target) = Err "unknown target URL scheme: ftp" \/
    ValidPath (s3_prefix target) = false)) \/
  (Scheme target = "php" /\
   (phpClientFactory (NewHandlerFactory None) = None \/
    d_Stat demo_deps (Host target +:+ Path target) = Err "unknown target URL scheme: ftp" \/
    Abs (Getwd (d_os demo_deps)) (Host target +:+ Path target) =
      Err "unknown target URL scheme: ftp")).
Proof.
  cbv zeta. apply (Handler_fails demo_deps no_session no_sftp (NewHandlerFactory None) "h").
  vm_compute. reflexivity.
Defined.
