(* ===== verification/Docker.v ===== *)
(** pkg/config/dockerwatch.go: routes of containers.

    The Docker client is third-party code: what inspecting a container, listing the
    running ones and the event stream answer are arguments.  [docker.Env.Get] and
    [docker.Port.Port] are those of the vendored client.  A Go map is iterated in any
    order: the ports of a container are a list, one entry per port, in the order of
    this iteration. *)

From S2P Require Import Prelude GoStrings Url Config.

Local Open Scope go_scope.

(** ** Data of the client *)

Record PortBinding := mk_PortBinding { HostIP : string; HostPort : string }.

Record Container := mk_Container {
  ct_Env : list string;
  ct_Ports : list (string * list PortBinding)
}.

Record APIEvent := mk_APIEvent { ev_Type : string; ev_Action : string; ev_ActorID : string }.

(** [env.Map()[key]]: the last definition counts. *)
Fixpoint env_Get (env : list string) (key : string) : string :=
  match env with
  | [] => EmptyString
  | kv :: env =>
      let later := existsb (fun kv => bool_decide (head (SplitN kv "=" 2) = Some key)) env in
      if later then env_Get env key
      else match SplitN kv "=" 2 with
           | [k] => if String.eqb k key then EmptyString else env_Get env key
           | k :: v :: _ => if String.eqb k key then v else env_Get env key
           | [] => env_Get env key
           end
  end.

(** [port.Port()] *)
Definition Port_Port (p : string) : string := default EmptyString (head (Split p "/")).

(** ** Operations *)

(** The loop over the ports: the first binding of the first matching one. *)
Fixpoint find_binding (ports : list (string * list PortBinding)) (virtPort : string)
    : option PortBinding :=
  match ports with
  | [] => None
  | (port, bindings) :: ports =>
      match bindings with
      | b :: _ => if String.eqb (Port_Port port) virtPort then Some b
                  else find_binding ports virtPort
      | [] => find_binding ports virtPort
      end
  end.

Definition virt_port (env : list string) : string :=
  let virtPort := env_Get env "VIRTUAL_PORT" in
  if (String.length virtPort =? 0)%nat then "8080" else virtPort.

Section Docker.
(** [client.InspectContainerWithOptions], [%q]. *)
Context (inspect : string -> result Container) (Quote : string -> string).

Definition getContainerEvents (id : string) (start : bool) : result (list ConfigEvent) :=
  try cont <- inspect id;;
  let virtHost := env_Get (ct_Env cont) "VIRTUAL_HOST" in
  let virtPort := virt_port (ct_Env cont) in
  if (String.length virtHost =? 0)%nat then Ok []
  else
    match find_binding (ct_Ports cont) virtPort with
    | None => Err ("no " +:+ Quote virtPort +:+ " port bindings in container " +:+ Quote id)
    | Some target =>
        try targetURL <- Parse ("http://localhost:" +:+ HostPort target);;
        Ok ((fun virtHost => mk_ConfigEvent (mk_ConfigEntry virtHost targetURL) start)
              <$> Fields virtHost)
    end.

(** [GetActiveContainers]: the events, and the errors logged on the way. *)
Fixpoint active_loop (ids : list string) : list ConfigEvent * list string :=
  match ids with
  | [] => ([], [])
  | id :: ids =>
      let '(results, logs) := active_loop ids in
      match getContainerEvents id true with
      | Err err => (results, err :: logs)
      | Ok events => (events ++ results, logs)
      end
  end.

Definition GetActiveContainers (containers : result (list string))
    : result (list ConfigEvent * list string) :=
  try ids <- containers;; Ok (active_loop ids).

(** The body of [convertEvents]'s loop: the batches sent and the error logged. *)
Definition convert_event (e : APIEvent) : list (list ConfigEvent) * option string :=
  if negb (String.eqb (ev_Type e) "container") then ([], None)
  else
    let res :=
      if String.eqb (ev_Action e) "start" then getContainerEvents (ev_ActorID e) true
      else if String.eqb (ev_Action e) "stop" then getContainerEvents (ev_ActorID e) false
      else Ok [] in
    match res with
    | Err err => ([], Some err)
    | Ok events => ((fun event => [event]) <$> events, None)
    end.
End Docker.

(** [convertEvents]: each event finds the containers as they are when it is handled. *)
Definition convertEvents (Quote : string -> string)
    (ins : list (APIEvent * (string -> result Container))) : list (list ConfigEvent) :=
  flat_map (fun ei => (convert_event ei.2 Quote ei.1).1) ins.

(** ** Lemmas *)

Lemma find_binding_Some ports virtPort b :
  find_binding ports virtPort = Some b ->
  exists port bs, (port, b :: bs) ∈ ports /\ Port_Port port = virtPort.
Proof.
  induction ports as [|[port [|b' bs]] ports IH]; cbn [find_binding]; [done| |].
  - intros (p & l & Hin & Hp)%IH. exists p, l. split; [by right|done].
  - destruct (String.eqb_spec (Port_Port port) virtPort) as [Hp|_].
    + intros [= ->]. exists port, bs. split; [by left|done].
    + intros (p & l & Hin & Hp)%IH. exists p, l. split; [by right|done].
Qed.

(** The entries the loop can stop at. *)
Definition matching (virtPort : string) (pb : string * list PortBinding) : Prop :=
  Port_Port pb.1 = virtPort /\ pb.2 <> [].

Lemma find_binding_None ports virtPort :
  find_binding ports virtPort = None <-> Forall (fun pb => ~ matching virtPort pb) ports.
Proof.
  induction ports as [|[port bs] ports IH]; cbn [find_binding]; [by split; [constructor|]|].
  rewrite Forall_cons, <- IH. unfold matching. cbn [fst snd]. destruct bs as [|b bs].
  - split; [by intros; split; [intros [_ ?]|]|by intros [_ ?]].
  - destruct (String.eqb_spec (Port_Port port) virtPort); split; try done; [|naive_solver..].
    intros [Hn _]. exfalso. by apply Hn.
Qed.

Lemma find_binding_unique ports virtPort port b bs :
  (port, b :: bs) ∈ ports -> Port_Port port = virtPort ->
  (forall pb, pb ∈ ports -> matching virtPort pb -> pb = (port, b :: bs)) ->
  find_binding ports virtPort = Some b.
Proof.
  intros Hin Hp Huniq. destruct (find_binding ports virtPort) as [b'|] eqn:E.
  - apply find_binding_Some in E as (p' & bs' & Hin' & Hp').
    specialize (Huniq _ Hin' ltac:(by split)). by injection Huniq as _ ->.
  - apply find_binding_None in E. rewrite Forall_forall in E. exfalso.
    apply (E _ Hin). by split.
Qed.

(** ** Properties *)

(** What a container contributes: nothing without [VIRTUAL_HOST]; otherwise one event
    per host name in it, in order, all for the local port that one of its bindings for
    [VIRTUAL_PORT] (8080 by default) publishes.  It fails exactly when the container cannot
    be inspected, when it has a host name but no binding for the port, or when that
    binding's port does not make a URL. *)
Theorem getContainerEvents_spec inspect Quote id start :
  match getContainerEvents inspect Quote id start with
  | Ok events => exists cont, inspect id = Ok cont /\
      let virtHost := env_Get (ct_Env cont) "VIRTUAL_HOST" in
      (virtHost = EmptyString /\ events = []) \/
      (virtHost <> EmptyString /\
       exists port b bs url, (port, b :: bs) ∈ ct_Ports cont /\
         Port_Port port = virt_port (ct_Env cont) /\
         Parse ("http://localhost:" +:+ HostPort b) = Ok url /\
         events = (fun h => mk_ConfigEvent (mk_ConfigEntry h url) start) <$> Fields virtHost)
  | Err err => inspect id = Err err \/
      exists cont, inspect id = Ok cont /\ env_Get (ct_Env cont) "VIRTUAL_HOST" <> EmptyString /\
        ((Forall (fun pb => ~ matching (virt_port (ct_Env cont)) pb) (ct_Ports cont) /\
          err = ("no " +:+ Quote (virt_port (ct_Env cont)) +:+ " port bindings in container " +:+ Quote id)) \/
         exists port b bs, (port, b :: bs) ∈ ct_Ports cont /\
           Port_Port port = virt_port (ct_Env cont) /\
           Parse ("http://localhost:" +:+ HostPort b) = Err err)
  end.
Proof.
  unfold getContainerEvents. destruct (inspect id) as [cont|err]; [|by left]. cbn [result_bind].
  destruct (env_Get (ct_Env cont) "VIRTUAL_HOST") as [|c vh] eqn:Ev.
  { exists cont. split; [done|]. rewrite Ev. by left. }
  cbn [String.length Nat.eqb].
  destruct (find_binding (ct_Ports cont) (virt_port (ct_Env cont))) as [b|] eqn:Eb.
  - apply find_binding_Some in Eb as (port & bs & Hin & Hp).
    destruct (Parse ("http://localhost:" +:+ HostPort b)) as [url|err] eqn:Eu; cbn [result_bind].
    + exists cont. split; [done|]. rewrite Ev. right. split; [done|]. by exists port, b, bs, url.
    + right. exists cont. rewrite Ev. split; [done|split; [done|]]. right. by exists port, b, bs.
  - right. exists cont. rewrite Ev. split; [done|split; [done|]]. left.
    split; [by apply find_binding_None|done].
Qed.

(** When a single port matches, the events do not depend on the iteration order. *)
Lemma getContainerEvents_unique inspect Quote id start env ports port b bs url :
  inspect id = Ok (mk_Container env ports) -> (port, b :: bs) ∈ ports -> Port_Port port = virt_port env ->
  (forall pb, pb ∈ ports -> matching (virt_port env) pb -> pb = (port, b :: bs)) ->
  Parse ("http://localhost:" +:+ HostPort b) = Ok url ->
  getContainerEvents inspect Quote id start =
  Ok ((fun h => mk_ConfigEvent (mk_ConfigEntry h url) start) <$> Fields (env_Get env "VIRTUAL_HOST")).
Proof.
  intros Hi Hin Hp Huniq Hu. unfold getContainerEvents. rewrite Hi. cbn [result_bind ct_Env ct_Ports].
  destruct (env_Get env "VIRTUAL_HOST") as [|c vh]; [done|]. cbn [String.length Nat.eqb].
  rewrite (find_binding_unique ports _ port b bs) by done. by rewrite Hu.
Qed.

(** When a single port matches, the order in which Go iterates the port map does not
    matter: two inspections of the container that differ in it give the same events, so
    stopping it takes down exactly the routes its start brought up. *)
Theorem getContainerEvents_order inspect inspect' Quote id start env ports ports' port b bs :
  inspect id = Ok (mk_Container env ports) -> inspect' id = Ok (mk_Container env ports') ->
  ports ≡ₚ ports' ->
  (port, b :: bs) ∈ ports -> Port_Port port = virt_port env ->
  (forall pb, pb ∈ ports -> matching (virt_port env) pb -> pb = (port, b :: bs)) ->
  getContainerEvents inspect Quote id start = getContainerEvents inspect' Quote id start.
Proof.
  intros H1 H2 Hperm Hin Hp Huniq. unfold getContainerEvents. rewrite H1, H2. cbn.
  rewrite (find_binding_unique ports _ port b bs), (find_binding_unique ports' _ port b bs); try done.
  - by rewrite <- Hperm.
  - intros pb Hpb. apply Huniq. by rewrite Hperm.
Qed.

(** A container that publishes port 8080 for TCP and for UDP. *)
Definition two_protocols (order : bool) : Container :=
  let tcp := ("8080/tcp", [mk_PortBinding "0.0.0.0" "49153"]) in
  let udp := ("8080/udp", [mk_PortBinding "0.0.0.0" "49154"]) in
  mk_Container ["VIRTUAL_HOST=a.com"] (if order then [tcp; udp] else [udp; tcp]).

(** When a port is published for two protocols, the target is the first that the map
    iteration meets: the same container can come up with one target and go down with
    another, which leaves the first one routed. *)
Theorem two_protocols_order_matters Quote :
  exists up down, two_protocols true <> two_protocols false /\
    ct_Ports (two_protocols true) ≡ₚ ct_Ports (two_protocols false) /\
    getContainerEvents (fun _ => Ok (two_protocols true)) Quote "id" true = Ok [up] /\
    getContainerEvents (fun _ => Ok (two_protocols false)) Quote "id" false = Ok [down] /\
    apply_events [up; down] ∅ = {[entry_key (ce_entry up)]}.
Proof.
  do 2 eexists. split; [done|]. split; [constructor|].
  split; [vm_compute; reflexivity|]. split; [vm_compute; reflexivity|]. vm_compute. reflexivity.
Qed.

(** A container is only taken down if its port bindings can still be seen: when
    inspecting a stopped container shows no bindings, the stop event gives an error and
    no event, and its routes stay. *)
Theorem stop_without_bindings inspect Quote id cont :
  inspect id = Ok cont -> env_Get (ct_Env cont) "VIRTUAL_HOST" <> EmptyString ->
  Forall (fun pb => pb.2 = []) (ct_Ports cont) ->
  convert_event inspect Quote (mk_APIEvent "container" "stop" id) =
  ([], Some ("no " +:+ Quote (virt_port (ct_Env cont)) +:+ " port bindings in container " +:+ Quote id)).
Proof.
  intros Hi Hv Hp. unfold convert_event. cbn. unfold getContainerEvents. rewrite Hi. cbn [result_bind].
  destruct (env_Get (ct_Env cont) "VIRTUAL_HOST") as [|c vh]; [done|]. cbn [String.length Nat.eqb].
  rewrite (proj2 (find_binding_None _ _)); [done|]. eapply Forall_impl; [done|].
  intros pb Hpb [_ Hn]. done.
Qed.

(** ** Witnesses *)

Definition demo_container : Container :=
  mk_Container ["VIRTUAL_HOST=a.com b.com"; "VIRTUAL_PORT=80"]
    [("443/tcp", [mk_PortBinding "" "4430"]); ("80/tcp", [mk_PortBinding "" "8000"])].
Definition demo_inspect (id : string) : result Container := Ok demo_container.

Lemma getContainerEvents_order_witness :
  getContainerEvents demo_inspect id "c1" true =
  getContainerEvents (fun _ => Ok (mk_Container (ct_Env demo_container)
    (reverse (ct_Ports demo_container)))) id "c1" true.
Proof.
  apply (getContainerEvents_order demo_inspect _ id "c1" true (ct_Env demo_container)
    (ct_Ports demo_container) (reverse (ct_Ports demo_container)) "80/tcp"
    (mk_PortBinding "" "8000") []);
    [reflexivity | reflexivity | by rewrite reverse_Permutation | | vm_compute; reflexivity |].
  - cbn. right. by left.
  - intros pb Hpb [Hm _]. cbn in Hpb. apply elem_of_cons in Hpb as [->|Hpb].
    + vm_compute in Hm. discriminate.
    + by apply list_elem_of_singleton in Hpb.
Defined.

Lemma stop_without_bindings_witness :
  convert_event (fun _ => Ok (mk_Container ["VIRTUAL_HOST=a.com"] [])) id
    (mk_APIEvent "container" "stop" "c1") =
  ([], Some "no 8080 port bindings in container c1").
Proof.
  apply (stop_without_bindings (fun _ => Ok (mk_Container ["VIRTUAL_HOST=a.com"] [])) id "c1"
    (mk_Container ["VIRTUAL_HOST=a.com"] [])); [reflexivity | vm_compute; discriminate | constructor].
Defined.
