(* ===== verification/DockerEvents.v ===== *)
(** pkg/config/dockerwatch.go: the stream of container events.

    [GetConfigEvents] connects two channels of capacity one with a goroutine running
    [convertEvents]: the client writes what the daemon reports to the first, the server's
    [Listen] reads batches from the second.  The goroutine is taken apart at its channel
    operations; what the daemon answers when a container is inspected may change at any
    time, so each iteration has its own [inspect].  [Docker.convertEvents] is what the
    loop computes when nothing else runs. *)

From S2P Require Import Prelude GoStrings Url Config Docker.

Local Open Scope go_scope.

(** An event, and what inspecting containers answers while it is handled. *)
Abbreviation Handled := (APIEvent * (string -> result Container))%type.

(** The goroutine: at the [range] over its input, sending the batches of an event, or
    returned, after closing its output. *)
Inductive Goroutine :=
  | Receiving
  | Sending (batch : list ConfigEvent) (batches : list (list ConfigEvent))
  | Returned.

(** [k_lis] and [k_events] are the contents of the channels, [k_listening] says whether
    the client still writes to the first.  [k_handled], [k_logs], [k_received] (what the
    server got) and [k_reported] (what the client wrote) are histories. *)
Record Pipeline := mk_Pipeline {
  k_lis : list APIEvent;
  k_listening : bool;
  k_goroutine : Goroutine;
  k_events : list (list ConfigEvent);
  k_handled : list Handled;
  k_logs : list string;
  k_received : list (list ConfigEvent);
  k_reported : list APIEvent
}.

(** The capacity of both channels. *)
Definition lis_cap : nat := 1.
Definition events_cap : nat := 1.

Definition new_Pipeline : Pipeline := mk_Pipeline [] true Receiving [] [] [] [] [].

(** ** Operations *)

Section DockerWatch.
(** [*docker.Client] *)
Context {Client : Type}.

Record DockerWatch := mk_DockerWatch { client : Client }.

(** [NewDockerWatch], from what [docker.NewClientFromEnv] answers. *)
Definition NewDockerWatch (newClient : result Client) : result DockerWatch :=
  try client <- newClient;; Ok (mk_DockerWatch client).

(** [GetConfigEvents] *)
Definition GetConfigEvents (AddEventListener : Client -> option string) (d : DockerWatch)
    : result Pipeline :=
  match AddEventListener (client d) with
  | Some err => Err err
  | None => Ok new_Pipeline
  end.
End DockerWatch.

Arguments DockerWatch : clear implicits.

(** What is left to send of an event: the next point where the goroutine can wait. *)
Definition send_batches (batches : list (list ConfigEvent)) : Goroutine :=
  match batches with
  | [] => Receiving
  | batch :: batches => Sending batch batches
  end.

(** The client writes an event, and closes the channel when it is done. *)
Definition k_report (st : Pipeline) (e : APIEvent) : Pipeline :=
  mk_Pipeline (k_lis st ++ [e]) (k_listening st) (k_goroutine st) (k_events st) (k_handled st)
    (k_logs st) (k_received st) (k_reported st ++ [e]).

Definition k_close (st : Pipeline) : Pipeline :=
  mk_Pipeline (k_lis st) false (k_goroutine st) (k_events st) (k_handled st) (k_logs st)
    (k_received st) (k_reported st).

Section Steps.
Context (Quote : string -> string).

(** An event is received and handled up to its first send. *)
Definition k_handle (st : Pipeline) (e : APIEvent) (inspect : string -> result Container) : Pipeline :=
  let '(batches, err) := convert_event inspect Quote e in
  mk_Pipeline (drop 1 (k_lis st)) (k_listening st) (send_batches batches) (k_events st)
    (k_handled st ++ [(e, inspect)]) (k_logs st ++ option_list err) (k_received st) (k_reported st).

(** [out <- batch] *)
Definition k_send (st : Pipeline) (batch : list ConfigEvent) (batches : list (list ConfigEvent)) : Pipeline :=
  mk_Pipeline (k_lis st) (k_listening st) (send_batches batches) (k_events st ++ [batch])
    (k_handled st) (k_logs st) (k_received st) (k_reported st).

(** The loop ends; [close(out)]. *)
Definition k_return (st : Pipeline) : Pipeline :=
  mk_Pipeline (k_lis st) (k_listening st) Returned (k_events st) (k_handled st) (k_logs st)
    (k_received st) (k_reported st).

(** The server receives a batch. *)
Definition k_recv (st : Pipeline) (batch : list ConfigEvent) : Pipeline :=
  mk_Pipeline (k_lis st) (k_listening st) (k_goroutine st) (drop 1 (k_events st)) (k_handled st)
    (k_logs st) (k_received st ++ [batch]) (k_reported st).

(** Steps of the program. *)
Inductive kstep : Pipeline -> Pipeline -> Prop :=
  | kstep_handle st e inspect :
      k_goroutine st = Receiving -> k_lis st !! 0 = Some e -> kstep st (k_handle st e inspect)
  | kstep_send st batch batches :
      k_goroutine st = Sending batch batches -> length (k_events st) < events_cap ->
      kstep st (k_send st batch batches)
  | kstep_return st :
      k_goroutine st = Receiving -> k_lis st = [] -> k_listening st = false -> kstep st (k_return st)
  | kstep_recv st batch :
      k_events st !! 0 = Some batch -> kstep st (k_recv st batch).

(** Steps of the client. *)
Inductive kclient : Pipeline -> Pipeline -> Prop :=
  | kclient_report st e :
      k_listening st = true -> length (k_lis st) < lis_cap -> kclient st (k_report st e)
  | kclient_close st :
      k_listening st = true -> kclient st (k_close st).

Definition kany (st st' : Pipeline) : Prop := kstep st st' \/ kclient st st'.
End Steps.

(** The server's [Listen] has returned: its channel is closed and empty. *)
Definition k_ended (st : Pipeline) : bool :=
  match k_goroutine st, k_events st with
  | Returned, [] => true
  | _, _ => false
  end.

(** ** Invariant *)

Section Invariant.
Context (Quote : string -> string).
Implicit Types st : Pipeline.

Definition sending (g : Goroutine) : list (list ConfigEvent) :=
  match g with
  | Sending batch batches => batch :: batches
  | _ => []
  end.

(** The errors of the events handled. *)
Definition convert_logs (ins : list Handled) : list string :=
  flat_map (fun ei => option_list (convert_event ei.2 Quote ei.1).2) ins.

(** What was received, is in the channel or is being sent is, in this order, what
    [convertEvents] computes from the events handled. *)
Definition conveyed st : Prop :=
  k_received st ++ k_events st ++ sending (k_goroutine st) = convertEvents Quote (k_handled st) /\
  k_logs st = convert_logs (k_handled st) /\
  (k_handled st).*1 ++ k_lis st = k_reported st /\
  length (k_lis st) <= lis_cap /\ length (k_events st) <= events_cap /\
  (k_goroutine st = Returned -> k_lis st = [] /\ k_listening st = false).

Lemma sending_send_batches batches : sending (send_batches batches) = batches.
Proof. by destruct batches. Qed.

Lemma send_batches_not_returned batches : send_batches batches <> Returned.
Proof. by destruct batches. Qed.

Lemma kstep_conveyed st st' : kstep Quote st st' -> conveyed st -> conveyed st'.
Proof.
  intros Hs (Hc & Hlog & Hrep & Hl & He & Hr). destruct Hs as [s e i Hg Hk|s b bs Hg Hk|s Hg Hk Hn|s b Hk].
  - unfold k_handle. destruct (convert_event i Quote e) as [batches err] eqn:Ec.
    rewrite Hg in Hc. unfold conveyed. cbn [k_received k_events k_goroutine k_handled k_logs k_lis k_listening k_reported].
    rewrite sending_send_batches. unfold convertEvents, convert_logs in *.
    rewrite !flat_map_app. cbn [flat_map fst snd]. rewrite Ec, <- Hc, <- Hlog, !app_nil_r, app_assoc.
    split; [done|]. split; [done|]. split.
    { destruct (k_lis s) as [|e' l]; [done|]. injection Hk as ->. rewrite <- Hrep, fmap_app.
      cbn [drop]. by rewrite drop_0, <- app_assoc. }
    split; [rewrite length_drop; lia|]. split; [done|].
    by intros ?%send_batches_not_returned.
  - rewrite Hg in Hc. unfold conveyed. cbn [k_send k_received k_events k_goroutine k_handled k_logs k_lis k_listening k_reported].
    rewrite sending_send_batches, <- Hc, length_app. cbn [length sending].
    unfold events_cap in *. split; [by rewrite <- app_assoc|]. split; [done|]. split; [done|]. split; [done|]. split; [lia|].
    by intros ?%send_batches_not_returned.
  - unfold conveyed in *. rewrite Hg in Hc.
    cbn [k_return k_received k_events k_goroutine k_handled k_logs k_lis k_listening sending] in *. done.
  - unfold conveyed in *. destruct (k_events s) as [|b' l] eqn:Ee; [done|]. injection Hk as ->.
    cbn [k_recv k_received k_events k_goroutine k_handled k_logs k_lis k_listening k_reported]. rewrite Ee in *. cbn [drop].
    rewrite drop_0, <- Hc, <- app_assoc. cbn [length] in *. split; [done|]. split; [done|]. split; [done|]. split; [done|]. split; [lia|done].
Qed.

Lemma kclient_conveyed st st' : kclient st st' -> conveyed st -> conveyed st'.
Proof.
  intros Hs (Hc & Hlog & Hrep & Hl & He & Hr). destruct Hs as [s e Hn Hk|s Hn]; unfold conveyed.
  - cbn [k_report k_received k_events k_goroutine k_handled k_logs k_lis k_listening k_reported].
    rewrite length_app. cbn [length]. unfold lis_cap in *. split; [done|]. split; [done|].
    split; [by rewrite app_assoc, Hrep|].
    split; [lia|]. split; [done|]. intros [_ Hf]%Hr. congruence.
  - cbn [k_close k_received k_events k_goroutine k_handled k_logs k_lis k_listening k_reported].
    do 5 (split; [done|]). intros [? _]%Hr. done.
Qed.

Lemma reachable_conveyed st : rtc (kany Quote) new_Pipeline st -> conveyed st.
Proof.
  assert (H0 : conveyed new_Pipeline) by (repeat split; cbn; try done; unfold lis_cap, events_cap; lia).
  intros Hr. revert H0. induction Hr as [|x y z [Hs|Hs] _ IH]; [done| |]; intros Hx; apply IH.
  - by eapply kstep_conveyed.
  - by eapply kclient_conveyed.
Qed.

(** Nothing is left to do. *)
Definition k_quiet st : Prop :=
  k_lis st = [] /\ k_events st = [] /\
  (k_goroutine st = if k_listening st then Receiving else Returned).

Lemma kstep_enabled st : conveyed st -> k_quiet st \/ exists st', kstep Quote st st'.
Proof.
  intros (_ & _ & _ & _ & He & Hr).
  destruct (k_events st) as [|b l] eqn:Ee.
  2:{ right. eexists. eapply (kstep_recv _ _ b). by rewrite Ee. }
  destruct (k_goroutine st) as [|b bs|] eqn:Eg.
  - destruct (k_lis st) as [|e es] eqn:El.
    + destruct (k_listening st) eqn:En.
      * left. unfold k_quiet. by rewrite Ee, Eg, El, En.
      * right. eexists. by apply kstep_return.
    + right. eexists. eapply (kstep_handle _ _ e (fun _ => Err EmptyString)); [done|by rewrite El].
  - right. eexists. eapply kstep_send; [exact Eg|]. rewrite Ee. unfold events_cap. simpl. lia.
  - left. destruct (Hr eq_refl) as [El En]. unfold k_quiet. by rewrite Ee, Eg, El, En.
Qed.

(** Each iteration sends finitely many batches. *)
Definition k_work st : nat * nat :=
  (length (k_lis st) + match k_goroutine st with Returned => 0 | _ => 1 end,
   2 * length (sending (k_goroutine st)) + length (k_events st)).

Lemma kstep_work st st' : kstep Quote st st' -> lex lt lt (k_work st') (k_work st).
Proof.
  intros Hs. unfold k_work, lex. destruct Hs as [s e i Hg Hk|s b bs Hg Hk|s Hg Hk Hn|s b Hk].
  - unfold k_handle. destruct (convert_event i Quote e) as [batches err].
    destruct (k_lis s) as [|e' l] eqn:El; [done|]. rewrite Hg. left.
    cbn [fst k_lis k_goroutine drop length]. rewrite drop_0.
    destruct batches; cbn [send_batches]; lia.
  - rewrite Hg. right. cbn [k_send fst snd k_lis k_goroutine k_events sending length].
    rewrite sending_send_batches, length_app. cbn [length].
    destruct bs; cbn [send_batches length]; lia.
  - rewrite Hg. left. cbn [k_return fst k_lis k_goroutine]. lia.
  - right. cbn [k_recv fst snd k_lis k_goroutine k_events].
    destruct (k_events s) as [|b' l]; [done|]. cbn [drop length]. rewrite drop_0. lia.
Qed.

Lemma kstep_wf : well_founded (fun st2 st1 => kstep Quote st1 st2).
Proof.
  apply (wf_projected (lex lt lt) k_work); [|apply lex_wf; apply lt_wf]. exact (fun st2 st1 => kstep_work st1 st2).
Qed.
End Invariant.

(** ** Properties *)


(** ** Witness *)

