(* ===== verification/Server.v ===== *)
(** pkg/server/server.go: the server, on top of the route table, the configuration
    events and the handlers.

    The server is verified against two interfaces: a [Router] of handlers with its laws
    ([Routes]), and a handler factory, a function from a host name and a target to a
    handler or an error.  [Mux] and [Factory.Handler] implement them (see
    [ServerProps]). *)

From S2P Require Import Prelude GoStrings Url Http Logger Routes Mux Config PrefixWriter Docker DockerEvents.
From S2P Require Import Autocert Factory.

Local Open Scope go_scope.
Local Open Scope prog_scope.

(** ** Configuration *)

Record ServerConfig := mk_ServerConfig {
  ConfigFile : string;
  CertsDir : string;
  NoCert : bool;
  WatchDockerEvents : bool;
  EnableHTTP2 : bool;
  DiscardHeaders : list string;
  ExtraHeaders : list (string * string);       (* in the order of the map iteration *)
  PHPAddr : string
}.

(** What is served: the logged [Server], or the logged ACME handler of the certificate
    manager. *)
Inductive served := ServeSites | ServeACME.

(** The listeners of [Serve]: address, with TLS or not, and what is served there. *)
Definition listeners (cfg : ServerConfig) : list (string * bool * served) :=
  if NoCert cfg then [(":80", false, ServeSites)]
  else [(":80", false, ServeACME); (":443", true, ServeSites)].

(** ** TLS *)

(** [negotiateALPN] of crypto/tls: the protocol chosen, the empty one for none, or an
    error that ends the handshake. *)
Definition negotiateALPN (serverProtos clientProtos : list string) : result string :=
  if ((length serverProtos =? 0) || (length clientProtos =? 0))%nat then Ok EmptyString
  else
    match find (fun s => bool_decide (s ∈ clientProtos)) serverProtos with
    | Some proto => Ok proto
    | None =>
        if bool_decide ("h2" ∈ serverProtos) && bool_decide ("http/1.1" ∈ clientProtos) then Ok EmptyString
        else Err ("tls: client requested unsupported application protocols ([" +:+
                  Join clientProtos " " +:+ "])")
    end.

(** The protocols of [internalServer], whose [TLSConfig] names none: net/http adds its own,
    HTTP/2 unless [TLSNextProto] is set, which [NewServer] does without [EnableHTTP2]. *)
Definition next_protos (cfg : ServerConfig) : list string :=
  if EnableHTTP2 cfg then ["h2"; "http/1.1"] else ["http/1.1"].

(** The handler factory [NewServer] makes. *)
Definition server_factory (cfg : ServerConfig) : HandlerFactory :=
  NewHandlerFactory (match Parse (PHPAddr cfg) with Ok u => Some u | Err _ => None end).

Section Server.
Context {M : Type} `{Router HandlerFunc M}.

(** [s.factory.Handler], and what tests whether a host is routed ([s.mux.ContainsHost]). *)
Context (factory : string -> URL -> result HandlerFunc).
Context (ContainsHost : M -> string -> outcome bool).

(** ** Events *)

(** [ProcessEvent]: the mux after the event, and the lines logged. *)
Definition ProcessEvent (m : M) (e : ConfigEvent) : M * list string :=
  let hostname := Hostname (ce_entry e) in
  let target := Target (ce_entry e) in
  let log := "CONFIG: " +:+ ConfigEvent_String e in
  if negb (Up e) then (rt_remove m hostname (URL_String target), [log])
  else
    match factory hostname target with
    | Err err =>
        (m, [log; err; "CONFIG: " +:+ ConfigEvent_String (mk_ConfigEvent (ce_entry e) false)])
    | Ok handler => (rt_add m hostname handler (URL_String target), [log])
    end.

Fixpoint ProcessEvents (m : M) (events : list ConfigEvent) : M :=
  match events with
  | [] => m
  | e :: events => ProcessEvents (ProcessEvent m e).1 events
  end.

(** [Listen]: the batches received, up to the closing of the channel. *)
Fixpoint Listen (m : M) (batches : list (list ConfigEvent)) : M :=
  match batches with
  | [] => m
  | e :: batches => Listen (ProcessEvents m e) batches
  end.

(** The two goroutines of a server, one per source, receive independently; each event
    is applied atomically (the mux locks). *)
Inductive interleaved : list ConfigEvent -> list ConfigEvent -> list ConfigEvent -> Prop :=
  | il_nil : interleaved [] [] []
  | il_left e l1 l2 l : interleaved l1 l2 l -> interleaved (e :: l1) l2 (e :: l)
  | il_right e l1 l2 l : interleaved l1 l2 l -> interleaved l1 (e :: l2) (e :: l).

(** ** Requests *)

(** [ValidateHost] *)
Definition ValidateHost (m : M) (host : string) : outcome (option string) :=
  let! found := ContainsHost m host in
  Return (if negb found then Some ("unknown hostname: " +:+ host) else None).

Definition add_extra (extra : list (string * string)) (h : Header) : Header :=
  fold_left (fun h kv => Header_Add kv.1 kv.2 h) extra h.

(** The header map a handler sees. *)
Definition forwarded_header (cfg : ServerConfig) (r : Request) : Header :=
  let h := Header_Set "X-Forwarded-Host" (r_Host r) (r_Header r) in
  let h := Header_Set "x-razvhost-remoteaddr" (RemoteAddr r) h in
  let h := fold_left (fun h name => Header_Del name h) (DiscardHeaders cfg) h in
  add_extra (ExtraHeaders cfg) h.

(** [updateHeaders]: both header maps; it returns the request. *)
Definition updateHeaders (cfg : ServerConfig) (r : Request) : prog Request :=
  do* p_put (add_extra (ExtraHeaders cfg)) in
  Ret (set_r_Header (forwarded_header cfg r) r).

(** [ServeHTTP]: the mux after the lookup, and the program. *)
Definition ServeHTTP (cfg : ServerConfig) (m : M) (r : Request) : M * prog unit :=
  match @rt_lookup HandlerFunc M _ m (r_Host r +:+ Path (r_URL r)) with
  | Panic => (m, Crash)
  | Return (Some handler, m) => (m, let* r := updateHeaders cfg r in handler r)
  | Return (None, m) =>
      (m, http_Error ("Cannot serve path: " +:+ r_Host r +:+ Path (r_URL r)) 403)
  end.

(** [s.certManager], with the host policy [s.ValidateHost]. *)
Definition certManager (ReadFile : string -> result (option string)) (cfg : ServerConfig) (m : M)
    : ManagerConfig :=
  mk_ManagerConfig (Some AcceptTOS) (Some (DirCache_Get ReadFile (CertsDir cfg))) (Some (ValidateHost m)).

(** A TLS handshake on [internalServer]: the protocol is negotiated, then the certificate
    chosen. *)
Definition handshake ReadFile ToASCII Quote decode createCert (cfg : ServerConfig) (m : M)
    (mg : Manager) (hello : ClientHelloInfo)
    : outcome (Manager * list act * (cert_error + Certificate)) :=
  match negotiateALPN (next_protos cfg) (SupportedProtos hello) with
  | Err err => Return (mg, [], inl (CertError err))
  | Ok _ => GetCertificate (certManager ReadFile cfg m) ToASCII Quote decode createCert mg hello
  end.

(** What a listener serves. *)
Definition serves ReadFile Quote (cfg : ServerConfig) (what : served) (m : M) (mg : Manager)
    (r : Request) : M * prog unit :=
  match what with
  | ServeSites => ServeHTTP cfg m r
  | ServeACME => (m, HTTPHandler (certManager ReadFile cfg m) Quote mg None r)
  end.

(** The exchange on a listener: the mux and the middleware's counter afterwards, and the
    program. *)
Definition exchange ua ReadFile Quote (cfg : ServerConfig) (what : served) (m : M) (mg : Manager)
    (elapsed : string) (counter : Z) (r : Request) : M * (Z * prog (list string)) :=
  let '(m', p) := serves ReadFile Quote cfg what m mg r in
  (m', LoggerMiddleware ua (fun _ => p) elapsed counter r).

(** The handler of [Debug]: the host name is the first segment of the path. *)
Definition debug_request (host : string) (r : Request) : Request :=
  let prefix := slash +:+ host in
  set_r_URL (set_Paths (TrimPrefix (Path (r_URL r)) prefix) (TrimPrefix (RawPath (r_URL r)) prefix)
               (r_URL r)) (set_r_Host host r).

Definition Debug (Detect : string -> string) (tokenize : string -> list Stream.Token)
    (cfg : ServerConfig) (m : M) (r : Request) : M * prog unit :=
  match SplitN (Path (r_URL r)) slash 3 with
  | _ :: host :: _ =>
      let r' := debug_request host r in
      let '(m, p) := ServeHTTP cfg m r' in
      (m, with_prefix_writer Detect tokenize (Host (r_URL r')) (slash +:+ host) "" p)
  | _ => (m, http_Error "Forbidden" 403)
  end.

(** ** Start *)

(** The server's state: the mux, and the watcher and the stream of container events whose
    channels goroutines listen to. *)
Record Server := mk_Server {
  s_mux : M;
  s_config : ServerConfig;
  s_watcher : option Watcher;
  s_docker : option Pipeline
}.

(** [loadConfig], from what [NewConfig] answers: the server and the error. *)
Definition loadConfig (config : result Watcher) (s : Server) : Server * option string :=
  if (String.length (ConfigFile (s_config s)) =? 0)%nat then (s, None)
  else
    match config with
    | Err err => (s, Some err)
    | Ok w => (mk_Server (s_mux s) (s_config s) (Some w) (s_docker s), None)
    end.

(** [watchDockerEvents]: the containers that run are routed, then a goroutine listens to
    the events; the former stay routed if the latter cannot be had. *)
Definition watchDockerEvents {Client} (docker : result (DockerWatch Client))
    (active : DockerWatch Client -> result (list ConfigEvent))
    (AddEventListener : Client -> option string) (s : Server) : Server * option string :=
  match docker with
  | Err err => (s, Some err)
  | Ok docker =>
      match active docker with
      | Err err => (s, Some err)
      | Ok events =>
          let m := ProcessEvents (s_mux s) events in
          match GetConfigEvents AddEventListener docker with
          | Err err => (mk_Server m (s_config s) (s_watcher s) (s_docker s), Some err)
          | Ok eventsCh => (mk_Server m (s_config s) (s_watcher s) (Some eventsCh), None)
          end
      end
  end.

(** [NewServer]: errors of the two sources are logged, and the server runs without. *)
Definition NewServer {Client} (cfg : ServerConfig) (config : result Watcher)
    (docker : result (DockerWatch Client)) (active : DockerWatch Client -> result (list ConfigEvent))
    (AddEventListener : Client -> option string) : Server * list string :=
  let phplogs := match Parse (PHPAddr cfg) with Ok _ => [] | Err err => [err] end in
  let s := mk_Server rt_empty cfg None None in
  let '(s, err) := if (0 <? String.length (ConfigFile cfg))%nat then loadConfig config s else (s, None) in
  let '(s, err') :=
    if WatchDockerEvents cfg then watchDockerEvents docker active AddEventListener s else (s, None) in
  (s, phplogs ++ option_list err ++ option_list err').
End Server.
