(* ===== verification/ServerProps.v ===== *)
(** Properties of the server (pkg/server/server.go): the routes follow the
    configuration, requests are dispatched by the best route, and what the pieces do
    together.  The theorems about routing are proved against the [Router] interface and
    hold of [Mux] through its instance. *)

From S2P Require Import Prelude GoStrings Glob Url Http Routes Mux MuxProps Config Stream.
From S2P Require Import PrefixWriter PrefixWriterProps Handlers HandlersProps Remote.
From S2P Require Import Factory Docker Server.

Local Open Scope go_scope.
Local Open Scope prog_scope.

(** ** Route tables as sets of routes *)

Section Tracking.
Context {H : Type}.
Implicit Types (t : gmap string (list (H * string))) (p id : string).

(** The table routes [p] to a handler registered under [id]. *)
Definition routed t p id : Prop := exists hs, t !! p = Some hs /\ id ∈ hs.*2.

(** Each identity is registered at most once for a route. *)
Definition ids_unique t : Prop := forall p hs, t !! p = Some hs -> NoDup hs.*2.

Definition tracks t (s : gset (string * string)) : Prop :=
  ids_unique t /\ forall p id, routed t p id <-> (p, id) ∈ s.

Lemma drop_id_unique id (l : list (H * string)) :
  NoDup l.*2 -> NoDup (drop_id id l).*2 /\ forall id', id' ∈ (drop_id id l).*2 <-> id' ∈ l.*2 /\ id' <> id.
Proof.
  induction l as [|[h x] l IH]; cbn [drop_id fmap list_fmap fst snd]; intros Hn; [set_solver|].
  apply NoDup_cons in Hn as [Hx Hn]. destruct (IH Hn) as [IH1 IH2].
  destruct (String.eqb_spec x id) as [->|Hne].
  - split; [done|]. set_solver.
  - cbn [fmap list_fmap fst snd]. split; [constructor; [set_solver|done]|set_solver].
Qed.

Lemma tracks_add t s p h id :
  tracks t s -> (p, id) ∉ s -> tracks (table_add p h id t) (s ∪ {[(p, id)]}).
Proof.
  intros [Hu Ht] Hn. unfold table_add. split.
  - intros p' hs. destruct (decide (p = p')) as [<-|Hne].
    + rewrite lookup_insert_eq. intros [= <-]. destruct (t !! p) as [l|] eqn:E; cbn.
      * rewrite fmap_app. apply NoDup_app. split; [by eapply Hu|].
        split; [|apply NoDup_singleton]. intros x Hx Hid. apply list_elem_of_singleton in Hid as ->.
        apply Hn, Ht. by exists l.
      * apply NoDup_singleton.
    + rewrite lookup_insert_ne by done. apply Hu.
  - intros p' id'. unfold routed. destruct (decide (p = p')) as [<-|Hne].
    + rewrite lookup_insert_eq. specialize (Ht p id'). unfold routed in Ht.
      destruct (t !! p) as [l|] eqn:E; cbn.
      * assert (Hl : id' ∈ l.*2 <-> (p, id') ∈ s) by (rewrite <- Ht; naive_solver).
        split; [intros (hs & [= <-] & Hid)|intros Hid; eexists; split; [done|]];
          rewrite fmap_app in *; set_solver.
      * assert (Hl : (p, id') ∉ s) by (rewrite <- Ht; naive_solver).
        split; [intros (hs & [= <-] & Hid)|intros Hid; eexists; split; [done|]]; set_solver.
    + rewrite lookup_insert_ne by done. specialize (Ht p' id'). unfold routed in Ht. set_solver.
Qed.

Lemma tracks_remove t s p id :
  tracks t s -> tracks (table_remove p id t) (s ∖ {[(p, id)]}).
Proof.
  intros [Hu Ht].
  assert (Hother : forall t', (forall q, q <> p -> t' !! q = t !! q) ->
    (forall hs, t' !! p = Some hs -> NoDup hs.*2) ->
    (forall id', routed t' p id' <-> routed t p id' /\ id' <> id) ->
    tracks t' (s ∖ {[(p, id)]})).
  { intros t' H1 H2 H3. split.
    - intros q hs Hq. destruct (decide (q = p)) as [->|Hne]; [by apply H2|].
      rewrite H1 in Hq by done. by eapply Hu.
    - intros q id'. destruct (decide (q = p)) as [->|Hne].
      + rewrite H3, Ht. set_solver.
      + unfold routed. rewrite H1 by done. specialize (Ht q id'). unfold routed in Ht. set_solver. }
  unfold table_remove. destruct (t !! p) as [hs|] eqn:E.
  - destruct (drop_id_unique id hs (Hu p hs E)) as [Hd1 Hd2].
    assert (Hrt : forall id', routed t p id' <-> id' ∈ hs.*2).
    { intros id'. unfold routed. rewrite E. naive_solver. }
    destruct (drop_id id hs) as [|x l] eqn:Ed; apply Hother.
    + intros q Hq. by rewrite lookup_delete_ne.
    + intros l. by rewrite lookup_delete_eq.
    + intros id'. rewrite Hrt, <- Hd2. unfold routed. rewrite lookup_delete_eq. set_solver.
    + intros q Hq. by rewrite lookup_insert_ne.
    + intros l'. rewrite lookup_insert_eq. by intros [= <-].
    + intros id'. rewrite Hrt, <- Hd2. unfold routed. rewrite lookup_insert_eq. naive_solver.
  - apply Hother; [done|by rewrite E|]. intros id'. unfold routed. rewrite E. naive_solver.
Qed.
End Tracking.

(** ** Events *)

(** No event brings up a key that is already up. *)
Fixpoint exact (s : gset (string * string)) (events : list ConfigEvent) : Prop :=
  match events with
  | [] => True
  | e :: events =>
      (Up e = true -> entry_key (ce_entry e) ∉ s) /\ exact (apply_event s e) events
  end.

Lemma exact_app s l1 l2 : exact s (l1 ++ l2) <-> exact s l1 /\ exact (apply_events l1 s) l2.
Proof.
  revert s. induction l1 as [|e l1 IH]; intros s; [by split; [split|intros []]|].
  cbn [app exact apply_events fold_left]. rewrite IH. unfold apply_events. tauto.
Qed.

Lemma exact_down s l : exact s (toEvents l false).
Proof. revert s. induction l as [|e l IH]; intros s; [done|]. split; [done|apply IH]. Qed.

Lemma exact_up s l :
  NoDup (entry_key <$> l) -> (forall e, e ∈ l -> entry_key e ∉ s) -> exact s (toEvents l true).
Proof.
  revert s. induction l as [|e l IH]; intros s Hn Hs; [done|].
  apply NoDup_cons in Hn as [He Hn]. split; [intros _; apply Hs; by left|].
  apply IH; [done|]. intros e' He'. cbn. intros [Hk|Hk]%elem_of_union; [by eapply Hs; [right|]|].
  apply elem_of_singleton in Hk. apply He. rewrite <- Hk. by apply list_elem_of_fmap_2.
Qed.

Lemma not_contained_sublist other l : sublist (not_contained other l) l.
Proof.
  induction l as [|e l IH]; cbn [not_contained]; [constructor|].
  destruct (negb _); [by apply sublist_skip|by apply sublist_cons].
Qed.

Lemma exact_change prev new :
  NoDup (entry_key <$> new) -> exact (entry_keys prev) (change_events prev new).
Proof.
  intros Hn. unfold change_events, getConfigChange. apply exact_app. split; [|apply exact_down].
  apply exact_up.
  - eapply sublist_NoDup; [exact Hn|]. apply fmap_sublist, not_contained_sublist.
  - intros e He Hk. apply elem_of_not_contained in He as [_ He]. by apply He, elem_of_entry_keys.
Qed.

Section Server.
Context {M : Type} `{RouterLaws HandlerFunc M}.
Context (factory : string -> URL -> result HandlerFunc).
Implicit Types (m : M) (e : ConfigEvent) (events : list ConfigEvent).

#[local] Abbreviation process := (ProcessEvents factory).
#[local] Abbreviation listen := (Listen factory).

(** The factory has a handler for the entry. *)
Definition servable (e : ConfigEntry) : Prop :=
  exists h, factory (Hostname e) (Target e) = Ok h.

Definition good_state m s : Prop := rt_ok m /\ tracks (rt_table m) s.

Lemma ProcessEvent_tracks m s e :
  good_state m s -> (Up e = true -> servable (ce_entry e) /\ entry_key (ce_entry e) ∉ s) ->
  good_state (ProcessEvent factory m e).1 (apply_event s e).
Proof.
  intros [Hok Ht] Hup. unfold ProcessEvent, apply_event. destruct (Up e); cbn [negb].
  - destruct Hup as [[h Hh] Hn]; [done|]. rewrite Hh. cbn [fst].
    destruct (rt_add_ok m (Hostname (ce_entry e)) h (URL_String (Target (ce_entry e))) Hok) as [Hok' Heq].
    split; [done|]. rewrite Heq. by apply tracks_add.
  - cbn [fst].
    destruct (rt_remove_ok m (Hostname (ce_entry e)) (URL_String (Target (ce_entry e))) Hok) as [Hok' Heq].
    split; [done|]. rewrite Heq. by apply tracks_remove.
Qed.

Lemma ProcessEvents_tracks events m s :
  good_state m s -> exact s events ->
  Forall (fun e => Up e = true -> servable (ce_entry e)) events ->
  good_state (process m events) (apply_events events s).
Proof.
  revert m s. induction events as [|e events IH]; intros m s Hg He Hs; [done|].
  destruct He as [He Hex]. apply Forall_cons in Hs as [Hs1 Hs].
  cbn [ProcessEvents apply_events fold_left]. apply IH; [|done..].
  apply ProcessEvent_tracks; [done|]. auto.
Qed.

Lemma empty_tracks : good_state rt_empty ∅.
Proof.
  destruct rt_empty_ok as [Hok Ht]. split; [done|]. rewrite Ht. split; [done|].
  intros p id. split; [by intros (hs & Hhs & _)|set_solver].
Qed.

Lemma toEvents_servable l up :
  Forall servable l -> Forall (fun e => Up e = true -> servable (ce_entry e)) (toEvents l up).
Proof. intros Hl. apply Forall_fmap. eapply Forall_impl; [exact Hl|]. intros e He _. exact He. Qed.

Lemma change_servable prev new :
  Forall servable new ->
  Forall (fun e => Up e = true -> servable (ce_entry e)) (change_events prev new).
Proof.
  intros Hn. unfold change_events, getConfigChange. apply Forall_app. split.
  - apply toEvents_servable, Forall_forall. intros e [He _]%elem_of_not_contained.
    rewrite Forall_forall in Hn. by apply Hn.
  - apply Forall_fmap, Forall_forall. intros e _. discriminate.
Qed.

(** No entry twice, and every target can be served. *)
Definition valid_version (l : list ConfigEntry) : Prop :=
  NoDup (entry_key <$> l) /\ Forall servable l.

Lemma later_batches_track versions prev m :
  good_state m (entry_keys prev) -> Forall valid_version versions ->
  good_state (listen m (later_batches prev versions)) (entry_keys (current prev versions)).
Proof.
  revert prev m. induction versions as [|new versions IH]; intros prev m Hg Hv; [done|].
  apply Forall_cons in Hv as [[Hn Hs] Hv]. cbn [later_batches Listen]. apply IH; [|done].
  rewrite <- (apply_change_events prev new).
  apply ProcessEvents_tracks; [done|by apply exact_change|by apply change_servable].
Qed.

Lemma first_batch_tracks first :
  valid_version first -> good_state (process rt_empty (toEvents first true)) (entry_keys first).
Proof.
  intros [Hn Hs].
  assert (Hk : entry_keys first = apply_events (toEvents first true) ∅)
    by (rewrite apply_toEvents_up; set_solver).
  rewrite Hk. apply ProcessEvents_tracks; [apply empty_tracks| |by apply toEvents_servable].
  apply exact_up; [done|set_solver].
Qed.

(** The routes follow the configuration: whatever versions of the configuration file
    are read, as long as none repeats an entry and every target can be served, a server
    that has received their batches in order routes exactly the entries of the last
    version. *)
Theorem server_tracks_config first versions :
  valid_version first -> Forall valid_version versions ->
  let m : M := listen rt_empty (batches first versions) in
  rt_ok m /\ forall route id, routed (rt_table m) route id <->
    exists e : ConfigEntry, e ∈ current first versions /\ entry_key e = (route, id).
Proof.
  intros Hf Hv. cbv zeta. unfold batches. cbn [Listen].
  destruct (later_batches_track versions first (process rt_empty (toEvents first true)))
    as [Hok [_ Ht]]; [by apply first_batch_tracks|done|].
  split; [done|]. intros route id. rewrite Ht, elem_of_entry_keys, list_elem_of_fmap. naive_solver.
Qed.

Lemma interleaved_track (l1 l2 l : list ConfigEvent) m (s1 s2 K1 K2 : gset (string * string)) :
  interleaved l1 l2 l -> K1 ## K2 -> s1 ⊆ K1 -> s2 ⊆ K2 ->
  good_state m (s1 ∪ s2) -> exact s1 l1 -> exact s2 l2 ->
  Forall (fun e => entry_key (ce_entry e) ∈ K1 /\ (Up e = true -> servable (ce_entry e))) l1 ->
  Forall (fun e => entry_key (ce_entry e) ∈ K2 /\ (Up e = true -> servable (ce_entry e))) l2 ->
  good_state (process m l) (apply_events l1 s1 ∪ apply_events l2 s2).
Proof.
  intros Hil Hd. revert m s1 s2. induction Hil as [|e l1 l2 l Hil IH|e l1 l2 l Hil IH];
    intros m s1 s2 Hs1 Hs2 Hg He1 He2 Hf1 Hf2; [done| |].
  - destruct He1 as [He He1]. apply Forall_cons in Hf1 as [[Hk Hup] Hf1].
    cbn [ProcessEvents apply_events fold_left].
    assert (Hev : apply_event s1 e ∪ s2 = apply_event (s1 ∪ s2) e)
      by (unfold apply_event; destruct (Up e); set_solver).
    apply (IH _ (apply_event s1 e) s2); try done.
    + unfold apply_event. destruct (Up e); set_solver.
    + rewrite Hev. apply ProcessEvent_tracks; [done|]. intros Hu. split; [by apply Hup|].
      specialize (He Hu). set_solver.
  - destruct He2 as [He He2]. apply Forall_cons in Hf2 as [[Hk Hup] Hf2].
    cbn [ProcessEvents apply_events fold_left].
    assert (Hev : s1 ∪ apply_event s2 e = apply_event (s1 ∪ s2) e)
      by (unfold apply_event; destruct (Up e); set_solver).
    apply (IH _ s1 (apply_event s2 e)); try done.
    + unfold apply_event. destruct (Up e); set_solver.
    + rewrite Hev. apply ProcessEvent_tracks; [done|]. intros Hu. split; [by apply Hup|].
      specialize (He Hu). set_solver.
Qed.

(** The configuration file and the containers do not disturb each other: when the two
    sources are about different routes, then however the server's two goroutines
    interleave their events, the routes in the end are those of each source alone. *)
Theorem server_sources_independent (l1 l2 l : list ConfigEvent) (K1 K2 : gset (string * string)) :
  interleaved l1 l2 l -> K1 ## K2 -> exact ∅ l1 -> exact ∅ l2 ->
  Forall (fun e => entry_key (ce_entry e) ∈ K1 /\ (Up e = true -> servable (ce_entry e))) l1 ->
  Forall (fun e => entry_key (ce_entry e) ∈ K2 /\ (Up e = true -> servable (ce_entry e))) l2 ->
  forall route id, routed (rt_table (process (rt_empty : M) l)) route id <->
    (route, id) ∈ apply_events l1 ∅ ∪ apply_events l2 ∅.
Proof.
  intros Hil Hd He1 He2 Hf1 Hf2.
  destruct (interleaved_track l1 l2 l rt_empty ∅ ∅ K1 K2) as [_ [_ Ht]]; try done.
  assert (He : (∅ ∪ ∅ : gset (string * string)) = ∅) by set_solver.
  rewrite He. apply empty_tracks.
Qed.

(** ** Containers *)

Definition container_events (up : bool) (hosts : list string) (url : URL) : list ConfigEvent :=
  (fun h => mk_ConfigEvent (mk_ConfigEntry h url) up) <$> hosts.

Lemma Listen_singletons (events : list ConfigEvent) m :
  listen m ((fun e => [e]) <$> events) = process m events.
Proof. revert m. induction events as [|e events IH]; intros m; [done|]. apply IH. Qed.

Lemma toEvents_container up hosts url :
  container_events up hosts url = toEvents ((fun h => mk_ConfigEntry h url) <$> hosts) up.
Proof. unfold container_events, toEvents. by rewrite <- list_fmap_compose. Qed.

Lemma container_keys hosts url k :
  k ∈ entry_keys ((fun h => mk_ConfigEntry h url) <$> hosts) <-> k.1 ∈ hosts /\ k.2 = URL_String url.
Proof.
  rewrite elem_of_entry_keys, <- list_fmap_compose, list_elem_of_fmap. destruct k as [h id]. cbn. split.
  - intros (h' & [= -> ->] & Hin). done.
  - intros [Hin ->]. by exists h.
Qed.

(** The batches of a single container event. *)
Lemma container_batches Quote (e : APIEvent) inspected :
  convertEvents Quote [(e, fun _ => inspected)] = (convert_event (fun _ => inspected) Quote e).1.
Proof. unfold convertEvents. cbn [flat_map fst snd]. by rewrite app_nil_r. Qed.

(** A container without bindings of its port, or that cannot be inspected, gives no event. *)
Lemma no_container_events Quote cid action (inspected : result Container) :
  match inspected with
  | Ok cont => Forall (fun pb => ~ matching (virt_port (ct_Env cont)) pb) (ct_Ports cont)
  | Err _ => True
  end ->
  convertEvents Quote [(mk_APIEvent "container" action cid, fun _ => inspected)] = [].
Proof.
  intros Hi. rewrite container_batches. unfold convert_event. cbn [ev_Type ev_Action ev_ActorID negb String.eqb Ascii.eqb Bool.eqb].
  assert (Hn : forall up, getContainerEvents (fun _ => inspected) Quote cid up = Ok [] \/
    exists err, getContainerEvents (fun _ => inspected) Quote cid up = Err err).
  { intros up. unfold getContainerEvents. destruct inspected as [cont|err]; [|by right; exists err]. cbn [result_bind].
    apply find_binding_None in Hi as ->. destruct (_ =? 0)%nat; [by left|right; by eexists]. }
  destruct (String.eqb action "start"); [by destruct (Hn true) as [->|[? ->]]|].
  destruct (String.eqb action "stop"); [by destruct (Hn false) as [->|[? ->]]|done].
Qed.

(** C18. Containers come and go: when one starts whose virtual port has a single binding, and
    whose host names are distinct, not routed to that port yet and can be served, the server
    routes each of its host names to the port, besides what it routed.  The events of a stop
    are made by inspecting the container again: if the same bindings are reported, however
    iterated, the server routes what it did before the start; if none are reported, as is the
    case for a container that has stopped, or it cannot be inspected, nothing is taken away. *)
Theorem container_comes_and_goes (Quote : string -> string) (cid : string) (env : list string)
    (ports : list (string * list PortBinding)) (port : string) (b : PortBinding)
    (bs : list PortBinding) (url : URL) m (s : gset (string * string)) :
  good_state m s ->
  (port, b :: bs) ∈ ports -> Port_Port port = virt_port env ->
  (forall pb, pb ∈ ports -> matching (virt_port env) pb -> pb = (port, b :: bs)) ->
  Parse ("http://localhost:" +:+ HostPort b) = Ok url ->
  let hosts := Fields (env_Get env "VIRTUAL_HOST") in
  NoDup hosts ->
  (forall h, h ∈ hosts -> servable (mk_ConfigEntry h url) /\ (h, URL_String url) ∉ s) ->
  let started := listen m (convertEvents Quote
    [(mk_APIEvent "container" "start" cid, fun _ => Ok (mk_Container env ports))]) in
  let stopped inspected := listen started (convertEvents Quote
    [(mk_APIEvent "container" "stop" cid, fun _ => inspected)]) in
  (forall route id, routed (rt_table started) route id <->
     (route, id) ∈ s \/ (route ∈ hosts /\ id = URL_String url)) /\
  (forall ports', ports' ≡ₚ ports -> forall route id,
     routed (rt_table (stopped (Ok (mk_Container env ports')))) route id <-> (route, id) ∈ s) /\
  (forall inspected,
     match inspected with
     | Ok cont => Forall (fun pb => ~ matching (virt_port (ct_Env cont)) pb) (ct_Ports cont)
     | Err _ => True
     end -> stopped inspected = started).
Proof.
  intros Hg Hin Hp Huniq Hu hosts Hn Hs. cbv zeta.
  set (entries := (fun h => mk_ConfigEntry h url) <$> hosts).
  assert (Hconv : forall action up ps, ps ≡ₚ ports -> (action, up) ∈ [("start", true); ("stop", false)] ->
    convertEvents Quote [(mk_APIEvent "container" action cid, fun _ => Ok (mk_Container env ps))] =
    (fun e => [e]) <$> toEvents entries up).
  { intros action up ps Hps Ha. rewrite container_batches.
    assert (Hge : forall up', getContainerEvents (fun _ => Ok (mk_Container env ps)) Quote cid up' =
      Ok (container_events up' hosts url)).
    { intros up'. apply (getContainerEvents_unique _ _ _ _ env ps port b bs url); try done.
      - by rewrite Hps.
      - intros pb Hpb. apply Huniq. by rewrite <- Hps. }
    unfold entries. rewrite <- toEvents_container. unfold convert_event. cbn [ev_Type ev_Action ev_ActorID].
    apply elem_of_cons in Ha as [[= -> ->]|[[= -> ->]|[]%elem_of_nil]%elem_of_cons];
      cbn [String.eqb Ascii.eqb Bool.eqb negb]; by rewrite Hge. }
  rewrite (Hconv "start" true ports), Listen_singletons by (done || set_solver).
  assert (Hdis : s ∩ entry_keys entries = ∅).
  { apply set_eq. intros k. rewrite elem_of_intersection. split; [|set_solver]. intros [Hk Hk'].
    apply container_keys in Hk' as [Hh Hid]. destruct k as [h id]. cbn in Hh, Hid. subst id.
    by destruct (proj2 (Hs h Hh)). }
  assert (Hup : good_state (process m (toEvents entries true)) (s ∪ entry_keys entries)).
  { rewrite <- apply_toEvents_up. apply ProcessEvents_tracks; [done| |].
    - apply exact_up.
      + unfold entries. rewrite <- list_fmap_compose. apply NoDup_fmap; [|done]. by intros h h' [= ->].
      + intros e He Hk. assert (He' : entry_key e ∈ entry_keys entries)
          by (by apply elem_of_entry_keys, list_elem_of_fmap_2). set_solver.
    - apply toEvents_servable, Forall_fmap, Forall_forall. intros h Hh. by apply Hs. }
  assert (Hdown : good_state (process (process m (toEvents entries true)) (toEvents entries false)) s).
  { assert (Hk : s = apply_events (toEvents entries false) (s ∪ entry_keys entries))
      by (rewrite apply_toEvents_down; set_solver).
    rewrite Hk. apply ProcessEvents_tracks; [done|apply exact_down|].
    apply Forall_fmap, Forall_forall. intros e _. discriminate. }
  split; [|split].
  - intros route id. rewrite (proj2 (proj2 Hup)), elem_of_union. unfold entries. by rewrite container_keys.
  - intros ports' Hp' route id. rewrite (Hconv "stop" false ports'), Listen_singletons by (done || set_solver).
    apply (proj2 (proj2 Hdown)).
  - intros inspected Hi. by rewrite no_container_events.
Qed.

(** ** Requests *)

(** Dispatch: a request is handled, with updated headers, by a handler registered for a
    best route of its host and path; when no route covers it the answer is an error.
    Serving never changes the routes. *)
Theorem ServeHTTP_dispatch cfg m r :
  rt_ok m -> small_table (rt_table m) ->
  let path := r_Host r +:+ Path (r_URL r) in
  let '(m', p) := ServeHTTP cfg m r in
  rt_ok m' /\ rt_table m' = rt_table m /\
  ((exists route hs h id, best_route (rt_table m) path route /\
      rt_table m !! route = Some hs /\ (h, id) ∈ hs /\
      p = (let* r := updateHeaders cfg r in h r)) \/
   ((forall route, route ∈ dom (rt_table m) -> route_match route path = false) /\
    p = http_Error ("Cannot serve path: " +:+ path) 403)).
Proof.
  intros Hok Hsm. cbv zeta. unfold ServeHTTP.
  destruct (rt_lookup_ok m (r_Host r +:+ Path (r_URL r)) Hok) as (res & m' & Hl & Hok' & Ht').
  rewrite Hl. destruct res as [h|]; (split; [done|]); (split; [done|]).
  - left. destruct (rt_lookup_best m _ h m' Hok Hsm Hl) as (route & hs & id & Hb & Hhs & Hin).
    by exists route, hs, h, id.
  - right. split; [|done]. by apply (rt_lookup_none m _ m' Hok Hsm Hl).
Qed.

(** Every handler of the table was made by the factory, for a route and target that [E]
    holds of. *)
Definition made_for (E : string -> URL -> Prop) (t : gmap string (list (HandlerFunc * string))) : Prop :=
  forall p hs h id, t !! p = Some hs -> (h, id) ∈ hs ->
  exists target, E p target /\ factory p target = Ok h /\ URL_String target = id.

Definition made : gmap string (list (HandlerFunc * string)) -> Prop := made_for (fun _ _ => True).

Lemma ProcessEvent_made_for (F : string -> URL -> Prop) m e :
  rt_ok m -> made_for F (rt_table m) -> (Up e = true -> F (Hostname (ce_entry e)) (Target (ce_entry e))) ->
  let m' := (ProcessEvent factory m e).1 in rt_ok m' /\ made_for F (rt_table m').
Proof.
  intros Hok Hm He. cbv zeta. unfold ProcessEvent.
  set (p := Hostname (ce_entry e)). set (u := Target (ce_entry e)).
  destruct (Up e); cbn [negb fst]; [specialize (He eq_refl)|clear He].
  2:{ destruct (rt_remove_ok m p (URL_String u) Hok) as [Hok' ->]. split; [done|].
    intros q hs h id. unfold table_remove. destruct (rt_table m !! p) as [l|] eqn:E; [|by apply Hm].
    destruct (decide (p = q)) as [<-|Hne].
    + pose proof (drop_id_sublist (URL_String u) l) as Hsub.
      destruct (drop_id (URL_String u) l) as [|x l'].
      * by rewrite lookup_delete_eq.
      * rewrite lookup_insert_eq. intros [= <-] Hin. apply (Hm p l); [done|].
        by apply (elem_of_sublist _ _ _ Hin Hsub).
    + destruct (drop_id (URL_String u) l) as [|x l'].
      * rewrite lookup_delete_ne by done. by apply Hm.
      * rewrite lookup_insert_ne by done. by apply Hm. }
  destruct (factory p u) as [h0|err] eqn:Ef; [|by split]. cbn [fst].
  destruct (rt_add_ok m p h0 (URL_String u) Hok) as [Hok' ->]. split; [done|].
  intros q hs h id. unfold table_add. destruct (decide (p = q)) as [<-|Hne].
  - rewrite lookup_insert_eq. intros [= <-] [Hin|Hin]%elem_of_app.
    * destruct (rt_table m !! p) as [l|] eqn:E; [by apply (Hm p l)|by apply elem_of_nil in Hin].
    * apply list_elem_of_singleton in Hin as [= -> ->]. by exists u.
  - rewrite lookup_insert_ne by done. by apply Hm.
Qed.

Lemma ProcessEvent_made m e :
  rt_ok m -> made (rt_table m) ->
  let m' := (ProcessEvent factory m e).1 in rt_ok m' /\ made (rt_table m').
Proof. intros Hok Hm. by apply ProcessEvent_made_for. Qed.

Lemma made_for_weaken (E E' : string -> URL -> Prop) t :
  (forall p u, E p u -> E' p u) -> made_for E t -> made_for E' t.
Proof. intros Hi Hm p hs h id Hhs Hin. destruct (Hm p hs h id Hhs Hin) as (u & Hu & Hrest). eauto. Qed.

Lemma ProcessEvents_made events m :
  rt_ok m -> made (rt_table m) -> rt_ok (process m events) /\ made (rt_table (process m events)).
Proof.
  revert m. induction events as [|e events IH]; intros m Hok Hm; [done|].
  destruct (ProcessEvent_made m e Hok Hm) as [Hok' Hm']. by apply IH.
Qed.

Lemma Listen_made (bs : list (list ConfigEvent)) m :
  rt_ok m -> made (rt_table m) -> rt_ok (listen m bs) /\ made (rt_table (listen m bs)).
Proof.
  revert m. induction bs as [|b bs IH]; intros m Hok Hm; [done|].
  destruct (ProcessEvents_made b m Hok Hm) as [Hok' Hm']. by apply IH.
Qed.

Lemma tracks_small (t : gmap string (list (HandlerFunc * string))) (s : gset (string * string)) :
  tracks t s -> (Z.of_nat (size s) < 2 ^ 32)%Z -> small_table t.
Proof.
  intros [Hu Ht] Hl p hs Hhs.
  assert (Hlen : size (list_to_set (pair p <$> hs.*2) : gset (string * string)) <= size s).
  { apply subseteq_size. intros k Hk. apply elem_of_list_to_set, list_elem_of_fmap in Hk as (id & -> & Hid).
    apply Ht. by exists hs. }
  rewrite size_list_to_set in Hlen by (apply NoDup_fmap; [by intros a b [= ->]|by eapply Hu]).
  rewrite !length_fmap in Hlen. lia.
Qed.

(** How a request is served when the keys [U] holds of are up: by a handler the factory made
    for a route and target that [E] holds of and that are up, a route that covers the request
    and has priority over the others that are up and do; or with 403 when there is none. *)
Definition served_by (E : string -> URL -> Prop) (U : string * string -> Prop) cfg r (p : prog unit) : Prop :=
  let path := r_Host r +:+ Path (r_URL r) in
  (exists route target h, E route target /\ U (route, URL_String target) /\ route_match route path = true /\
     (forall route' id', U (route', id') -> route_match route' path = true -> route_prio route route') /\
     factory route target = Ok h /\ p = (let* r := updateHeaders cfg r in h r)) \/
  ((forall route id, U (route, id) -> route_match route path = false) /\
   p = http_Error ("Cannot serve path: " +:+ path) 403).

Lemma routed_served (E : string -> URL -> Prop) (U : string * string -> Prop) m cfg r :
  rt_ok m -> small_table (rt_table m) -> made_for E (rt_table m) ->
  (forall route id, routed (rt_table m) route id <-> U (route, id)) ->
  served_by E U cfg r (ServeHTTP cfg m r).2.
Proof.
  intros Hok Hsm Hmade Ht.
  assert (Hdom : forall route id, U (route, id) -> route ∈ dom (rt_table m)).
  { intros route id He. apply Ht in He as (hs & Hhs & _). by apply elem_of_dom. }
  unfold served_by, ServeHTTP. set (path := r_Host r +:+ Path (r_URL r)).
  destruct (rt_lookup_ok m path Hok) as (res & m' & Hl & _ & _).
  rewrite Hl. destruct res as [h|]; cbn [snd].
  - left. destruct (rt_lookup_best m _ h m' Hok Hsm Hl) as (route & hs & id & (_ & Hb & Hbest) & Hhs & Hin).
    destruct (Hmade _ hs h _ Hhs Hin) as (target & HE & Htg & <-).
    exists route, target, h. split; [done|]. split; [|split; [done|]; split; [|done]].
    + apply Ht. exists hs. split; [done|]. by apply (list_elem_of_fmap_2 snd hs (h, URL_String target)).
    + intros route' id' He Hm'. eapply Hbest; [by eapply Hdom|done].
  - right. split; [|done]. intros route id He. eapply (rt_lookup_none m _ m' Hok Hsm Hl). by eapply Hdom.
Qed.

Lemma tracked_served (E : string -> URL -> Prop) m s cfg r :
  good_state m s -> made_for E (rt_table m) -> (Z.of_nat (size s) < 2 ^ 32)%Z ->
  served_by E (fun k => k ∈ s) cfg r (ServeHTTP cfg m r).2.
Proof.
  intros [Hok Ht] Hmade Hlen. apply routed_served; [done|by eapply tracks_small|done|apply Ht].
Qed.

Lemma made_empty E : made_for E (rt_table (rt_empty : M)).
Proof. destruct rt_empty_ok as [_ Ht]. rewrite Ht. intros q hs h id. by rewrite lookup_empty. Qed.

(** From the configuration to the handler: a server that has received the batches of
    successive versions of the configuration hands a request, with updated headers, to a
    handler made for an entry of the last version: one whose route covers the request and
    has priority over every other entry whose route does.  When no entry covers it, the
    answer is 403. *)
Theorem request_reaches_configured_target cfg first versions r :
  valid_version first -> Forall valid_version versions ->
  (Z.of_nat (length (current first versions)) < 2 ^ 32)%Z ->
  let path := r_Host r +:+ Path (r_URL r) in
  let entries := current first versions in
  let p := (ServeHTTP cfg (listen (rt_empty : M) (batches first versions)) r).2 in
  (exists (e : ConfigEntry) target h, e ∈ entries /\ route_match (Hostname e) path = true /\
     (forall e' : ConfigEntry, e' ∈ entries -> route_match (Hostname e') path = true ->
        route_prio (Hostname e) (Hostname e')) /\
     URL_String target = URL_String (Target e) /\ factory (Hostname e) target = Ok h /\
     p = (let* r := updateHeaders cfg r in h r)) \/
  ((forall e : ConfigEntry, e ∈ entries -> route_match (Hostname e) path = false) /\
   p = http_Error ("Cannot serve path: " +:+ path) 403).
Proof.
  intros Hf Hv Hlen. cbv zeta. set (m := listen rt_empty (batches first versions)).
  set (l := current first versions) in *.
  assert (Hg : good_state m (entry_keys l)).
  { apply (later_batches_track versions first); [by apply first_batch_tracks|done]. }
  assert (Hmade : made (rt_table m)) by (apply Listen_made; [apply rt_empty_ok|apply made_empty]).
  assert (Hsize : (Z.of_nat (size (entry_keys l)) < 2 ^ 32)%Z).
  { pose proof (size_list_to_set_le (entry_key <$> l)) as Hs. rewrite length_fmap in Hs. unfold entry_keys. lia. }
  assert (Hkeys : forall e : ConfigEntry, e ∈ l -> (Hostname e, URL_String (Target e)) ∈ entry_keys l)
    by (intros e He; apply elem_of_entry_keys; by apply (list_elem_of_fmap_2 entry_key)).
  destruct (tracked_served _ m (entry_keys l) cfg r Hg Hmade Hsize)
    as [(route & target & h & _ & Hk & Hb & Hbest & Hh & Hp)|[Hn Hp]]; [left|right].
  - apply elem_of_entry_keys, list_elem_of_fmap in Hk as (e & [= -> Hid] & He).
    exists e, target, h. repeat (split; [done|]). split; [|done].
    intros e' He' Hm'. eapply Hbest; [by apply Hkeys|done].
  - split; [|done]. intros e He. eapply Hn. by apply Hkeys.
Qed.
End Server.

(** ** Headers *)

Lemma Header_Values_Add_other k k' v h :
  CanonicalMIMEHeaderKey k <> CanonicalMIMEHeaderKey k' ->
  Header_Values (Header_Add k v h) k' = Header_Values h k'.
Proof. intros Hne. apply (Header_Values_other k k' v h Hne). Qed.

Lemma Header_Values_Set_other k k' v h :
  CanonicalMIMEHeaderKey k <> CanonicalMIMEHeaderKey k' ->
  Header_Values (Header_Set k v h) k' = Header_Values h k'.
Proof. intros Hne. apply (Header_Values_other k k' v h Hne). Qed.

(** [name] is none of [names], up to canonical form. *)
Definition not_among (name : string) (names : list string) : Prop :=
  Forall (fun n => CanonicalMIMEHeaderKey n <> CanonicalMIMEHeaderKey name) names.

Lemma add_extra_other extra name h :
  not_among name extra.*1 -> Header_Values (add_extra extra h) name = Header_Values h name.
Proof.
  unfold add_extra. revert h. induction extra as [|[k v] extra IH]; intros h Hn; [done|].
  apply Forall_cons in Hn as [Hk Hn]. cbn [fold_left fst snd]. rewrite IH by done.
  by apply Header_Values_Add_other.
Qed.

Lemma discard_other names name h :
  not_among name names ->
  Header_Values (fold_left (fun h n => Header_Del n h) names h) name = Header_Values h name.
Proof.
  revert h. induction names as [|n names IH]; intros h Hn; [done|].
  apply Forall_cons in Hn as [Hk Hn]. cbn [fold_left]. rewrite IH by done.
  by apply (Header_Values_other n name EmptyString h).
Qed.

Lemma Header_Del_none n name h :
  Header_Values h name = [] -> Header_Values (Header_Del n h) name = [].
Proof.
  intros Hh. destruct (decide (CanonicalMIMEHeaderKey n = CanonicalMIMEHeaderKey name)) as [Heq|Hne].
  - unfold Header_Values, Header_Del. by rewrite Heq, lookup_delete_eq.
  - by rewrite (proj2 (proj2 (Header_Values_other n name EmptyString h Hne))).
Qed.

Lemma discard_none names name h :
  Header_Values h name = [] ->
  Header_Values (fold_left (fun h n => Header_Del n h) names h) name = [].
Proof.
  revert h. induction names as [|n names IH]; intros h Hh; [done|]. cbn [fold_left].
  by apply IH, Header_Del_none.
Qed.

Lemma discard_gone names name h :
  name ∈ names -> Header_Values (fold_left (fun h n => Header_Del n h) names h) name = [].
Proof.
  revert h. induction names as [|n names IH]; intros h; [by intros ?%elem_of_nil|].
  intros [->|Hin]%elem_of_cons; cbn [fold_left]; [|by apply IH].
  apply discard_none, Header_Values_Del.
Qed.

Lemma forwarded_header_gone cfg r name :
  not_among name (ExtraHeaders cfg).*1 -> name ∈ DiscardHeaders cfg ->
  Header_Values (forwarded_header cfg r) name = [].
Proof.
  intros He Hd. unfold forwarded_header. rewrite add_extra_other by done. by apply discard_gone.
Qed.

Lemma forwarded_header_kept cfg r name :
  not_among name (ExtraHeaders cfg).*1 -> not_among name (DiscardHeaders cfg) ->
  Header_Values (forwarded_header cfg r) name =
  if decide (CanonicalMIMEHeaderKey name = "X-Razvhost-Remoteaddr") then [RemoteAddr r]
  else if decide (CanonicalMIMEHeaderKey name = "X-Forwarded-Host") then [r_Host r]
  else Header_Values (r_Header r) name.
Proof.
  intros He Hd. unfold forwarded_header. rewrite add_extra_other, discard_other by done.
  assert (H1 : CanonicalMIMEHeaderKey "x-razvhost-remoteaddr" = "X-Razvhost-Remoteaddr") by reflexivity.
  assert (H2 : CanonicalMIMEHeaderKey "X-Forwarded-Host" = "X-Forwarded-Host") by reflexivity.
  destruct (decide (CanonicalMIMEHeaderKey name = "X-Razvhost-Remoteaddr")) as [Hn|Hn].
  { unfold Header_Values, Header_Set. rewrite Hn, H1, lookup_insert_eq. done. }
  rewrite Header_Values_Set_other by (by rewrite H1).
  destruct (decide (CanonicalMIMEHeaderKey name = "X-Forwarded-Host")) as [Hf|Hf].
  { unfold Header_Values, Header_Set. rewrite Hf, H2, lookup_insert_eq. done. }
  by rewrite Header_Values_Set_other by (by rewrite H2).
Qed.

(** The headers a handler gets: a discarded header is gone, unless the server adds it
    itself; the forwarded host and the client's address replace whatever the client sent
    under these names, unless they are discarded or added to; and any other header is
    the client's. *)
Theorem forwarded_header_values cfg r name :
  not_among name (ExtraHeaders cfg).*1 ->
  (name ∈ DiscardHeaders cfg -> Header_Values (forwarded_header cfg r) name = []) /\
  (not_among name (DiscardHeaders cfg) ->
   Header_Values (forwarded_header cfg r) name =
   if decide (CanonicalMIMEHeaderKey name = "X-Razvhost-Remoteaddr") then [RemoteAddr r]
   else if decide (CanonicalMIMEHeaderKey name = "X-Forwarded-Host") then [r_Host r]
   else Header_Values (r_Header r) name).
Proof.
  intros He. split; [by apply forwarded_header_gone|by apply forwarded_header_kept].
Qed.

(** ** The server on [Mux] *)

#[local] Abbreviation HMux := (Mux.Mux HandlerFunc).

(** Every mux a server gets to is well formed. *)
Lemma ProcessEvents_wf factory events (m : HMux) :
  Mux.wf m -> Mux.wf (ProcessEvents factory m events).
Proof.
  revert m. induction events as [|e events IH]; intros m Hm; [done|]. cbn [ProcessEvents].
  apply IH. unfold ProcessEvent. destruct (negb (Up e)).
  - by apply Mux.Remove_wf.
  - destruct (factory _ _) as [h|]; [|done]. by apply Mux.Add_wf.
Qed.

(** The certificate bug: [ValidateHost], the policy that decides which hosts get a
    certificate, refuses every host, routed or not, in every state the server reaches, so
    that no certificate is ever obtained. *)
Theorem ValidateHost_refuses_all factory events host :
  let m : HMux := ProcessEvents factory rt_empty events in
  ValidateHost Mux.ContainsHost m host = Return (Some ("unknown hostname: " +:+ host)).
Proof.
  cbv zeta. unfold ValidateHost. rewrite ContainsHost_false; [done|].
  apply ProcessEvents_wf. apply Mux.empty_wf.
Qed.

(** Repeated lines leave routes behind: the change between two versions of the
    configuration looks at which entries occur, not how often, so an entry that occurs
    twice, then once, then not at all is added twice, removed once, and stays routed. *)
Theorem repeated_entry_stays_routed factory e h :
  factory (Hostname e) (Target e) = Ok h ->
  let m : HMux := Listen factory rt_empty (batches [e; e] [[e]; []]) in
  routed (rt_table m) (Hostname e) (URL_String (Target e)).
Proof.
  intros Hh. cbv zeta.
  set (p := Hostname e). set (id := URL_String (Target e)).
  assert (Hc : forall l, entries_contains (e :: l) e = true).
  { intros l. cbn [entries_contains]. by rewrite !String.eqb_refl. }
  unfold batches, later_batches, change_events, getConfigChange.
  cbn [not_contained]. rewrite !Hc. cbn [negb toEvents fmap list_fmap app Listen ProcessEvents entries_contains].
  unfold ProcessEvent. cbn [Up ce_entry negb]. rewrite Hh. cbn [fst]. fold p. fold id.
  destruct (rt_empty_ok (M := HMux)) as [Hok0 Ht0].
  destruct (rt_add_ok _ p h id Hok0) as [Hok1 Ht1].
  destruct (rt_add_ok _ p h id Hok1) as [Hok2 Ht2].
  destruct (rt_remove_ok _ p id Hok2) as [_ Ht3].
  rewrite Ht3, Ht2, Ht1, Ht0. unfold table_remove, table_add.
  rewrite !lookup_insert_eq, lookup_empty. cbn [default from_option Datatypes.id app drop_id snd].
  rewrite String.eqb_refl. eexists. rewrite lookup_insert_eq. split; [done|]. cbn. by left.
Qed.

(** ** The debug listener *)

Lemma split_cuts_sep c a t n :
  str_elem c a = false ->
  split_cuts (S n) (a +:+ str1 c +:+ t) (str1 c) = a :: split_cuts n t (str1 c).
Proof.
  intros Ha.
  assert (Hi : IndexByte (str1 c +:+ t) c = Some 0)
    by (unfold str1; rewrite sapp_cons; cbn [IndexByte]; by rewrite Ascii.eqb_refl).
  cbn [split_cuts]. rewrite Index_byte, IndexByte_app by done. rewrite Hi.
  cbn [fmap option_fmap option_map]. rewrite Nat.add_0_r, stake_app_length. f_equal. f_equal.
  replace (String.length a + String.length (str1 c)) with (String.length (a +:+ str1 c))
    by apply slength_app.
  rewrite sapp_assoc. apply sdrop_app_length.
Qed.

(** The debug listener serves [/host/path] as a request for [/path] on [host], behind
    a writer that moves the links of the response under [/host]. *)
Theorem Debug_serves_host Detect tokenize cfg (m : HMux) r host path :
  str_elem slash_c host = false -> Path (r_URL r) = slash +:+ host +:+ slash +:+ path ->
  exists r', r_Host r' = host /\ Path (r_URL r') = slash +:+ path /\
    Debug Detect tokenize cfg m r =
    (let '(m', p) := ServeHTTP cfg m r' in
     (m', with_prefix_writer Detect tokenize (Host (r_URL r)) (slash +:+ host) "" p)).
Proof.
  intros Hh Hp. unfold Debug.
  assert (Hsplit : SplitN (Path (r_URL r)) slash 3 = [EmptyString; host; path]).
  { rewrite Hp. change slash with (str1 slash_c). unfold SplitN. change (3 - 1) with 2.
    rewrite <- (sapp_nil_l (str1 slash_c +:+ host +:+ str1 slash_c +:+ path)).
    by rewrite !split_cuts_sep. }
  rewrite Hsplit. exists (debug_request host r). split; [done|]. split.
  - unfold debug_request. cbn [r_URL set_r_URL Path set_Paths]. rewrite Hp, sapp_assoc.
    apply TrimPrefix_app.
  - unfold debug_request at 2. by destruct (ServeHTTP cfg m (debug_request host r)).
Qed.

(** ** Witnesses *)

#[local] Abbreviation demo_factory :=
  (Factory.Handler demo_deps no_session no_sftp (NewHandlerFactory None)).

Definition demo_app : ConfigEntry := mk_ConfigEntry "h/p" backend.
Definition demo_site : ConfigEntry := mk_ConfigEntry "h" github.
Definition demo_first : list ConfigEntry := [demo_site; mk_ConfigEntry "old.org" backend].
Definition demo_versions : list (list ConfigEntry) := [[demo_app; demo_site]].
Definition demo_cfg : ServerConfig :=
  mk_ServerConfig "config" "certs" true false false ["forwarded"] [("Server", "razvhost")] "".
Definition demo_get : Request :=
  mk_Request "GET" (set_Paths "/p/page" "" empty_URL) {["Forwarded" := ["for=1.1.1.1"]]} "h" "1.2.3.4:5".

Lemma demo_valid : valid_version demo_factory demo_first /\
  Forall (valid_version demo_factory) demo_versions.
Proof.
  assert (Ha : servable demo_factory demo_app) by (eexists; reflexivity).
  assert (Hs : servable demo_factory demo_site) by (eexists; reflexivity).
  assert (Ho : servable demo_factory (mk_ConfigEntry "old.org" backend)) by (eexists; reflexivity).
  split; [split; [|by repeat constructor]|constructor; [split; [|by repeat constructor]|constructor]].
  all: apply (bool_decide_unpack _); vm_compute; exact I.
Qed.

Definition demo_server : HMux := Listen demo_factory rt_empty (batches demo_first demo_versions).

Lemma demo_server_ok : rt_ok demo_server.
Proof.
  apply (later_batches_track demo_factory demo_versions demo_first); [|apply demo_valid].
  apply first_batch_tracks, demo_valid.
Qed.

Lemma server_tracks_config_witness :
  rt_ok demo_server /\ forall route id, routed (rt_table demo_server) route id <->
    exists e : ConfigEntry, e ∈ [demo_app; demo_site] /\ entry_key e = (route, id).
Proof.
  apply (server_tracks_config demo_factory demo_first demo_versions); apply demo_valid.
Defined.

Lemma request_reaches_configured_target_witness :
  exists p, (ServeHTTP demo_cfg demo_server demo_get).2 = p /\
  exists (e : ConfigEntry) target h, e ∈ [demo_app; demo_site] /\
    route_match (Hostname e) "h/p/page" = true /\
    (forall e' : ConfigEntry, e' ∈ [demo_app; demo_site] ->
       route_match (Hostname e') "h/p/page" = true -> route_prio (Hostname e) (Hostname e')) /\
    URL_String target = URL_String (Target e) /\ demo_factory (Hostname e) target = Ok h /\
    p = (let* r := updateHeaders demo_cfg demo_get in h r).
Proof.
  eexists. split; [reflexivity|].
  destruct (request_reaches_configured_target (M := HMux) demo_factory demo_cfg demo_first
    demo_versions demo_get) as [Hr|[Hn _]]; [apply demo_valid|apply demo_valid| |exact Hr|].
  - vm_compute. reflexivity.
  - exfalso. specialize (Hn demo_site (ltac:(right; left))). vm_compute in Hn. discriminate.
Defined.

Lemma server_sources_independent_witness :
  let m : HMux := ProcessEvents demo_factory rt_empty
    [mk_ConfigEvent demo_app true; mk_ConfigEvent demo_site true; mk_ConfigEvent demo_app false] in
  routed (rt_table m) "h" (URL_String github) /\ ~ routed (rt_table m) "h/p" (URL_String backend).
Proof.
  cbv zeta.
  pose proof (server_sources_independent (M := HMux) demo_factory
    [mk_ConfigEvent demo_app true; mk_ConfigEvent demo_app false] [mk_ConfigEvent demo_site true]
    [mk_ConfigEvent demo_app true; mk_ConfigEvent demo_site true; mk_ConfigEvent demo_app false]
    {[entry_key demo_app]} {[entry_key demo_site]}) as Hind.
  assert (Hr : forall route id,
    routed (rt_table (ProcessEvents demo_factory (rt_empty : HMux)
      [mk_ConfigEvent demo_app true; mk_ConfigEvent demo_site true; mk_ConfigEvent demo_app false]))
      route id <->
    (route, id) ∈ apply_events [mk_ConfigEvent demo_app true; mk_ConfigEvent demo_app false] ∅ ∪
                  apply_events [mk_ConfigEvent demo_site true] ∅).
  { apply Hind.
    - repeat constructor.
    - apply disjoint_singleton_l. intros Hk%elem_of_singleton. vm_compute in Hk. discriminate.
    - split; [set_solver|split; [done|exact I]].
    - split; [set_solver|exact I].
    - repeat constructor; try (by apply elem_of_singleton); intros _; eexists; reflexivity.
    - repeat constructor; try (by apply elem_of_singleton); intros _; eexists; reflexivity. }
  split; [apply Hr|intros Hn; apply Hr in Hn; revert Hn].
  - apply (bool_decide_unpack _). vm_compute. exact I.
  - apply (bool_decide_unpack (_ ∉ _)). vm_compute. exact I.
Defined.

Lemma ServeHTTP_dispatch_witness :
  exists m' p, ServeHTTP demo_cfg demo_server demo_get = (m', p) /\ rt_table m' = rt_table demo_server.
Proof.
  assert (Hsm : small_table (rt_table demo_server)).
  { apply (bool_decide_unpack (small_table (rt_table demo_server))). vm_compute. exact I. }
  pose proof (ServeHTTP_dispatch demo_cfg demo_server demo_get) as Hd.
  destruct (ServeHTTP demo_cfg demo_server demo_get) as [m' p]. exists m', p.
  split; [reflexivity|]. by apply Hd; [apply demo_server_ok|].
Defined.

Lemma forwarded_header_values_witness :
  Header_Values (forwarded_header demo_cfg demo_get) "Forwarded" =
    Header_Values (forwarded_header demo_cfg demo_get) "forwarded" /\
  Header_Values (forwarded_header demo_cfg demo_get) "X-Forwarded-Host" = ["h"].
Proof.
  split; [vm_compute; reflexivity|].
  destruct (forwarded_header_values demo_cfg demo_get "X-Forwarded-Host") as [_ Hv].
  - repeat constructor. vm_compute. congruence.
  - rewrite Hv; [vm_compute; reflexivity|]. repeat constructor. vm_compute. congruence.
Defined.

Lemma repeated_entry_stays_routed_witness :
  routed (rt_table (Listen demo_factory (rt_empty : HMux) (batches [demo_site; demo_site] [[demo_site]; []])))
    "h" (URL_String github).
Proof. eapply (repeated_entry_stays_routed demo_factory demo_site). reflexivity. Defined.

Lemma Debug_serves_host_witness :
  exists r', r_Host r' = "h" /\ Path (r_URL r') = "/p/page" /\
    Debug sniff byte_tokens demo_cfg demo_server (get "/h/p/page" "") =
    (let '(m', p) := ServeHTTP demo_cfg demo_server r' in
     (m', with_prefix_writer sniff byte_tokens "" "/h" "" p)).
Proof.
  destruct (Debug_serves_host sniff byte_tokens demo_cfg demo_server (get "/h/p/page" "") "h" "p/page")
    as (r' & H1 & H2 & H3); [reflexivity|vm_compute; reflexivity|].
  exists r'. split; [exact H1|]. split; [exact H2|]. exact H3.
Defined.

Lemma container_comes_and_goes_witness :
  exists url, Parse "http://localhost:8000" = Ok url /\
  let tcp := ("80/tcp", [mk_PortBinding "" "8000"]) in
  let https := ("443/tcp", [mk_PortBinding "" "4430"]) in
  let cont ps := mk_Container ["VIRTUAL_HOST=a.com b.com"; "VIRTUAL_PORT=80"] ps in
  let started := Listen demo_factory (rt_empty : HMux) (convertEvents id
    [(mk_APIEvent "container" "start" "c1", fun _ => Ok (cont [https; tcp]))]) in
  let stopped ps := Listen demo_factory started (convertEvents id
    [(mk_APIEvent "container" "stop" "c1", fun _ => Ok (cont ps))]) in
  (forall route i, routed (rt_table started) route i <->
     (route, i) ∈ (∅ : gset (string * string)) \/ (route ∈ ["a.com"; "b.com"] /\ i = URL_String url)) /\
  (forall route i, routed (rt_table (stopped [tcp; https])) route i <-> (route, i) ∈ (∅ : gset (string * string))) /\
  stopped [] = started.
Proof.
  eexists. split; [vm_compute; reflexivity|]. cbv zeta.
  pose proof (container_comes_and_goes (M := HMux) demo_factory id "c1"
    ["VIRTUAL_HOST=a.com b.com"; "VIRTUAL_PORT=80"] [("443/tcp", [mk_PortBinding "" "4430"]); ("80/tcp", [mk_PortBinding "" "8000"])]
    "80/tcp" (mk_PortBinding "" "8000") []) as Hc.
  edestruct Hc as (Hs & Hb & Hn).
  - apply empty_tracks.
  - right. by left.
  - vm_compute. reflexivity.
  - intros pb Hpb [Hm _]. apply elem_of_cons in Hpb as [->|Hpb]; [vm_compute in Hm; discriminate|].
    apply elem_of_cons in Hpb as [->|Hpb]; [reflexivity|by apply elem_of_nil in Hpb].
  - vm_compute. reflexivity.
  - apply (bool_decide_unpack _). vm_compute. exact I.
  - intros h _. split; [|set_solver]. unfold servable, Factory.Handler.
    destruct (splitHostnameAndPath _). eexists. reflexivity.
  - split; [exact Hs|]. split; [|apply Hn; constructor]. apply Hb. constructor.
Defined.
