(* ===== verification/Registrations.v ===== *)
(** What is up, whatever the events (pkg/server/server.go, [ProcessEvent]): an entry can be
    brought up several times, taken down without being up, or have a target that no handler
    can be made for.  The registrations an entry has are counted; the server serves requests
    by the entries that have one. *)

From S2P Require Import Prelude GoStrings Url Http Routes Config Stream Handlers Factory Server ServerProps.

Local Open Scope go_scope.
Local Open Scope prog_scope.

(** ** Tables *)

Section Tables.
Implicit Types (t : gmap string (list (HandlerFunc * string))) (k : string * string).

(** How many times a key is registered in a table. *)
Definition times (t : gmap string (list (HandlerFunc * string))) k : nat :=
  length (filter (fun id => id = k.2) (default [] (t !! k.1)).*2).

Definition one (b : bool) : nat := if b then 1 else 0.

Lemma times_add t p h id k :
  times (table_add p h id t) k = times t k + one (bool_decide (k = (p, id))).
Proof.
  unfold times, table_add. destruct k as [q id']. cbn [fst snd]. destruct (decide (p = q)) as [->|Hne].
  - rewrite lookup_insert_eq. cbn [default from_option Datatypes.id].
    rewrite fmap_app, filter_app, length_app. f_equal. cbn [fmap list_fmap snd].
    destruct (decide (id = id')) as [->|Hid].
    + rewrite filter_cons_True by done. by rewrite bool_decide_true by done.
    + rewrite filter_cons_False by done. by rewrite bool_decide_false by congruence.
  - rewrite lookup_insert_ne by done. rewrite bool_decide_false by congruence. cbn [length one]. lia.
Qed.

Lemma drop_id_times (l : list (HandlerFunc * string)) (id id' : string) :
  length (filter (fun x => x = id') (drop_id id l).*2) =
  length (filter (fun x => x = id') l.*2) - one (bool_decide (id' = id)).
Proof.
  induction l as [|[h x] l IH]; cbn [drop_id snd]; [done|].
  destruct (String.eqb_spec x id) as [->|Hne]; cbn [fmap list_fmap snd].
  - destruct (decide (id = id')) as [->|Hid].
    + rewrite filter_cons_True by done. rewrite bool_decide_true by done. cbn [length one]. lia.
    + rewrite filter_cons_False by done. rewrite bool_decide_false by congruence. cbn [length one]. lia.
  - destruct (decide (x = id')) as [->|Hid].
    + rewrite !filter_cons_True by done. cbn [length]. rewrite IH. rewrite bool_decide_false by done. cbn [length one]. lia.
    + by rewrite !filter_cons_False by done.
Qed.

Lemma times_remove t p id k :
  times (table_remove p id t) k = times t k - one (bool_decide (k = (p, id))).
Proof.
  unfold times, table_remove. destruct k as [q id']. cbn [fst snd].
  assert (Hone : one (bool_decide ((q, id') = (p, id))) =
    if decide (p = q) then one (bool_decide (id' = id)) else 0).
  { destruct (decide (p = q)) as [->|Hne]; [|rewrite bool_decide_false by congruence; done].
    f_equal. apply bool_decide_ext. naive_solver. }
  rewrite Hone. destruct (t !! p) as [l|] eqn:E.
  - pose proof (drop_id_times l id id') as Hd. destruct (decide (p = q)) as [<-|Hne].
    + rewrite E. destruct (drop_id id l) as [|x l'] eqn:Ed.
      * rewrite lookup_delete_eq. exact Hd.
      * rewrite lookup_insert_eq. exact Hd.
    + rewrite Nat.sub_0_r. destruct (drop_id id l); [rewrite lookup_delete_ne by done|rewrite lookup_insert_ne by done]; done.
  - destruct (decide (p = q)) as [<-|Hne]; rewrite ?E; cbn; lia.
Qed.

Lemma times_routed t k : 0 < times t k <-> routed t k.1 k.2.
Proof.
  unfold times, routed. split.
  - intros Ht. destruct (t !! k.1) as [hs|] eqn:E; [|cbn in Ht; lia]. exists hs. split; [done|].
    cbn [default from_option Datatypes.id] in Ht. destruct (filter _ hs.*2) as [|x l] eqn:Ef; [cbn in Ht; lia|].
    assert (Hx : x ∈ filter (fun id => id = k.2) hs.*2) by (rewrite Ef; by left).
    by apply list_elem_of_filter in Hx as [-> Hx].
  - intros (hs & -> & Hid). cbn [default from_option Datatypes.id].
    assert (Hx : k.2 ∈ filter (fun id => id = k.2) hs.*2) by (by apply list_elem_of_filter).
    destruct (filter _ _); [by apply elem_of_nil in Hx|cbn; lia].
Qed.
End Tables.

(** ** Events *)

Section Registrations.
Context {M : Type} `{RouterLaws HandlerFunc M}.
Context (factory : string -> URL -> result HandlerFunc).
Implicit Types (m : M) (e : ConfigEvent) (events : list ConfigEvent) (k : string * string).

(** An [UP] event adds a registration of its entry if the target can be served, a [DOWN]
    event takes one away if there is one. *)
Definition count_event k (n : nat) e : nat :=
  if decide (entry_key (ce_entry e) = k) then
    if Up e then
      match factory (Hostname (ce_entry e)) (Target (ce_entry e)) with Ok _ => S n | Err _ => n end
    else pred n
  else n.

(** The registrations after some events. *)
Definition registrations events k : nat := fold_left (count_event k) events 0.

Definition up events k : Prop := 0 < registrations events k.

(** An entry that one of the events brings up. *)
Definition brought_up events (route : string) (target : URL) : Prop :=
  mk_ConfigEvent (mk_ConfigEntry route target) true ∈ events.

Lemma ProcessEvent_times m e k :
  rt_ok m -> times (rt_table (ProcessEvent factory m e).1) k = count_event k (times (rt_table m) k) e.
Proof.
  intros Hok. unfold ProcessEvent, count_event. fold (entry_key (ce_entry e)).
  destruct (Up e); cbn [negb].
  - destruct (factory _ _) as [h|err]; cbn [fst]; [|by destruct (decide _)].
    destruct (rt_add_ok m (Hostname (ce_entry e)) h (URL_String (Target (ce_entry e))) Hok) as [_ ->].
    rewrite times_add. fold (entry_key (ce_entry e)). destruct (decide (entry_key (ce_entry e) = k)) as [<-|Hne].
    + rewrite bool_decide_true by done. cbn [one]. lia.
    + rewrite bool_decide_false by done. cbn [one]. lia.
  - cbn [fst]. destruct (rt_remove_ok m (Hostname (ce_entry e)) (URL_String (Target (ce_entry e))) Hok) as [_ ->].
    rewrite times_remove. fold (entry_key (ce_entry e)). destruct (decide (entry_key (ce_entry e) = k)) as [<-|Hne].
    + rewrite bool_decide_true by done. cbn [one]. lia.
    + rewrite bool_decide_false by done. cbn [one]. lia.
Qed.

Lemma ProcessEvent_ok m e : rt_ok m -> rt_ok (ProcessEvent factory m e).1.
Proof.
  intros Hok. unfold ProcessEvent. destruct (negb (Up e)); [by apply rt_remove_ok|].
  destruct (factory _ _); [by apply rt_add_ok|done].
Qed.

(** The mux of a server that has processed the events, in whatever order they came. *)
Definition registered m events : Prop :=
  rt_ok m /\ (forall k, times (rt_table m) k = registrations events k) /\
  made_for factory (brought_up events) (rt_table m).

Lemma registered_empty : registered rt_empty [].
Proof.
  destruct rt_empty_ok as [Hok Ht]. split; [done|]. split; [|apply made_empty].
  intros k. unfold times. rewrite Ht, lookup_empty. done.
Qed.

Lemma registered_event m events e :
  registered m events -> registered (ProcessEvent factory m e).1 (events ++ [e]).
Proof.
  intros (Hok & Ht & Hm). split; [by apply ProcessEvent_ok|]. split.
  - intros k. rewrite ProcessEvent_times, Ht by done. unfold registrations. by rewrite fold_left_app.
  - apply ProcessEvent_made_for; [done| |].
    + eapply made_for_weaken; [|exact Hm]. intros p u Hu. unfold brought_up. apply elem_of_app. by left.
    + intros Hup. unfold brought_up. apply elem_of_app. right. destruct e as [[p u] b]. cbn in *. rewrite Hup. by left.
Qed.

Lemma registered_events m events events' :
  registered m events -> registered (ProcessEvents factory m events') (events ++ events').
Proof.
  revert m events. induction events' as [|e events' IH]; intros m events Hm; [by rewrite app_nil_r|].
  cbn [ProcessEvents]. rewrite (cons_middle e events events'), app_assoc. by apply IH, registered_event.
Qed.

(** A mux with the same table. *)
Lemma registered_same m m' events :
  rt_ok m' -> rt_table m' = rt_table m -> registered m events -> registered m' events.
Proof. intros Hok Ht (_ & Hk & Hm). unfold registered. by rewrite Ht. Qed.

Lemma registered_lookup m events path h m' :
  rt_lookup m path = Return (h, m') -> registered m events -> registered m' events.
Proof.
  intros Hl Hr. destruct (rt_lookup_ok m path (proj1 Hr)) as (res & m1 & Hl' & Hok & Ht).
  rewrite Hl in Hl'. injection Hl' as <- <-. by eapply registered_same.
Qed.

Lemma registered_routed m events route id :
  registered m events -> routed (rt_table m) route id <-> up events (route, id).
Proof. intros (_ & Ht & _). unfold up. rewrite <- Ht. symmetry. apply (times_routed _ (route, id)). Qed.

(** A request is served by what is up. *)
Lemma registered_served m events cfg r :
  registered m events -> small_table (rt_table m) ->
  served_by factory (brought_up events) (up events) cfg r (ServeHTTP cfg m r).2.
Proof.
  intros Hr Hsm. pose proof Hr as (Hok & _ & Hmade). apply routed_served; [done..|].
  intros route id. by apply registered_routed.
Qed.

(** Only what is brought up is up. *)
Lemma up_brought_up events k : up events k -> exists e, e ∈ events /\ Up e = true /\ entry_key (ce_entry e) = k.
Proof.
  unfold up, registrations. induction events as [|e events IH] using rev_ind; [cbn; lia|].
  rewrite fold_left_app. cbn [fold_left]. unfold count_event at 1. intros Hup.
  assert (Hor : 0 < fold_left (count_event k) events 0 \/ (Up e = true /\ entry_key (ce_entry e) = k)).
  { destruct (decide (entry_key (ce_entry e) = k)) as [He|]; [|by left]. destruct (Up e); [by right|left; lia]. }
  destruct Hor as [Hpos|[Hu He]].
  - destruct (IH Hpos) as (e' & Hin & Hrest). exists e'. split; [apply elem_of_app; by left|done].
  - exists e. split; [apply elem_of_app; right; by left|done].
Qed.

(** Where nothing is brought up twice and every target can be served, what is up are the
    active keys. *)
Lemma exact_up_keys events k :
  exact ∅ events -> Forall (fun e => Up e = true -> servable factory (ce_entry e)) events ->
  registrations events k = one (bool_decide (k ∈ apply_events events ∅)).
Proof.
  induction events as [|e events IH] using rev_ind; [done|]. intros He Hs.
  apply exact_app in He as [He [Hn _]]. apply Forall_app in Hs as [Hs [Hse _]%Forall_cons].
  unfold registrations in *. rewrite fold_left_app, apply_events_app. cbn [fold_left apply_events]. rewrite IH by done.
  fold (apply_events events ∅) in *. set (s := apply_events events ∅) in *. unfold count_event, apply_event.
  destruct (decide (entry_key (ce_entry e) = k)) as [<-|Hne]; destruct (Up e).
  - destruct (Hse eq_refl) as [h ->]. rewrite bool_decide_false by auto. by rewrite bool_decide_true by set_solver.
  - rewrite (bool_decide_false (_ ∈ _ ∖ _)) by set_solver. by destruct (bool_decide _).
  - f_equal. apply bool_decide_ext. set_solver.
  - f_equal. apply bool_decide_ext. set_solver.
Qed.
End Registrations.
