(* ===== verification/AutocertProps.v ===== *)
(** Properties of the server with TLS: the certificates a handshake can get under the
    server's host policy, and the answers of the plain HTTP port. *)

From S2P Require Import Prelude GoStrings Url Http Logger Routes Mux MuxProps GoPath FileServer Listing.
From S2P Require Import Handlers HandlersProps Autocert Factory Server ServerProps.

Local Open Scope go_scope.
Local Open Scope prog_scope.

(** ** URLs with a scheme and a plain authority *)

Lemma Cut_none s c : str_elem c s = false -> Cut s c = (s, EmptyString, false).
Proof. intros Hs. unfold Cut. by rewrite (proj2 (IndexByte_None s c)). Qed.

Lemma Cut_at a c t : str_elem c a = false -> Cut (a +:+ str1 c +:+ t) c = (a, t, true).
Proof.
  intros Ha. unfold Cut.
  assert (Hi : IndexByte (str1 c +:+ t) c = Some 0).
  { unfold str1. rewrite sapp_cons. cbn [IndexByte]. by rewrite Ascii.eqb_refl. }
  rewrite IndexByte_app, Hi by done. cbn [fmap option_fmap option_map]. rewrite Nat.add_0_r, stake_app_length.
  f_equal. f_equal. replace (S (String.length a)) with (String.length (a +:+ str1 c))
    by (rewrite slength_app; simpl; lia).
  rewrite sapp_assoc. apply sdrop_app_length.
Qed.

(** The query of a URL is cut off again. *)
Lemma split_query_string a u :
  str_elem "?" a = false ->
  exists force, split_query (a +:+ query_string u) = (a, force, RawQuery u).
Proof.
  intros Ha. unfold query_string. destruct (ForceQuery u || nonempty (RawQuery u)) eqn:Eq.
  - pose proof (Cut_at a "?" (RawQuery u) Ha) as Hc. change "?" with (str1 "?") at 1.
    unfold split_query. destruct (HasSuffix _ "?" && _) eqn:E; [|rewrite Hc; by eexists].
    apply andb_prop in E as [[x Hx]%HasSuffix_spec Hn]. rewrite Hx in *. apply Nat.eqb_eq in Hn.
    rewrite CountByte_app in Hn. change (CountByte "?" "?") with 1 in Hn.
    pose proof (Cut_at x "?" EmptyString (CountByte_0 x "?" ltac:(lia))) as Hc'.
    rewrite sapp_nil_r in Hc'. change (str1 "?") with "?" in Hc'. rewrite Hc' in Hc.
    injection Hc as -> <-. exists true. f_equal. f_equal. rewrite slength_app.
    change (String.length "?") with 1. rewrite Nat.add_sub. apply stake_app_length.
  - apply orb_false_elim in Eq as [_ Eq]. unfold nonempty in Eq. bool_prop. rewrite Eq, sapp_nil_r.
    unfold split_query. destruct (HasSuffix a "?") eqn:E.
    + apply HasSuffix_spec in E as [x ->]. rewrite str_elem_app in Ha. by apply orb_false_elim in Ha as [_ ?].
    + cbn [andb]. rewrite Cut_none by done. by eexists.
Qed.

(** Bytes that may stand in the path of a request line. *)
Definition url_byte (c : ascii) : bool :=
  negb ((byte_val c <? 32)%Z || (byte_val c =? 127)%Z || Ascii.eqb c "#").

Definition path_byte (c : ascii) : bool := url_byte c && negb (Ascii.eqb c "?").

Definition host_byte (c : ascii) : bool := is_alnum c || one_of c "-.".

Lemma str_forall_impl (f g : ascii -> bool) s :
  forallb (fun c => negb (f c) || g c) all_bytes = true -> str_forall f s = true -> str_forall g s = true.
Proof.
  intros Hb. induction s as [|c s IH]; [done|]. cbn [str_forall]. intros [Hc Hs]%andb_prop.
  pose proof (byte_forall _ Hb c) as Hi. cbn beta in Hi. rewrite Hc in Hi. cbn in Hi. by rewrite Hi, IH.
Qed.

Lemma EscapedPath_bytes u : str_forall path_byte (EscapedPath u) = true.
Proof.
  unfold EscapedPath, escaped_form. destruct (negb _ && _ && _) eqn:E.
  - apply andb_prop in E as [[_ E]%andb_prop _]. revert E. generalize (RawPath u) as raw.
    assert (Hb : forall c, negb (one_of c "!$&'()*+,;=:@[]%" || negb (shouldEscape c encodePath)) || path_byte c = true)
      by (apply byte_forall; vm_compute; reflexivity).
    induction raw as [|c raw IH]; [done|]. cbn [validEncoded str_forall]. intros [Hc Hs]%andb_prop.
    specialize (Hb c). rewrite Hc in Hb. cbn [negb orb] in Hb. by rewrite Hb, IH.
  - destruct (mode_is encodePath encodePath && String.eqb (Path u) "*"); [done|].
    assert (Hb : forall c, str_forall path_byte (escape_byte c encodePath) = true)
      by (apply byte_forall; vm_compute; reflexivity).
    generalize (Path u) as p. induction p as [|c p IH]; [done|]. cbn [escape].
    by rewrite str_forall_app, Hb, IH.
Qed.

Lemma url_text_no_ctl s : str_forall url_byte s = true -> stringContainsCTLByte s = false /\ str_elem "#" s = false.
Proof.
  unfold url_byte. induction s as [|c s IH]; [done|]. cbn [str_forall stringContainsCTLByte str_elem].
  intros [Hc Hs]%andb_prop. destruct (IH Hs) as [-> ->]. apply negb_true_iff in Hc. by apply orb_false_elim in Hc as [-> ->].
Qed.

Lemma host_text_no_byte s c : str_forall host_byte s = true -> host_byte c = false -> str_elem c s = false.
Proof. apply printable_no_byte. Qed.

Lemma unescape_host s : str_forall (fun c => host_byte c || Ascii.eqb c ":") s = true -> unescape s encodeHost = Ok s.
Proof.
  assert (Hb : forall c, negb (host_byte c || Ascii.eqb c ":") ||
    (negb (Ascii.eqb c percent_c) && negb (bad_host_byte c encodeHost)) = true)
    by (apply byte_forall; vm_compute; reflexivity).
  induction s as [|c s IH]; [done|]. cbn [str_forall]. intros [Hc Hs]%andb_prop. specialize (Hb c).
  rewrite Hc in Hb. cbn [negb orb] in Hb. bool_prop. rewrite unescape_plain by done.
  rewrite H0, IH by done. by rewrite andb_false_r.
Qed.

Lemma parseHost_unbracketed s :
  HasPrefix s "[" = false ->
  parseHost s = match LastIndexByte s ":" with
                | Some i => if negb (validOptionalPort (str_drop i s)) then Err "invalid port after host"
                            else unescape s encodeHost
                | None => unescape s encodeHost
                end.
Proof.
  intros Hs. destruct s as [|c s]; [done|].
  destruct c as [[] [] [] [] [] [] [] []]; first [reflexivity | exfalso; cbn in Hs; by rewrite HasPrefix_nil in Hs].
Qed.

(** A host with or without a port. *)
Inductive plain_authority : string -> Prop :=
  | plain_host h : str_forall host_byte h = true -> plain_authority h
  | plain_host_port h port :
      str_forall host_byte h = true -> all_digits port = true -> plain_authority (h +:+ ":" +:+ port).

Lemma all_digits_host s : all_digits s = true -> str_forall host_byte s = true.
Proof.
  induction s as [|c s IH]; [done|]. cbn [all_digits str_forall]. intros [Hc Hs]%andb_prop.
  rewrite IH by done. unfold host_byte, is_alnum. by rewrite Hc, !orb_true_r.
Qed.

Lemma host_text_weaken s : str_forall host_byte s = true ->
  str_forall (fun c => host_byte c || Ascii.eqb c ":") s = true.
Proof.
  induction s as [|c s IH]; [done|]. cbn [str_forall]. intros [Hc Hs]%andb_prop. by rewrite Hc, IH.
Qed.

Lemma plain_authority_bytes a :
  plain_authority a -> str_forall (fun c => host_byte c || Ascii.eqb c ":") a = true.
Proof.
  destruct 1 as [h Hh|h port Hh Hp]; [by apply host_text_weaken|].
  by rewrite !str_forall_app, (host_text_weaken h Hh), (host_text_weaken port (all_digits_host _ Hp)).
Qed.

Lemma parseAuthority_plain a : plain_authority a -> parseAuthority a = Ok (None, a).
Proof.
  intros Ha. pose proof (plain_authority_bytes a Ha) as Hb. unfold parseAuthority.
  rewrite LastIndexByte_None by (by eapply printable_no_byte).
  rewrite parseHost_unbracketed, unescape_host by
    (done || (destruct (HasPrefix a "[") eqn:E; [|done]; apply HasPrefix_spec in E as [t ->]; by rewrite str_forall_app in Hb)).
  destruct Ha as [h Hh|h port Hh Hp].
  - by rewrite LastIndexByte_None by (by apply host_text_no_byte).
  - change (":" +:+ port) with (String ":" port).
    rewrite LastIndexByte_last by (by apply host_text_no_byte; [apply all_digits_host|]).
    rewrite sdrop_app_length. cbn [validOptionalPort]. by rewrite Hp, Ascii.eqb_refl.
Qed.

(** ** [https] locations *)

Lemma getScheme_https x : getScheme ("https://" +:+ x) = Ok ("https", "//" +:+ x).
Proof. reflexivity. Qed.

Lemma Parse_https_scheme x u : Parse ("https://" +:+ x) = Ok u -> Scheme u = "https".
Proof.
  assert (Hs : forall x u, parse ("https://" +:+ x) = Ok u -> Scheme u = "https").
  { clear. intros x u. unfold parse. destruct (stringContainsCTLByte _); [done|].
    assert (Hst : String.eqb ("https://" +:+ x) "*" = false) by done.
    rewrite Hst, getScheme_https. cbn [result_bind]. change (ToLower "https") with "https".
    destruct (split_query ("//" +:+ x)) as [[rest force] q].
    destruct (negb (HasPrefix rest "/")); cbn [andb].
    { by intros [= <-]. }
    destruct (_ && HasPrefix rest "//").
    - destruct (split_authority rest) as [authority path].
      destruct (parseAuthority authority) as [[user host]|]; [|done]. cbn [result_bind]. unfold setPath.
      destruct (unescape path encodePath); [|done]. by intros [= <-].
    - unfold setPath. destruct (unescape rest encodePath); [|done]. by intros [= <-]. }
  unfold Parse. pose proof (Cut_app "https://" x "#" eq_refl) as Hc.
  destruct (Cut ("https://" +:+ x) "#") as [[u0 frag] found]. cbn [fst] in Hc. subst u0.
  destruct (parse _) as [url|] eqn:E; [|done]. apply Hs in E. cbn [result_bind].
  destruct (String.eqb frag EmptyString); [by intros [= <-]|]. unfold setFragment.
  destruct (unescape frag encodeFragment); [|done]. by intros [= <-].
Qed.

Lemma redirect_location_https r x : redirect_location r ("https://" +:+ x) = "https://" +:+ x.
Proof.
  unfold redirect_location. destruct (Parse ("https://" +:+ x)) as [u|] eqn:E; [|done].
  by rewrite (Parse_https_scheme x u E).
Qed.

(** An [https] URL with a plain authority is parsed into its parts. *)
Lemma Parse_https_parts a u :
  plain_authority a -> HasPrefix (EscapedPath u) slash = true -> str_forall url_byte (RawQuery u) = true ->
  exists u', Parse ("https://" +:+ a +:+ EscapedPath u +:+ query_string u) = Ok u' /\
    Scheme u' = "https" /\ User u' = None /\ Host u' = a /\ Path u' = Path u /\ RawQuery u' = RawQuery u /\
    Fragment u' = EmptyString.
Proof.
  intros Ha Hp Hq. set (p := EscapedPath u) in *.
  pose proof (plain_authority_bytes a Ha) as Hab. pose proof (EscapedPath_bytes u) as Hpb. fold p in Hpb.
  assert (Hau : str_forall path_byte a = true)
    by (eapply str_forall_impl; [|exact Hab]; vm_compute; reflexivity).
  assert (Hweak : forall s, str_forall path_byte s = true -> str_forall url_byte s = true)
    by (intros s; apply str_forall_impl; vm_compute; reflexivity).
  assert (Hqs : str_forall url_byte (query_string u) = true).
  { unfold query_string. destruct (_ || _); [|done]. by rewrite str_forall_app, Hq. }
  assert (Htext : str_forall url_byte ("https://" +:+ a +:+ p +:+ query_string u) = true)
    by (by rewrite !str_forall_app, (Hweak a Hau), (Hweak p Hpb), Hqs).
  destruct (url_text_no_ctl _ Htext) as [Hctl Hhash].
  unfold Parse. rewrite Cut_none by exact Hhash. unfold parse. rewrite Hctl.
  assert (Hst : forall x, String.eqb ("https://" +:+ x) "*" = false) by done.
  rewrite Hst, getScheme_https. cbn [result_bind]. change (ToLower "https") with "https".
  destruct (split_query_string ("//" +:+ a +:+ p) u) as [force Hsq].
  { rewrite !str_elem_app. by rewrite (printable_no_byte path_byte a), (printable_no_byte path_byte p). }
  change (("//" +:+ a +:+ p) +:+ query_string u) with ("//" +:+ (a +:+ p) +:+ query_string u) in Hsq.
  rewrite <- sapp_assoc in Hsq. rewrite Hsq.
  rewrite HasPrefix_app. change (HasPrefix ("//" +:+ a +:+ p) "/") with true. cbn [negb andb orb String.eqb].
  assert (Hsa : split_authority ("//" +:+ a +:+ p) = (a, p)).
  { unfold split_authority. change (str_drop 2 ("//" +:+ a +:+ p)) with (a +:+ p).
    rewrite IndexByte_app by (by apply (printable_no_byte _ a "/" Hab)).
    apply HasPrefix_spec in Hp as [t ->]. change (IndexByte (slash +:+ t) "/") with (Some 0).
    cbn [fmap option_fmap option_map]. by rewrite Nat.add_0_r, stake_app_length, sdrop_app_length. }
  rewrite Hsa, (parseAuthority_plain a Ha). cbn [result_bind]. unfold setPath, p. rewrite unescape_EscapedPath.
  cbn [result_bind String.eqb]. eexists. split; [reflexivity|]. by repeat (split; [reflexivity|]).
Qed.

Lemma RequestURI_path u :
  Opaque u = EmptyString -> HasPrefix (EscapedPath u) slash = true ->
  RequestURI u = EscapedPath u +:+ query_string u.
Proof.
  intros Ho Hp. unfold RequestURI. rewrite Ho.
  by destruct (EscapedPath u) as [|c p].
Qed.

Lemma stripPort_name h : str_forall host_byte h = true -> stripPort h = h.
Proof.
  intros Hh. unfold stripPort, SplitHostPort.
  by rewrite LastIndexByte_None by (by apply host_text_no_byte).
Qed.

Lemma stripPort_port h port :
  str_forall host_byte h = true -> all_digits port = true -> stripPort (h +:+ ":" +:+ port) = h +:+ ":443".
Proof.
  intros Hh Hp. set (a := h +:+ ":" +:+ port).
  assert (Hb : str_forall (fun c => host_byte c || Ascii.eqb c ":") a = true)
    by (apply plain_authority_bytes; by constructor).
  assert (Hno : forall c, host_byte c || Ascii.eqb c ":" = false -> IndexByte a c = None)
    by (intros c Hc; apply IndexByte_None; by eapply printable_no_byte).
  unfold stripPort, SplitHostPort. unfold a at 1. change (":" +:+ port) with (String ":" port).
  rewrite LastIndexByte_last by (by apply host_text_no_byte; [apply all_digits_host|]).
  assert (Hpre : HasPrefix a "[" = false).
  { destruct (HasPrefix a "[") eqn:E; [|done]. apply HasPrefix_spec in E as [t E]. by rewrite E, str_forall_app in Hb. }
  rewrite Hpre. replace (str_take (String.length h) a) with h by (symmetry; apply stake_app_length).
  cbv zeta.
  assert (Hhc : IndexByte h ":" = None) by (apply IndexByte_None; by apply host_text_no_byte).
  rewrite Hhc. cbn [str_drop]. rewrite !Hno by done. unfold JoinHostPort. by rewrite Hhc.
Qed.

(** ** Certificates *)

Section Certificates.
#[local] Abbreviation HMux := (Mux.Mux HandlerFunc).
Context (ReadFile : string -> result (option string)).
Context (ToASCII : string -> result string) (Quote : string -> string).
Context (decode : certKey -> string -> cert_error + Certificate).
Context (createCert : Manager -> certKey -> Manager * (cert_error + Certificate)).
Context (cfg : ServerConfig).
Implicit Types (m : HMux) (mg : Manager) (hello : ClientHelloInfo).

#[local] Abbreviation manager m := (certManager Mux.ContainsHost ReadFile cfg m).
#[local] Abbreviation cached ck :=
  (cacheGet (mk_ManagerConfig (Some AcceptTOS) (Some (DirCache_Get ReadFile (CertsDir cfg))) None) decode ck).

(** The host policy of the server refuses every host. *)
Lemma hostPolicy_refuses m host :
  Mux.wf m -> hostPolicy (manager m) host = Return (Some ("unknown hostname: " +:+ host)).
Proof. intros Hm. cbn. unfold ValidateHost. by rewrite ContainsHost_false. Qed.

(** A client that wants the certificate of a TLS challenge has no protocol in common with
    the server. *)
Lemma challenge_not_negotiated hello :
  wantsTokenCert hello = true -> exists err, negotiateALPN (next_protos cfg) (SupportedProtos hello) = Err err.
Proof.
  unfold wantsTokenCert. destruct (SupportedProtos hello) as [|p [|]]; [done| |done].
  intros ->%String.eqb_eq. unfold next_protos. destruct (EnableHTTP2 cfg); by eexists.
Qed.

(** What a certificate handed out comes from. *)
Definition stored mg (cert : Certificate) : Prop :=
  exists ck, isToken ck = false /\
    ((exists s, m_state mg !! ck = Some s /\ tlscert s = inr cert) \/ cached ck = inr cert).

Lemma manager_cert_stored m mg ck mg' res :
  isToken ck = false -> manager_cert (manager m) decode mg ck = (mg', res) ->
  (forall cert, res = inr cert -> stored mg cert) /\
  (m_state mg = ∅ -> cached ck = inl ErrCacheMiss -> mg' = mg /\ res = inl ErrCacheMiss).
Proof.
  intros Hck Hmc. unfold manager_cert in Hmc.
  change (cacheGet (manager m) decode ck) with (cached ck) in Hmc.
  destruct (m_state mg !! ck) as [s|] eqn:Es.
  { injection Hmc as <- <-. split; [|intros He; by rewrite He in Es]. intros cert Hc. exists ck. split; [done|].
    left. by exists s. }
  destruct (cached ck) as [err|cert] eqn:Ec; [|destruct (negb (is_Signer cert))]; injection Hmc as <- <-;
    (split; [|intros _ Hm; first [discriminate Hm | by injection Hm as ->]]).
  - done.
  - done.
  - intros cert' [= <-]. exists ck. split; [done|]. by right.
Qed.

(** C13. The certificates of the server.  Whatever calls its multiplexer went through, no
    TLS handshake panics or asks the certificate authority for a certificate: a certificate
    that is handed out was in the manager's memory or in the certificate directory, and with
    nothing in either every handshake is refused and leaves the manager as it was. *)
Theorem certificates_only_from_store os m mg hello :
  MuxProps.run Mux.empty_Mux os = Return m ->
  exists mg' res,
    handshake Mux.ContainsHost ReadFile ToASCII Quote decode createCert cfg m mg hello = Return (mg', [], res) /\
    (forall cert, res = inr cert -> stored mg cert) /\
    (m_state mg = ∅ -> (forall ck, cached ck = inl ErrCacheMiss) -> mg' = mg /\ exists err, res = inl err).
Proof.
  intros Hrun. assert (Hwf : Mux.wf m) by (by eapply reachable_wf).
  unfold handshake. assert (Hfail : forall err : string, exists mg' res,
    Return (mg, [] : list act, inl (CertError err) : cert_error + Certificate) = Return (mg', [], res) /\
    (forall cert, res = inr cert -> stored mg cert) /\
    (m_state mg = ∅ -> (forall ck, cached ck = inl ErrCacheMiss) -> mg' = mg /\ exists err, res = inl err)).
  { intros err. do 2 eexists. split; [done|]. split; [done|]. intros _ _. split; [done|]. by eexists. }
  destruct (negotiateALPN _ _) as [proto|err] eqn:En; [|apply Hfail].
  unfold GetCertificate. cbn [Prompt certManager].
  destruct (String.eqb _ _); [apply Hfail|]. destruct (negb _); [apply Hfail|].
  destruct (ToASCII (ServerName hello)) as [name|]; [|apply Hfail].
  destruct (wantsTokenCert hello) eqn:Ew.
  { destruct (challenge_not_negotiated hello Ew) as [err Herr]. congruence. }
  set (ck := mk_certKey _ _ _). destruct (manager_cert (manager m) decode mg ck) as [mg' res] eqn:Ec.
  destruct (manager_cert_stored m mg ck mg' res eq_refl Ec) as [Hs He].
  destruct res as [[|err]|cert].
  - rewrite hostPolicy_refuses by done. cbn [outcome_bind]. do 2 eexists. split; [done|]. split; [done|].
    intros H1 H2. destruct (He H1 (H2 ck)) as [-> _]. split; [done|]. by eexists.
  - do 2 eexists. split; [done|]. split; [done|]. intros H1 H2. by destruct (He H1 (H2 ck)) as [_ ?].
  - do 2 eexists. split; [done|]. split; [done|]. intros H1 H2. by destruct (He H1 (H2 ck)) as [_ ?].
Qed.
End Certificates.

(** ** The plain HTTP port *)

(** A redirect on a response that has not been started. *)
Lemma exec_http_Redirect r url code input :
  redirect_location r url = url -> (100 <= code <= 999)%Z -> bodyAllowed code = true ->
  let res := exec (http_Redirect r url code) (new_Conn input None) in
  res.1 = Some tt /\ c_status res.2 = Some code /\
  Header_Get (c_sent res.2) "Location" = hexEscapeNonASCII url.
Proof.
  intros Hloc Hcode Hall. cbv zeta. unfold http_Redirect. rewrite Hloc.
  cbn [p_header p_put p_write_header p_write bind exec c_live set_live].
  assert (Hno : bool_decide (is_Some (c_live (new_Conn input None) !! "Content-Type")) = false) by reflexivity.
  rewrite Hno. cbn [negb andb].
  assert (Hsend : forall h (k : prog unit), (forall c, (exec k c).1 = Some tt) ->
    Header_Get h "Location" = hexEscapeNonASCII url -> Header_Get h "Content-Length" = EmptyString ->
    let res := exec (WriteHeader code k) (set_live h (new_Conn input None)) in
    res.1 = Some tt /\ c_status res.2 = Some code /\ Header_Get (c_sent res.2) "Location" = hexEscapeNonASCII url).
  { intros h k Hk Hl Hcl. cbv zeta. cbn [exec].
    destruct (conn_WriteHeader_taking code (set_live h (new_Conn input None))) as (c1 & Hw & Ht & Hs & _); [done..|].
    rewrite Hw. split; [apply Hk|].
    destruct (exec_sent k c1) as [-> ->]; [unfold header_out; by rewrite (taking_status _ _ Ht)|].
    rewrite Hs. by rewrite (taking_status _ _ Ht). }
  set (h0 := Header_Set "Location" (hexEscapeNonASCII url) (c_live (new_Conn input None))).
  assert (Hl0 : Header_Get h0 "Location" = hexEscapeNonASCII url /\ Header_Get h0 "Content-Length" = EmptyString).
  { split; [apply Header_Get_Set|]. by unfold h0; rewrite Header_Get_Set_other. }
  destruct (String.eqb (Method r) "GET" || String.eqb (Method r) "HEAD") eqn:Em;
    cbn [bind exec c_live set_live].
  - apply (Hsend (Header_Set "Content-Type" "text/html; charset=utf-8" h0)).
    + intros c. destruct (String.eqb (Method r) "GET"); [|done]. cbn [p_write bind exec].
      by destruct (conn_Write _ c) as [c' [n e]].
    + rewrite Header_Get_Set_other by done. apply Hl0.
    + rewrite Header_Get_Set_other by done. apply Hl0.
  - apply orb_false_elim in Em as [Em _]. rewrite Em. apply (Hsend h0); [done|apply Hl0..].
Qed.

Section Port.
#[local] Abbreviation HMux := (Mux.Mux HandlerFunc).
Context (ReadFile : string -> result (option string)) (Quote : string -> string) (cfg : ServerConfig).
Context (ua : string -> string * (string * string)).
Implicit Types (m : HMux) (mg : Manager).

(** C14. The plain HTTP port of a server with TLS.  Whatever calls its multiplexer went
    through, no request on this port reaches a site's handler or changes the multiplexer: a
    challenge of the certificate authority is refused with 403, even for a host that is
    routed; any other request is sent to the same URL under https with 302, or answered with
    400 when its method is neither GET nor HEAD. *)
Theorem acme_port_answers os m mg elapsed counter r input :
  MuxProps.run Mux.empty_Mux os = Return m ->
  let '(m', (_, p)) := exchange Mux.ContainsHost ua ReadFile Quote cfg ServeACME m mg elapsed counter r in
  let c := (exec p (new_Conn input None)).2 in
  m' = m /\
  if HasPrefix (Path (r_URL r)) challenge_prefix
  then c_status c = Some 403%Z /\ c_body c = "unknown hostname: " +:+ r_Host r +:+ str1 "010"
  else if String.eqb (Method r) "GET" || String.eqb (Method r) "HEAD"
  then c_status c = Some 302%Z /\ Header_Get (c_sent c) "Location" = hexEscapeNonASCII (https_target r)
  else c_status c = Some 400%Z /\ c_body c = "Use HTTPS" +:+ str1 "010".
Proof.
  intros Hrun. assert (Hwf : Mux.wf m) by (by eapply reachable_wf).
  unfold exchange, serves. set (handler := HTTPHandler _ _ mg None).
  pose proof (LoggerMiddleware_conn ua (fun _ => handler r) elapsed counter r (new_Conn input None)) as Hl.
  destruct (LoggerMiddleware _ _ _ _ _) as [counter' p]. cbn [snd] in Hl. split; [done|]. rewrite Hl. clear Hl.
  assert (Herr : forall msg code, (100 <= code <= 999)%Z -> bodyAllowed code = true ->
    let c := (exec (http_Error msg code) (new_Conn input None)).2 in
    c_status c = Some code /\ c_body c = msg +:+ str1 "010").
  { intros msg code Hc Ha. destruct (exec_http_Error msg code (new_Conn input None)) as (_ & Hs & Hb & _);
      [done..|]. by rewrite sapp_nil_l in Hb. }
  unfold handler, HTTPHandler. destruct (HasPrefix (Path (r_URL r)) challenge_prefix); cbn [negb].
  - rewrite hostPolicy_refuses by done. cbn [p_outcome bind]. rewrite sapp_assoc. by apply Herr.
  - unfold handleHTTPRedirect. destruct (String.eqb (Method r) "GET") eqn:E1; cbn [negb andb orb].
    { by apply exec_http_Redirect; [apply redirect_location_https|..]. }
    destruct (String.eqb (Method r) "HEAD") eqn:E2; cbn [negb].
    { by apply exec_http_Redirect; [apply redirect_location_https|..]. }
    by apply Herr.
Qed.
End Port.

(** The redirect to https addresses the same resource: for a host name with or without
    a port and a request line's path and query, the location parses as an https URL of the
    same host name, on the standard port, with the request's path and query. *)
Theorem https_redirect_same_resource r h :
  str_forall host_byte h = true ->
  Opaque (r_URL r) = EmptyString -> HasPrefix (EscapedPath (r_URL r)) slash = true ->
  str_forall url_byte (RawQuery (r_URL r)) = true ->
  forall port : option string,
  r_Host r = match port with Some p => h +:+ ":" +:+ p | None => h end ->
  match port with Some p => all_digits p = true | None => True end ->
  exists u, Parse (https_target r) = Ok u /\ Scheme u = "https" /\ User u = None /\
    Host u = match port with Some _ => h +:+ ":443" | None => h end /\
    Path u = Path (r_URL r) /\ RawQuery u = RawQuery (r_URL r) /\ Fragment u = EmptyString.
Proof.
  intros Hh Ho Hp Hq port Hhost Hport. unfold https_target. rewrite RequestURI_path, Hhost by done.
  destruct port as [p|].
  - rewrite stripPort_port by done. apply Parse_https_parts; [|done..].
    change ":443" with (":" +:+ "443"). by constructor.
  - rewrite stripPort_name by done. apply Parse_https_parts; [by constructor|done..].
Qed.

(** ** Witnesses *)

#[local] Abbreviation HMux := (Mux.Mux HandlerFunc).

Definition demo_ops : list (@op HandlerFunc) := [OpAdd "a.com" (fun _ => Ret tt) "http://localhost:80"].
Definition demo_mux : HMux := Mux.Add Mux.empty_Mux "a.com" (fun _ => Ret tt) "http://localhost:80".
Definition demo_hello : ClientHelloInfo := mk_Hello "a.com" ["h2"; "http/1.1"] None None [].
Definition tls_cfg : ServerConfig := mk_ServerConfig "config" "certs" false false true [] [] "".
Definition no_files (name : string) : result (option string) := Ok None.
Definition no_cert (ck : certKey) (data : string) : cert_error + Certificate := inl ErrCacheMiss.
Definition refusing_CA (mg : Manager) (ck : certKey) : Manager * (cert_error + Certificate) :=
  (mg, inl (CertError "refused")).

Lemma certificates_only_from_store_witness :
  exists res, handshake Mux.ContainsHost no_files Ok id no_cert refusing_CA tls_cfg demo_mux new_Manager demo_hello =
    Return (new_Manager, [], res) /\ exists err, res = inl err.
Proof.
  destruct (certificates_only_from_store no_files Ok id no_cert refusing_CA tls_cfg demo_ops demo_mux
    new_Manager demo_hello eq_refl) as (mg' & res & Hh & _ & Hn).
  destruct Hn as [-> He]; [reflexivity|intros ck; reflexivity|]. exists res. split; [exact Hh|exact He].
Defined.

Lemma acme_port_answers_witness :
  let answer path :=
    let '(_, (_, p)) := exchange Mux.ContainsHost (fun _ => ("", ("", ""))) no_files id tls_cfg ServeACME demo_mux
      new_Manager "0" 0 (mk_Request "GET" (set_Paths path "" empty_URL) ∅ "a.com" "1.2.3.4:5") in
    (exec p (new_Conn "" None)).2 in
  c_status (answer "/.well-known/acme-challenge/token") = Some 403%Z /\
  c_status (answer "/page") = Some 302%Z /\
  Header_Get (c_sent (answer "/page")) "Location" = "https://a.com/page".
Proof.
  cbv zeta.
  pose proof (fun path => acme_port_answers no_files id tls_cfg (fun _ => ("", ("", ""))) demo_ops demo_mux
    new_Manager "0" 0 (mk_Request "GET" (set_Paths path "" empty_URL) ∅ "a.com" "1.2.3.4:5") "" eq_refl) as Ha.
  split; [exact (proj1 (proj2 (Ha "/.well-known/acme-challenge/token")))|]. exact (proj2 (Ha "/page")).
Defined.

Lemma https_redirect_same_resource_witness :
  exists u, Parse (https_target (mk_Request "GET" (set_RawQuery "q=1" (set_Paths "/a b" "" empty_URL)) ∅
      "a.com:80" "1.2.3.4:5")) = Ok u /\ Scheme u = "https" /\ User u = None /\
    Host u = "a.com:443" /\ Path u = "/a b" /\ RawQuery u = "q=1" /\ Fragment u = EmptyString.
Proof.
  apply (https_redirect_same_resource (mk_Request "GET" (set_RawQuery "q=1" (set_Paths "/a b" "" empty_URL)) ∅
    "a.com:80" "1.2.3.4:5") "a.com" eq_refl eq_refl eq_refl eq_refl (Some "80")); reflexivity.
Defined.
