(* ===== verification/Continuity.v ===== *)
(** What requests see while the configuration changes: a change of the configuration is
    processed event by event, with requests in between; and a route that was left behind by
    batches out of order ([ConfigProps.delivery_can_reorder]) is not taken away again by versions
    that do not repeat it. *)

From S2P Require Import Prelude GoStrings Url Http Routes Mux MuxProps Config ConfigProps.
From S2P Require Import Stream Handlers HandlersProps Remote Factory Server ServerProps Registrations.

Local Open Scope go_scope.
Local Open Scope prog_scope.

Section Continuity.
Context {M : Type} `{RouterLaws HandlerFunc M}.
Context (factory : string -> URL -> result HandlerFunc).
Implicit Types (m : M) (events : list ConfigEvent) (k : string * string).

#[local] Abbreviation process := (ProcessEvents factory).
#[local] Abbreviation listen := (Listen factory).

(** ** Registrations after a change *)

(** How many times a key occurs in a version. *)
Definition occurrences (l : list ConfigEntry) k : nat := length (filter (fun k' => k' = k) (entry_key <$> l)).

(** The entries with a key can be served. *)
Definition servable_key (l : list ConfigEntry) k : Prop := forall e : ConfigEntry, e ∈ l -> entry_key e = k -> servable factory e.

Lemma occurrences_cons (e : ConfigEntry) l k :
  occurrences (e :: l) k = (if decide (entry_key e = k) then 1 else 0) + occurrences l k.
Proof.
  unfold occurrences. cbn [fmap list_fmap]. destruct (decide (entry_key e = k)) as [He|He].
  - by rewrite filter_cons_True.
  - by rewrite filter_cons_False.
Qed.

Lemma occurrences_pos (l : list ConfigEntry) k : 0 < occurrences l k <-> k ∈ entry_keys l.
Proof.
  induction l as [|e l IH]; [cbn; split; [lia|set_solver]|]. rewrite occurrences_cons, elem_of_entry_keys.
  cbn [fmap list_fmap]. rewrite elem_of_cons, <- elem_of_entry_keys, <- IH. destruct (decide _); split; naive_solver lia.
Qed.

Lemma occurrences_zero (l : list ConfigEntry) k : k ∉ entry_keys l -> occurrences l k = 0.
Proof. rewrite <- occurrences_pos. lia. Qed.

Lemma count_ups (l : list ConfigEntry) k n :
  servable_key l k -> fold_left (count_event factory k) (toEvents l true) n = n + occurrences l k.
Proof.
  revert n. induction l as [|e l IH]; intros n Hs; [cbn; lia|]. rewrite occurrences_cons.
  change (toEvents (e :: l) true) with (mk_ConfigEvent e true :: toEvents l true). cbn [fold_left].
  rewrite IH by (intros e' He'; apply Hs; by right). unfold count_event. cbn [ce_entry Up].
  destruct (decide (entry_key e = k)) as [He|He]; [|lia]. destruct (Hs e ltac:(by left) He) as [h ->]. lia.
Qed.

Lemma count_downs (l : list ConfigEntry) k n :
  fold_left (count_event factory k) (toEvents l false) n = n - occurrences l k.
Proof.
  revert n. induction l as [|e l IH]; intros n; [cbn; lia|]. rewrite occurrences_cons.
  change (toEvents (e :: l) false) with (mk_ConfigEvent e false :: toEvents l false). cbn [fold_left].
  rewrite IH. unfold count_event. cbn [ce_entry Up]. destruct (decide _); lia.
Qed.

(** Bringing entries up takes nothing away. *)
Lemma count_ups_le (l : list ConfigEntry) k n : n <= fold_left (count_event factory k) (toEvents l true) n.
Proof.
  revert n. induction l as [|e l IH]; intros n; [done|].
  change (toEvents (e :: l) true) with (mk_ConfigEvent e true :: toEvents l true). cbn [fold_left].
  etransitivity; [|apply IH]. unfold count_event. cbn [ce_entry Up].
  destruct (decide _); [|lia]. destruct (factory _ _); lia.
Qed.

Lemma occurrences_not_contained (other l : list ConfigEntry) k :
  occurrences (not_contained other l) k = if decide (k ∈ entry_keys other) then 0 else occurrences l k.
Proof.
  induction l as [|e l IH]; [by destruct (decide _)|]. cbn [not_contained].
  pose proof (entries_contains_spec other e) as Hc. rewrite <- elem_of_entry_keys in Hc. rewrite occurrences_cons.
  destruct (entries_contains other e); cbn [negb]; rewrite ?occurrences_cons, IH;
    destruct (decide (k ∈ entry_keys other)) as [Hk|Hk], (decide (entry_key e = k)) as [<-|He]; try done.
  - by destruct Hk; apply Hc.
  - by apply Hc in Hk.
Qed.

Lemma count_change (prev new : list ConfigEntry) k n :
  servable_key new k ->
  fold_left (count_event factory k) (change_events prev new) n =
  n + (if decide (k ∈ entry_keys prev) then 0 else occurrences new k) -
      (if decide (k ∈ entry_keys new) then 0 else occurrences prev k).
Proof.
  intros Hs. unfold change_events, getConfigChange. rewrite fold_left_app, count_ups, count_downs.
  - by rewrite !occurrences_not_contained.
  - intros e [He _]%elem_of_not_contained. by apply Hs.
Qed.

(** ** In the middle of an update *)

(** New entries are brought up before old ones are taken down. *)
Lemma change_split (prev new : list ConfigEntry) (l1 l2 : list ConfigEvent) :
  change_events prev new = l1 ++ l2 ->
  (exists u, l1 = toEvents u true /\ u `prefix_of` not_contained prev new) \/
  (exists d, l1 = toEvents (not_contained prev new) true ++ toEvents d false /\ d `prefix_of` not_contained new prev).
Proof.
  unfold change_events, getConfigChange. intros [(l & Hu & _)|(l & Hu & Hd)]%app_eq_inv.
  - left. unfold toEvents in Hu. apply fmap_app_inv in Hu as (u1 & u2 & -> & _ & ->). exists u1.
    split; [done|]. by exists u2.
  - right. unfold toEvents in Hd. apply fmap_app_inv in Hd as (d1 & d2 & -> & _ & ->). exists d1.
    split; [done|]. by exists d2.
Qed.

(** What was up stays up while entries are added, and of what the new version has, what was up
    or is new and can be served is up when they have been added. *)
Lemma change_keeps (prev new : list ConfigEntry) (l1 l2 : list ConfigEvent) events k1 (e2 : ConfigEntry) :
  change_events prev new = l1 ++ l2 -> up factory events k1 -> e2 ∈ new ->
  up factory events (entry_key e2) \/ ((entry_key e2 ∉ entry_keys prev) /\ servable factory e2) ->
  up factory (events ++ l1) k1 \/ up factory (events ++ l1) (entry_key e2).
Proof.
  intros Hl H1 Hin H2. unfold up, registrations in *.
  setoid_rewrite fold_left_app. destruct (change_split _ _ _ _ Hl) as [(u & -> & _)|(d & -> & Hd)].
  - left. pose proof (count_ups_le u k1 (fold_left (count_event factory k1) events 0)). lia.
  - right. rewrite fold_left_app, count_downs.
    assert (H0d : occurrences d (entry_key e2) = 0).
    { destruct (occurrences d (entry_key e2)) as [|n] eqn:E; [done|]. exfalso.
      assert (Hk : entry_key e2 ∈ entry_keys d) by (apply occurrences_pos; lia).
      apply elem_of_entry_keys, list_elem_of_fmap in Hk as (e & Hk & He).
      assert (He' : e ∈ not_contained new prev) by (destruct Hd as [d' ->]; apply elem_of_app; by left).
      apply elem_of_not_contained in He' as [_ He']. apply He'. rewrite <- Hk. by apply list_elem_of_fmap_2. }
    rewrite H0d, Nat.sub_0_r. destruct H2 as [H2|[Hn [h Hh]]].
    + pose proof (count_ups_le (not_contained prev new) (entry_key e2) (fold_left (count_event factory (entry_key e2)) events 0)). lia.
    + assert (He : e2 ∈ not_contained prev new) by (apply elem_of_not_contained; by rewrite <- elem_of_entry_keys).
      apply list_elem_of_split in He as (u1 & u2 & ->). unfold toEvents. rewrite fmap_app, fold_left_app. cbn [fmap list_fmap fold_left].
      fold (toEvents u1 true) (toEvents u2 true). eapply Nat.lt_le_trans; [|apply count_ups_le].
      unfold count_event at 1. cbn [ce_entry Up]. rewrite decide_True, Hh by done. lia.
Qed.

Lemma up_app events (l : list ConfigEvent) k :
  up factory (events ++ l) k -> up factory events k \/ exists e, e ∈ l /\ Up e = true /\ entry_key (ce_entry e) = k.
Proof.
  induction l as [|e l IH] using rev_ind; [rewrite app_nil_r; by left|]. rewrite app_assoc.
  unfold up at 1, registrations. rewrite fold_left_app. cbn [fold_left]. unfold count_event at 1. intros Hup.
  assert (Hor : up factory (events ++ l) k \/ (Up e = true /\ entry_key (ce_entry e) = k)).
  { unfold up, registrations. destruct (decide (entry_key (ce_entry e) = k)) as [He|]; [|by left].
    destruct (Up e); [by right|left; lia]. }
  destruct Hor as [Hor|[Hu He]]; [destruct (IH Hor) as [?|(e' & He' & Hrest)]; [by left|right; exists e'; set_solver]|].
  right. exists e. set_solver.
Qed.

(** C10. An update interrupts nothing.  A server routes entries of one version of the
    configuration and processes the change to another, any version: then, after any number
    of the events, a request is handed to a handler made for an entry of one of the two, if it
    is covered by an entry that was up before and by one of the new version that was up too or
    that is new and has a target that can be served.  New entries are routed before old ones
    are taken away, so that a host whose target changes is never without one.  (No route has
    2^32 handlers.) *)
Theorem update_without_outage cfg (prev new : list ConfigEntry) m events r (l1 l2 : list ConfigEvent) :
  registered factory m events -> (forall k, up factory events k -> k ∈ entry_keys prev) ->
  change_events prev new = l1 ++ l2 -> small_table (rt_table (process m l1)) ->
  let path := r_Host r +:+ Path (r_URL r) in
  (exists e : ConfigEntry, route_match (Hostname e) path = true /\ up factory events (entry_key e)) ->
  (exists e : ConfigEntry, e ∈ new /\ route_match (Hostname e) path = true /\
     (up factory events (entry_key e) \/ ((entry_key e ∉ entry_keys prev) /\ servable factory e))) ->
  exists (e : ConfigEntry) target h, (e ∈ prev \/ e ∈ new) /\ route_match (Hostname e) path = true /\
    URL_String target = URL_String (Target e) /\ factory (Hostname e) target = Ok h /\
    (ServeHTTP cfg (process m l1) r).2 = (let* r := updateHeaders cfg r in h r).
Proof.
  intros Hm Hprev Hl Hsm path (e1 & Hm1 & Hu1) (e2 & He2 & Hm2 & Hu2).
  pose proof (registered_events factory m events l1 Hm) as Hm'.
  destruct (registered_served factory _ _ cfg r Hm' Hsm) as [(route & target & h & _ & Hk & Hb & _ & Hh & Hp)|[Hnone _]].
  - assert (He : exists e : ConfigEntry, (e ∈ prev \/ e ∈ new) /\ entry_key e = (route, URL_String target)).
    { apply up_app in Hk as [Hk|(e & He & Hup & Hk)].
      - apply Hprev, elem_of_entry_keys, list_elem_of_fmap in Hk as (e & -> & He). exists e. split; [by left|done].
      - exists (ce_entry e). split; [right|done].
        assert (Hev : e ∈ change_events prev new) by (rewrite Hl; set_solver).
        unfold change_events, getConfigChange, toEvents in Hev. rewrite elem_of_app, !list_elem_of_fmap in Hev.
        destruct Hev as [(e' & -> & [He' _]%elem_of_not_contained)|(e' & -> & _)]; [exact He'|discriminate Hup]. }
    destruct He as (e & He & [= <- Hid]). exists e, target, h. by repeat (split; [done|]).
  - exfalso. destruct (change_keeps prev new l1 l2 events (entry_key e1) e2 Hl Hu1 He2 Hu2) as [Hu|Hu];
      specialize (Hnone _ _ Hu); fold path in Hnone; congruence.
Qed.

(** ** Routes left behind *)

(** A version has the entry at most once, and its target can be served. *)
Definition once k (l : list ConfigEntry) : Prop := occurrences l k <= 1 /\ servable_key l k.

(** What is registered of a key beyond the version in force stays: later versions add and
    take away only what they know of. *)
Lemma left_behind_stays (versions : list (list ConfigEntry)) (prev : list ConfigEntry) k n (extra : nat) :
  occurrences prev k <= 1 -> Forall (once k) versions -> n = extra + occurrences prev k ->
  fold_left (count_event factory k) (concat (later_batches prev versions)) n =
    extra + occurrences (current prev versions) k.
Proof.
  revert prev n. induction versions as [|new versions IH]; intros prev n Hp Hv Ht; [done|].
  apply Forall_cons in Hv as [[Hn Hs] Hv]. cbn [later_batches concat]. rewrite fold_left_app.
  change (current prev (new :: versions)) with (current new versions). apply IH; [done..|].
  rewrite count_change by done. subst n.
  destruct (decide (k ∈ entry_keys prev)) as [Hkp|Hkp], (decide (k ∈ entry_keys new)) as [Hkn|Hkn];
    [apply occurrences_pos in Hkp, Hkn|apply occurrences_pos in Hkp; apply occurrences_zero in Hkn|
     apply occurrences_zero in Hkp; apply occurrences_pos in Hkn|apply occurrences_zero in Hkp, Hkn]; lia.
Qed.

Lemma Listen_concat (bs : list (list ConfigEvent)) m : listen m bs = process m (concat bs).
Proof.
  revert m. induction bs as [|b bs IH]; intros m; [done|]. cbn [Listen concat]. rewrite IH. clear IH.
  revert m. induction b as [|e b IH]; intros m; [done|]. apply IH.
Qed.

(** C21. Two batches delivered in the opposite order ([ConfigProps.delivery_can_reorder])
    leave a route behind for good: an entry that the first version added and the second took
    away again is routed afterwards, and later versions of the configuration never take it
    away, also when they add the entry again and take it away again, as long as they have it
    once at most and its target can be served (a version that repeats the entry can take it
    away when it goes). *)
Theorem reordered_update_leaves_route (prev v1 v2 : list ConfigEntry) (versions : list (list ConfigEntry)) m events k :
  registered factory m events -> ~ up factory events k ->
  k ∈ entry_keys v1 -> k ∉ entry_keys prev -> k ∉ entry_keys v2 ->
  servable_key v1 k -> Forall (once k) versions ->
  let m' := listen m (change_events v1 v2 :: change_events prev v1 :: later_batches v2 versions) in
  routed (rt_table m') k.1 k.2.
Proof.
  intros Hm Hn Hk1 Hkp Hk2 Hs1 Hv. cbv zeta. rewrite Listen_concat.
  destruct k as [route id]. cbn [fst snd].
  apply (registered_routed factory _ _ _ _ (registered_events factory m events _ Hm)).
  unfold up, registrations in *. rewrite fold_left_app. set (n := fold_left _ events 0) in *.
  assert (n = 0) as -> by lia. cbn [concat]. rewrite !fold_left_app.
  assert (Hno : servable_key v2 (route, id)).
  { intros e He Hk. exfalso. apply Hk2, elem_of_entry_keys. rewrite <- Hk. by apply list_elem_of_fmap_2. }
  rewrite !count_change by done. rewrite !(decide_True _ _ Hk1), !(decide_False _ _ Hkp), !(decide_False _ _ Hk2).
  apply occurrences_pos in Hk1. pose proof (occurrences_zero v2 _ Hk2) as H2.
  rewrite (left_behind_stays versions v2 (route, id) _ (occurrences v1 (route, id))); [lia|lia|done|lia].
Qed.
End Continuity.

(** ** Witnesses *)

#[local] Abbreviation HMux := (Mux.Mux HandlerFunc).

#[local] Abbreviation demo_factory :=
  (Factory.Handler demo_deps no_session no_sftp (NewHandlerFactory None)).

(** The target of [h] changes. *)
Definition site_new : list ConfigEntry := [mk_ConfigEntry "h" backend].

Definition site_old : list ConfigEntry := [demo_site].

Definition site_mux : HMux := ProcessEvents demo_factory rt_empty (toEvents site_old true).

Lemma site_registered : registered demo_factory site_mux (toEvents site_old true).
Proof. apply (registered_events demo_factory rt_empty []), registered_empty. Qed.

Lemma update_without_outage_witness :
  exists (e : ConfigEntry) target h, (e ∈ site_old \/ e ∈ site_new) /\ route_match (Hostname e) "h/p/page" = true /\
    URL_String target = URL_String (Target e) /\ demo_factory (Hostname e) target = Ok h /\
    (ServeHTTP demo_cfg (ProcessEvents demo_factory site_mux (toEvents site_new true)) demo_get).2 =
      (let* r := updateHeaders demo_cfg demo_get in h r).
Proof.
  apply (update_without_outage demo_factory demo_cfg site_old site_new site_mux (toEvents site_old true) demo_get
    (toEvents site_new true) (toEvents site_old false) site_registered).
  - intros k (e & He & _ & <-)%up_brought_up. apply list_elem_of_singleton in He as ->.
    apply (bool_decide_unpack _). vm_compute. exact I.
  - reflexivity.
  - apply (bool_decide_unpack (small_table _)). vm_compute. exact I.
  - exists demo_site. split; [vm_compute; reflexivity|]. apply Nat.ltb_lt. vm_compute. reflexivity.
  - exists (mk_ConfigEntry "h" backend). split; [by left|]. split; [vm_compute; reflexivity|]. right.
    split; [apply (bool_decide_unpack (_ ∉ _)); vm_compute; exact I|]. eexists. reflexivity.
Defined.

Lemma reordered_update_leaves_route_witness :
  let changes := change_events site_new [] :: change_events [] site_new :: later_batches [] [site_new; []] in
  routed (rt_table (Listen demo_factory (rt_empty : HMux) changes)) "h" (URL_String backend).
Proof.
  assert (Hs : servable_key demo_factory site_new ("h", URL_String backend)).
  { intros e He _. apply list_elem_of_singleton in He as ->. eexists. reflexivity. }
  apply (reordered_update_leaves_route demo_factory [] site_new [] [site_new; []] (rt_empty : HMux) []
    ("h", URL_String backend)).
  - apply registered_empty.
  - unfold up. cbn. lia.
  - apply (bool_decide_unpack _). vm_compute. exact I.
  - apply (bool_decide_unpack (_ ∉ _)). vm_compute. exact I.
  - apply (bool_decide_unpack (_ ∉ _)). vm_compute. exact I.
  - exact Hs.
  - constructor; [split; [|exact Hs]; vm_compute; lia|]. constructor; [|constructor].
    split; [vm_compute; lia|]. by intros e He%elem_of_nil.
Defined.
