(* ===== verification/Balance.v ===== *)
(** Load balancing from the configuration to the requests: pkg/mux/mux.go under
    pkg/server/server.go.  A history of a server is a sequence of configuration events and
    requests; after any of them, as many requests for a path as its route has registrations
    reach each of these once. *)

From S2P Require Import Prelude GoStrings Url Http Routes Mux MuxProps Config Stream.
From S2P Require Import Handlers HandlersProps Remote Factory Server ServerProps Registrations.

Local Open Scope go_scope.
Local Open Scope prog_scope.

Import Mux.

(** ** Counters *)

Section Counters.
Context {H : Type}.
Implicit Types (m : Mux H) (e : muxEntry H) (path id : string).

(** No entry has counted more than [k] lookups. *)
Definition counted (k : Z) m : Prop := Forall (fun e => (0 <= e_next e <= k)%Z) (m_heap m).

Lemma deref_counted k m l :
  (0 <= k)%Z -> counted k m -> (0 <= e_next (deref (m_heap m) l) <= k)%Z.
Proof.
  intros Hk Hc. unfold deref. destruct (m_heap m !! l) as [e|] eqn:E; cbn; [|lia].
  unfold counted in Hc. rewrite Forall_lookup in Hc. by eapply Hc.
Qed.

Lemma Add_counted k m path h id : (0 <= k)%Z -> counted k m -> counted k (Add m path h id).
Proof.
  intros Hk Hc. unfold Add. destruct (m_entryMap m !! path) as [l|].
  - apply Forall_insert; [done|]. cbn. by apply deref_counted.
  - assert (Hn : counted k (mk_Mux (m_heap m ++ [entry_add (new_entry path) h id]) [] ∅)).
    { apply Forall_app. split; [done|]. constructor; [|constructor]. cbn. lia. }
    by destruct (insert_pos _ _).
Qed.

Lemma Remove_counted k m path id : (0 <= k)%Z -> counted k m -> counted k (Remove m path id).
Proof.
  intros Hk Hc. unfold Remove. destruct (m_entryMap m !! path) as [l|]; [|done].
  apply Forall_insert; [done|]. cbn. by apply deref_counted.
Qed.

Lemma Handler_counted k m path h m' :
  wf m -> (0 <= k)%Z -> counted k m -> Handler m path = Return (h, m') -> counted (k + 1) m'.
Proof.
  intros Hwf Hk Hc Hh. assert (Hc' : counted (k + 1) m).
  { eapply Forall_impl; [exact Hc|]. cbn. intros e He. lia. }
  pose proof (Handler_select m path Hwf) as Hs. destruct (select m path) as [l|].
  - destruct Hs as (e & x & _ & _ & _ & _ & _ & Hs). rewrite Hs in Hh. injection Hh as _ <-.
    apply Forall_insert; [done|]. cbn. pose proof (deref_counted k m l Hk Hc) as He. unfold u32_add, u32_wrap.
    pose proof (Z.mod_le (e_next (deref (m_heap m) l) + 1) (2 ^ 32) ltac:(lia) ltac:(lia)).
    pose proof (Z.mod_pos_bound (e_next (deref (m_heap m) l) + 1) (2 ^ 32) ltac:(lia)). lia.
  - rewrite Hs in Hh. by injection Hh as _ <-.
Qed.

Lemma table_nonempty m p : wf m -> table m !! p = Some [] -> False.
Proof.
  intros Hwf. rewrite table_lookup. destruct (m_entryMap m !! p) as [l|] eqn:E; [|done].
  destruct (wf_map m Hwf p l E) as (e & He & _ & Hne). cbn. rewrite (deref_lookup _ _ _ He).
  intros [= Hn]. by apply fmap_nil_inv in Hn.
Qed.

(** A path whose route has [n] handlers, on a mux that has not answered too many requests. *)
Lemma serve_balanced k m path :
  wf m -> small_table (table m) -> (0 <= k)%Z -> counted k m ->
  (exists p, p ∈ dom (table m) /\ route_match p path = true) ->
  exists route hs, best_route (table m) path route /\ table m !! route = Some hs /\
    ((k + Z.of_nat (length hs) < 2 ^ 32)%Z ->
     exists picked m', serve (length hs) m path = Return (Some <$> picked, m') /\ picked ≡ₚ hs.*1).
Proof.
  intros Hwf Hsm Hk Hc (p & Hp & Hm). pose proof (Handler_select m path Hwf) as Hs.
  destruct (select m path) as [l|] eqn:Hsel.
  2:{ by rewrite (Handler_none m path m Hwf Hsm Hs p Hp) in Hm. }
  destruct Hs as (e & x & Hl & He & _ & Hlv & _). exists (e_path e), (pair_of <$> e_handlers e).
  split; [by eapply select_best|]. split; [by apply (live_table m l)|]. rewrite length_fmap. intros Hn.
  assert (Hok : entry_ok e) by (pose proof (wf_heap m Hwf) as Hh; rewrite Forall_lookup in Hh; by eapply Hh).
  assert (Hnext : (0 <= e_next e <= k)%Z) by (unfold counted in Hc; rewrite Forall_lookup in Hc; by eapply Hc).
  destruct (serve_tickets (length (e_handlers e)) m path l e Hwf Hsel He) as [m' Hm'].
  rewrite tickets_rotate in Hm' by (apply Hok || (left; lia) || lia).
  do 2 eexists. split; [exact Hm'|]. rewrite <- list_fmap_compose.
  unfold rotate. rewrite Permutation_app_comm. by rewrite take_drop.
Qed.
End Counters.

(** ** Histories of a server *)

Section Histories.
Context (factory : string -> URL -> result HandlerFunc) (cfg : ServerConfig).
#[local] Abbreviation HMux := (Mux.Mux HandlerFunc).
Implicit Types (m : HMux) (path : string).

Inductive action := Event (e : ConfigEvent) | Serve (r : Request).

Definition act m (a : action) : HMux :=
  match a with
  | Event e => (ProcessEvent factory m e).1
  | Serve r => (ServeHTTP cfg m r).1
  end.

Definition after m (acts : list action) : HMux := fold_left act acts m.

Definition events_of (acts : list action) : list ConfigEvent :=
  omap (fun a => match a with Event e => Some e | Serve _ => None end) acts.

Definition requests_of (acts : list action) : list Request :=
  omap (fun a => match a with Event _ => None | Serve r => Some r end) acts.

(** Requests answered one after the other. *)
Fixpoint serve_requests m (rs : list Request) : HMux * list (prog unit) :=
  match rs with
  | [] => (m, [])
  | r :: rs =>
      let '(m, p) := ServeHTTP cfg m r in
      let '(m, ps) := serve_requests m rs in
      (m, p :: ps)
  end.

Lemma ServeHTTP_lookup m r :
  wf m -> exists h m', Handler m (r_Host r +:+ Path (r_URL r)) = Return (h, m') /\
    wf m' /\ table m' = table m /\ (ServeHTTP cfg m r).1 = m'.
Proof.
  intros Hwf. destruct (Handler_wf m (r_Host r +:+ Path (r_URL r)) Hwf) as (h & m' & Hh & Hwf' & Ht).
  exists h, m'. split; [done|]. split; [done|]. split; [done|]. unfold ServeHTTP. cbn [rt_lookup Mux_Router].
  rewrite Hh. by destruct h.
Qed.

Lemma events_of_cons a acts :
  events_of (a :: acts) = match a with Event e => [e] | Serve _ => [] end ++ events_of acts.
Proof. by destruct a. Qed.

Lemma requests_of_cons a acts :
  requests_of (a :: acts) = match a with Event _ => [] | Serve r => [r] end ++ requests_of acts.
Proof. by destruct a. Qed.

(** After a history the mux is that of its events, and no counter exceeds the number of its
    requests. *)
Lemma after_registered acts m events k :
  registered factory m events -> counted k m -> (0 <= k)%Z ->
  registered factory (after m acts) (events ++ events_of acts) /\
  counted (k + Z.of_nat (length (requests_of acts))) (after m acts).
Proof.
  revert m events k. induction acts as [|a acts IH]; intros m events k Hm Hc Hk.
  { cbn. rewrite app_nil_r, Z.add_0_r. by split. }
  rewrite events_of_cons, requests_of_cons, app_assoc, length_app, Nat2Z.inj_add, Z.add_assoc.
  change (after m (a :: acts)) with (after (act m a) acts).
  apply IH; [| |destruct a; cbn; lia].
  - destruct a as [e|r]; [by apply registered_event|]. rewrite app_nil_r.
    destruct (ServeHTTP_lookup m r (proj1 Hm)) as (h & m' & Hh & _ & _ & Heq). cbn [act]. rewrite Heq.
    exact (registered_lookup (M := HMux) factory m events _ h m' Hh Hm).
  - destruct a as [e|r]; cbn [act length].
    + rewrite Z.add_0_r. unfold ProcessEvent. destruct (negb (Up e)); [by apply Remove_counted|].
      destruct (factory _ _); [by apply Add_counted|done].
    + destruct (ServeHTTP_lookup m r (proj1 Hm)) as (h & m' & Hh & _ & _ & Heq). rewrite Heq.
      exact (Handler_counted k m _ h m' (proj1 Hm) Hk Hc Hh).
Qed.

Lemma after_good acts m s :
  good_state m s -> exact s (events_of acts) ->
  Forall (fun e => Up e = true -> servable factory (ce_entry e)) (events_of acts) ->
  good_state (after m acts) (apply_events (events_of acts) s).
Proof.
  revert m s. induction acts as [|a acts IH]; intros m s Hg He Hs; [done|].
  rewrite events_of_cons in *. change (after m (a :: acts)) with (after (act m a) acts).
  destruct a as [e|r]; cbn [app] in *.
  - destruct He as [He Hex]. apply Forall_cons in Hs as [Hs1 Hs]. cbn [apply_events fold_left].
    apply IH; [|done..]. apply ProcessEvent_tracks; auto.
  - apply IH; [|done..]. destruct (ServeHTTP_lookup m r (proj1 Hg)) as (h & m' & _ & Hwf & Ht & Heq).
    cbn [act]. rewrite Heq. split; [done|]. cbn [rt_table Mux_Router]. rewrite Ht. apply Hg.
Qed.

(** [updateHeaders], then the handler. *)
Definition handled r (h : HandlerFunc) : prog unit := let* r := updateHeaders cfg r in h r.

Lemma serve_requests_serve path rs m picked m' :
  Forall (fun r => r_Host r +:+ Path (r_URL r) = path) rs ->
  serve (length rs) m path = Return (Some <$> picked, m') ->
  serve_requests m rs = (m', zip_with handled rs picked).
Proof.
  revert m picked. induction rs as [|r rs IH]; intros m picked Hp; cbn [length serve serve_requests].
  { intros [= Hnil <-]. by destruct picked. }
  apply Forall_cons in Hp as [Hr Hp]. destruct (Handler m path) as [[h m1]|] eqn:Eh; [|done]. cbn [outcome_bind].
  destruct (serve (length rs) m1 path) as [[hs m2]|] eqn:Es; [|done]. cbn [outcome_bind]. intros [= Hpk ->].
  destruct picked as [|x picked]; [done|]. cbn [fmap list_fmap] in Hpk. injection Hpk as -> ->.
  unfold ServeHTTP. cbn [rt_lookup Mux_Router]. rewrite Hr, Eh. by rewrite (IH m1 picked Hp Es).
Qed.

(** The targets of a route in a version of the configuration. *)
Definition targets_of (entries : list ConfigEntry) (route : string) : list string :=
  (fun e => URL_String (Target e)) <$> filter (fun e => Hostname e = route) entries.

Lemma targets_of_registered m (entries : list ConfigEntry) route hs :
  good_state m (entry_keys entries) -> NoDup (entry_key <$> entries) -> table m !! route = Some hs ->
  hs.*2 ≡ₚ targets_of entries route.
Proof.
  intros [_ [Hu Ht]] Hn Hhs. apply NoDup_Permutation; [by eapply Hu| |].
  - assert (Hsub : NoDup (entry_key <$> filter (fun e => Hostname e = route) entries)).
    { eapply sublist_NoDup; [exact Hn|]. apply fmap_sublist, sublist_filter. }
    apply (NoDup_fmap_1 (pair route)). unfold targets_of. rewrite <- list_fmap_compose.
    rewrite (Forall_fmap_ext_1 _ entry_key); [done|]. apply Forall_forall.
    intros e [<- _]%list_elem_of_filter. done.
  - intros id. specialize (Ht route id). unfold routed in Ht. cbn [rt_table Mux_Router] in Ht. rewrite Hhs in Ht.
    transitivity ((route, id) ∈ entry_keys entries); [rewrite <- Ht; naive_solver|].
    rewrite elem_of_entry_keys. unfold targets_of. rewrite !list_elem_of_fmap. split.
    + intros (e & [= -> ->] & He). exists e. split; [done|]. by apply list_elem_of_filter.
    + intros (e & -> & [<- He]%list_elem_of_filter). by exists e.
Qed.

Lemma current_valid first versions :
  valid_version factory first -> Forall (valid_version factory) versions ->
  valid_version factory (current first versions).
Proof.
  revert first. induction versions as [|v versions IH]; intros first Hf Hv; [done|].
  apply Forall_cons in Hv as [Hv1 Hv]. by apply (IH v).
Qed.

Lemma later_batches_exact versions prev :
  Forall (valid_version factory) versions ->
  let events := concat (later_batches prev versions) in
  exact (entry_keys prev) events /\ apply_events events (entry_keys prev) = entry_keys (current prev versions) /\
  Forall (fun e => Up e = true -> servable factory (ce_entry e)) events.
Proof.
  revert prev. induction versions as [|v versions IH]; intros prev Hv; [by split; [|split]|].
  apply Forall_cons in Hv as [[Hn Hs] Hv]. destruct (IH v Hv) as (He & Ha & Hf). cbn [later_batches concat].
  rewrite exact_app, apply_events_app, apply_change_events. split; [by split; [apply exact_change|]|].
  split; [done|]. apply Forall_app. split; [by apply change_servable|done].
Qed.

Lemma batches_exact first versions :
  valid_version factory first -> Forall (valid_version factory) versions ->
  let events := concat (batches first versions) in
  exact ∅ events /\ apply_events events ∅ = entry_keys (current first versions) /\
  Forall (fun e => Up e = true -> servable factory (ce_entry e)) events.
Proof.
  intros [Hn Hs] Hv. destruct (later_batches_exact versions first Hv) as (He & Ha & Hf).
  unfold batches. cbn [concat]. rewrite exact_app, apply_events_app, apply_toEvents_up, union_empty_l_L.
  split; [split; [apply exact_up; [done|set_solver]|done]|]. split; [done|].
  apply Forall_app. split; [by apply toEvents_servable|done].
Qed.

(** Handlers picked from a table were made for their identities. *)
Lemma picked_made (E : string -> URL -> Prop) (t : gmap string (list (HandlerFunc * string))) (route : string)
    (hs : list (HandlerFunc * string)) (picked : list HandlerFunc) :
  made_for factory E t -> t !! route = Some hs -> picked ≡ₚ hs.*1 ->
  exists targets : list URL, (URL_String <$> targets) ≡ₚ hs.*2 /\
    Forall2 (fun target h => factory route target = Ok h) targets picked.
Proof.
  intros Hm Hhs Hp. apply Permutation_map_inv in Hp as (hs' & -> & Hp).
  assert (Hall : Forall (fun hid => exists u, factory route u = Ok hid.1 /\ URL_String u = hid.2) hs').
  { apply Forall_forall. intros [h id] Hin. rewrite <- Hp in Hin.
    destruct (Hm route hs h id Hhs Hin) as (u & _ & H1 & H2). by exists u. }
  apply Forall_exists_Forall2_l in Hall as (targets & Hall).
  exists targets. rewrite Hp. clear Hp Hhs. split.
  - apply reflexive_eq. induction Hall as [|[h id] u hs' us [_ Hu] _ IH]; [done|]. cbn in *. by rewrite IH, Hu.
  - induction Hall as [|[h id] u hs' us [Hu _] _ IH]; [constructor|]. by constructor.
Qed.

(** The targets a table has for a route, in terms of the events. *)
Lemma registered_targets m events route hs (ids : list string) :
  registered factory m events -> table m !! route = Some hs -> ids ≡ₚ hs.*2 ->
  forall id, length (filter (fun x => x = id) ids) = registrations factory events (route, id).
Proof.
  intros (_ & Ht & _) Hhs Hids id. rewrite <- Ht. unfold times. cbn [fst snd rt_table Mux_Router].
  rewrite Hhs. cbn [default from_option Datatypes.id]. by rewrite Hids.
Qed.

(** The registrations of a route: those of all its targets. *)
Definition route_registrations (events : list ConfigEvent) (route : string) : nat :=
  sum_list ((fun id => registrations factory events (route, id)) <$>
    remove_dups ((fun e => URL_String (Target (ce_entry e))) <$> filter (fun e => Hostname (ce_entry e) = route) events)).

Lemma sum_one (x : string) ids :
  NoDup ids -> x ∈ ids -> sum_list ((fun id => if decide (x = id) then 1 else 0) <$> ids) = 1.
Proof.
  induction 1 as [|id ids Hid _ IH]; [by intros ?%elem_of_nil|]. intros [->|Hx]%elem_of_cons; cbn [fmap list_fmap sum_list_with Datatypes.id]; unfold Datatypes.id in *.
  - rewrite decide_True by done. rewrite (Forall_fmap_ext_1 _ (fun _ => 0)); [clear; induction ids; cbn in *; lia|].
    apply Forall_forall. intros y Hy. rewrite decide_False; [done|]. by intros ->.
  - rewrite decide_False by (by intros ->). by rewrite IH.
Qed.

Lemma length_by_counts (l ids : list string) :
  NoDup ids -> (forall x, x ∈ l -> x ∈ ids) ->
  length l = sum_list ((fun id => length (filter (fun x => x = id) l)) <$> ids).
Proof.
  intros Hn. induction l as [|x l IH]; intros Hin.
  { clear. induction ids as [|id ids IH]; cbn in *; lia. }
  cbn [length]. rewrite IH by set_solver. pose proof (sum_one x ids Hn ltac:(set_solver)) as Hone.
  rewrite <- Nat.add_1_l, <- Hone. clear IH Hin Hn Hone.
  induction ids as [|id ids IH]; [done|]. cbn [fmap list_fmap sum_list_with Datatypes.id]; unfold Datatypes.id in *.
  destruct (decide (x = id)) as [->|Hne].
  - rewrite filter_cons_True by done. cbn [length]. lia.
  - rewrite filter_cons_False by done. lia.
Qed.

Lemma route_registrations_length m events route hs :
  registered factory m events -> table m !! route = Some hs -> length hs = route_registrations events route.
Proof.
  intros Hreg Hhs. rewrite <- (length_fmap snd hs). unfold route_registrations.
  set (ids := (fun e => URL_String (Target (ce_entry e))) <$> _).
  rewrite (length_by_counts hs.*2 (remove_dups ids) (NoDup_remove_dups ids)).
  - f_equal. apply list_fmap_ext. intros _ id _. by apply (registered_targets m events route hs).
  - intros id Hid. apply elem_of_remove_dups.
    assert (Hup : up factory events (route, id)) by (apply (registered_routed factory m events route id Hreg); by exists hs).
    apply up_brought_up in Hup as (e & He & _ & Hk). injection Hk as Hr <-.
    apply (list_elem_of_fmap_2 (fun e => URL_String (Target (ce_entry e)))). by apply list_elem_of_filter.
Qed.

(** C9. Load balancing.  A server has processed any events (also entries brought up twice,
    taken down without being up, or that cannot be served), with any requests in between, and
    some entry that is up covers a path: then there is a route that has priority over every
    other that is up and does, such that as many consecutive requests for the path as the
    route has registrations are handed to handlers the factory made for its targets, each
    target as often as it is registered.  If the events are the batches of successive versions
    of the configuration in order, none of which repeats an entry or names a target that
    cannot be served, these are the route's targets in the last version, each once.  (No route
    has 2^32 handlers, and the requests are fewer than 2^32 in all: the counter is 32 bits
    wide.) *)
Theorem requests_balanced acts path :
  let m := after empty_Mux acts in
  let events := events_of acts in
  small_table (table m) ->
  (exists k, up factory events k /\ route_match k.1 path = true) ->
  exists route, route_match route path = true /\
    (forall k, up factory events k -> route_match k.1 path = true -> route_prio route k.1) /\
    let n := route_registrations events route in
    n <> 0 /\
    forall rs, length rs = n -> Forall (fun r => r_Host r +:+ Path (r_URL r) = path) rs ->
    (Z.of_nat (length (requests_of acts)) + Z.of_nat n < 2 ^ 32)%Z ->
    exists (targets : list URL) (handlers : list HandlerFunc),
      Forall2 (fun target h => factory route target = Ok h) targets handlers /\
      (serve_requests m rs).2 = zip_with handled rs handlers /\ length targets = n /\
      (forall id, length (filter (fun x => x = id) (URL_String <$> targets)) = registrations factory events (route, id)) /\
      (forall first versions, valid_version factory first -> Forall (valid_version factory) versions ->
         events = concat (batches first versions) ->
         (URL_String <$> targets) ≡ₚ targets_of (current first versions) route).
Proof.
  intros m events Hsm (k0 & Hk0 & Hm0).
  destruct (after_registered acts empty_Mux [] 0) as [Hreg Hc]; [exact (registered_empty (M := HMux) factory)|constructor|done|].
  fold m in Hreg, Hc. cbn [app] in Hreg. fold events in Hreg. rewrite Z.add_0_l in Hc.
  assert (Hdom : forall k, up factory events k -> k.1 ∈ dom (table m)).
  { intros [p id] Hk. apply (registered_routed factory m events p id Hreg) in Hk as (hs & Hhs & _). by apply elem_of_dom. }
  destruct (serve_balanced _ m path (proj1 Hreg) Hsm (Nat2Z.is_nonneg _) Hc) as (route & hs & (_ & Hb & Hbest) & Hhs & Hserve);
    [exists k0.1; by split; [apply Hdom|]|].
  exists route. split; [done|]. split; [intros k Hk; apply Hbest; by apply Hdom|].
  cbv zeta. rewrite <- (route_registrations_length m events route hs Hreg Hhs).
  split; [intros Hn%length_zero_iff_nil; subst hs; by apply (table_nonempty m route (proj1 Hreg))|].
  intros rs Hrs Hp Hk. destruct (Hserve Hk) as (picked & m' & Hsv & Hpk).
  destruct (picked_made _ (table m) route hs picked (proj2 (proj2 Hreg)) Hhs Hpk) as (targets & Ht & H2).
  exists targets, picked. split; [done|]. rewrite <- Hrs in Hsv.
  split; [by rewrite (serve_requests_serve path rs m picked m' Hp Hsv)|].
  split; [by rewrite (Forall2_length _ _ _ H2), Hpk, length_fmap|].
  split; [by eapply registered_targets|]. intros first versions Hf Hv Hev. rewrite Ht.
  destruct (batches_exact first versions Hf Hv) as (Hex & Ha & Hs). rewrite <- Hev in Hex, Ha, Hs.
  apply (targets_of_registered m); [|by apply (current_valid first versions)|done].
  rewrite <- Ha. apply after_good; [exact (empty_tracks (M := HMux))|done..].
Qed.
End Histories.

(** ** Witness *)

#[local] Abbreviation demo_factory :=
  (Factory.Handler demo_deps no_session no_sftp (NewHandlerFactory None)).

Definition backend2 : URL := set_Host "localhost:8082" (set_Scheme "http" empty_URL).

(** A line [h -> backend backend2], and a request in between. *)
Definition pair_version : list ConfigEntry := [mk_ConfigEntry "h" backend; mk_ConfigEntry "h" backend2].

Definition pair_acts : list action :=
  [Event (mk_ConfigEvent (mk_ConfigEntry "h" backend) true); Serve demo_get;
   Event (mk_ConfigEvent (mk_ConfigEntry "h" backend2) true)].

Lemma requests_balanced_witness :
  exists (targets : list URL) (handlers : list HandlerFunc),
    (URL_String <$> targets) ≡ₚ [URL_String backend; URL_String backend2] /\
    Forall2 (fun target h => demo_factory "h" target = Ok h) targets handlers /\
    (serve_requests demo_cfg (after demo_factory demo_cfg empty_Mux pair_acts) [demo_get; demo_get]).2 =
      zip_with (handled demo_cfg) [demo_get; demo_get] handlers.
Proof.
  destruct (requests_balanced demo_factory demo_cfg pair_acts "h/p/page")
    as (route & Hm & _ & Hn & Hserve).
  - apply (bool_decide_unpack (small_table _)). vm_compute. exact I.
  - exists ("h", URL_String backend). split; [apply Nat.ltb_lt; vm_compute; reflexivity|vm_compute; reflexivity].
  - assert (Hr : route = "h").
    { destruct (decide (route = "h")) as [|Hne]; [done|]. destruct Hn. unfold route_registrations.
      cbn [pair_acts events_of omap list_omap]. by rewrite !filter_cons_False by (cbn; congruence). }
    subst route. destruct (Hserve [demo_get; demo_get]) as (targets & handlers & H2 & Hsv & _ & _ & Ht).
    + vm_compute. reflexivity.
    + repeat constructor.
    + vm_compute. reflexivity.
    + exists targets, handlers. split; [|by split]. apply (Ht pair_version []); [|constructor|reflexivity].
      split; [apply (bool_decide_unpack _); vm_compute; exact I|]. repeat constructor; eexists; reflexivity.
Defined.
