(* ===== verification/System.v ===== *)
(** The running server: the goroutines of pkg/server/server.go, pkg/config/config.go and
    pkg/config/dockerwatch.go together.

    [NewServer] leaves two goroutines running [Listen], one per source of events, each at
    the end of a channel that other goroutines fill; requests are served meanwhile.  They
    share the multiplexer, whose calls are atomic (see [MuxConc]).  A step of the system is a step of
    one of them. *)

From S2P Require Import Prelude GoStrings Url Http Routes Config Docker DockerEvents Server.

Local Open Scope go_scope.

(** [y_config_todo] and [y_docker_todo] are what the two [Listen] goroutines have still to
    process of the batch received last, [y_config_done] and [y_docker_done] (histories)
    what they processed, and [y_done] (a history) what both did, in the order they did.
    The second starts with the containers that run, and reads its channel once
    [GetConfigEvents] has answered. *)
Record System {M : Type} := mk_System {
  y_mux : M;
  y_watcher : option Watcher;
  y_config_todo : list ConfigEvent;
  y_config_done : list ConfigEvent;
  y_docker : option Pipeline;
  y_docker_todo : list ConfigEvent;
  y_docker_done : list ConfigEvent;
  y_done : list ConfigEvent
}.
Arguments System M : clear implicits.
Arguments mk_System {M}.

Section System.
Context {M : Type} `{Router HandlerFunc M}.
Context (factory : string -> URL -> result HandlerFunc).
Context (Quote : string -> string).
Context {Client : Type} (AddEventListener : Client -> option string) (docker : DockerWatch Client).
Implicit Types y : System M.

(** [NewServer] with a configuration file ([watcher]) and the events of the containers
    that run ([active]), if there are any. *)
Definition y_start (watcher : option Watcher) (active : list ConfigEvent) : System M :=
  mk_System rt_empty watcher [] [] None active [] [].

Definition set_watcher (w : Watcher) y : System M :=
  mk_System (y_mux y) (Some w) (y_config_todo y) (y_config_done y) (y_docker y) (y_docker_todo y)
    (y_docker_done y) (y_done y).

Definition set_docker (k : Pipeline) y : System M :=
  mk_System (y_mux y) (y_watcher y) (y_config_todo y) (y_config_done y) (Some k) (y_docker_todo y)
    (y_docker_done y) (y_done y).

Definition set_mux (m : M) y : System M :=
  mk_System m (y_watcher y) (y_config_todo y) (y_config_done y) (y_docker y) (y_docker_todo y)
    (y_docker_done y) (y_done y).

(** [for e := range events]: a batch is received. *)
Definition y_config_recv (w : Watcher) (batch : list ConfigEvent) y : System M :=
  mk_System (y_mux y) (Some (chan_recv w batch)) batch (y_config_done y) (y_docker y)
    (y_docker_todo y) (y_docker_done y) (y_done y).

Definition y_docker_recv (k : Pipeline) (batch : list ConfigEvent) y : System M :=
  mk_System (y_mux y) (y_watcher y) (y_config_todo y) (y_config_done y) (Some (k_recv k batch))
    batch (y_docker_done y) (y_done y).

(** [s.ProcessEvent(e)] *)
Definition y_config_event (e : ConfigEvent) (rest : list ConfigEvent) y : System M :=
  mk_System (ProcessEvent factory (y_mux y) e).1 (y_watcher y) rest (y_config_done y ++ [e])
    (y_docker y) (y_docker_todo y) (y_docker_done y) (y_done y ++ [e]).

Definition y_docker_event (e : ConfigEvent) (rest : list ConfigEvent) y : System M :=
  mk_System (ProcessEvent factory (y_mux y) e).1 (y_watcher y) (y_config_todo y) (y_config_done y)
    (y_docker y) rest (y_docker_done y ++ [e]) (y_done y ++ [e]).

(** Steps of the program, in any order: an update can be computed while the batch of an
    earlier one is not sent yet, and whatever the file holds is read. *)
Inductive ystep : System M -> System M -> Prop :=
  | ystep_watcher y w w' :
      y_watcher y = Some w -> update_step w w' -> ystep y (set_watcher w' y)
  | ystep_config_recv y w batch :
      y_watcher y = Some w -> y_config_todo y = [] -> w_chan w !! 0 = Some batch ->
      ystep y (y_config_recv w batch y)
  | ystep_config_event y e rest :
      y_config_todo y = e :: rest -> ystep y (y_config_event e rest y)
  | ystep_listen y k :
      y_docker y = None -> y_docker_todo y = [] -> GetConfigEvents AddEventListener docker = Ok k -> ystep y (set_docker k y)
  | ystep_docker y k k' :
      y_docker y = Some k -> kstep Quote k k' -> k_received k' = k_received k ->
      ystep y (set_docker k' y)
  | ystep_docker_recv y k batch :
      y_docker y = Some k -> y_docker_todo y = [] -> k_events k !! 0 = Some batch ->
      ystep y (y_docker_recv k batch y)
  | ystep_docker_event y e rest :
      y_docker_todo y = e :: rest -> ystep y (y_docker_event e rest y).

(** Steps of the world: the file changes, the Docker daemon reports, a request looks up
    its handler. *)
Inductive yworld : System M -> System M -> Prop :=
  | yworld_file y w :
      y_watcher y = Some w -> yworld y (set_watcher (file_event w) y)
  | yworld_docker y k k' :
      y_docker y = Some k -> kclient k k' -> yworld y (set_docker k' y)
  | yworld_request y path h m :
      @rt_lookup HandlerFunc M _ (y_mux y) path = Return (h, m) -> yworld y (set_mux m y).

Definition yany y y' : Prop := ystep y y' \/ yworld y y'.
End System.
