(* ===== verification/SystemProps.v ===== *)
(** Properties of the running server ([System]): whatever its goroutines and the world do,
    it comes to rest, at any time a request is served by what is up, and at rest all that the
    sources had to say has been processed; if the updates arrived in order and the sources
    keep to some conditions, the routes are then those of the configuration and of the
    containers. *)

From S2P Require Import Prelude GoStrings Url Http Routes Config ConfigProps Docker DockerEvents.
From S2P Require Import Mux MuxProps Stream Handlers HandlersProps Remote Factory Server ServerProps Registrations System.

Local Open Scope go_scope.

(** ** Sources *)

Section Sources.
Context (factory : string -> URL -> result HandlerFunc).
(** The keys a source may use. *)
Context (K : gset (string * string)).

(** A version of the configuration: no entry twice, every target can be served, the keys
    are the file's own. *)
Definition own_version (l : list ConfigEntry) : Prop :=
  valid_version factory l /\ entry_keys l ⊆ K.

(** Events that keep to the keys and can be served. *)
Definition own_events (events : list ConfigEvent) : Prop :=
  Forall (fun e => entry_key (ce_entry e) ∈ K /\ (Up e = true -> servable factory (ce_entry e))) events.

(** Moreover they bring up nothing that is up. *)
Definition good_events (events : list ConfigEvent) : Prop := exact ∅ events /\ own_events events.

Lemma own_toEvents l l' up : own_version l -> (forall e, e ∈ l' -> e ∈ l) -> own_events (toEvents l' up).
Proof.
  intros [[_ Hs] Hk] Hl. apply Forall_fmap, Forall_forall. intros e He. specialize (Hl e He).
  rewrite Forall_forall in Hs. split; [|intros _; by apply Hs].
  apply Hk, elem_of_entry_keys. by apply list_elem_of_fmap_2.
Qed.

Lemma own_change prev new : own_version prev -> own_version new -> own_events (change_events prev new).
Proof.
  intros Hp Hn. unfold change_events, getConfigChange. apply Forall_app. split.
  - eapply own_toEvents; [exact Hn|]. by intros e [? _]%elem_of_not_contained.
  - eapply own_toEvents; [exact Hp|]. by intros e [? _]%elem_of_not_contained.
Qed.

Lemma own_later prev (versions : list (list ConfigEntry)) :
  own_version prev -> Forall own_version versions ->
  exact (entry_keys prev) (concat (later_batches prev versions)) /\ own_events (concat (later_batches prev versions)).
Proof.
  revert prev. induction versions as [|v versions IH]; intros prev Hp Hv; [by split; [|constructor]|].
  apply Forall_cons in Hv as [Hv Hvs]. destruct (IH v Hv Hvs) as [He Ho]. cbn [later_batches concat]. split.
  - apply exact_app. split; [apply exact_change, Hv|]. by rewrite apply_change_events.
  - apply Forall_app. split; [by apply own_change|done].
Qed.

(** The batches of such versions, in order. *)
Lemma own_batches first (versions : list (list ConfigEntry)) :
  own_version first -> Forall own_version versions -> good_events (concat (batches first versions)).
Proof.
  intros Hf Hv. destruct (own_later first versions Hf Hv) as [He Ho]. unfold batches. cbn [concat]. split.
  - apply exact_app. split; [apply exact_up; [apply Hf|set_solver]|].
    rewrite apply_toEvents_up. by rewrite union_empty_l_L.
  - apply Forall_app. split; [by eapply own_toEvents|done].
Qed.
End Sources.

(** ** The state of the system *)

Section System.
Context {M : Type} `{RouterLaws HandlerFunc M}.
Context (factory : string -> URL -> result HandlerFunc) (Quote : string -> string).
Context {Client : Type} (AddEventListener : Client -> option string) (docker : DockerWatch Client).
Implicit Types (y : System M) (w : Watcher) (events : list ConfigEvent).

#[local] Abbreviation step := (ystep factory Quote AddEventListener docker).
#[local] Abbreviation any := (yany factory Quote AddEventListener docker).

Definition received (w : option Watcher) : list ConfigEvent :=
  match w with Some w => concat (w_received w) | None => [] end.

Definition reported (k : option Pipeline) : list ConfigEvent :=
  match k with Some k => concat (k_received k) | None => [] end.

(** What holds in every state: what the sources sent is either processed or still to be
    processed, and the mux is that of the events processed. *)
Definition y_good (active : list ConfigEvent) y : Prop :=
  (forall w, y_watcher y = Some w -> accounted w /\ versioned w) /\
  y_config_done y ++ y_config_todo y = received (y_watcher y) /\
  (forall k, y_docker y = Some k -> conveyed Quote k) /\
  y_docker_done y ++ y_docker_todo y = active ++ reported (y_docker y) /\
  interleaved (y_config_done y) (y_docker_done y) (y_done y) /\
  registered factory (y_mux y) (y_done y).

Lemma concat_snoc {A} (ls : list (list A)) l : concat (ls ++ [l]) = concat ls ++ l.
Proof. rewrite concat_app. cbn. by rewrite app_nil_r. Qed.

Lemma interleaved_left l1 l2 l (e : ConfigEvent) : interleaved l1 l2 l -> interleaved (l1 ++ [e]) l2 (l ++ [e]).
Proof. induction 1; cbn [app]; repeat constructor; done. Qed.

Lemma interleaved_right l1 l2 l (e : ConfigEvent) : interleaved l1 l2 l -> interleaved l1 (l2 ++ [e]) (l ++ [e]).
Proof. induction 1; cbn [app]; repeat constructor; done. Qed.

Lemma watcher_good w w' : wstep w w' -> accounted w /\ versioned w -> accounted w' /\ versioned w'.
Proof. intros Hs [Ha Hv]. split; [by eapply wstep_accounted|by eapply wstep_versioned]. Qed.

#[local] Ltac y_cbn :=
  cbn [set_watcher set_docker set_mux y_config_recv y_config_event y_docker_recv y_docker_event
       y_watcher y_config_done y_config_todo y_docker y_docker_done y_docker_todo y_done y_mux].

Lemma ystep_good active y y' : step y y' -> y_good active y -> y_good active y'.
Proof.
  intros Hs (Hw & Hc & Hk & Hd & Hil & Hm).
  destruct Hs as [y w w' Hw0 Hp|y w b Hw0 Ht Hb|y e rest Ht|y k Hk0 Ht Hl|y k k' Hk0 Hp Hr|y k b Hk0 Ht Hb|y e rest Ht];
    unfold y_good; y_cbn.
  - split; [|split; [|done]].
    + intros w'' [= <-]. eapply watcher_good; [by apply step_update|by apply Hw].
    + rewrite Hc, Hw0. cbn [received]. by destruct Hp.
  - split; [|split; [|done]].
    + intros w'' [= <-]. eapply watcher_good; [by apply step_recv|by apply Hw].
    + rewrite Ht, app_nil_r, Hw0 in Hc. rewrite Hc. cbn [received chan_recv w_received]. by rewrite concat_snoc.
  - rewrite Ht, (cons_middle e _ rest), app_assoc in Hc. split; [done|]. split; [done|]. split; [done|]. split; [done|].
    split; [by apply interleaved_left|by apply registered_event].
  - assert (Hk' : k = new_Pipeline).
    { unfold GetConfigEvents in Hl. destruct (AddEventListener _); [done|]. by injection Hl as <-. }
    subst k. split; [done|]. split; [done|]. split; [|split; [|done]].
    + intros k [= <-]. apply reachable_conveyed. apply rtc_refl.
    + by rewrite Hd, Hk0.
  - split; [done|]. split; [done|]. split; [|split; [|done]].
    + intros k'' [= <-]. eapply kstep_conveyed; [exact Hp|by apply Hk].
    + rewrite Hd, Hk0. cbn [reported]. by rewrite Hr.
  - split; [done|]. split; [done|]. split; [|split; [|done]].
    + intros k'' [= <-]. eapply kstep_conveyed; [by apply kstep_recv|by apply Hk].
    + rewrite Ht, app_nil_r, Hk0 in Hd. rewrite Hd. cbn [reported k_recv k_received].
      by rewrite concat_snoc, app_assoc.
  - rewrite Ht, (cons_middle e _ rest), app_assoc in Hd. split; [done|]. split; [done|]. split; [done|]. split; [done|].
    split; [by apply interleaved_right|by apply registered_event].
Qed.

Lemma yworld_good active y y' : yworld y y' -> y_good active y -> y_good active y'.
Proof.
  intros Hs (Hw & Hc & Hk & Hd & Hil & Hm). destruct Hs as [y w Hw0|y k k' Hk0 Hp|y path h m Hl]; unfold y_good; y_cbn.
  - split; [|split; [|done]].
    + intros w'' [= <-]. eapply watcher_good; [apply step_file_event|by apply Hw].
    + by rewrite Hc, Hw0.
  - split; [done|]. split; [done|]. split; [|split; [|done]].
    + intros k'' [= <-]. eapply kclient_conveyed; [exact Hp|by apply Hk].
    + rewrite Hd, Hk0. cbn [reported]. by destruct Hp.
  - repeat (split; [done|]). by eapply registered_lookup.
Qed.

Lemma reachable_good active y y' : rtc any y y' -> y_good active y -> y_good active y'.
Proof.
  induction 1 as [|x y z [Hs|Hs] _ IH]; [done| |]; intros Hx; apply IH.
  - by eapply ystep_good.
  - by eapply yworld_good.
Qed.

(** The watcher is one that [NewConfig] made. *)
Definition watching (watcher : option Watcher) : Prop :=
  forall w, watcher = Some w -> exists read nw add, NewConfig read nw add = Ok w.

Lemma started_good watcher active y :
  watching watcher -> rtc any (y_start watcher active) y -> y_good active y.
Proof.
  intros Hw Hr. eapply reachable_good; [exact Hr|]. unfold y_good, y_start. y_cbn. split; [|split].
  - intros w Hs. destruct (Hw w Hs) as (read & nw & add & Hn).
    split; [by eapply NewConfig_accounted|by eapply NewConfig_versioned].
  - destruct watcher as [w|]; [|done]. destruct (Hw w eq_refl) as ([[entries [err|]] logs] & nw & add & Hn); [done|].
    unfold NewConfig in Hn. destruct nw; [done|]. destruct add; [done|]. by injection Hn as <-.
  - split; [done|]. split; [by rewrite app_nil_r|]. split; [constructor|apply registered_empty].
Qed.

(** The mux of any system, also one whose watcher was not made by [NewConfig]. *)
Lemma started_registered watcher active y :
  rtc any (y_start watcher active) y ->
  interleaved (y_config_done y) (y_docker_done y) (y_done y) /\ registered factory (y_mux y) (y_done y).
Proof.
  intros Hr. assert (Hs : interleaved (y_config_done (y_start watcher active)) (y_docker_done (y_start watcher active))
      (y_done (y_start watcher active)) /\ registered factory (y_mux (y_start watcher active)) (y_done (y_start watcher active)))
    by (split; [constructor|apply registered_empty]).
  induction Hr as [|x z y Hxz _ IH]; [done|]. apply IH. clear IH y. destruct Hs as [Hil Hm].
  destruct Hxz as [Hxz|Hxz]; destruct Hxz; y_cbn; try done.
  - split; [by apply interleaved_left|by apply registered_event].
  - split; [by apply interleaved_right|by apply registered_event].
  - split; [done|by eapply registered_lookup].
Qed.

(** ** Rest *)

(** Nothing is under way with a watcher: no update, no batch. *)
Definition w_quiet w : Prop :=
  w_spawned w = 0 /\ w_sleeping w = [] /\ w_ready w = [] /\ w_blocked w = [] /\ w_chan w = [].

(** Nothing is under way: no update, no batch, no event. *)
Definition at_rest y : Prop :=
  y_config_todo y = [] /\ y_docker_todo y = [] /\
  (forall w, y_watcher y = Some w -> w_quiet w) /\
  (forall k, y_docker y = Some k -> k_quiet k) /\
  (y_docker y = None -> GetConfigEvents AddEventListener docker <> Ok new_Pipeline).

Lemma watcher_step y w :
  y_watcher y = Some w -> y_config_todo y = [] -> w_quiet w \/ exists y', step y y'.
Proof.
  intros Hw Ht. destruct (w_chan w) as [|b l] eqn:Ec.
  2:{ right. eexists. eapply (ystep_config_recv _ _ _ _ _ w b); [done|done|by rewrite Ec]. }
  destruct (w_blocked w) as [|b l] eqn:Eb.
  2:{ right. eexists. eapply ystep_watcher; [done|]. eapply (step_send w 0 b); [by rewrite Eb|].
      rewrite Ec. unfold chan_cap. simpl. lia. }
  destruct (w_ready w) as [|new l] eqn:Er.
  2:{ right. eexists. eapply ystep_watcher; [done|]. eapply (step_commit w 0 new). by rewrite Er. }
  destruct (w_sleeping w) as [|mc l] eqn:Es.
  2:{ right. eexists. eapply ystep_watcher; [done|].
      eapply (step_timer w 0 mc ([], Some EmptyString, [])). by rewrite Es. }
  destruct (decide (w_spawned w = 0)) as [Hsp|Hsp]; [left; by unfold w_quiet|].
  right. eexists. eapply ystep_watcher; [done|by apply step_begin].
Qed.

Lemma docker_step active y k :
  y_good active y -> y_docker y = Some k -> y_docker_todo y = [] -> k_quiet k \/ exists y', step y y'.
Proof.
  intros (_ & _ & Hk & _) Hk0 Ht. destruct (k_events k) as [|b l] eqn:Ee.
  2:{ right. eexists. eapply (ystep_docker_recv _ _ _ _ _ k b); [done|done|by rewrite Ee]. }
  destruct (kstep_enabled Quote k (Hk k Hk0)) as [Hq|[k' Hs]]; [by left|right]. eexists.
  eapply ystep_docker; [done|exact Hs|].
  destruct Hs as [s e i Hg Hl|s b bs Hg Hl|s Hg Hl Hn|s b Hb]; [|done..|by rewrite Ee in Hb].
  unfold k_handle. by destruct (convert_event i Quote e).
Qed.

Lemma step_or_rest active y : y_good active y -> at_rest y \/ exists y', step y y'.
Proof.
  intros Hy. destruct (y_config_todo y) as [|e l] eqn:Hc.
  2:{ right. eexists. by eapply ystep_config_event. }
  destruct (y_docker_todo y) as [|e l] eqn:Hd.
  2:{ right. eexists. by eapply ystep_docker_event. }
  assert (Hw : (forall w, y_watcher y = Some w -> w_quiet w) \/ exists y', step y y').
  { destruct (y_watcher y) as [w|] eqn:Ew; [|by left].
    destruct (watcher_step y w Ew Hc) as [Hr|Hs]; [left|by right]. by intros w' [= <-]. }
  destruct Hw as [Hw|Hs]; [|by right]. unfold at_rest. rewrite Hc, Hd.
  destruct (y_docker y) as [k|] eqn:Ek.
  - destruct (docker_step active y k Hy Ek Hd) as [Hq|Hs]; [left|by right].
    split; [done|]. split; [done|]. split; [done|]. split; [by intros k' [= <-]|done].
  - destruct (GetConfigEvents AddEventListener docker) as [k|err] eqn:El.
    + right. eexists. by eapply ystep_listen.
    + by left.
Qed.

(** What is left to do, the most far-reaching first. *)
Definition watcher_work (w : option Watcher) : nat :=
  match w with
  | Some w => 5 * w_spawned w + 4 * length (w_sleeping w) + 3 * length (w_ready w) +
              2 * length (w_blocked w) + length (w_chan w)
  | None => 0
  end.

Definition docker_work (k : option Pipeline) : nat * (nat * nat) :=
  match k with
  | Some k => (0, k_work k)
  | None => (1, (0, 0))
  end.

Definition y_work y : nat * (nat * (nat * (nat * nat) * nat)) :=
  (watcher_work (y_watcher y),
   (length (y_config_todo y), (docker_work (y_docker y), length (y_docker_todo y)))).

Lemma update_work w w' : update_step w w' -> watcher_work (Some w') < watcher_work (Some w).
Proof.
  destruct 1 as [w Hw|w i mc read Hi|w i new Hi|w i b Hi _]; cbn [watcher_work].
  { cbn [update_begin w_spawned w_sleeping w_ready w_blocked w_chan]. rewrite length_app. cbn [length]. lia. }
  all: destruct (remove_at_split _ _ _ Hi) as (l1 & l2 & Hl & Hr).
  - cbn [update_fire w_spawned w_sleeping w_ready w_blocked w_chan]. rewrite Hr, Hl, !length_app. cbn [length].
    destruct (negb _); [lia|]. destruct read as [[new [err|]] logs]; rewrite ?length_app; cbn [length]; lia.
  - cbn [update_commit w_spawned w_sleeping w_ready w_blocked w_chan]. rewrite Hr, Hl, !length_app. cbn [length]. lia.
  - cbn [chan_send w_spawned w_sleeping w_ready w_blocked w_chan]. rewrite Hr, Hl, !length_app. cbn [length]. lia.
Qed.

Definition y_lt := lex lt (lex lt (lex (lex lt (lex lt lt)) lt)).

Lemma y_lt_wf : well_founded y_lt.
Proof. repeat apply lex_wf; apply lt_wf. Qed.

Lemma ystep_work y y' : step y y' -> y_lt (y_work y') (y_work y).
Proof.
  unfold y_lt, y_work.
  destruct 1 as [y w w' Hw0 Hp|y w b Hw0 Ht Hb|y e rest Ht|y k Hk0 Ht Hl|y k k' Hk0 Hp Hr|y k b Hk0 Ht Hb|y e rest Ht].
  - left. cbn [fst]. rewrite Hw0. by apply update_work.
  - left. cbn [fst]. rewrite Hw0. cbn. destruct (w_chan w); [done|]. cbn. rewrite drop_0. lia.
  - right. split; [done|]. left. cbn. rewrite Ht. cbn. lia.
  - right. split; [done|]. right. split; [done|]. left. left. cbn. rewrite Hk0. cbn. lia.
  - right. split; [done|]. right. split; [done|]. left. right. cbn. rewrite Hk0. split; [done|].
    by eapply kstep_work.
  - right. split; [done|]. right. split; [done|]. left. right. cbn [snd fst y_docker_recv y_docker].
    rewrite Hk0. split; [done|]. eapply (kstep_work Quote). by apply kstep_recv.
  - right. split; [done|]. right. split; [done|]. right. split; [done|]. cbn. rewrite Ht. cbn. lia.
Qed.

Lemma ystep_wf : well_founded (fun y2 y1 => step y1 y2).
Proof. eapply (wf_projected y_lt y_work); [|exact y_lt_wf]. exact (fun y2 y1 => ystep_work y1 y2). Qed.

Lemma comes_to_rest active y : y_good active y -> exists y', rtc step y y' /\ at_rest y'.
Proof.
  induction (ystep_wf y) as [y _ IH]. intros Hy.
  destruct (step_or_rest active y Hy) as [Hr|[y1 Hs]]; [by exists y|].
  destruct (IH y1 Hs) as (y2 & Hs2 & Hr); [by eapply ystep_good|].
  exists y2. split; [by eapply rtc_l|done].
Qed.

(** The entries of the configuration committed last. *)
Definition config_keys y : gset (string * string) :=
  match y_watcher y with Some w => entry_keys (w_prevEntries w) | None => ∅ end.

(** The events of the containers: of those that ran at the start, and of those that the
    daemon reported and that have been handled. *)
Definition docker_events (active : list ConfigEvent) y : list ConfigEvent :=
  active ++ match y_docker y with Some k => concat (convertEvents Quote (k_handled k)) | None => [] end.

(** The batches arrived in the order they were computed. *)
Definition arrived_in_order y : Prop :=
  forall w, y_watcher y = Some w -> w_received w = w_committed w.

(** What is required of the versions of the configuration. *)
Definition own_versions (K : gset (string * string)) y : Prop :=
  forall w, y_watcher y = Some w -> Forall (own_version factory K) (w_versions w).

(** ** Properties *)

(** At rest everything the sources had to say has been processed. *)
Lemma rest_done active y :
  y_good active y -> at_rest y ->
  y_config_done y = received (y_watcher y) /\
  (forall w, y_watcher y = Some w -> w_received w ≡ₚ w_committed w) /\
  y_docker_done y = docker_events active y /\
  (forall k, y_docker y = Some k -> (k_handled k).*1 = k_reported k).
Proof.
  intros (Hw & Hc & Hk & Hd & _) (Hc0 & Hd0 & Hwr & Hkr & _).
  rewrite Hc0, app_nil_r in Hc. rewrite Hd0, app_nil_r in Hd. split; [done|]. split; [|split].
  - intros w Hs. destruct (Hw w Hs) as [(Hp & _) _], (Hwr w Hs) as (_ & _ & _ & Hb & Hch).
    by rewrite Hb, Hch, !app_nil_r in Hp.
  - rewrite Hd. unfold docker_events. f_equal. destruct (y_docker y) as [k|]; [|done]. cbn [reported].
    destruct (Hkr k eq_refl) as (_ & He & Hq), (Hk k eq_refl) as (Hcv & _). rewrite He, Hq in Hcv.
    destruct (k_listening k); cbn [sending] in Hcv; by rewrite !app_nil_r in Hcv; rewrite Hcv.
  - intros k Hs. destruct (Hkr k Hs) as (Hl & _ & _), (Hk k Hs) as (_ & _ & Hrep & _).
    by rewrite Hl, app_nil_r in Hrep.
Qed.

(** What batches that arrived in order bring up. *)
Lemma ordered_events active K y :
  y_good active y -> own_versions K y -> arrived_in_order y ->
  good_events factory K (received (y_watcher y)) /\ apply_events (received (y_watcher y)) ∅ = config_keys y.
Proof.
  intros (Hw & _) Hv Ho. unfold config_keys, received. destruct (y_watcher y) as [w|] eqn:E.
  2:{ split; [by split; [|constructor]|done]. }
  rewrite (Ho w E). destruct (Hw w eq_refl) as ((_ & Ha & _) & first & versions & Hvs & Hb & _). split; [|done].
  pose proof (Hv w E) as Hall. rewrite Hvs in Hall. apply Forall_cons in Hall as [Hf Hall].
  rewrite Hb. by apply own_batches.
Qed.

(** C5. The running server follows its two sources.  However the goroutines of the watcher,
    of the container events and of the server interleave, while requests are looked up and
    the file and the daemon change: when nothing is under way, every batch the watcher
    computed has been processed once, though maybe not in the order of the versions, every
    event the daemon reported has been handled, in order, and the server routes what is up
    by these events.  If the batches did arrive in order, no version of the configuration
    repeats an entry or names a target that cannot be served, the containers bring up
    nothing twice and nothing that cannot be served, and the two sources use different keys,
    then the server routes exactly the entries of the configuration committed last and what the
    events of the containers add up to. *)
Theorem system_converges watcher active y :
  watching watcher -> rtc any (y_start watcher active) y -> at_rest y ->
  ((forall w, y_watcher y = Some w -> w_received w ≡ₚ w_committed w) /\
   (forall k, y_docker y = Some k -> (k_handled k).*1 = k_reported k) /\
   interleaved (received (y_watcher y)) (docker_events active y) (y_done y) /\
   forall route id, routed (rt_table (y_mux y)) route id <-> up factory (y_done y) (route, id)) /\
  (forall K1 K2, K1 ## K2 -> own_versions K1 y -> arrived_in_order y ->
     good_events factory K2 (docker_events active y) ->
     forall route id, routed (rt_table (y_mux y)) route id <->
       (route, id) ∈ config_keys y ∪ apply_events (docker_events active y) ∅).
Proof.
  intros Hwa Hr Hrest. pose proof (started_good _ _ _ Hwa Hr) as Hy.
  destruct (rest_done _ _ Hy Hrest) as (Hcd & Hwd & Hdd & Hkd). pose proof Hy as (_ & _ & _ & _ & Hil & Hm).
  rewrite Hcd, Hdd in Hil. split.
  - split; [done|]. split; [done|]. split; [done|]. intros route id. by apply registered_routed.
  - intros K1 K2 HK Hv Ho [He2 Ho2] route id. destruct (ordered_events active K1 y Hy Hv Ho) as [[He1 Ho1] Ha].
    rewrite (registered_routed factory _ _ _ _ Hm), <- Ha.
    rewrite <- (registered_routed factory (ProcessEvents factory (rt_empty : M) (y_done y)) (y_done y)).
    + by apply (server_sources_independent factory _ _ _ K1 K2).
    + apply (registered_events factory rt_empty []), registered_empty.
Qed.

(** C8. The running server settles: from every state it reaches, its own steps (the batches
    may be sent in any order, and any version of the file read) end whichever are taken, they
    can be taken until nothing is under way, and there is no other state in which no step is
    possible: no goroutine waits for another forever. *)
Theorem system_settles watcher active y :
  watching watcher -> rtc any (y_start watcher active) y ->
  Acc (fun y2 y1 => step y1 y2) y /\
  (exists y', rtc step y y' /\ at_rest y') /\
  ((forall y', ~ step y y') -> at_rest y).
Proof.
  intros Hwa Hr. pose proof (started_good _ _ _ Hwa Hr) as Hy. split; [apply ystep_wf|]. split.
  - by eapply comes_to_rest.
  - intros Hn. destruct (step_or_rest _ _ Hy) as [Hrest|[y' Hs]]; [done|by destruct (Hn y')].
Qed.

(** C3. Requests to the running server.  In every state it reaches, whatever the sources
    sent, in whatever order, and however much of it has been processed, a request is handed,
    with updated headers, to a handler the factory made for a route and target that are up by
    the events processed so far and that one of them brought up, a route that covers the
    request and has priority over every other route that is up and does, or refused with 403
    when there is none; and the events processed are those of the two sources, interleaved.
    (An event that brings up an entry whose target can be served registers it once more, one
    that takes it down removes one registration, and it is up while one is left; no route has
    2^32 of them.) *)
Theorem system_serves watcher active y cfg r :
  rtc any (y_start watcher active) y -> small_table (rt_table (y_mux y)) ->
  served_by factory (brought_up (y_done y)) (up factory (y_done y)) cfg r (ServeHTTP cfg (y_mux y) r).2 /\
  interleaved (y_config_done y) (y_docker_done y) (y_done y).
Proof.
  intros Hr Hsm. destruct (started_registered _ _ _ Hr) as [Hil Hm]. split; [|done]. by apply registered_served.
Qed.
End System.

(** ** Witnesses *)

#[local] Abbreviation HMux := (Mux.Mux HandlerFunc).

#[local] Abbreviation demo_factory :=
  (Factory.Handler demo_deps no_session no_sftp (NewHandlerFactory None)).

Definition demo_watcher : Watcher :=
  mk_Watcher demo_first 0 0 [] [] [] [toEvents demo_first true] [] [toEvents demo_first true] [demo_first].

(** No Docker daemon answers; the first batch of the configuration is processed. *)
Definition no_listener (client : unit) : option string := Some "cannot connect".

Definition demo_batch_received : System HMux :=
  y_config_recv demo_watcher (toEvents demo_first true) (y_start (Some demo_watcher) []).

Definition demo_running : System HMux :=
  y_config_event demo_factory (mk_ConfigEvent (mk_ConfigEntry "old.org" backend) true) []
    (y_config_event demo_factory (mk_ConfigEvent demo_site true)
       [mk_ConfigEvent (mk_ConfigEntry "old.org" backend) true] demo_batch_received).

Lemma demo_watching : watching (Some demo_watcher).
Proof. intros w [= <-]. exists (demo_first, None, []), None, None. reflexivity. Qed.

Lemma demo_system_run :
  rtc (yany demo_factory id no_listener (mk_DockerWatch tt))
      (y_start (Some demo_watcher) []) demo_running.
Proof.
  eapply rtc_l; [left; apply (ystep_config_recv _ _ _ _ _ demo_watcher (toEvents demo_first true)); reflexivity|].
  eapply rtc_l; [left; eapply ystep_config_event; reflexivity|].
  eapply rtc_l; [left; eapply ystep_config_event; reflexivity|]. apply rtc_refl.
Qed.

Lemma system_converges_witness :
  (y_done demo_running <> []) /\
  forall route id, routed (rt_table (y_mux demo_running)) route id <->
    (route, id) ∈ entry_keys demo_first ∪ ∅.
Proof.
  split; [discriminate|].
  destruct (system_converges demo_factory id no_listener (mk_DockerWatch tt) (Some demo_watcher) [] demo_running
    demo_watching demo_system_run) as [_ Ht].
  - split; [reflexivity|]. split; [reflexivity|]. split; [by intros w [= <-]|]. split; [done|]. intros _. discriminate.
  - apply (Ht (entry_keys demo_first) ∅ (disjoint_empty_r _)).
    + intros w [= <-]. constructor; [|constructor]. split; [apply demo_valid|done].
    + by intros w [= <-].
    + split; [exact I|constructor].
Defined.

Lemma system_settles_witness :
  exists y', rtc (ystep demo_factory id no_listener (mk_DockerWatch tt)) demo_running y' /\
    at_rest no_listener (mk_DockerWatch tt) y'.
Proof.
  apply (system_settles demo_factory id no_listener (mk_DockerWatch tt) (Some demo_watcher) [] demo_running
    demo_watching demo_system_run).
Defined.

Lemma demo_running_small : small_table (rt_table (y_mux demo_running)).
Proof. apply (bool_decide_unpack (small_table (rt_table (y_mux demo_running)))). vm_compute. exact I. Defined.

Lemma system_serves_witness :
  served_by demo_factory (brought_up (y_done demo_running)) (up demo_factory (y_done demo_running)) demo_cfg demo_get
    (ServeHTTP demo_cfg (y_mux demo_running) demo_get).2.
Proof.
  apply (system_serves demo_factory id no_listener (mk_DockerWatch tt) (Some demo_watcher) [] demo_running demo_cfg demo_get
    demo_system_run demo_running_small).
Defined.
