(* ===== verification/SystemOrder.v ===== *)
(** The running server on the ordered list of [MuxOrder] instead of the multiplexer:
    pkg/server/server.go and the goroutines of [System] do on the list exactly what they do on
    the entries, the slice and the map of pkg/mux/mux.go. *)

From S2P Require Import Prelude GoStrings Url Http Routes Mux MuxOrder Config Docker DockerEvents.
From S2P Require Import Stream Handlers HandlersProps Factory Server ServerProps Registrations System SystemProps.

Local Open Scope go_scope.

Section SystemOrder.
#[local] Abbreviation HMux := (Mux.Mux HandlerFunc).
#[local] Abbreviation Rows := (list (row HandlerFunc)).
Context (factory : string -> URL -> result HandlerFunc) (cfg : ServerConfig) (Quote : string -> string).
Context {Client : Type} (AddEventListener : Client -> option string) (docker : DockerWatch Client).
Implicit Types (m : HMux) (y : System HMux) (r : Request).

(** ** Events and requests *)

Lemma ProcessEvent_rows m e :
  Mux.wf m ->
  Mux.wf (ProcessEvent factory m e).1 /\
  rows_of (ProcessEvent factory m e).1 = (ProcessEvent factory (rows_of m) e).1.
Proof.
  intros Hwf. unfold ProcessEvent. cbn [rt_add rt_remove Mux.Mux_Router rows_Router]. destruct (negb (Up e)); cbn [fst].
  - split; [by apply Mux.Remove_wf|by apply Remove_rows].
  - destruct (factory _ _) as [h|err]; cbn [fst]; [|done].
    split; [by apply Mux.Add_wf|by apply Add_rows].
Qed.

(** A request gets the same program, and leaves the same rows. *)
Lemma ServeHTTP_rows m r :
  Mux.wf m ->
  (rows_of (ServeHTTP cfg m r).1, (ServeHTTP cfg m r).2) = ServeHTTP cfg (rows_of m) r.
Proof.
  intros Hwf. unfold ServeHTTP. cbn [rt_lookup Mux.Mux_Router rows_Router].
  destruct (Handler_rows m (r_Host r +:+ Path (r_URL r)) Hwf) as (m' & -> & Hr & _).
  destruct (lookup_row _ _) as [[h|] rows]; cbn in *; by rewrite Hr.
Qed.

(** ** Simulation *)

(** The same system, with the rows of its mux. *)
Definition with_rows y : System Rows :=
  mk_System (rows_of (y_mux y)) (y_watcher y) (y_config_todo y) (y_config_done y) (y_docker y)
    (y_docker_todo y) (y_docker_done y) (y_done y).

#[local] Abbreviation mux_step := (yany factory Quote AddEventListener docker (M := HMux)).
#[local] Abbreviation rows_step := (yany factory Quote AddEventListener docker (M := Rows)).

Lemma y_step_rows y y' :
  Mux.wf (y_mux y) -> mux_step y y' -> rows_step (with_rows y) (with_rows y') /\ Mux.wf (y_mux y').
Proof.
  intros Hwf [Hs|Hs].
  - destruct Hs as [y w w' Hw Hp|y w batch Hw Ht Hc|y e rest Ht|y k Hk Ht Hg|y k k' Hk Hs Hr|y k batch Hk Ht He|y e rest Ht].
    + split; [|done]. left. by apply (ystep_watcher _ _ _ _ (with_rows y) w w').
    + split; [|done]. left. by apply (ystep_config_recv _ _ _ _ (with_rows y) w batch).
    + destruct (ProcessEvent_rows (y_mux y) e Hwf) as [Hw Hr]. split; [|done]. left.
      pose proof (ystep_config_event factory Quote AddEventListener docker (with_rows y) e rest Ht) as Hy.
      unfold y_config_event in Hy. cbn [y_mux with_rows] in Hy. rewrite <- Hr in Hy. exact Hy.
    + split; [|done]. left. by apply (ystep_listen _ _ _ _ (with_rows y) k).
    + split; [|done]. left. by apply (ystep_docker _ _ _ _ (with_rows y) k k').
    + split; [|done]. left. by apply (ystep_docker_recv _ _ _ _ (with_rows y) k batch).
    + destruct (ProcessEvent_rows (y_mux y) e Hwf) as [Hw Hr]. split; [|done]. left.
      pose proof (ystep_docker_event factory Quote AddEventListener docker (with_rows y) e rest Ht) as Hy.
      unfold y_docker_event in Hy. cbn [y_mux with_rows] in Hy. rewrite <- Hr in Hy. exact Hy.
  - destruct Hs as [y w Hw|y k k' Hk Hs|y path h m Hl].
    + split; [|done]. right. by apply (yworld_file (with_rows y) w).
    + split; [|done]. right. by apply (yworld_docker (with_rows y) k k').
    + cbn in Hl. destruct (Handler_rows (y_mux y) path Hwf) as (m' & Hm & Hr & Hw & _).
      rewrite Hl in Hm. injection Hm as -> ->. split; [|done]. right.
      apply (yworld_request (with_rows y) path (lookup_row path (rows_of (y_mux y))).1 (rows_of m')).
      cbn. rewrite Hr. by destruct (lookup_row _ _).
Qed.

(** Every step on the rows is one on the mux. *)
Lemma y_step_mux y z : Mux.wf (y_mux y) -> rows_step (with_rows y) z -> exists y', mux_step y y' /\ with_rows y' = z.
Proof.
  intros Hwf. remember (with_rows y) as yr eqn:E. intros [Hs|Hs].
  - destruct Hs as [y1 w w' Hw Hp|y1 w batch Hw Ht Hc|y1 e rest Ht|y1 k Hk Ht Hg|y1 k k' Hk Hs Hr|y1 k batch Hk Ht He|y1 e rest Ht];
      subst y1.
    + exists (set_watcher w' y). split; [|done]. left. by apply (ystep_watcher _ _ _ _ y w w').
    + exists (y_config_recv w batch y). split; [|done]. left. by apply (ystep_config_recv _ _ _ _ y w batch).
    + exists (y_config_event factory e rest y). split; [left; by apply ystep_config_event|].
      destruct (ProcessEvent_rows (y_mux y) e Hwf) as [_ Hr]. unfold with_rows, y_config_event. cbn. by rewrite Hr.
    + exists (set_docker k y). split; [|done]. left. by apply (ystep_listen _ _ _ _ y k).
    + exists (set_docker k' y). split; [|done]. left. by apply (ystep_docker _ _ _ _ y k k').
    + exists (y_docker_recv k batch y). split; [|done]. left. by apply (ystep_docker_recv _ _ _ _ y k batch).
    + exists (y_docker_event factory e rest y). split; [left; by apply ystep_docker_event|].
      destruct (ProcessEvent_rows (y_mux y) e Hwf) as [_ Hr]. unfold with_rows, y_docker_event. cbn. by rewrite Hr.
  - destruct Hs as [y1 w Hw|y1 k k' Hk Hs|y1 path h rows Hl]; subst y1.
    + exists (set_watcher (file_event w) y). split; [|done]. right. by apply (yworld_file y w).
    + exists (set_docker k' y). split; [|done]. right. by apply (yworld_docker y k k').
    + cbn in Hl. destruct (Handler_rows (y_mux y) path Hwf) as (m' & Hm & Hr & _ & _).
      exists (set_mux m' y). split; [right; by eapply yworld_request|].
      injection Hl as Hl. rewrite Hl in Hr. cbn in Hr. by subst rows.
Qed.

Lemma runs_with_rows y y' :
  Mux.wf (y_mux y) -> rtc mux_step y y' -> rtc rows_step (with_rows y) (with_rows y') /\ Mux.wf (y_mux y').
Proof.
  intros Hwf Hr. induction Hr as [y|y y1 y2 Hs _ IH]; [done|].
  destruct (y_step_rows y y1 Hwf Hs) as [Hs' Hwf']. destruct (IH Hwf') as [Hr' Hw]. split; [|done]. by eapply rtc_l.
Qed.

Lemma runs_with_mux y z :
  Mux.wf (y_mux y) -> rtc rows_step (with_rows y) z -> exists y', rtc mux_step y y' /\ with_rows y' = z.
Proof.
  intros Hwf Hr. remember (with_rows y) as yr eqn:E. revert y Hwf E.
  induction Hr as [z|yr z1 z2 Hs _ IH]; intros y Hwf ->; [by exists y|].
  destruct (y_step_mux y z1 Hwf Hs) as (y1 & Hs1 & <-). destruct (y_step_rows y y1 Hwf Hs1) as [_ Hwf1].
  destruct (IH y1 Hwf1 eq_refl) as (y' & Hr' & Hz). exists y'. split; [by eapply rtc_l|done].
Qed.

(** C7. The running server is a server on an ordered list.  Whatever the goroutines of the
    watcher, of the container events and of the server do, with whatever containers at the
    start, whatever the file, the Docker daemon and the clients do: the states reached are,
    read as rows, exactly the states reached when the multiplexer is replaced by the list;
    and in each of them a request gets the same program from both. *)
Theorem server_on_ordered_list watcher active :
  (forall z, rtc rows_step (y_start watcher active) z <->
     exists y, rtc mux_step (y_start watcher active) y /\ with_rows y = z) /\
  (forall y, rtc mux_step (y_start watcher active) y ->
     forall r, (ServeHTTP cfg (y_mux y) r).2 = (ServeHTTP cfg (rows_of (y_mux y)) r).2).
Proof.
  assert (Hstart : with_rows (y_start watcher active) = y_start watcher active) by reflexivity.
  split.
  - intros z. rewrite <- Hstart. split; [apply (runs_with_mux (y_start watcher active) z), Mux.empty_wf|].
    intros (y & Hr & <-). by apply (runs_with_rows (y_start watcher active) y); [apply Mux.empty_wf|].
  - intros y Hr r. assert (Hwf : Mux.wf (y_mux y)) by (eapply (runs_with_rows (y_start watcher active)); [apply Mux.empty_wf|done]).
    by rewrite <- (ServeHTTP_rows (y_mux y) r Hwf).
Qed.
End SystemOrder.

(** ** Witness *)

#[local] Abbreviation demo_factory :=
  (Factory.Handler demo_deps no_session no_sftp (NewHandlerFactory None)).

Lemma server_on_ordered_list_witness :
  rtc (yany demo_factory id no_listener (mk_DockerWatch tt))
    (y_start (Some demo_watcher) []) (with_rows demo_running) /\
  (ServeHTTP demo_cfg (y_mux demo_running) demo_get).2 = (ServeHTTP demo_cfg (rows_of (y_mux demo_running)) demo_get).2.
Proof.
  destruct (server_on_ordered_list demo_factory demo_cfg id no_listener (mk_DockerWatch tt)
    (Some demo_watcher) []) as [Hs Hr]. split.
  - apply Hs. exists demo_running. split; [exact demo_system_run|reflexivity].
  - apply Hr, demo_system_run.
Defined.
