(* ===== verification/Startup.v ===== *)
(** The start of the server (pkg/server/server.go, [NewServer]): which of its sources run and
    what is logged when some of them fail, and that what is started is the [System] whose
    properties [SystemProps] proves. *)

From S2P Require Import Prelude GoStrings Url Http Routes Config Docker DockerEvents Stream.
From S2P Require Import Handlers HandlersProps Factory Server ServerProps Registrations System SystemProps.

Local Open Scope go_scope.

Section Startup.
Context {M : Type} `{Router HandlerFunc M}.
Context (factory : string -> URL -> result HandlerFunc) (Quote : string -> string).
Context {Client : Type} (AddEventListener : Client -> option string).
Context (cfg : ServerConfig) (config : result Watcher) (docker : result (DockerWatch Client)).
Context (active : DockerWatch Client -> result (list ConfigEvent)).
Implicit Types (y : System M) (events : list ConfigEvent).

(** ** What a start amounts to *)

(** The watcher that runs: there is a configuration file and it could be read and watched. *)
Definition started_watcher : option Watcher :=
  if (0 <? String.length (ConfigFile cfg))%nat then match config with Ok w => Some w | Err _ => None end
  else None.

(** The containers routed first: they are asked for and could be listed. *)
Definition started_events : list ConfigEvent :=
  if WatchDockerEvents cfg then
    match docker with
    | Ok d => match active d with Ok events => events | Err _ => [] end
    | Err _ => []
    end
  else [].

(** Whether their events are followed. *)
Definition follows_docker : Prop :=
  WatchDockerEvents cfg = true /\
  exists d events, docker = Ok d /\ active d = Ok events /\ AddEventListener (client d) = None.

(** The error of each source, in the order they are started in. *)
Definition php_error : option string :=
  match Parse (PHPAddr cfg) with Ok _ => None | Err err => Some err end.

Definition config_error : option string :=
  if (0 <? String.length (ConfigFile cfg))%nat then match config with Ok _ => None | Err err => Some err end
  else None.

Definition docker_error : option string :=
  if WatchDockerEvents cfg then
    match docker with
    | Err err => Some err
    | Ok d => match active d with Err err => Some err | Ok _ => AddEventListener (client d) end
    end
  else None.

(** ** Lemmas *)

Lemma events_processed {C : Type} (listen : C -> option string) (dock : DockerWatch C) events y :
  y_docker_todo y = events ->
  exists y', rtc (ystep factory Quote listen dock) y y' /\
    y_mux y' = ProcessEvents factory (y_mux y) events /\ y_watcher y' = y_watcher y /\
    y_config_todo y' = y_config_todo y /\ y_docker y' = y_docker y /\ y_docker_todo y' = [].
Proof.
  revert y. induction events as [|e events IH]; intros y Hy; [by exists y|].
  destruct (IH (y_docker_event factory e events y) eq_refl) as (y' & Hr & Hm & Hw & Hc & Hd & Ht).
  exists y'. split; [|done]. eapply rtc_l; [|exact Hr]. by apply ystep_docker_event.
Qed.

(** A start, as far as the containers go. *)
Definition reaches (m : M) (watcher : option Watcher) (k : option Pipeline) events : Prop :=
  exists (C : Type) (listen : C -> option string) (dock : DockerWatch C) y,
    rtc (ystep factory Quote listen dock) (y_start watcher events) y /\
    y_mux y = m /\ y_watcher y = watcher /\ y_config_todo y = [] /\ y_docker y = k /\ y_docker_todo y = [] /\
    (k = None -> forall k', GetConfigEvents listen dock <> Ok k').

Lemma reaches_without watcher events : reaches (ProcessEvents factory rt_empty events) watcher None events.
Proof.
  destruct (events_processed no_listener (mk_DockerWatch tt) events (y_start watcher events) eq_refl)
    as (y & Hr & Hm & Hw & Hc & Hd & Ht).
  exists unit, no_listener, (mk_DockerWatch tt), y. by repeat (split; [done|]).
Qed.

Lemma reaches_listening watcher events d k :
  GetConfigEvents AddEventListener d = Ok k ->
  reaches (ProcessEvents factory rt_empty events) watcher (Some k) events.
Proof.
  intros Hk. destruct (events_processed AddEventListener d events (y_start watcher events) eq_refl)
    as (y & Hr & Hm & Hw & Hc & Hd & Ht).
  exists Client, AddEventListener, d, (set_docker k y). split; [|by repeat (split; [done|])].
  eapply rtc_r; [exact Hr|]. by apply ystep_listen.
Qed.

(** ** Properties *)

(** C17. Start-up never fails.  Whatever goes wrong with the sources (the configuration file
    cannot be read or watched, the Docker daemon does not answer, the containers cannot be
    listed or followed), the server runs with those that work, logs exactly the errors of the
    others in the order of the start, and is in a state of the system that the goroutines of
    the running server go on from: the containers listed are routed, also when they cannot be
    followed, and nothing is under way; a source that failed takes no part in the steps. *)
Theorem NewServer_starts_system :
  let '(s, logs) := NewServer factory cfg config docker active AddEventListener in
  s_config s = cfg /\ s_watcher s = started_watcher /\ (is_Some (s_docker s) <-> follows_docker) /\
  logs = option_list php_error ++ option_list config_error ++ option_list docker_error /\
  reaches (s_mux s) (s_watcher s) (s_docker s) started_events.
Proof.
  unfold NewServer, php_error, config_error, docker_error, started_watcher, started_events, follows_docker, loadConfig.
  set (php := match Parse (PHPAddr cfg) with Ok _ => [] | Err err => [err] end).
  assert (Hphp : php = option_list match Parse (PHPAddr cfg) with Ok _ => None | Err err => Some err end)
    by (unfold php; by destruct (Parse (PHPAddr cfg))).
  rewrite <- Hphp. cbn [s_config].
  assert (Hload : (if (0 <? String.length (ConfigFile cfg))%nat then
      if (String.length (ConfigFile cfg) =? 0)%nat then (mk_Server (rt_empty : M) cfg None None, None)
      else match config with
           | Err err => (mk_Server rt_empty cfg None None, Some err)
           | Ok w => (mk_Server rt_empty cfg (Some w) None, None)
           end
    else (mk_Server rt_empty cfg None None, None)) = (mk_Server rt_empty cfg started_watcher None, config_error)).
  { unfold started_watcher, config_error. destruct (ConfigFile cfg); [done|]. cbn. by destruct config. }
  cbn [s_mux s_config s_docker]. unfold loadConfig in *. rewrite Hload.
  fold started_watcher config_error.
  destruct (WatchDockerEvents cfg); [|].
  2:{ cbn. split; [done|]. split; [done|]. split; [split; [by intros [? ?]|by intros [? _]]|].
      split; [done|]. apply reaches_without. }
  unfold watchDockerEvents. destruct docker as [d|err].
  2:{ cbn. split; [done|]. split; [done|]. split; [split; [by intros [? ?]|by intros (_ & ? & ? & ? & _)]|].
      split; [done|]. apply reaches_without. }
  destruct (active d) as [events|err] eqn:Ea.
  2:{ cbn. split; [done|]. split; [done|]. split; [split; [by intros [? ?]|]|split; [done|apply reaches_without]].
      intros (_ & d' & events & [= ->] & ? & _). congruence. }
  unfold GetConfigEvents. destruct (AddEventListener (client d)) as [err|] eqn:El; cbn.
  - split; [done|]. split; [done|]. split; [split; [by intros [? ?]|]|split; [done|apply reaches_without]].
    intros (_ & d' & events' & [= ->] & _ & ?). congruence.
  - split; [done|]. split; [done|]. split; [split; [|done]|].
    + intros _. split; [done|]. by exists d, events.
    + split; [done|]. apply (reaches_listening _ _ d). unfold GetConfigEvents. by rewrite El.
Qed.
End Startup.
