(* ===== verification/EndToEnd.v ===== *)
(** A request through the whole server: listener and logging (pkg/logger/logger.go), dispatch
    and headers (pkg/server/server.go, pkg/mux/mux.go), the factory and the reverse proxy
    (pkg/handler), in a state the running server reaches. *)

From S2P Require Import Prelude GoStrings Url Http Logger Routes Mux Config Docker DockerEvents GoPath Stream.
From S2P Require Import PrefixWriter PrefixWriterProps Handlers HandlersProps Autocert Remote Factory Server ServerProps.
From S2P Require Import Links Registrations System SystemProps.

Local Open Scope go_scope.
Local Open Scope prog_scope.

(** The request the proxy hands to its transport, in full. *)
Definition forwarded (cfg : ServerConfig) (hostPath : string) (target : URL) (r r' : Request) : Prop :=
  let u := strip_prefix hostPath (r_URL r) in
  Scheme (r_URL r') = Scheme target /\ Host (r_URL r') = Host target /\
  RawQuery (r_URL r') = joinQuery (RawQuery target) (RawQuery u) /\
  ((RawPath (r_URL r') = EmptyString /\ joined (Path target) (Path u) (Path (r_URL r'))) \/
   (joined (EscapedPath target) (EscapedPath u) (RawPath (r_URL r')) /\
    unescape (RawPath (r_URL r')) encodePath = Ok (Path (r_URL r')))) /\
  Method r' = Method r /\ r_Host r' = r_Host r /\
  (forall name, CanonicalMIMEHeaderKey name <> "User-Agent" ->
     Header_Values (r_Header r') name = Header_Values (forwarded_header cfg r) name).

Lemma proxy_director_header target r r' :
  proxy_director target r = Return r' ->
  forall name, CanonicalMIMEHeaderKey name <> "User-Agent" ->
  Header_Values (r_Header r') name = Header_Values (r_Header r) name.
Proof.
  unfold proxy_director. destruct (joinURLPath _ _) as [[p raw]|]; [|done]. cbn [outcome_bind]. intros [= <-] name Hn.
  cbn [r_Header set_r_Header]. destruct (r_Header r !! "User-Agent"); [done|].
  by rewrite Header_Values_Set_other.
Qed.

(** A proxy route behind the server's headers. *)
Lemma proxied_program d cfg hostname hostPath target r :
  exists r', forwarded cfg hostPath target r r' /\
    proxy_director target (set_r_URL (strip_prefix hostPath (r_URL r)) (set_r_Header (forwarded_header cfg r) r)) =
      Return r' /\
    (let* r := updateHeaders cfg r in newProxyHandler d hostname hostPath target r) =
    (do* p_put (add_extra (ExtraHeaders cfg)) in
     with_prefix_writer (d_DetectContentType d) (d_tokenize d) hostname hostPath (Path target) (d_transport d r')).
Proof.
  set (r0 := set_r_Header (forwarded_header cfg r) r).
  destruct (proxy_director_spec target (set_r_URL (strip_prefix hostPath (r_URL r)) r0))
    as (r' & Hr & Hs & Hh & Hq & Hp & Hm & Hhost).
  exists r'. split.
  - split; [exact Hs|]. split; [exact Hh|]. split; [exact Hq|]. split; [exact Hp|]. split; [exact Hm|].
    split; [exact Hhost|]. exact (proxy_director_header _ _ _ Hr).
  - split; [exact Hr|]. unfold updateHeaders, newProxyHandler, handlePathCombinations, proxy_handler.
    cbn [p_put bind]. fold r0. change (r_URL r0) with (r_URL r). by rewrite Hr.
Qed.

Section EndToEnd.
Context {M : Type} `{RouterLaws HandlerFunc M}.
Context (d : Deps) (NewSession : S3Config -> result (string -> FS)) (sftp_server : sftpFS -> SftpServer).
Context (hf : HandlerFactory) (Quote : string -> string).
Context {Client : Type} (AddEventListener : Client -> option string) (docker : DockerWatch Client).
(** What the listener needs besides. *)
Context (ua : string -> string * (string * string)) (ReadFile : string -> result (option string)).
Context (ContainsHost : M -> string -> outcome bool) (cfg : ServerConfig).
Implicit Types (y : System M).

#[local] Abbreviation factory := (Factory.Handler d NewSession sftp_server hf).

(** The only route and target up that cover a path. *)
Definition only_target y (path route : string) (target : URL) : Prop :=
  up factory (y_done y) (route, URL_String target) /\ route_match route path = true /\
  (forall route' id', up factory (y_done y) (route', id') -> route_match route' path = true ->
     route' = route /\ id' = URL_String target) /\
  (forall target', brought_up (y_done y) route target' -> URL_String target' = URL_String target -> target' = target).

(** A state the running server reaches, whatever the sources sent; no route has 2^32
    handlers. *)
Definition in_service watcher active y : Prop :=
  rtc (yany factory Quote AddEventListener docker) (y_start watcher active) y /\
  small_table (rt_table (y_mux y)).

(** What every request with a single target has in common: the connection gets what the
    factory's handler for the target does, after the headers are updated. *)
Lemma single_target_exec watcher active y (route : string) (target : URL) (r : Request) (mg : Manager)
    (elapsed : string) (counter : Z) (c : Conn) :
  in_service watcher active y ->
  only_target y (r_Host r +:+ Path (r_URL r)) route target ->
  exists h, factory route target = Ok h /\
    (exec (exchange ContainsHost ua ReadFile Quote cfg ServeSites (y_mux y) mg elapsed counter r).2.2 c).2 =
    (exec (let* r := updateHeaders cfg r in h r) c).2.
Proof.
  intros [Hr Hsm] (Hin & Hm & Honly & Hsame). destruct (started_registered _ _ _ _ _ _ _ Hr) as [_ Hreg].
  pose proof (registered_served factory _ _ cfg r Hreg Hsm) as Hserved.
  unfold exchange, serves. destruct (ServeHTTP cfg (y_mux y) r) as [m p] eqn:Es. cbn [snd] in *.
  rewrite LoggerMiddleware_conn.
  destruct Hserved as [(route' & target' & h & Hup & Hk & Hrm & _ & Hh & ->)|[Hnone _]].
  2:{ by rewrite (Hnone _ _ Hin) in Hm. }
  destruct (Honly _ _ Hk Hrm) as [-> Hid]. apply Hsame in Hid as ->; [|done]. by exists h.
Qed.

Lemma proxied_response watcher active y (route : string) (target : URL) (r : Request) (mg : Manager)
    (elapsed : string) (counter : Z) (c : Conn) :
  in_service watcher active y ->
  Scheme target = "http" \/ Scheme target = "https" ->
  only_target y (r_Host r +:+ Path (r_URL r)) route target ->
  let '(hostname, hostPath) := splitHostnameAndPath route in
  exists r', forwarded cfg hostPath target r r' /\
    proxy_director target (set_r_URL (strip_prefix hostPath (r_URL r)) (set_r_Header (forwarded_header cfg r) r)) =
      Return r' /\
    (exec (exchange ContainsHost ua ReadFile Quote cfg ServeSites (y_mux y) mg elapsed counter r).2.2 c).2 =
    (exec (do* p_put (add_extra (ExtraHeaders cfg)) in
           with_prefix_writer (d_DetectContentType d) (d_tokenize d) hostname hostPath (Path target)
             (d_transport d r')) c).2.
Proof.
  intros Hy Hscheme Hone.
  destruct (single_target_exec watcher active y route target r mg elapsed counter c Hy Hone) as (h & Hh & ->).
  destruct (splitHostnameAndPath route) as [hostname hostPath] eqn:Esplit.
  assert (Hproxy : h = newProxyHandler d hostname hostPath target).
  { unfold Factory.Handler in Hh. rewrite Esplit in Hh. by destruct Hscheme as [Hsc|Hsc]; rewrite Hsc in Hh; injection Hh as <-. }
  subst h. destruct (proxied_program d cfg hostname hostPath target r) as (r' & Hf & Hd & Hp).
  exists r'. split; [exact Hf|]. split; [exact Hd|]. by rewrite Hp.
Qed.

(** C4. A request to its backend and back.  In every state the running server reaches, a
    request on one of its listeners that a single proxy route covers is forwarded, once, to
    the target: its scheme and host, the path below the route's joined to the target's, both
    queries, the method, and the headers less the discarded ones with the server's; and the
    connection gets what the backend answers, with the server's headers, through the writer
    that moves the page's links under the route's path, whatever is logged. *)
Theorem proxied_end_to_end watcher active y (route : string) (target : URL) (r : Request) (mg : Manager)
    (elapsed : string) (counter : Z) (c : Conn) :
  in_service watcher active y ->
  Scheme target = "http" \/ Scheme target = "https" ->
  only_target y (r_Host r +:+ Path (r_URL r)) route target ->
  let '(hostname, hostPath) := splitHostnameAndPath route in
  let '(m, (_, p)) := exchange ContainsHost ua ReadFile Quote cfg ServeSites (y_mux y) mg elapsed counter r in
  exists r', forwarded cfg hostPath target r r' /\
    (exec p c).2 =
    (exec (do* p_put (add_extra (ExtraHeaders cfg)) in
           with_prefix_writer (d_DetectContentType d) (d_tokenize d) hostname hostPath (Path target)
             (d_transport d r')) c).2.
Proof.
  intros Hy Hscheme Hone.
  pose proof (proxied_response watcher active y route target r mg elapsed counter c Hy Hscheme Hone) as Hr.
  destruct (splitHostnameAndPath route) as [hostname hostPath].
  destruct (exchange _ _ _ _ _ _ _ _ _ _ _) as [m [counter' p]].
  destruct Hr as (r' & Hf & _ & He). by exists r'.
Qed.

(** C11. Links of a proxied page, followed.  A link of the page to anything below the target's
    path, with percent escapes, a query and a fragment, is moved by the writer to a link that
    parses; a request for it (the browser sends path and query) reaches the server, and in any
    state in which the page's route is the only one that covers the request, it is forwarded to
    the target for the very path the link named and with its query, and the client gets what
    the target answers. *)
Theorem proxied_link_followed watcher active y (route : string) (target : URL) (loc t : string) (u : URL) :
  in_service watcher active y ->
  Scheme target = "http" \/ Scheme target = "https" -> RawPath target = EmptyString ->
  plain_path (Path target) -> plain_path (splitHostnameAndPath route).2 ->
  loc = Path target +:+ slash +:+ t -> HasPrefix t slash = false -> Parse loc = Ok u ->
  let '(hostname, hostPath) := splitHostnameAndPath route in
  exists u', Parse (updateLocation loc hostname hostPath (Path target)) = Ok u' /\ Fragment u' = Fragment u /\
    forall r mg elapsed counter c,
      Path (r_URL r) = Path u' -> RawPath (r_URL r) = RawPath u' -> RawQuery (r_URL r) = RawQuery u' ->
      only_target y (r_Host r +:+ Path u') route target ->
      exists r', forwarded cfg hostPath target r r' /\ Path (r_URL r') = Path u /\
        RawQuery (r_URL r') = joinQuery (RawQuery target) (RawQuery u) /\
        (exec (exchange ContainsHost ua ReadFile Quote cfg ServeSites (y_mux y) mg elapsed counter r).2.2 c).2 =
        (exec (do* p_put (add_extra (ExtraHeaders cfg)) in
               with_prefix_writer (d_DetectContentType d) (d_tokenize d) hostname hostPath (Path target)
                 (d_transport d r')) c).2.
Proof.
  intros Hy Hscheme Hraw Htp Hhp Hloc Hnt Hparse.
  pose proof (fun r mg elapsed counter c => proxied_response watcher active y route target r mg elapsed counter c Hy Hscheme) as Hresp.
  destruct (splitHostnameAndPath route) as [hostname hostPath]. cbn [snd] in Hhp.
  destruct (moved_reference hostname hostPath (Path target) loc t u Hhp Htp Hloc Hnt Hparse)
    as (u' & p & raw & Hu' & _ & [Hpu _] & [Hpu' Hru'] & Hq & Hfr & _).
  exists u'. split; [exact Hu'|]. split; [exact Hfr|]. intros r mg elapsed counter c Hp Hr Hrq Hone.
  rewrite <- Hp in Hone. destruct (Hresp r mg elapsed counter c Hone) as (r' & Hf & Hd & He).
  destruct (forwarded_reference hostPath target p raw (set_r_Header (forwarded_header cfg r) r) Htp Hraw)
    as (r1 & Hr1 & Hp1); [split; cbn; congruence|].
  cbn [r_URL set_r_Header] in Hr1. rewrite Hd in Hr1. injection Hr1 as <-.
  exists r'. split; [exact Hf|]. split; [congruence|]. split; [|exact He].
  destruct Hf as (_ & _ & -> & _). f_equal. unfold strip_prefix. destruct (negb _); cbn; congruence.
Qed.
End EndToEnd.

(** ** Witness *)

#[local] Abbreviation demo_factory :=
  (Factory.Handler demo_deps no_session no_sftp (NewHandlerFactory None)).

Definition old_request : Request :=
  mk_Request "GET" (set_Paths "/page" "" empty_URL) {["Forwarded" := ["for=1.1.1.1"]]} "old.org" "1.2.3.4:5".

Lemma old_only_target path :
  route_match "old.org" path = true -> route_match "h" path = false ->
  only_target demo_deps no_session no_sftp (NewHandlerFactory None) demo_running path "old.org" backend.
Proof.
  intros Hold Hh. split; [apply Nat.ltb_lt; vm_compute; reflexivity|]. split; [exact Hold|].
  assert (Hall : forall e, e ∈ y_done demo_running -> route_match (Hostname (ce_entry e)) path = true ->
    ce_entry e = mk_ConfigEntry "old.org" backend).
  { intros e [->|[->|He]%elem_of_cons]%elem_of_cons Hm; [|done|by apply not_elem_of_nil in He].
    change (route_match "h" path = true) in Hm. congruence. }
  split.
  - intros route id (e & He & _ & Hk)%up_brought_up Hm. injection Hk as <- <-.
    by rewrite (Hall e He Hm).
  - intros target Hb _. by injection (Hall _ Hb Hold).
Qed.

Lemma demo_in_service :
  in_service (M := Mux.Mux HandlerFunc) demo_deps no_session no_sftp (NewHandlerFactory None) id no_listener
    (mk_DockerWatch tt) (Some demo_watcher) [] demo_running.
Proof. split; [exact demo_system_run|exact demo_running_small]. Qed.

Lemma proxied_end_to_end_witness :
  exists r', forwarded demo_cfg "" backend old_request r' /\
    (exec (exchange (M := Mux.Mux HandlerFunc) Mux.ContainsHost (fun _ => ("", ("", ""))) (fun _ => Ok None) id demo_cfg
       ServeSites (y_mux demo_running) new_Manager "0" 0 old_request).2.2 (new_Conn "" None)).2 =
    (exec (do* p_put (add_extra (ExtraHeaders demo_cfg)) in
       with_prefix_writer sniff byte_tokens "old.org" "" "/app" (d_transport demo_deps r')) (new_Conn "" None)).2.
Proof.
  pose proof (proxied_end_to_end (M := Mux.Mux HandlerFunc) demo_deps no_session no_sftp (NewHandlerFactory None) id
    no_listener (mk_DockerWatch tt) (fun _ => ("", ("", ""))) (fun _ => Ok None)
    Mux.ContainsHost demo_cfg (Some demo_watcher) [] demo_running "old.org" backend old_request new_Manager "0" 0
    (new_Conn "" None) demo_in_service) as He.
  change (splitHostnameAndPath "old.org") with ("old.org", "") in He. cbv beta iota in He.
  destruct (exchange _ _ _ _ _ _ _ _ _ _ _) as [m [counter p]]. cbn [snd]. apply He.
  - by left.
  - by apply old_only_target.
Defined.

Lemma proxied_link_followed_witness :
  exists u', Parse (updateLocation "/app/a%20b?x=1#top" "old.org" "" "/app") = Ok u' /\
    exists r', Path (r_URL r') = "/app/a b" /\ RawQuery (r_URL r') = "x=1" /\
    (exec (exchange (M := Mux.Mux HandlerFunc) Mux.ContainsHost (fun _ => ("", ("", ""))) (fun _ => Ok None) id demo_cfg
       ServeSites (y_mux demo_running) new_Manager "0" 0 (mk_Request "GET" u' ∅ "old.org" "")).2.2 (new_Conn "" None)).2 =
    (exec (do* p_put (add_extra (ExtraHeaders demo_cfg)) in
       with_prefix_writer sniff byte_tokens "old.org" "" "/app" (d_transport demo_deps r')) (new_Conn "" None)).2.
Proof.
  destruct (Parse "/app/a%20b?x=1#top") as [u|] eqn:Eu; [|vm_compute in Eu; discriminate].
  pose proof (proxied_link_followed (M := Mux.Mux HandlerFunc) demo_deps no_session no_sftp (NewHandlerFactory None) id
    no_listener (mk_DockerWatch tt) (fun _ => ("", ("", ""))) (fun _ => Ok None)
    Mux.ContainsHost demo_cfg (Some demo_watcher) [] demo_running "old.org" backend "/app/a%20b?x=1#top" "a%20b?x=1#top" u
    demo_in_service) as Hl.
  change (splitHostnameAndPath "old.org") with ("old.org", "") in Hl. cbv beta iota in Hl.
  destruct Hl as (u' & Hu' & _ & Hr).
  - by left.
  - reflexivity.
  - split; [right|reflexivity]. by repeat split.
  - split; [by left|reflexivity].
  - reflexivity.
  - reflexivity.
  - exact Eu.
  - exists u'. split; [exact Hu'|]. vm_compute in Eu. injection Eu as <-.
    assert (Hpath : Path u' = "/a b") by (vm_compute in Hu'; injection Hu' as <-; reflexivity).
    destruct (Hr (mk_Request "GET" u' ∅ "old.org" "") new_Manager "0" 0%Z (new_Conn "" None) eq_refl eq_refl eq_refl)
      as (r' & _ & Hp & Hq & He); [rewrite Hpath; by apply old_only_target|].
    exists r'. split; [exact Hp|]. split; [exact Hq|exact He].
Defined.
