(* ===== verification/Answers.v ===== *)
(** A request through the whole server that the program answers itself: redirections
    (pkg/handler/redirect.go) and directories (pkg/handler/fileserver.go, pkg/fileserver), in
    the states the running server reaches; and the links of its pages, followed. *)

From S2P Require Import Prelude GoStrings Url Http Logger Routes Mux Config Docker DockerEvents GoPath Stream.
From S2P Require Import Listing FileServer PrefixWriter PrefixWriterProps Handlers HandlersProps ListingProps.
From S2P Require Import Autocert Remote Factory Server ServerProps Registrations System SystemProps EndToEnd.

Local Open Scope go_scope.
Local Open Scope prog_scope.

(** ** What a directory route answers *)

(** The server's headers declare no length of their own. *)
Definition no_length (cfg : ServerConfig) : Prop :=
  Header_Get (add_extra (ExtraHeaders cfg) ∅) "Content-Length" = EmptyString.

(** The exchange as a handler finds it. *)
Definition begun (cfg : ServerConfig) (input : string) : Conn :=
  set_live (add_extra (ExtraHeaders cfg) ∅) (new_Conn input None).

Definition answered (c : Conn) (code : Z) (body : string) : Prop :=
  c_status c = Some code /\ c_body c = body.

Definition newline : string := str1 "010"%char.

(** The page of a listing, its links moved under the route's path. *)
Definition moved_page (d : Deps) (hostname hostPath : string) (entries : list fsEntry) : string :=
  str_concat (rendered (modifyToken hostname hostPath EmptyString)
                (d_tokenize d (str_concat (fsTemplate entries))) 0).

(** Sending an open file. *)
Definition send_file (d : Deps) (r : Request) (file : File) (fi : FileInfo) : prog unit :=
  let* _ :=
    match f_seek file with
    | None => Ret tt
    | Some _ =>
        do* p_put (Header_Set "Content-Disposition" ("attachment; filename=" +:+ d_Quote d (Name fi))) in
        do* io_Copy (f_reader file) in Ret tt
    end in
  d_ServeContent d r (Name fi) (ModTime fi) file.

(** The connection [c] after a request for [uri], by what the system says about it. *)
Definition directory_answer (d : Deps) (cfg : ServerConfig) (hostname hostPath root uri : string)
    (r : Request) (input : string) (c : Conn) : Prop :=
  match Directory_Open (d_os d) root uri with
  | Err err => answered c 404 (err +:+ newline)
  | Ok file =>
      match f_Stat file with
      | Err err => answered c 500 (err +:+ newline)
      | Ok fi =>
          if IsDir fi then
            match f_Readdir file with
            | Err err => answered c 500 (err +:+ newline)
            | Ok files => forall entries, dir_entries (d_format_time d) files uri = Return entries ->
                answered c 200 (moved_page d hostname hostPath entries)
            end
          else c = (exec (with_prefix_writer (d_DetectContentType d) (d_tokenize d) hostname hostPath EmptyString
                            (send_file d r file fi)) (begun cfg input)).2
      end
  end.

(** ** Lemmas: answers behind the prefix writer *)

Section Writer.
Context (Detect : string -> string) (tokenize : string -> list Token).
Context (tokenize_empty : tokenize EmptyString = []).

Lemma moved_location_length hostname hostPath targetPath h :
  Header_Get (moved_location hostname hostPath targetPath h) "Content-Length" = Header_Get h "Content-Length".
Proof. unfold moved_location. destruct (0 <? _)%nat; [|done]. by rewrite Header_Get_Set_other. Qed.

Lemma moved_location_type hostname hostPath targetPath h :
  Header_Get (moved_location hostname hostPath targetPath h) "Content-Type" = Header_Get h "Content-Type".
Proof. unfold moved_location. destruct (0 <? _)%nat; [|done]. by rewrite Header_Get_Set_other. Qed.

(** An error answer is text and goes through. *)
Lemma finish_http_Error hostname hostPath targetPath msg code c :
  c_status c = None -> c_limit c = None -> c_length c = None ->
  (100 <= code <= 999)%Z -> bodyAllowed code = true ->
  Header_Get (c_live c) "Content-Length" = EmptyString ->
  answered (exec (with_prefix_writer Detect tokenize hostname hostPath targetPath (http_Error msg code)) c).2
    code (c_body c +:+ msg +:+ newline).
Proof.
  intros Hst Hlim Hlen Hcode Hall Hcl.
  set (h := Header_Set "X-Content-Type-Options" "nosniff"
    (Header_Set "Content-Type" "text/plain; charset=utf-8" (c_live c))).
  change (exec (with_prefix_writer Detect tokenize hostname hostPath targetPath (http_Error msg code)) c)
    with (exec (with_prefix_writer Detect tokenize hostname hostPath targetPath (page h code [msg +:+ newline])) c).
  assert (Hhtml : is_html (moved_location hostname hostPath targetPath h) = false).
  { unfold is_html. rewrite moved_location_type. unfold h. rewrite Header_Get_Set_other by done.
    by rewrite Header_Get_Set. }
  destruct (page_exec Detect tokenize tokenize_empty hostname hostPath targetPath h code [msg +:+ newline] c)
    as (_ & Hs & _ & Hb); [done..| |].
  - intros _. rewrite moved_location_length. unfold h. by rewrite !Header_Get_Set_other.
  - rewrite Hhtml in Hb. split; [exact Hs|]. rewrite Hb. cbn [str_concat]. by rewrite sapp_nil_r.
Qed.

(** The writes of a template, into a writer that found HTML. *)
Lemma template_html bs w c :
  headerSent w = true -> isHTML w = true ->
  exec (@wrap _ _ (ppw_Writer Detect) (ppw_Close tokenize) (do* template_Execute bs in Ret tt) w) c =
  (Some (pipe_write (str_concat bs) w, tt), c).
Proof.
  revert w. induction bs as [|b bs IH]; intros w Hs Hh; cbn [template_Execute wrap exec str_concat p_write bind].
  { do 3 f_equal. destruct w. unfold pipe_write. cbn. by rewrite sapp_nil_r. }
  rewrite exec_bind. cbn [w_Write ppw_Writer]. unfold ppw_Write. rewrite Hs. cbn [negb bind]. rewrite Hh.
  cbn [exec]. rewrite IH by done. do 3 f_equal. unfold pipe_write. cbn. by rewrite sapp_assoc.
Qed.

(** A template whose first write looks like HTML is a page of type HTML. *)
Lemma template_page w b bs c :
  c_status c = None -> headerSent w = false -> HasPrefix (Detect b) "text/html" = true ->
  exec (@wrap _ _ (ppw_Writer Detect) (ppw_Close tokenize) (do* template_Execute (b :: bs) in Ret tt) w) c =
  exec (@wrap _ _ (ppw_Writer Detect) (ppw_Close tokenize)
          (page (Header_Set "Content-Type" (Detect b) (c_live c)) 200 (b :: bs)) w) c.
Proof.
  intros Hst Hs Hh. set (h := Header_Set "Content-Type" (Detect b) (c_live c)).
  cbn [template_Execute p_write bind]. unfold page. cbn [wrap exec]. rewrite !exec_bind.
  cbn [w_Write w_WriteHeader ppw_Writer]. unfold ppw_Write. rewrite Hs. cbn [negb]. unfold p_put. cbn [bind exec].
  fold h. rewrite exec_bind, ppw_WriteHeader_exec by done. cbn [c_live set_live].
  assert (Hhtml : is_html (moved_location (hostname w) (hostPath w) (targetPath w) h) = true).
  { unfold is_html. rewrite moved_location_type. unfold h. by rewrite Header_Get_Set. }
  rewrite Hhtml. destruct (conn_WriteHeader 200 _) as [c1|]; [|done].
  cbn [isHTML set_isHTML exec]. rewrite template_html by done.
  rewrite writes_html by done. do 3 f_equal. unfold pipe_write. cbn. by rewrite sapp_assoc.
Qed.

Lemma finish_template hostname hostPath targetPath b bs c :
  c_status c = None -> c_limit c = None -> c_length c = None ->
  HasPrefix (Detect b) "text/html" = true ->
  answered (exec (with_prefix_writer Detect tokenize hostname hostPath targetPath
                    (do* template_Execute (b :: bs) in Ret tt)) c).2
    200 (c_body c +:+ str_concat (rendered (modifyToken hostname hostPath targetPath)
                                    (tokenize (str_concat (b :: bs))) 0)).
Proof.
  intros Hst Hlim Hlen Hh. set (h := Header_Set "Content-Type" (Detect b) (c_live c)).
  assert (Hhtml : is_html (moved_location hostname hostPath targetPath h) = true).
  { unfold is_html. rewrite moved_location_type. unfold h. by rewrite Header_Get_Set. }
  unfold with_prefix_writer, finish. rewrite exec_bind, template_page, <- exec_bind by done.
  destruct (page_exec Detect tokenize tokenize_empty hostname hostPath targetPath h 200 (b :: bs) c)
    as (_ & Hs & _ & Hb); [done..|congruence|].
  rewrite Hhtml in Hb. by split.
Qed.
End Writer.

(** A directory's handler gives the directory's answer. *)
Lemma directory_answered d cfg hostname hostPath root r input :
  no_length cfg -> d_tokenize d EmptyString = [] -> HasPrefix (d_DetectContentType d page_head) "text/html" = true ->
  directory_answer d cfg hostname hostPath root (Clean (Path (r_URL r))) r input
    (exec (with_prefix_writer (d_DetectContentType d) (d_tokenize d) hostname hostPath EmptyString
             (file_server d (Directory_Open (d_os d) root) r)) (begun cfg input)).2.
Proof.
  intros Hcl Htok Hdet. unfold directory_answer, file_server, FileServer.
  assert (Herr : forall msg code, (100 <= code <= 999)%Z -> bodyAllowed code = true ->
    answered (exec (with_prefix_writer (d_DetectContentType d) (d_tokenize d) hostname hostPath EmptyString
      (http_Error msg code)) (begun cfg input)).2 code (msg +:+ newline)).
  { intros msg code Hcode Hall.
    by apply (finish_http_Error _ _ Htok hostname hostPath EmptyString msg code (begun cfg input)). }
  destruct (Directory_Open (d_os d) root (Clean (Path (r_URL r)))) as [file|err]; [|by apply Herr].
  destruct (f_Stat file) as [fi|err]; [|by apply Herr].
  destruct (IsDir fi); [|done]. unfold handleDir.
  destruct (f_Readdir file) as [files|err]; [|by apply Herr].
  intros entries ->. cbn [p_outcome bind].
  exact (finish_template _ _ Htok hostname hostPath EmptyString page_head _ (begun cfg input)
    eq_refl eq_refl eq_refl Hdet).
Qed.

(** ** Properties *)

Section Answers.
Context {M : Type} `{RouterLaws HandlerFunc M}.
Context (d : Deps) (NewSession : S3Config -> result (string -> FS)) (sftp_server : sftpFS -> SftpServer).
Context (hf : HandlerFactory) (Quote : string -> string).
Context {Client : Type} (AddEventListener : Client -> option string) (docker : DockerWatch Client).
Context (ua : string -> string * (string * string)) (ReadFile : string -> result (option string)).
Context (ContainsHost : M -> string -> outcome bool) (cfg : ServerConfig).
Context (watcher : option Watcher) (active : list ConfigEvent).
Implicit Types (y : System M) (r : Request) (route : string) (target : URL).

(** What the client of a request has in the end, [input] being the request's body. *)
Definition response y (mg : Manager) (elapsed : string) (counter : Z) (input : string) r : Conn :=
  (exec (exchange ContainsHost ua ReadFile Quote cfg ServeSites (y_mux y) mg elapsed counter r).2.2
     (new_Conn input None)).2.

#[local] Abbreviation in_service :=
  (in_service d NewSession sftp_server hf Quote AddEventListener docker watcher active).
#[local] Abbreviation only_target := (only_target d NewSession sftp_server hf).

(** C16. A redirection, end to end.  In every state the running server reaches, a request that
    a single redirect route with a host covers is answered with status 303 and the location
    of its path below the route's, under the target's path and on the target's host, the
    target's query in front of the request's; the server's other headers are sent with it. *)
Theorem redirected_end_to_end y route target r mg elapsed counter input :
  in_service y -> only_target y (r_Host r +:+ Path (r_URL r)) route target ->
  Scheme target = "redirect" -> Host target <> EmptyString -> request_URL (r_URL r) -> no_length cfg ->
  let c := response y mg elapsed counter input r in
  let u := strip_prefix (splitHostnameAndPath route).2 (r_URL r) in
  exists redirURL, redirect_URL target u = Return redirURL /\
    Host redirURL = Host target /\ RawQuery redirURL = joinQuery (RawQuery target) (RawQuery u) /\
    ((RawPath redirURL = EmptyString /\ joined (Path target) (Path u) (Path redirURL)) \/
     (joined (EscapedPath target) (EscapedPath u) (RawPath redirURL) /\
      unescape (RawPath redirURL) encodePath = Ok (Path redirURL))) /\
    c_status c = Some 303%Z /\
    Header_Get (c_sent c) "Location" = hexEscapeNonASCII (URL_String redirURL) /\
    (forall name, kept_name name -> Header_Values (c_sent c) name = Header_Values (add_extra (ExtraHeaders cfg) ∅) name).
Proof.
  intros Hy Hone Hs Hhost Hreq Hcl. cbv zeta. unfold response.
  destruct (single_target_exec d NewSession sftp_server hf Quote AddEventListener docker ua ReadFile ContainsHost
    cfg watcher active y route target r mg elapsed counter (new_Conn input None) Hy Hone) as (h & Hh & ->).
  unfold Factory.Handler in Hh. rewrite Hs in Hh. destruct (splitHostnameAndPath route) as [hostname hostPath].
  injection Hh as <-. cbn [snd].
  destruct (redirected_sent d hostname hostPath target (set_r_Header (forwarded_header cfg r) r) (begun cfg input))
    as (redirURL & Hr & Hst & Hloc & Hkept); [done..|].
  destruct (redirect_URL_spec target (strip_prefix hostPath (r_URL r))) as (redirURL' & Hr' & Hp & _ & _ & _ & Hq & Hpath).
  cbn [r_URL set_r_Header] in Hr. rewrite Hr' in Hr. injection Hr as <-. exists redirURL'. by repeat (split; [done|]).
Qed.

(** What directory routes have in common. *)
Definition serves_directory target : Prop :=
  Scheme target = "file" /\
  (forall info, d_Stat d (Host target +:+ Path target) = Ok info -> IsDir info = true) /\
  no_length cfg /\ d_tokenize d EmptyString = [] /\ HasPrefix (d_DetectContentType d page_head) "text/html" = true.

Lemma directory_response y route target r mg elapsed counter input :
  in_service y -> only_target y (r_Host r +:+ Path (r_URL r)) route target -> serves_directory target ->
  let '(hostname, hostPath) := splitHostnameAndPath route in
  let u := strip_prefix hostPath (r_URL r) in
  directory_answer d cfg hostname hostPath (Host target +:+ Path target) (Clean (Path u))
    (set_r_URL u (set_r_Header (forwarded_header cfg r) r)) input (response y mg elapsed counter input r).
Proof.
  intros Hy Hone (Hs & Hdir & Hcl & Htok & Hdet). unfold response.
  destruct (single_target_exec d NewSession sftp_server hf Quote AddEventListener docker ua ReadFile ContainsHost
    cfg watcher active y route target r mg elapsed counter (new_Conn input None) Hy Hone) as (h & Hh & ->).
  unfold Factory.Handler in Hh. rewrite Hs in Hh. destruct (splitHostnameAndPath route) as [hostname hostPath].
  injection Hh as <-.
  pose proof (directory_answered d cfg hostname hostPath (Host target +:+ Path target)
    (set_r_URL (strip_prefix hostPath (r_URL r)) (set_r_Header (forwarded_header cfg r) r)) input Hcl Htok Hdet) as Ha.
  unfold newFileServer. destruct (d_Stat d (Host target +:+ Path target)) as [info|] eqn:Ei; [|exact Ha].
  rewrite (Hdir info eq_refl). exact Ha.
Qed.
(** C6. A directory, end to end.  In every state the running server reaches, a request that a
    single directory route covers gets: the listing of a directory (status 200, the page of
    its files with the links moved under the route's path), a file, or the error, 404 if the
    path below the route does not resolve to a file of the root and 500 if what it resolves
    to cannot be read. *)
Theorem directory_end_to_end y route target r mg elapsed counter input :
  in_service y -> only_target y (r_Host r +:+ Path (r_URL r)) route target -> serves_directory target ->
  let '(hostname, hostPath) := splitHostnameAndPath route in
  let u := strip_prefix hostPath (r_URL r) in
  directory_answer d cfg hostname hostPath (Host target +:+ Path target) (Clean (Path u))
    (set_r_URL u (set_r_Header (forwarded_header cfg r) r)) input (response y mg elapsed counter input r).
Proof. apply directory_response. Qed.

(** C12. A listing can be browsed.  For a directory whose path and files have names without
    [?], [#] and percent escapes, listing does not panic and shows the parent (except at the
    root) and the files in listing order; for every entry the page holds a link, in which
    nothing of a name can be read as markup and whose text is read as the entry's name; and
    the link, moved under the route's path and requested from the server, in any state it
    reaches in which the route still is the only one that covers the request, is answered with
    what the entry's path stands for: its listing, its contents, or the error. *)
Theorem listing_browsed route target segs files :
  serves_directory target ->
  Forall proper_seg segs -> Forall (fun s => url_plain s = true) segs ->
  Forall listable files -> Forall (fun fi => url_plain (Name fi) = true) files ->
  host_plain (splitHostnameAndPath route).2 ->
  let '(hostname, hostPath) := splitHostnameAndPath route in
  exists entries, dir_entries (d_format_time d) files (abs_path segs) = Return entries /\
    (fun e => (e_Name e, e_FullName e)) <$> entries = prod_map id abs_path <$> listed segs files /\
    forall e, e ∈ entries ->
      occurs_in (link_text e) (str_concat (fsTemplate entries)) /\
      (forall m, m ∈ html_markup ->
         str_elem m (href_value (e_FullName e)) = false /\ str_elem m (cell_text (e_Name e)) = false) /\
      (str_elem nul (e_Name e) = false -> html_decode (cell_text (e_Name e)) = e_Name e) /\
      exists u,
        Parse (updateLocation (html_decode (href_value (e_FullName e))) hostname hostPath EmptyString) = Ok u /\
        forall y r mg elapsed counter input,
          in_service y -> r_URL r = u -> only_target y (r_Host r +:+ Path u) route target ->
          exists r', Clean (Path (r_URL r')) = e_FullName e /\
            directory_answer d cfg hostname hostPath (Host target +:+ Path target) (e_FullName e) r' input
              (response y mg elapsed counter input r).
Proof.
  intros Ht Hs Hps Hf Hpf Hh. pose proof (fun y r => directory_response y route target r) as Hresp.
  destruct (splitHostnameAndPath route) as [hostname hostPath].
  destruct (listing_links d hostname hostPath segs files Hs Hps Hf Hpf Hh) as (entries & Hd & He & Hl).
  exists entries. split; [exact Hd|]. split; [exact He|]. intros e Hin.
  destruct (Hl e Hin) as (H1 & H2 & H3 & u & Hu & Hc). split; [exact H1|]. split; [exact H2|]. split; [exact H3|].
  exists u. split; [exact Hu|]. intros y r mg elapsed counter input Hy Hru Hone. rewrite <- Hru in Hone.
  specialize (Hresp y r mg elapsed counter input Hy Hone Ht). cbv beta iota zeta in Hresp.
  rewrite Hru, Hc in Hresp. eexists. split; [|exact Hresp]. exact Hc.
Qed.
End Answers.

(** ** Witnesses *)

#[local] Abbreviation HMux := (Mux.Mux HandlerFunc).

(** A directory with one file. *)
Definition demo_dir (name : string) : FileInfo := mk_FileInfo name 0 true false 0 None.

Definition demo_tree : OS := {|
  Getwd := Ok "/";
  Lstat f :=
    if String.eqb f "/pub" then Ok (demo_dir f) else if String.eqb f "/pub/a" then Ok (demo_file f) else Err "no such file";
  Readlink _ := Err "not a link";
  os_Open f :=
    if String.eqb f "/pub" then Ok (mk_File (Ok (demo_dir f)) (Ok [demo_file "a"]) None (mk_Reader [] None))
    else Ok (mk_File (Ok (demo_file f)) (Err "not a directory") None (mk_Reader ["hi"] None))
|}.

Definition tree_deps : Deps := set_os demo_tree demo_deps.

Definition pub : URL := set_Paths "/pub" "" (set_Scheme "file" empty_URL).
Definition jump : URL := set_Paths "/razzie" "" (set_Host "github.com" (set_Scheme "redirect" empty_URL)).

Definition pub_event : ConfigEvent := mk_ConfigEvent (mk_ConfigEntry "files.org/d" pub) true.
Definition jump_event : ConfigEvent := mk_ConfigEvent (mk_ConfigEntry "go.org" jump) true.

#[local] Abbreviation tree_factory :=
  (Factory.Handler tree_deps no_session no_sftp (NewHandlerFactory None)).

(** Two containers that run. *)
Definition demo_sites : System HMux :=
  y_docker_event tree_factory jump_event []
    (y_docker_event tree_factory pub_event [jump_event] (y_start None [pub_event; jump_event])).

Lemma sites_in_service :
  in_service (M := HMux) tree_deps no_session no_sftp (NewHandlerFactory None) id no_listener
    (mk_DockerWatch tt) None [pub_event; jump_event] demo_sites.
Proof.
  split.
  - eapply rtc_l; [left; eapply (ystep_docker_event _ _ _ _ (y_start None [pub_event; jump_event])); reflexivity|].
    eapply rtc_l; [left; eapply ystep_docker_event; reflexivity|]. apply rtc_refl.
  - apply (bool_decide_unpack (small_table (rt_table (y_mux demo_sites)))). vm_compute. exact I.
Qed.

Lemma sites_only_target path route target :
  (route, target) ∈ [("files.org/d", pub); ("go.org", jump)] ->
  forallb (fun k => Bool.eqb (route_match k path) (String.eqb k route)) ["files.org/d"; "go.org"] = true ->
  only_target tree_deps no_session no_sftp (NewHandlerFactory None) demo_sites path route target.
Proof.
  intros Hin Hall. cbn [forallb] in Hall. bool_prop. apply Bool.eqb_prop in H, H0.
  assert (Hev : forall e, e ∈ y_done demo_sites -> e = pub_event \/ e = jump_event).
  { intros e [->|[->|He]%elem_of_cons]%elem_of_cons; [by left|by right|by apply not_elem_of_nil in He]. }
  assert (Hone : forall e, e ∈ y_done demo_sites -> route_match (Hostname (ce_entry e)) path = true ->
    ce_entry e = mk_ConfigEntry route target).
  { intros e [->| ->]%Hev Hm.
    - change (route_match "files.org/d" path = true) in Hm. rewrite Hm in H.
      apply elem_of_cons in Hin as [[= -> ->]|[= -> ->]%list_elem_of_singleton]; [done|discriminate].
    - change (route_match "go.org" path = true) in Hm. rewrite Hm in H0.
      apply elem_of_cons in Hin as [[= -> ->]|[= -> ->]%list_elem_of_singleton]; [discriminate|done]. }
  assert (Hm : route_match route path = true).
  { by apply elem_of_cons in Hin as [[= -> ->]|[= -> ->]%list_elem_of_singleton]. }
  split; [|split; [done|split]].
  - apply Nat.ltb_lt. by apply elem_of_cons in Hin as [[= -> ->]|[= -> ->]%list_elem_of_singleton]; vm_compute.
  - intros route' id' (e & He & _ & Hk)%up_brought_up Hm'. injection Hk as <- <-. by rewrite (Hone e He Hm').
  - intros target' Hb _. by injection (Hone _ Hb Hm).
Qed.

#[local] Abbreviation site_response :=
  (response (M := HMux) id (fun _ => ("", ("", ""))) (fun _ => Ok None) Mux.ContainsHost demo_cfg).

Definition get_from (host path : string) : Request :=
  mk_Request "GET" (set_RawQuery "a=1" (set_Paths path "" empty_URL)) ∅ host "1.2.3.4:5".

Lemma redirected_end_to_end_witness :
  let c := site_response demo_sites new_Manager "0" 0 "" (get_from "go.org" "/razvhost") in
  c_status c = Some 303%Z /\ Header_Get (c_sent c) "Location" = "//github.com/razzie/razvhost?a=1" /\
  Header_Values (c_sent c) "Server" = ["razvhost"].
Proof.
  cbv zeta.
  destruct (redirected_end_to_end tree_deps no_session no_sftp (NewHandlerFactory None) id no_listener (mk_DockerWatch tt)
    (fun _ => ("", ("", ""))) (fun _ => Ok None) Mux.ContainsHost demo_cfg None [pub_event; jump_event]
    demo_sites "go.org" jump (get_from "go.org" "/razvhost") new_Manager "0" 0 "" sites_in_service)
    as (u & Hu & _ & _ & _ & Hs & Hl & Hk).
  - apply sites_only_target; [set_solver|vm_compute; reflexivity].
  - reflexivity.
  - discriminate.
  - done.
  - reflexivity.
  - split; [exact Hs|]. vm_compute in Hu. injection Hu as <-. split; [rewrite Hl; vm_compute; reflexivity|].
    rewrite Hk; [vm_compute; reflexivity|]. unfold kept_name. repeat split; vm_compute; discriminate.
Defined.

Lemma pub_serves : serves_directory tree_deps demo_cfg pub.
Proof. split; [reflexivity|]. by repeat split. Qed.

Lemma directory_end_to_end_witness :
  let c := site_response demo_sites new_Manager "0" 0 "" (get_from "files.org" "/d/") in
  c_status c = Some 200%Z /\
  c_body c = moved_page tree_deps "files.org" "/d"
    [mk_fsEntry "&#128196;" "a" "/a" "10 B" "" ""].
Proof.
  cbv zeta.
  pose proof (directory_end_to_end tree_deps no_session no_sftp (NewHandlerFactory None) id no_listener (mk_DockerWatch tt)
    (fun _ => ("", ("", ""))) (fun _ => Ok None) Mux.ContainsHost demo_cfg None [pub_event; jump_event]
    demo_sites "files.org/d" pub (get_from "files.org" "/d/") new_Manager "0" 0 "" sites_in_service) as Hd.
  change (splitHostnameAndPath "files.org/d") with ("files.org", "/d") in Hd. cbv beta iota zeta in Hd.
  refine (Hd _ pub_serves _ _).
  - apply sites_only_target; [set_solver|vm_compute; reflexivity].
  - vm_compute. reflexivity.
Defined.

Lemma listing_browsed_witness :
  exists u, Parse (updateLocation (html_decode (href_value "/a")) "files.org" "/d" "") = Ok u /\
    exists r' file, Directory_Open demo_tree "/pub" "/a" = Ok file /\
      site_response demo_sites new_Manager "0" 0 "" (mk_Request "GET" u ∅ "files.org" "") =
      (exec (with_prefix_writer sniff byte_tokens "files.org" "/d" ""
               (send_file tree_deps r' file (demo_file "/pub/a"))) (begun demo_cfg "")).2.
Proof.
  destruct (listing_browsed tree_deps no_session no_sftp (NewHandlerFactory None) id no_listener (mk_DockerWatch tt)
    (fun _ => ("", ("", ""))) (fun _ => Ok None) Mux.ContainsHost demo_cfg None [pub_event; jump_event]
    "files.org/d" pub [] [demo_file "a"] pub_serves) as (entries & Hd & _ & Hl).
  - constructor.
  - constructor.
  - repeat constructor; cbn; try done; unfold i64_range; lia.
  - by repeat constructor.
  - right. by repeat split.
  - vm_compute in Hd. injection Hd as <-.
    destruct (Hl (mk_fsEntry "&#128196;" "a" "/a" "10 B" "" "")) as (_ & _ & _ & u & Hu & Hr); [by left|].
    exists u. split; [exact Hu|].
    assert (Hpath : Path u = "/d/a") by (vm_compute in Hu; injection Hu as <-; reflexivity).
    destruct (Hr demo_sites (mk_Request "GET" u ∅ "files.org" "") new_Manager "0" 0%Z "" sites_in_service eq_refl)
      as (r' & _ & Ha).
    + rewrite Hpath. apply sites_only_target; [set_solver|vm_compute; reflexivity].
    + assert (Ho : Directory_Open demo_tree "/pub" "/a" = Ok (mk_File (Ok (demo_file "/pub/a")) (Err "not a directory") None
        (mk_Reader ["hi"] None))) by (vm_compute; reflexivity).
      exists r'. eexists. split; [exact Ho|]. unfold directory_answer in Ha.
      change (Directory_Open (d_os tree_deps) (Host pub +:+ Path pub)) with (Directory_Open demo_tree "/pub") in Ha.
      cbn [e_FullName] in Ha. rewrite Ho in Ha. exact Ha.
Defined.
