(* ===== verification/Flags.v ===== *)
(** cmd/razvhost/main.go: the command line flags ([init]).

    The flags are package variables set by the flag package of the Go library, whose
    parser is modelled as far as it is used: boolean and string flags, [-name],
    [-name=value], [-name value] with one or two dashes, and the exit codes of a
    [flag.CommandLine]. *)

From S2P Require Import Prelude GoStrings Url.

Local Open Scope go_scope.

(** ** Data *)

(** The package variables [init] sets. *)
Record Flags := mk_Flags {
  f_ConfigFile : string;
  f_CertsDir : string;
  f_NoCert : bool;
  f_NoServerHeader : bool;
  f_WatchDockerEvents : bool;
  f_EnableHTTP2 : bool;
  f_DiscardHeaders : string;
  f_PHPAddr : string;
  f_DebugAddr : string
}.

(** Their default values. *)
Definition default_flags : Flags :=
  mk_Flags "config" "certs" false false false false "" "unix:///var/run/php/php-fpm.sock" "".

(** With the local [showVersion]. *)
Record Vars := mk_Vars { showVersion : bool; v_flags : Flags }.

(** Where a flag's value is stored. *)
Inductive Flag :=
  | BoolVar (set : bool -> Vars -> Vars)
  | StringVar (set : string -> Vars -> Vars).

Definition on_flags (f : Flags -> Flags) (v : Vars) : Vars := mk_Vars (showVersion v) (f (v_flags v)).

(** The flags [init] defines. *)
Definition formal : list (string * Flag) := [
  ("version", BoolVar (fun b v => mk_Vars b (v_flags v)));
  ("cfg", StringVar (fun s => on_flags (fun f => mk_Flags s (f_CertsDir f) (f_NoCert f)
     (f_NoServerHeader f) (f_WatchDockerEvents f) (f_EnableHTTP2 f) (f_DiscardHeaders f) (f_PHPAddr f) (f_DebugAddr f))));
  ("certs", StringVar (fun s => on_flags (fun f => mk_Flags (f_ConfigFile f) s (f_NoCert f)
     (f_NoServerHeader f) (f_WatchDockerEvents f) (f_EnableHTTP2 f) (f_DiscardHeaders f) (f_PHPAddr f) (f_DebugAddr f))));
  ("nocert", BoolVar (fun b => on_flags (fun f => mk_Flags (f_ConfigFile f) (f_CertsDir f) b
     (f_NoServerHeader f) (f_WatchDockerEvents f) (f_EnableHTTP2 f) (f_DiscardHeaders f) (f_PHPAddr f) (f_DebugAddr f))));
  ("no-server-header", BoolVar (fun b => on_flags (fun f => mk_Flags (f_ConfigFile f) (f_CertsDir f) (f_NoCert f)
     b (f_WatchDockerEvents f) (f_EnableHTTP2 f) (f_DiscardHeaders f) (f_PHPAddr f) (f_DebugAddr f))));
  ("docker", BoolVar (fun b => on_flags (fun f => mk_Flags (f_ConfigFile f) (f_CertsDir f) (f_NoCert f)
     (f_NoServerHeader f) b (f_EnableHTTP2 f) (f_DiscardHeaders f) (f_PHPAddr f) (f_DebugAddr f))));
  ("http2", BoolVar (fun b => on_flags (fun f => mk_Flags (f_ConfigFile f) (f_CertsDir f) (f_NoCert f)
     (f_NoServerHeader f) (f_WatchDockerEvents f) b (f_DiscardHeaders f) (f_PHPAddr f) (f_DebugAddr f))));
  ("discard-headers", StringVar (fun s => on_flags (fun f => mk_Flags (f_ConfigFile f) (f_CertsDir f) (f_NoCert f)
     (f_NoServerHeader f) (f_WatchDockerEvents f) (f_EnableHTTP2 f) s (f_PHPAddr f) (f_DebugAddr f))));
  ("php-addr", StringVar (fun s => on_flags (fun f => mk_Flags (f_ConfigFile f) (f_CertsDir f) (f_NoCert f)
     (f_NoServerHeader f) (f_WatchDockerEvents f) (f_EnableHTTP2 f) (f_DiscardHeaders f) s (f_DebugAddr f))));
  ("debug", StringVar (fun s => on_flags (fun f => mk_Flags (f_ConfigFile f) (f_CertsDir f) (f_NoCert f)
     (f_NoServerHeader f) (f_WatchDockerEvents f) (f_EnableHTTP2 f) (f_DiscardHeaders f) (f_PHPAddr f) s)))].

Fixpoint find_flag (flags : list (string * Flag)) (name : string) : option Flag :=
  match flags with
  | [] => None
  | (n, f) :: flags => if String.eqb n name then Some f else find_flag flags name
  end.

(** ** Parsing *)

(** [strconv.ParseBool] *)
Definition ParseBool (s : string) : option bool :=
  if existsb (String.eqb s) ["1"; "t"; "T"; "TRUE"; "true"; "True"] then Some true
  else if existsb (String.eqb s) ["0"; "f"; "F"; "FALSE"; "false"; "False"] then Some false
  else None.

(** How an argument reads. *)
Inductive Arg :=
  | NoFlag
  | Terminator
  | BadSyntax
  | FlagArg (name : string) (value : option string).

(** The name and the value, at the first [=]: it cannot be the first byte. *)
Definition split_value (name : string) : Arg :=
  match Cut name "="%char with
  | (n, value, true) => FlagArg n (Some value)
  | _ => FlagArg name None
  end.

Definition flag_name (name : string) : Arg :=
  if (String.length name =? 0)%nat || HasPrefix name "-" || HasPrefix name "=" then BadSyntax
  else split_value name.

Definition read_arg (s : string) : Arg :=
  match s with
  | String d (String d' rest as name) =>
      if negb (Ascii.eqb d "-") then NoFlag
      else if Ascii.eqb d' "-" then
        match rest with
        | EmptyString => Terminator
        | _ => flag_name rest
        end
      else flag_name name
  | _ => NoFlag
  end.

(** What [flag.Parse] ends with: the variables and the remaining arguments, the request for
    help, or an error. *)
Inductive parsed :=
  | Parsed (v : Vars) (args : list string)
  | ErrHelp
  | Failed (err : string).

Section Parse.
(** [%q] *)
Context (Quote : string -> string).

(** [FlagSet.Parse] and [parseOne]. *)
Fixpoint parse_flags (args : list string) (v : Vars) : parsed :=
  match args with
  | [] => Parsed v []
  | s :: rest =>
      match read_arg s with
      | NoFlag => Parsed v args
      | Terminator => Parsed v rest
      | BadSyntax => Failed ("bad flag syntax: " +:+ s)
      | FlagArg name value =>
          match find_flag formal name with
          | None =>
              if String.eqb name "help" || String.eqb name "h" then ErrHelp
              else Failed ("flag provided but not defined: -" +:+ name)
          | Some (BoolVar set) =>
              match value with
              | None => parse_flags rest (set true v)
              | Some value =>
                  match ParseBool value with
                  | None => Failed ("invalid boolean value " +:+ Quote value +:+ " for -" +:+ name +:+ ": parse error")
                  | Some b => parse_flags rest (set b v)
                  end
              end
          | Some (StringVar set) =>
              match value, rest with
              | Some value, _ => parse_flags rest (set value v)
              | None, value :: rest => parse_flags rest (set value v)
              | None, [] => Failed ("flag needs an argument: -" +:+ name)
              end
          end
      end
  end.

(** [init]: the program ends, with what it prints on standard output, or goes on. *)
Inductive initialized :=
  | InitExit (code : Z) (output : string)
  | InitRun (f : Flags).

Definition init (version : string) (args : list string) : initialized :=
  match parse_flags args (mk_Vars false default_flags) with
  | ErrHelp => InitExit 0 ""
  | Failed _ => InitExit 2 ""
  | Parsed v _ =>
      if showVersion v then
        InitExit 0 (if (0 <? String.length version)%nat then "Version: " +:+ version else "Unknown version")
      else InitRun (v_flags v)
  end.
End Parse.

(** ** Settings *)

(** A flag as it is given: [-name=value], [-name value] or, for a boolean, [-name]; with
    one dash or two. *)
Inductive Style := Inline | Separate | Bare.

Record Setting := mk_Setting { s_name : string; s_value : string; s_style : Style; s_two : bool }.

Definition dashes (two : bool) : string := if two then "--" else "-".

Definition setting_args (s : Setting) : list string :=
  match s_style s with
  | Inline => [dashes (s_two s) +:+ s_name s +:+ "=" +:+ s_value s]
  | Separate => [dashes (s_two s) +:+ s_name s; s_value s]
  | Bare => [dashes (s_two s) +:+ s_name s]
  end.

(** What it stores, if it can be given so. *)
Definition setting_store (s : Setting) : option (Vars -> Vars) :=
  match find_flag formal (s_name s), s_style s with
  | Some (BoolVar set), Inline => set <$> ParseBool (s_value s)
  | Some (BoolVar set), Bare => Some (set true)
  | Some (StringVar set), (Inline | Separate) => Some (set (s_value s))
  | _, _ => None
  end.

(** ** Lemmas *)

Lemma find_flag_name flags name f : find_flag flags name = Some f -> name ∈ flags.*1.
Proof.
  induction flags as [|[n g] flags IH]; cbn [find_flag]; [done|].
  destruct (String.eqb_spec n name) as [->|_]; intros Hf; [by left|right; by apply IH].
Qed.

(** A flag's name can be told from what surrounds it. *)
Definition name_ok (name : string) : bool :=
  negb (str_elem "="%char name) && negb (HasPrefix name "-") && (0 <? String.length name)%nat.

Lemma formal_names : Forall (fun name => name_ok name = true) formal.*1.
Proof. repeat constructor. Qed.

Lemma find_flag_ok name f : find_flag formal name = Some f -> name_ok name = true.
Proof. intros Hf%find_flag_name. by eapply (proj1 (Forall_forall _ _) formal_names). Qed.

(** The first byte of a name. *)
Lemma name_ok_cons name :
  name_ok name = true -> exists c t, name = String c t /\ Ascii.eqb c "-" = false /\
    Ascii.eqb c "=" = false /\ str_elem "="%char t = false.
Proof.
  unfold name_ok. destruct name as [|c t]; [by rewrite andb_false_r|].
  cbn [HasPrefix str_elem]. rewrite HasPrefix_nil, !andb_true_r. intros Hn. bool_prop.
  exists c, t. rewrite !Ascii.eqb_neq. repeat split; congruence.
Qed.

Lemma read_dashes two name rest :
  name_ok name = true -> read_arg (dashes two +:+ name +:+ rest) = split_value (name +:+ rest).
Proof.
  intros (c & t & -> & Hd & He & Ht)%name_ok_cons.
  assert (Hf : flag_name (String c t +:+ rest) = split_value (String c t +:+ rest)).
  { unfold flag_name. rewrite sapp_cons. cbn [String.length Nat.eqb HasPrefix].
    by rewrite HasPrefix_nil, !andb_true_r, Hd, He. }
  rewrite <- Hf. destruct two; cbn [dashes]; rewrite !sapp_cons, sapp_nil_l; cbn [read_arg].
  - reflexivity.
  - by rewrite Hd.
Qed.

Lemma Cut_name name value :
  str_elem "="%char name = false -> Cut (name +:+ "=" +:+ value) "="%char = (name, value, true).
Proof.
  intros Hn. unfold Cut. rewrite IndexByte_app by done.
  change (IndexByte ("=" +:+ value) "=") with (Some 0). cbn [fmap option_fmap option_map].
  rewrite Nat.add_0_r, stake_app_length. do 2 f_equal.
  replace (S (String.length name)) with (String.length (name +:+ "=")) by (rewrite slength_app; simpl; lia).
  rewrite sapp_assoc. apply sdrop_app_length.
Qed.

Lemma Cut_name_only name : str_elem "="%char name = false -> Cut name "="%char = (name, EmptyString, false).
Proof. intros Hn. unfold Cut. by rewrite (proj2 (IndexByte_None name "=")). Qed.

(** The arguments of a setting are read as its flag and value. *)
Lemma read_setting s :
  name_ok (s_name s) = true ->
  match s_style s with
  | Inline => setting_args s = [dashes (s_two s) +:+ s_name s +:+ "=" +:+ s_value s] /\
      read_arg (dashes (s_two s) +:+ s_name s +:+ "=" +:+ s_value s) = FlagArg (s_name s) (Some (s_value s))
  | _ => read_arg (dashes (s_two s) +:+ s_name s) = FlagArg (s_name s) None
  end.
Proof.
  intros Hn. assert (He : str_elem "="%char (s_name s) = false) by (unfold name_ok in Hn; by bool_prop).
  assert (Hbare : read_arg (dashes (s_two s) +:+ s_name s) = FlagArg (s_name s) None).
  { rewrite <- (sapp_nil_r (s_name s)) at 1. rewrite read_dashes by done.
    unfold split_value. by rewrite sapp_nil_r, Cut_name_only. }
  unfold setting_args. destruct (s_style s); [|done..]. split; [done|].
  rewrite read_dashes by done. unfold split_value. by rewrite Cut_name.
Qed.

Section Settings.
Context (Quote : string -> string).

Lemma parse_setting s store rest v :
  setting_store s = Some store ->
  parse_flags Quote (setting_args s ++ rest) v = parse_flags Quote rest (store v).
Proof.
  unfold setting_store. destruct (find_flag formal (s_name s)) as [f|] eqn:Ef; [|done].
  pose proof (read_setting s (find_flag_ok _ _ Ef)) as Hr. intros Hs.
  unfold setting_args. destruct f as [set|set], (s_style s); try discriminate; cbn [app parse_flags].
  - destruct Hr as [_ ->]. rewrite Ef. destruct (ParseBool (s_value s)); [|done]. by injection Hs as <-.
  - rewrite Hr, Ef. by injection Hs as <-.
  - destruct Hr as [_ ->]. rewrite Ef. by injection Hs as <-.
  - rewrite Hr, Ef. by injection Hs as <-.
Qed.

(** Arguments that end the flags. *)
Definition ends_flags (rest : list string) : Prop :=
  match rest with
  | [] => True
  | s :: _ => read_arg s = NoFlag
  end.

Lemma parse_settings settings stores rest v :
  Forall2 (fun s store => setting_store s = Some store) settings stores -> ends_flags rest ->
  parse_flags Quote (flat_map setting_args settings ++ rest) v =
  Parsed (fold_left (fun v store => store v) stores v) rest.
Proof.
  intros Hs Hr. revert v. induction Hs as [|s store settings stores Hs _ IH]; intros v.
  - cbn [flat_map app fold_left]. destruct rest as [|x rest]; [done|]. cbn [parse_flags]. by rewrite Hr.
  - cbn [flat_map fold_left]. rewrite <- app_assoc, (parse_setting s store) by done. apply IH.
Qed.
End Settings.

(** The settings that give flags their values. *)
Definition print_bool (b : bool) : string := if b then "true" else "false".

Definition all_settings (style : Style) (two : bool) (f : Flags) : list Setting := [
  mk_Setting "cfg" (f_ConfigFile f) style two;
  mk_Setting "certs" (f_CertsDir f) style two;
  mk_Setting "nocert" (print_bool (f_NoCert f)) Inline two;
  mk_Setting "no-server-header" (print_bool (f_NoServerHeader f)) Inline two;
  mk_Setting "docker" (print_bool (f_WatchDockerEvents f)) Inline two;
  mk_Setting "http2" (print_bool (f_EnableHTTP2 f)) Inline two;
  mk_Setting "discard-headers" (f_DiscardHeaders f) style two;
  mk_Setting "php-addr" (f_PHPAddr f) style two;
  mk_Setting "debug" (f_DebugAddr f) style two].

(** ** Properties *)

(** C30. The command line: arguments are settings of flags, in whatever of the documented
    forms, each storing its value over earlier ones, up to the first argument that is no
    flag; so every value of the flags can be given and is what the program then runs with,
    any strings included.  Asking for the version ends the program instead, whatever else is
    given. *)
Theorem init_settings Quote version settings stores rest :
  Forall2 (fun s store => setting_store s = Some store) settings stores -> ends_flags rest ->
  let v := fold_left (fun v store => store v) stores (mk_Vars false default_flags) in
  init Quote version (flat_map setting_args settings ++ rest) =
    (if showVersion v
     then InitExit 0 (if String.eqb version "" then "Unknown version" else "Version: " +:+ version)
     else InitRun (v_flags v)) /\
  (forall style two f, style <> Bare ->
     init Quote version (flat_map setting_args (all_settings style two f) ++ rest) = InitRun f).
Proof.
  intros Hs Hr. cbv zeta. split.
  - unfold init. rewrite (parse_settings Quote settings stores) by done.
    destruct (showVersion _); [|done]. by destruct version.
  - intros style two f Hst. unfold init.
    assert (Hall : exists stores', Forall2 (fun s store => setting_store s = Some store) (all_settings style two f) stores' /\
      fold_left (fun v (store : Vars -> Vars) => store v) stores' (mk_Vars false default_flags) = mk_Vars false f).
    { destruct f as [cfg certs [] [] [] [] discard php debug], style; try done;
        (eexists; split; [repeat constructor|reflexivity]). }
    destruct Hall as (stores' & Hall & Hv). rewrite (parse_settings Quote _ stores') by done. by rewrite Hv.
Qed.

(** ** Witness *)

Definition demo_args : list string := ["-nocert"; "--debug"; "localhost:8080"; "-cfg=a=b"; "-nocert=0"; "extra"; "-x"].

Lemma init_settings_witness :
  init id "1.0" demo_args = InitRun (mk_Flags "a=b" "certs" false false false false ""
    "unix:///var/run/php/php-fpm.sock" "localhost:8080").
Proof.
  destruct (init_settings id "1.0"
    [mk_Setting "nocert" "" Bare false; mk_Setting "debug" "localhost:8080" Separate true;
     mk_Setting "cfg" "a=b" Inline false; mk_Setting "nocert" "0" Inline false] _ ["extra"; "-x"]
    ltac:(repeat constructor) eq_refl) as [Hi _].
  exact Hi.
Defined.
