(* ===== verification/Main.v ===== *)
(** cmd/razvhost/main.go: the server the command line flags configure.

    [main] builds a [ServerConfig] from the flags: what it means for the headers of the
    requests handed on and of the responses is shown here.  The flags themselves are read in
    [Flags], and the life of the process is [Process]. *)

From S2P Require Import Prelude GoStrings Url Http Server ServerProps Flags.

Local Open Scope go_scope.

Definition defaultDiscardHeaders : list string :=
  ["x-client-ip"; "cf-connecting-ip"; "fastly-client-ip"; "true-client-ip"; "x-real-ip";
   "x-cluster-client-ip"; "x-forwarded"; "forwarded-for"; "forwarded"].

(** The [Server] header: [version] is set by the linker. *)
Definition serverHeader (f : Flags) (version : string) : list (string * string) :=
  if negb (f_NoServerHeader f) then
    if (0 <? String.length version)%nat then [("Server", "razvhost/" +:+ version)]
    else [("Server", "razvhost")]
  else [].

(** The configuration [main] makes the server with. *)
Definition main_config (f : Flags) (version : string) : ServerConfig := {|
  ConfigFile := f_ConfigFile f;
  CertsDir := f_CertsDir f;
  NoCert := f_NoCert f;
  WatchDockerEvents := f_WatchDockerEvents f;
  EnableHTTP2 := f_EnableHTTP2 f;
  DiscardHeaders := Split (f_DiscardHeaders f) "," ++ defaultDiscardHeaders;
  ExtraHeaders := serverHeader f version;
  PHPAddr := f_PHPAddr f
|}.

(** ** Properties *)

Lemma serverHeader_only_Server f version :
  Forall (fun k => k = "Server") (serverHeader f version).*1.
Proof.
  unfold serverHeader. destruct (negb (f_NoServerHeader f)); [|constructor].
  by destruct (0 <? String.length version)%nat; repeat constructor.
Qed.

Lemma serverHeader_not_among f version name :
  CanonicalMIMEHeaderKey name <> "Server" -> not_among name (serverHeader f version).*1.
Proof.
  intros Hn. eapply Forall_impl; [apply serverHeader_only_Server|]. intros k -> Hk. by apply Hn.
Qed.

