(* ===== verification/Process.v ===== *)
(** The life of the process: cmd/razvhost/main.go ([main] after the configuration, and
    [waitForSignal]) and pkg/server/server.go ([Serve], [Shutdown]).

    [main] starts a goroutine for [Serve], one for [Debug] if it is asked for, waits for a
    signal and calls [Shutdown]; whichever of them ends with an error ends the program.
    [http.Server] is modelled by what the program sees of it: a listener accepts requests
    and may return an error at any time; [Shutdown] closes the listeners of the server it is
    called on, which makes them return [ErrServerClosed], and returns when that server has
    no request any more.  [Shutdown] is called on [internalServer] only: the listeners of the
    ACME port and of the debug interface belong to servers of their own ([http.ListenAndServe]),
    go on accepting, and their requests are not waited for. *)

From S2P Require Import Prelude GoStrings Url Http Server ServerProps Flags Main.

Local Open Scope go_scope.

(** ** Data *)

Definition ErrServerClosed : string := "http: Server closed".

(** The goroutine of [main]. *)
Inductive Phase :=
  | WaitForSignal
  | InShutdown
  | Exited (code : Z) (fatal : option string).

(** [p_listeners] are the listeners of [Serve] that have not returned, [p_errChan] the
    errors of those that have, [p_debug] says whether the debug listener runs, [p_closed]
    whether [Shutdown] has closed those of [internalServer]; [p_requests] counts the requests
    being served by [internalServer], [p_others] those of the ACME and the debug server, and
    [p_served] (a history) those [internalServer] has answered. *)
Record Process := mk_Process {
  p_phase : Phase;
  p_listeners : list (string * bool * served);
  p_errChan : list string;
  p_debug : bool;
  p_closed : bool;
  p_requests : nat;
  p_others : nat;
  p_served : nat
}.

(** The capacity of [errChan]. *)
Definition errChan_cap : nat := 1.

(** [main], when the server has been made. *)
Definition p_start (f : Flags) (version : string) : Process :=
  mk_Process WaitForSignal (listeners (main_config f version)) []
    (0 <? String.length (f_DebugAddr f))%nat false 0 0 0.

(** ** Operations *)

Definition set_phase (ph : Phase) (p : Process) : Process :=
  mk_Process ph (p_listeners p) (p_errChan p) (p_debug p) (p_closed p) (p_requests p) (p_others p)
    (p_served p).

(** [log.Fatal] *)
Definition fatal (err : string) (p : Process) : Process := set_phase (Exited 1 (Some err)) p.

(** A signal arrives: [srv.Shutdown()] is called. *)
Definition p_signal (p : Process) : Process := set_phase InShutdown p.

(** It closes the listeners of [internalServer]. *)
Definition p_close (p : Process) : Process :=
  mk_Process (p_phase p) (p_listeners p) (p_errChan p) (p_debug p) true (p_requests p) (p_others p)
    (p_served p).

(** It returns, with the error of closing the listeners; [main] returns or fails. *)
Definition p_shutdown (err : option string) (p : Process) : Process :=
  match err with
  | None => set_phase (Exited 0 None) p
  | Some err => fatal err p
  end.

(** A listener returns: [errChan <- err]. *)
Definition p_listener_returns (i : nat) (err : string) (p : Process) : Process :=
  mk_Process (p_phase p) (remove_at i (p_listeners p)) (p_errChan p ++ [err]) (p_debug p)
    (p_closed p) (p_requests p) (p_others p) (p_served p).

(** The requests that [internalServer], and the other servers, are serving. *)
Definition p_serving (requests others : nat) (p : Process) : Process :=
  mk_Process (p_phase p) (p_listeners p) (p_errChan p) (p_debug p) (p_closed p) requests others
    (p_served p).

Definition p_accept (p : Process) : Process := p_serving (S (p_requests p)) (p_others p) p.

Definition p_answer (p : Process) : Process :=
  mk_Process (p_phase p) (p_listeners p) (p_errChan p) (p_debug p) (p_closed p) (pred (p_requests p))
    (p_others p) (S (p_served p)).

(** A listener of the sites' server. *)
Definition sites (l : string * bool * served) : bool :=
  match l.2 with ServeSites => true | ServeACME => false end.

(** A server other than [internalServer] listens: that of the ACME port, or the debug one. *)
Definition others_listen (p : Process) : Prop :=
  p_debug p = true \/ exists i l, p_listeners p !! i = Some l /\ sites l = false.

Definition running (p : Process) : Prop := p_phase p = WaitForSignal \/ p_phase p = InShutdown.

Inductive prstep : Process -> Process -> Prop :=
  | pr_signal p : p_phase p = WaitForSignal -> prstep p (p_signal p)
  | pr_close p : p_phase p = InShutdown -> prstep p (p_close p)
  | pr_shutdown p err :
      p_phase p = InShutdown -> p_closed p = true -> p_requests p = 0 -> prstep p (p_shutdown err p)
  | pr_closed p i l :
      running p -> p_closed p = true -> p_listeners p !! i = Some l -> sites l = true ->
      length (p_errChan p) < errChan_cap -> prstep p (p_listener_returns i ErrServerClosed p)
  | pr_fails p i l err :
      running p -> p_listeners p !! i = Some l -> err <> ErrServerClosed ->
      length (p_errChan p) < errChan_cap -> prstep p (p_listener_returns i err p)
  | pr_serve_returns p err errs :
      running p -> p_errChan p = err :: errs -> prstep p (fatal err p)
  | pr_debug_fails p err :
      running p -> p_debug p = true -> err <> ErrServerClosed -> prstep p (fatal err p)
  | pr_accept p i l :
      running p -> p_closed p = false -> p_listeners p !! i = Some l -> sites l = true ->
      prstep p (p_accept p)
  | pr_answer p :
      running p -> p_requests p <> 0 -> prstep p (p_answer p)
  | pr_accept_other p :
      running p -> others_listen p -> prstep p (p_serving (p_requests p) (S (p_others p)) p)
  | pr_answer_other p :
      running p -> p_others p <> 0 -> prstep p (p_serving (p_requests p) (pred (p_others p)) p).

(** ** Invariant *)

Definition listening_sites (p : Process) : Prop := exists i l, p_listeners p !! i = Some l /\ sites l = true.

(** The sites are listened to until a listener has returned; before a signal none has
    because it was closed; the program ends with 0 only when [Shutdown] has returned. *)
Definition p_good (p : Process) : Prop :=
  (p_errChan p = [] -> listening_sites p) /\
  (p_phase p = WaitForSignal ->
     p_closed p = false /\ Forall (fun err => err <> ErrServerClosed) (p_errChan p)) /\
  (forall code err, p_phase p = Exited code err ->
     (code = 0%Z /\ err = None /\ p_requests p = 0) \/ (code = 1%Z /\ is_Some err)).

Lemma listeners_sites cfg : exists i l, listeners cfg !! i = Some l /\ sites l = true.
Proof. unfold listeners. destruct (NoCert cfg); [by exists 0, (":80", false, ServeSites)|by exists 1, (":443", true, ServeSites)]. Qed.

Lemma p_start_good f version : p_good (p_start f version).
Proof. split; [intros _; apply listeners_sites|]. split; [by constructor|done]. Qed.

Lemma running_not_exited p code err : running p -> p_phase p <> Exited code err.
Proof. intros [-> | ->]; done. Qed.

Lemma fatal_good p err : p_good p -> p_good (fatal err p).
Proof.
  intros (Hl & _). split; [done|]. split; [done|]. cbn. intros code e [= <- <-]. right. by split.
Qed.

(** Steps that leave the phase and the listeners as they are. *)
Lemma same_good p p' :
  running p -> p_phase p' = p_phase p -> p_listeners p' = p_listeners p -> p_errChan p' = p_errChan p ->
  p_closed p' = p_closed p \/ p_phase p = InShutdown -> p_good p -> p_good p'.
Proof.
  intros Hr E1 E2 E3 E4 (Hl & Hf & _). unfold p_good, listening_sites. rewrite E1, E2, E3.
  split; [done|]. split; [|intros code err Hx; by destruct (running_not_exited p code err Hr)].
  intros Hw. destruct (Hf Hw) as [Hc Hf']. split; [|done]. destruct E4; congruence.
Qed.

Lemma prstep_good p p' : prstep p p' -> p_good p -> p_good p'.
Proof.
  intros Hs Hg. pose proof Hg as (Hl & Hf & He).
  destruct Hs as [p Hp|p Hp|p [err|] Hp Hc Hr|p i l Hp Hcl Hi Hsi Hc|p i l err Hp Hi Hne Hc|p err errs Hp Hc|
    p err Hp Hd Hne|p i l Hp Hi Hsi|p Hp Hr|p Hp Ho|p Hp Ho];
    try (by apply fatal_good); try (by apply (same_good p); auto).
  - split; [done|]. split; [done|]. done.
  - apply (same_good p); auto. by right.
  - split; [done|]. split; [done|]. cbn. intros code e [= <- <-]. by left.
  - split; cbn; [by intros [_ Hx]%app_eq_nil|]. split; [|exact He].
    intros Hw. destruct (Hf Hw). congruence.
  - split; cbn; [by intros [_ Hx]%app_eq_nil|]. split; [|exact He].
    intros Hw. destruct (Hf Hw) as [Hc' Hf']. split; [done|].
    apply Forall_app. split; [done|by repeat constructor].
Qed.

Lemma reachable_p_good p p' : rtc prstep p p' -> p_good p -> p_good p'.
Proof. induction 1; eauto using prstep_good. Qed.

(** The requests under way can all be answered. *)
Lemma answer_all p :
  p_phase p = InShutdown ->
  exists p', rtc prstep p p' /\ p_phase p' = InShutdown /\ p_closed p' = p_closed p /\ p_requests p' = 0 /\
    p_others p' = p_others p /\ p_served p' = p_served p + p_requests p.
Proof.
  remember (p_requests p) as n eqn:Hn. revert p Hn. induction n as [|n IH]; intros p Hn Hp.
  - exists p. split; [apply rtc_refl|]. by rewrite Nat.add_0_r.
  - destruct (IH (p_answer p)) as (p' & Hs & Hp' & Hc & Hr & Ho & Hv); [cbn; by rewrite <- Hn|done|].
    exists p'. split; [|do 4 (split; [done|])].
    + eapply rtc_l; [apply pr_answer; [by right|by rewrite <- Hn]|exact Hs].
    + rewrite Hv. cbn. lia.
Qed.

(** ** Properties *)

(** C31. How the process ends.  Before a signal it ends only with status 1 and the error
    of a listener that failed.  It ends with status 0 only after a signal, when every request
    of [internalServer] was answered, and from every state after the signal it can, whatever
    the ACME and the debug server are serving: those requests are not waited for.  But it need
    not: [Shutdown] makes [Serve] return [ErrServerClosed], which the goroutine of [main] takes
    for a failure, so that in every state after the signal, whatever requests are being
    served, the process can also end at once with status 1. *)
Theorem shutdown_can_be_cut_short f version p :
  rtc prstep (p_start f version) p ->
  (forall code err, p_phase p = Exited code err ->
     (code = 0%Z /\ err = None /\ p_requests p = 0) \/ (code = 1%Z /\ is_Some err)) /\
  (p_phase p = WaitForSignal -> forall p' code err, prstep p p' -> p_phase p' = Exited code err ->
     code = 1%Z /\ exists e, err = Some e /\ e <> ErrServerClosed) /\
  (p_phase p = InShutdown ->
     (exists p', rtc prstep p p' /\ p_phase p' = Exited 0 None /\
        p_served p' = p_served p + p_requests p /\ p_others p' = p_others p) /\
     (exists p' err, rtc prstep p p' /\ p_phase p' = Exited 1 (Some err) /\
        p_requests p' = p_requests p /\ p_served p' = p_served p /\
        (p_errChan p = [] -> err = ErrServerClosed))).
Proof.
  intros Hr. pose proof (reachable_p_good _ _ Hr (p_start_good f version)) as (Hl & Hf & He).
  split; [exact He|]. split.
  - intros Hw p' code err Hs Hx. destruct (Hf Hw) as [_ Hf'].
    destruct Hs as [p _|p _|p e Hp _ _|p i l _ _ _ _ _|p i l e _ _ _ _|p e errs _ Hc|p e _ _ Hne|p i l _ _ _|p _ _|p _ _|p _ _];
      cbn in Hx; try congruence.
    + injection Hx as <- <-. split; [done|]. exists e. split; [done|].
      rewrite Hc in Hf'. by apply Forall_cons in Hf' as [Hf' _].
    + injection Hx as <- <-. by eauto.
  - intros Hp. split.
    + destruct (answer_all (p_close p) Hp) as (p' & Hs & Hp' & Hc & Hz & Ho & Hv). exists (p_shutdown None p').
      split; [|by split]. eapply rtc_l; [by apply pr_close|].
      eapply rtc_r; [exact Hs|]. by apply pr_shutdown.
    + destruct (p_errChan p) as [|err errs] eqn:Ec.
      * destruct (Hl eq_refl) as (i & l & Hi & Hsi).
        exists (fatal ErrServerClosed (p_listener_returns i ErrServerClosed (p_close p))), ErrServerClosed.
        split; [|done]. eapply rtc_l; [by apply pr_close|].
        eapply rtc_l; [eapply pr_closed; [by right|done|exact Hi|done|cbn; rewrite Ec; unfold errChan_cap; simpl; lia]|].
        apply rtc_once. eapply (pr_serve_returns _ _ []); [by right|]. cbn. by rewrite Ec.
      * exists (fatal err p), err. split; [|done]. apply rtc_once.
        eapply (pr_serve_returns _ _ errs); [by right|done].
Qed.

(** ** Witness *)

Lemma shutdown_can_be_cut_short_witness :
  let p := p_signal (p_accept (p_start default_flags "1.0")) in
  p_requests p = 1 /\
  exists p' err, rtc prstep p p' /\ p_phase p' = Exited 1 (Some err) /\ p_requests p' = 1.
Proof.
  cbv zeta. split; [reflexivity|].
  destruct (shutdown_can_be_cut_short default_flags "1.0" (p_signal (p_accept (p_start default_flags "1.0"))))
    as (_ & _ & Hs).
  - eapply rtc_l; [apply (pr_accept _ 1 (":443", true, ServeSites)); [by left|reflexivity..]|].
    apply rtc_once. by apply pr_signal.
  - destruct (Hs eq_refl) as (_ & p' & err & Hr & Hp & Hq & _). by exists p', err.
Defined.
